(* ===== verification/_CoqProject ===== *)
-Q . S2P
Prelude.v
Text.v
Utf8.v
Resources.v
Quantity.v
Pool.v
Json.v
Proto.v
Dns.v
Netlink.v
Nft.v
NetMux.v
Config.v
Cri.v
SpecBuilder.v
Runtime.v
Process.v
Deployment.v
Service.v
Panics.v
Policy.v
Ingress.v
Storage.v
Registry.v
World.v
Reach.v
Query.v
Routes.v
Discovery.v
Api.v
Served.v
Objects.v
Views.v
Elf.v
Host.v
Volumes.v
Rootfs.v
Child.v
Exec.v
Watcher.v
Image.v
Startup.v
Streams.v
Addresses.v
Connect.v
Sockets.v
