(* ===== verification/Prelude.v ===== *)
(** * z8s: a verification development

    z8s is a single-node Kubernetes in one Rust process: an API server writes
    resources into an in-memory store, components turn them into running
    containers, addresses and packet filter rules, and a reconciler repeats this
    every two seconds. This library translates the parts of src/src/ that decide
    something into Rocq definitions, in the order in which they depend on each
    other, and proves what makes them correct.

    ** How the parts interact

    The store ([Resources]) maps uids to trackers. Requests reach it through the
    handlers of the API server ([Api]), files through the manifest watcher
    ([Watcher]). Each kind of resource has a component; the registry ([Registry])
    tells it what was applied and deleted, and asks it to reconcile. [World]
    instantiates the registry with the components of the program over the state they
    share: the cluster, the service proxies, the ingress routes, the claims.

    A pod goes through the process tracker ([Process]), which asks the spec builder
    ([SpecBuilder]) to turn it into a [ContainerSpec] and the supervisor ([Runtime]) to
    run that. The supervisor creates the cgroup and the processes ([Cri]), has the image
    pulled and unpacked ([Image]), and gets each container's address from the network
    engine ([NetMux]), which allocates it from a pool ([Pool]) and sends netlink
    messages ([Netlink]). A forked child puts volumes into its root ([Volumes]), enters
    the root ([Rootfs]), gives up its privileges and becomes the program ([Child]); its
    output reaches the log buffers through pipes ([Streams]). Commands are run in
    containers by [Exec].

    Deployments ([Deployment]) create and delete pods; services ([Service]) turn the
    pods a selector chooses into DNAT rules of the nftables engine ([Nft]); network
    policies ([Policy]) become its sets; ingresses ([Ingress]) become routes by host;
    claims ([Storage]) get volumes. The DNS server ([Dns]) answers from the store.

    Over time: [Startup.boot] starts the process and stores the first resources; then
    the program takes the steps [Reach.world_step], in any order; [Startup.shutdown]
    stops the pods at the end. Every API request is a sequence of these steps
    ([Served.requests_are_steps]), so what holds of reachable worlds holds whatever the
    clients ask for.

    ** Files and sources

    - Prelude: machine integers, results, panics and the monads of the
      development, maps in an arbitrary iteration order, byte strings.
    - Text, Utf8: the part of Rust's [str], [char], [Path], [FromStr] and [Ipv4Addr]
      that the sources use.
    - Resources: types.rs and netmux/crds.rs - [AnyResource], [ResourceStore] and its
      operations, [parse_manifest_yaml].
    - Quantity: types.rs - [parse_quantity_bytes], [parse_quantity_cpu].
    - Pool: netmux/pool.rs - [Ipv4Cidr], [IpPool].
    - Json, Proto: serde_json values; api/proto.rs - the wire parser and the decoders.
    - Dns: netmux/dns.rs - packets, names, resolution, [handle_query].
    - Netlink: netmux/netlink.rs - message builders, responses, request sequences.
    - Nft: netmux/nftables.rs - [NftEngine], one function per method.
    - NetMux: netmux/mod.rs - pools, attaching and detaching pods, VNets, NSGs.
    - Config: config.rs - [from_args], CIDR parsing, cluster addresses, and in [Globals] the
      cells of the process.
    - Cri: cri/spec.rs, cri/cgroup.rs, cri/oci.rs, cri/health.rs, and the plain files of
      cri/volumes.rs.
    - SpecBuilder: components/compute/spec_builder.rs - [build_spec].
    - Runtime: cri/runtime.rs - [ProcessSupervisor].
    - Process: scheduler/process.rs - [ProcessTracker], exited containers, restarts.
    - Deployment: components/compute/deployment.rs - [reconcile_impl].
    - Service: components/network/service.rs - [NetworkManager].
    - Panics: which of these operations can abort the process.
    - Policy: netmux/np_controller.rs, components/network/networkpolicy.rs.
    - Ingress: netmux/ingress.rs, components/network/ingress.rs.
    - Storage: components/storage/pv.rs and pvc.rs, storage/ - binding and provisioning.
    - Registry: components/mod.rs - dispatch and the stages of the pipeline.
    - World: scheduler/reconciler.rs and the other components - [tick], [pod_reconcile].
    - Reach: the steps of the running program and what they keep.
    - Query: the parts of api/server.rs and of the handlers that have no state - label
      selectors, merge patches, tables.
    - Routes, Discovery: the table of the API and the documents that describe it.
    - Api: api/server.rs and api/handlers/ - every handler and [handle].
    - Served, Objects, Views: theorems on [Api] - requests as steps, the life of an
      object, what lists and statuses show.
    - Elf: [read_elf_interpreter] of cri/rootfs.rs on the bytes of a file.
    - Host: the system calls of a container's set-up, as an interface, and their log.
    - Volumes, Rootfs: cri/volumes.rs, cri/rootfs.rs - what parent and child do to the
      root file system of a container.
    - Child: the child branches of cri/runtime.rs.
    - Exec: cri/exec.rs - requests and both kinds of session.
    - Watcher: manifest/watcher.rs - loading and reloading a directory.
    - Image: cri/image.rs - cache, layers, whiteouts, marks.
    - Startup: main.rs, init.rs and the start of netmux - [boot], signals, [shutdown].
    - Streams: the descriptors and log tasks of cri/runtime.rs.
    - Addresses: theorems on [Startup] and [Reach] - who holds which address.
    - Connect: theorems on [Addresses], [Service] and [Dns] - from a name to a container.
    - Sockets: the loop of netmux/dns.rs, the sockets of netmux/netlink.rs.

    ** How code is translated

    A Rust function is a Rocq function of the same name. An integer is the [Z] it
    denotes, with the wrap-around of its width written where it can occur (the
    release profile does not check overflow). A [String] is the [string] of its UTF-8
    bytes, a byte slice a list of [Z]. A [HashMap] is a [gmap], and where the code iterates
    over one, the order is that of the class [HashOrder], an arbitrary permutation;
    a theorem that does not mention the order holds for all of them. A [BTreeSet]
    is a strictly increasing list.

    State is passed explicitly. Fallible code returns [result]; code that can also
    panic returns [exec], since the release profile aborts on panic; [stateR] and
    [execR] combine these with a state that survives errors, as [?] leaves it. Locks
    are held for one operation of the owning object, or for the whole method, so
    the operations are the atomic steps, and properties of any interleaving are
    stated over sequences or closures of steps ([pool_step], [net_step], [sup_step],
    [world_step]). Concurrent tasks that share a channel or a buffer are step relations
    of their own: the session of an exec on pipes, the log tasks of a container, the DNS
    server with its tasks.

    What every step keeps is proved once per property: the class [Reach.ClusterRel] asks
    for a relation between clusters and one law per operation that the components use, and
    [Reach.steps_rel] lifts it to reachable worlds. Its instances are that the store is well
    formed ([keeps_wf_rel]) and that the addresses are accounted for
    ([keeps_addresses_rel]).

    What is outside src/ is a parameter: the file system ([FileSystem]), processes
    ([ContainerOS]), the calls of a child ([Syscalls]), commands of the storage
    provisioners ([StorageOS]), the registry client and the archive reader
    ([ImageCalls]), sockets and signals at the start ([StartCalls]), a netlink exchange
    ([transact], which [Sockets.nl_transact] implements over [SocketCalls]), the nftables
    kernel ([batch_send]), network namespaces ([open_netns], [set_netns]), the upstream DNS server ([exchange]), Unicode lower-casing
    ([UnicodeCase]), YAML and JSON parsing, and the typed decoders that serde derives
    ([ApiCodec]). They work on an abstract state [K] and can fail in every way, unless a
    theorem says otherwise; the examples use a file tree as [K].

    ** Groups of theorems

    - Store: any sequence of operations implements a map keyed by kind, namespace
      and name ([store_refines]); it is well formed in every reachable world
      ([reachable_store_wf]).
    - Addresses: the pool neither loses nor duplicates an address
      ([pool_conservation]) and so attached pods have distinct ones, whatever the kernel
      answers ([pods_have_distinct_ips]), and the running containers of every reachable world
      ([running_addresses_distinct]); CIDR parsing and membership; cluster addresses. With
      the rules of a service and the answers of the DNS server: its name leads to exactly
      the containers it selects ([service_leads_to_containers]).
    - Servers and sockets: the DNS server answers who asked ([dns_answers_who_asked]) the
      address of the service ([service_query_answered]); no netlink exchange leaves a
      descriptor open ([sockets_are_closed]); the configuration never changes after it was
      first read ([configuration_is_stable]).
    - Pods: what a start and a stop leave behind on every path ([start_pod_outcome],
      [stop_pod_outcome]), when the reconciler starts one ([pending_pods_start]), the
      specification of each container ([build_spec_containers]), its environment,
      command and volumes.
    - Containers: the calls a child makes, and in which root it starts its program
      ([child_events], [child_root_confined]); when a linker request aborts the process
      ([elf_aborts_iff]); what the supervisor reads of each container
      ([later_container_reads_output], [log_buffer_merges]).
    - Exec: which container a command reaches ([missing_pod_runs_on_host]), in which
      namespaces and root ([exec_place]), and that its streams arrive whole and in order
      ([pipes_deliver]).
    - Images: a mark means a complete unpacking ([mark_means_unpacked]); whiteouts stay
      below their directory and above their layer ([whiteouts_stay_below]).
    - Restarts: which containers leave the map and what the restart policy then
      does ([dead_container_comes_back], [handle_dead_outcome], [backoff_delay_spec]).
    - Controllers: the number of pods of a deployment ([reconcile_scales_up],
      [reconcile_scales_down]), the back ends of a service ([sync_service_routes]), the
      verdicts of an NSG ([apply_nsg_enforces]) and of a network policy
      ([network_policy_effect]), the backend of an ingress ([ingress_routes_request]),
      the volume of a claim ([pvc_on_apply_binds], [failed_provisioning_keeps_store]).
    - API: requests are steps of the program ([requests_are_steps]), a request that fails
      changes nothing but the kernel ([failed_requests_change_nothing]), a namespace takes
      its objects with it ([namespace_takes_its_objects]), merge patches are those of
      RFC 7386 exactly where objects meet objects or nothing ([merge_patch_rfc_iff]).
    - Manifests: what is in the store after loading a directory
      ([load_existing_loads]) and that its search ends ([collect_terminates]).
    - Start and end: what a successful start has stored ([boot_ready]), on what it fails
      ([boot_refuses]), how process 1 takes exits away from the supervisor
      ([init_hides_exits]), what the end stops ([shutdown_stops_pods]).
    - Wire formats: netlink messages parse back ([add_route_message_parses]) and no
      builder leaves its buffer; DNS names and queries round-trip; protobuf fields
      are found; saved image configurations are read back.
    - Totality: every operation of the supervisor and the deployment controller
      returns, as long as the kernel gives no truncated interface description
      ([operations_return]); the loop over protobuf fields ends.
    - What the code gets wrong, as theorems about it: [image_failure_then_running],
      [start_shadowed], [release_ip_both_pools], [add_dnat_keeps_stale_rules],
      [negative_replicas], [next_field_panic], [policy_sets_stay_empty],
      [missing_pod_runs_on_host], [later_container_reads_output], [init_hides_exits] and
      others.

    ** Fuel

    Recursion is structural wherever the code allows it. Fuel appears in the loop
    over protobuf fields (one unit per byte of the message; [while_fields_fuel]: more
    changes nothing), in reading a DNS name (at most 50 labels, the code's own
    limit), in the deployment's creation loop (the number of missing pods, after
    which its condition is false), in decoding the percent signs of an exec request (one
    unit per byte of the text), and in copying directory trees ([copy_tree],
    [copy_dir]: 4096 levels, which no path of Linux reaches). The search of the manifest
    directory has its fuel as an argument, because the code follows links and nothing in
    it bounds how deep directories nest: [collect_terminates] gives the fuel that is
    enough for a tree, and a program out of fuel does not return.

    ** What is not modelled

    The transport below the handlers: HTTP and WebSocket framing (axum), the socket loop of
    the ingress proxy. The attributes of a terminal and the dispositions of signals in an
    exec session. Logging, except where it is the only trace of an error. The configuration
    is an argument of the definitions that read it, not a read of the cells. The patched
    library under src/.cargo-patches, which is third-party code, and src/retired, which no
    target builds. *)
From stdpp Require Export base list gmap strings pretty sorting.
From Stdlib Require Export ZArith Lia Ascii.

#[global] Set Default Proof Using "Type".
Open Scope Z_scope.

(** ** Notations of the development *)
Declare Scope z8s_scope.
Delimit Scope z8s_scope with z8s.
Open Scope z8s_scope.

#[global] Arguments String.append !_ _ / : simpl nomatch.

(** The UTF-8 bytes of Rust strings are kept in [string]; a [&[u8]] is a list
    of 8-bit integers. *)
Abbreviation byte := Z (only parsing).
Abbreviation bytes := (list Z) (only parsing).

(** ** Machine integers *)

(** A [w]-bit unsigned integer is the [Z] it denotes; every operation that can
    leave the range writes its wrap-around, as the release profile does. *)
Definition wrap (w z : Z) : Z := z `mod` 2 ^ w.
Definition u8 (z : Z) : Z := wrap 8 z.
Definition u16 (z : Z) : Z := wrap 16 z.
Definition u32 (z : Z) : Z := wrap 32 z.
Definition u64 (z : Z) : Z := wrap 64 z.
Definition usize (z : Z) : Z := wrap 64 z.

(** Two's complement reading of the low [w] bits. *)
Definition swrap (w z : Z) : Z := (z + 2 ^ (w - 1)) `mod` 2 ^ w - 2 ^ (w - 1).
Definition i32 (z : Z) : Z := swrap 32 z.
Definition i64 (z : Z) : Z := swrap 64 z.

(** [x << n] on [u32]: without overflow checks the shift amount is masked. *)
Definition shl32 (x n : Z) : Z := u32 (Z.shiftl x (n `mod` 32)).

Lemma wrap_range w z : 0 ≤ w → 0 ≤ wrap w z < 2 ^ w.
Proof. intros Hw. apply Z.mod_pos_bound. by apply Z.pow_pos_nonneg. Qed.

Lemma wrap_small w z : 0 ≤ z < 2 ^ w → wrap w z = z.
Proof. apply Z.mod_small. Qed.

Lemma u8_small z : 0 ≤ z < 256 → u8 z = z.
Proof. apply (wrap_small 8). Qed.

Lemma u16_small z : 0 ≤ z < 65536 → u16 z = z.
Proof. apply (wrap_small 16). Qed.

Lemma u32_small z : 0 ≤ z < 4294967296 → u32 z = z.
Proof. apply (wrap_small 32). Qed.

Lemma u64_small z : 0 ≤ z < 18446744073709551616 → u64 z = z.
Proof. apply (wrap_small 64). Qed.

Lemma usize_small z : 0 ≤ z < 18446744073709551616 → usize z = z.
Proof. apply (wrap_small 64). Qed.

Lemma swrap_small w z : 0 < w → - 2 ^ (w - 1) ≤ z < 2 ^ (w - 1) → swrap w z = z.
Proof.
  intros Hw Hz. unfold swrap.
  assert (2 ^ w = 2 * 2 ^ (w - 1)) as Hp.
  { rewrite <- Z.pow_succ_r by lia. f_equal. lia. }
  rewrite Z.mod_small by lia. lia.
Qed.

(** [2 ^ n - 1] as a mask. *)
Lemma land_ones_mod x n : 0 ≤ n → Z.land x (2 ^ n - 1) = x `mod` 2 ^ n.
Proof.
  intros Hn. rewrite <- Z.land_ones by done. f_equal. rewrite Z.ones_equiv. lia.
Qed.

(** ** Results and panics *)

(** [anyhow::Result]: the message is the text of the outermost error. *)
Inductive result (A : Type) : Type :=
  | Ok (a : A)
  | Err (msg : string).
#[global] Arguments Ok {A} a.
#[global] Arguments Err {A} msg.

(** A call returns or aborts the process (the release profile compiles
    [panic = "abort"]). *)
Inductive exec (A : Type) : Type :=
  | Ret (a : A)
  | Panic.
#[global] Arguments Ret {A} a.
#[global] Arguments Panic {A}.

#[export] Instance result_eq_dec `{EqDecision A} : EqDecision (result A).
Proof. solve_decision. Defined.
#[export] Instance exec_eq_dec `{EqDecision A} : EqDecision (exec A).
Proof. solve_decision. Defined.

#[export] Instance result_ret : MRet result := @Ok.
#[export] Instance result_bind : MBind result :=
  λ A B f m, match m with Ok a => f a | Err e => Err e end.
#[export] Instance result_fmap : FMap result :=
  λ A B f m, match m with Ok a => Ok (f a) | Err e => Err e end.
#[export] Instance exec_ret : MRet exec := @Ret.
#[export] Instance exec_bind : MBind exec :=
  λ A B f m, match m with Ret a => f a | Panic => Panic end.

#[export] Instance exec_fmap : FMap exec :=
  λ A B f m, match m with Ret a => Ret (f a) | Panic => Panic end.

(** [opt.context(msg)?] *)
Definition ok_or {A} (o : option A) (msg : string) : result A :=
  match o with Some a => Ok a | None => Err msg end.

Definition is_ok {A} (r : result A) : bool :=
  match r with Ok _ => true | Err _ => false end.

(** [o.unwrap_or(d)] and [o.is_some()] *)
Definition unwrap_or {A} (o : option A) (d : A) : A :=
  match o with Some a => a | None => d end.

Definition is_some {A} (o : option A) : bool :=
  match o with Some _ => true | None => false end.

(** [o.or(p)] *)
Definition or_opt {A} (o p : option A) : option A :=
  match o with Some _ => o | None => p end.

Lemma is_some_true {A} (o : option A) : is_some o = true ↔ is_Some o.
Proof.
  destruct o; cbn; split; eauto; [intros H; discriminate H|].
  intros [? H]. discriminate H.
Qed.

(** Stateful code that can fail: the state survives an error. *)
Definition stateR (S A : Type) : Type := S → result A * S.
#[export] Instance stateR_ret {S} : MRet (stateR S) := λ A a s, (Ok a, s).
#[export] Instance stateR_bind {S} : MBind (stateR S) := λ A B f m s,
  match m s with (Ok a, s') => f a s' | (Err e, s') => (Err e, s') end.
#[export] Instance stateR_fmap {S} : FMap (stateR S) := λ A B f m s,
  match m s with (Ok a, s') => (Ok (f a), s') | (Err e, s') => (Err e, s') end.

(** A result of pure code inside stateful code ([?] on it). *)
Definition lift_result {S A} (r : result A) : stateR S A := λ s, (r, s).
Definition sr_get {S} : stateR S S := λ s, (Ok s, s).
Definition sr_put {S} (s : S) : stateR S unit := λ _, (Ok (), s).
Definition sr_modify {S} (f : S → S) : stateR S unit := λ s, (Ok (), f s).
(** The outcome as a value: [if let Err(e) = m { .. }]. *)
Definition sr_try {S A} (m : stateR S A) : stateR S (result A) :=
  λ s, let '(r, s') := m s in (Ok r, s').

(** [for x in l { f(x)?; }] *)
Fixpoint for_each {S A} (f : A → stateR S unit) (l : list A) : stateR S unit :=
  match l with
  | [] => mret ()
  | x :: l' => f x ≫= λ _, for_each f l'
  end.

(** A computation keeps a property of the state, whether it succeeds or not. *)
Definition sr_keeps {S A} (P : S → Prop) (m : stateR S A) : Prop := ∀ s, P s → P (m s).2.

Section keeps.
Context {S : Type} (P : S → Prop).

Lemma sr_keeps_ret {A} (x : A) : sr_keeps P (mret x : stateR S A).
Proof. by intros s H. Qed.
Lemma sr_keeps_bind {A B} (m : stateR S A) (f : A → stateR S B) :
  sr_keeps P m → (∀ x, sr_keeps P (f x)) → sr_keeps P (m ≫= f).
Proof.
  intros Hm Hf s Hs. unfold mbind, stateR_bind. specialize (Hm s Hs).
  destruct (m s) as [[x|e] s']; [by apply Hf|done].
Qed.
Lemma sr_keeps_for_each {A} (f : A → stateR S unit) l :
  (∀ x, sr_keeps P (f x)) → sr_keeps P (for_each f l).
Proof.
  intros Hf. induction l as [|x l IH]; [apply sr_keeps_ret|]. by apply sr_keeps_bind.
Qed.
Lemma sr_keeps_lift {A} (r : result A) : sr_keeps P (lift_result r).
Proof. by intros s H. Qed.
Lemma sr_keeps_get : sr_keeps P sr_get.
Proof. by intros s H. Qed.
Lemma sr_keeps_modify (f : S → S) : (∀ s, P s → P (f s)) → sr_keeps P (sr_modify f).
Proof. intros Hf s H. by apply Hf. Qed.
Lemma sr_keeps_try {A} (m : stateR S A) : sr_keeps P m → sr_keeps P (sr_try m).
Proof. intros Hm s H. unfold sr_try. specialize (Hm s H). by destruct (m s). Qed.
End keeps.

Create HintDb keeps.
#[export] Hint Resolve sr_keeps_ret sr_keeps_lift sr_keeps_get sr_keeps_try : keeps.

(** The same when the code can also panic. *)
Definition execR (S A : Type) : Type := S → exec (result A * S).
#[export] Instance execR_ret {S} : MRet (execR S) := λ A a s, Ret (Ok a, s).
#[export] Instance execR_bind {S} : MBind (execR S) := λ A B f m s,
  match m s with
  | Panic => Panic
  | Ret (Ok a, s') => f a s'
  | Ret (Err e, s') => Ret (Err e, s')
  end.
Definition x_get {S} : execR S S := λ s, Ret (Ok s, s).
Definition x_modify {S} (f : S → S) : execR S unit := λ s, Ret (Ok (), f s).
Definition x_fail {S A} (msg : string) : execR S A := λ s, Ret (Err msg, s).
Definition x_try {S A} (m : execR S A) : execR S (result A) := λ s,
  match m s with Panic => Panic | Ret (r, s') => Ret (Ok r, s') end.
(** [m.context(msg)?] *)
Definition x_context {S A} (msg : string) (m : execR S A) : execR S A := λ s,
  match m s with Ret (Err _, s') => Ret (Err msg, s') | o => o end.

Lemma for_each_app {S A} (f : A → stateR S unit) l1 l2 s :
  for_each f (l1 ++ l2) s = (for_each f l1 ≫= λ _, for_each f l2) s.
Proof.
  revert s. induction l1 as [|x l1 IH]; intros s; [done|]. cbn.
  unfold mbind, stateR_bind in *. destruct (f x s) as [[|] s']; [apply IH|done].
Qed.

Lemma x_bind_Ret {S A B} (m : execR S A) (f : A → execR S B) s r s' :
  (m ≫= f) s = Ret (r, s') →
  (∃ e, m s = Ret (Err e, s') ∧ r = Err e)
  ∨ ∃ a s1, m s = Ret (Ok a, s1) ∧ f a s1 = Ret (r, s').
Proof.
  unfold mbind, execR_bind. destruct (m s) as [[[a|e] s1]|]; [|intros [= <- <-]|done]; eauto 6.
Qed.

(** A computation keeps a relation between its states and yields values with a
    property. *)
Definition x_triple {S A} (R : S → S → Prop) (m : execR S A) (P : A → Prop) : Prop :=
  ∀ s r s', m s = Ret (r, s') → R s s' ∧ ∀ a, r = Ok a → P a.

Section triple.
Context {S : Type} (R : S → S → Prop) `{!PreOrder R}.

Lemma xt_bind {A B} (m : execR S A) (f : A → execR S B) Q P :
  x_triple R m Q → (∀ a, Q a → x_triple R (f a) P) → x_triple R (m ≫= f) P.
Proof using Type*.
  intros Hm Hf s r s' [(e & Hs & ->)|(a & s1 & Hs & H)]%x_bind_Ret.
  - destruct (Hm _ _ _ Hs) as [HR _]. by split.
  - destruct (Hm _ _ _ Hs) as [HR HQ]. destruct (Hf a (HQ a eq_refl) _ _ _ H) as [HR' HP].
    split; [by etrans|done].
Qed.

(** The value of the first computation does not matter. *)
Lemma xt_seq {A B} (m : execR S A) (f : A → execR S B) P :
  x_triple R m (λ _, True) → (∀ a, x_triple R (f a) P) → x_triple R (m ≫= f) P.
Proof using Type*. intros Hm Hf. apply (xt_bind m f (λ _, True)); auto. Qed.

Lemma xt_ret {A} (a : A) (P : A → Prop) : P a → x_triple R (mret a) P.
Proof using Type*. intros HP s r s' [= <- <-]. split; [done|]. by intros ? [= <-]. Qed.

Lemma xt_fail {A} msg (P : A → Prop) : x_triple R (x_fail msg) P.
Proof using Type*. intros s r s' [= <- <-]. by split. Qed.

Lemma xt_get : x_triple R x_get (λ _, True).
Proof using Type*. intros s r s' [= <- <-]. by split. Qed.

Lemma xt_try {A} (m : execR S A) P : x_triple R m P → x_triple R (x_try m) (λ _, True).
Proof using Type*.
  intros Hm s r s'. unfold x_try. destruct (m s) as [[r0 s0]|] eqn:E; [|done].
  intros [= <- <-]. by destruct (Hm _ _ _ E).
Qed.

Lemma xt_context {A} msg (m : execR S A) P : x_triple R m P → x_triple R (x_context msg m) P.
Proof using Type*.
  intros Hm s r s'. unfold x_context. destruct (m s) as [[[a|e] s0]|] eqn:E; [|..|done];
    intros [= <- <-]; destruct (Hm _ _ _ E); by split.
Qed.
End triple.

(** ** Map iteration *)

(** The order in which a [HashMap] is iterated is not specified: a proof holds
    for every order, given as a permutation of the entries. *)
Class HashOrder := {
  hash_iter : ∀ {A : Type}, gmap string A → list (string * A);
  hash_iter_perm : ∀ {A : Type} (m : gmap string A), hash_iter m ≡ₚ map_to_list m
}.

(** One such order, for executing the definitions. *)
#[export] Instance hash_order_default : HashOrder | 100 := {
  hash_iter A m := map_to_list m;
  hash_iter_perm A m := Permutation_refl _
}.

(** A [BTreeMap] with string keys is iterated in the byte order of the keys. *)
Definition key_le {A} (p q : string * A) : Prop := String.leb p.1 q.1 = true.

#[export] Instance key_le_dec {A} : RelDecision (@key_le A) :=
  λ p q, decide (String.leb p.1 q.1 = true).

Definition btree_iter {A} (m : gmap string A) : list (string * A) :=
  merge_sort key_le (map_to_list m).

Lemma btree_iter_perm {A} (m : gmap string A) : btree_iter m ≡ₚ map_to_list m.
Proof. apply merge_sort_Permutation. Qed.

Lemma elem_of_btree_iter {A} (m : gmap string A) k v :
  (k, v) ∈ btree_iter m ↔ m !! k = Some v.
Proof. rewrite btree_iter_perm. apply elem_of_map_to_list. Qed.

Section hash_iter.
Context `{HO : HashOrder}.

Lemma elem_of_hash_iter {A} (m : gmap string A) k v :
  (k, v) ∈ hash_iter m ↔ m !! k = Some v.
Proof. rewrite hash_iter_perm. apply elem_of_map_to_list. Qed.

Definition hash_keys {A} (m : gmap string A) : list string := (hash_iter m).*1.
Definition hash_values {A} (m : gmap string A) : list A := (hash_iter m).*2.

Lemma elem_of_hash_values {A} (m : gmap string A) v :
  v ∈ hash_values m ↔ ∃ k, m !! k = Some v.
Proof.
  unfold hash_values. rewrite list_elem_of_fmap. split.
  - intros [[k v'] [-> H]]. exists k. by apply elem_of_hash_iter.
  - intros [k H]. exists (k, v). split; [done|]. by apply elem_of_hash_iter.
Qed.

Lemma elem_of_hash_keys {A} (m : gmap string A) k :
  k ∈ hash_keys m ↔ is_Some (m !! k).
Proof.
  unfold hash_keys. rewrite list_elem_of_fmap. split.
  - intros [[k' v] [-> H]]. exists v. by apply elem_of_hash_iter.
  - intros [v H]. exists (k, v). split; [done|]. by apply elem_of_hash_iter.
Qed.
End hash_iter.

(** A map collected from an iterator: a later entry replaces an earlier one. *)
Definition collect {A B} `{Countable A} (l : list (A * B)) : gmap A B :=
  foldl (λ m kv, <[kv.1 := kv.2]> m) ∅ l.

Section fold_maps.
Context {A B : Type} `{Countable A}.
Implicit Types (m : gmap A B) (l : list (A * B)).

Lemma fold_insert_other m l k :
  k ∉ l.*1 → foldl (λ r p, <[p.1 := p.2]> r) m l !! k = m !! k.
Proof using Type*.
  revert m. induction l as [|p l IH]; intros m Hk; cbn in *; [done|].
  apply not_elem_of_cons in Hk as [Hp Hk]. rewrite IH by done. by rewrite lookup_insert_ne.
Qed.

Lemma fold_insert_elem m l k :
  k ∈ l.*1 → ∃ v, (k, v) ∈ l ∧ foldl (λ r p, <[p.1 := p.2]> r) m l !! k = Some v.
Proof using Type*.
  revert m. induction l as [|[k' v] l IH]; intros m Hk; cbn in *; [by apply not_elem_of_nil in Hk|].
  destruct (decide (k ∈ l.*1)) as [Hl|Hl].
  - destruct (IH (<[k' := v]> m) Hl) as (v' & Hin & Hv). exists v'. split; [by right|done].
  - apply elem_of_cons in Hk as [->|Hk]; [|done]. exists v. split; [left|].
    rewrite fold_insert_other by done. apply lookup_insert_eq.
Qed.

Lemma fold_delete m (ks : list A) k :
  foldl (λ r c, delete c r) m ks !! k = if bool_decide (k ∈ ks) then None else m !! k.
Proof using Type*.
  revert m. induction ks as [|c ks IH]; intros m; cbn; [done|]. rewrite IH, lookup_delete.
  repeat case_bool_decide; repeat case_decide; set_solver.
Qed.
End fold_maps.

(** ** Lists *)

(** [v.iter().find_map(f)] *)
Fixpoint find_map {A B} (f : A → option B) (l : list A) : option B :=
  match l with
  | [] => None
  | x :: l' => match f x with Some y => Some y | None => find_map f l' end
  end.

(** [v.iter().find(p)] *)
Definition find_first {A} (p : A → bool) (l : list A) : option A :=
  find_map (λ x, if p x then Some x else None) l.

Lemma find_map_Some {A B} (f : A → option B) l y :
  find_map f l = Some y → ∃ x, x ∈ l ∧ f x = Some y.
Proof.
  induction l as [|x l IH]; cbn; [done|]. destruct (f x) eqn:E.
  - intros [= ->]. exists x. split; [left|done].
  - intros H. destruct (IH H) as (x' & Hx & Hf). exists x'. split; [by right|done].
Qed.

Lemma find_map_None {A B} (f : A → option B) l :
  find_map f l = None ↔ ∀ x, x ∈ l → f x = None.
Proof.
  induction l as [|x l IH]; cbn.
  - split; [intros _ x Hx; inversion Hx|done].
  - destruct (f x) eqn:E.
    + split; [done|]. intros H. specialize (H x (list_elem_of_here _ _)). congruence.
    + rewrite IH. split.
      * intros H x' Hx'. apply elem_of_cons in Hx' as [->|Hx']; auto.
      * intros H x' Hx'. apply H. by right.
Qed.

Lemma find_first_Some {A} (p : A → bool) l x :
  find_first p l = Some x → x ∈ l ∧ p x = true.
Proof.
  intros (x' & Hx & Hf)%find_map_Some. destruct (p x') eqn:E; [|done].
  by simplify_eq.
Qed.

Lemma find_first_None {A} (p : A → bool) l :
  find_first p l = None ↔ ∀ x, x ∈ l → p x = false.
Proof.
  unfold find_first. rewrite find_map_None. split.
  - intros H x Hx. specialize (H x Hx). by destruct (p x).
  - intros H x Hx. by rewrite (H x Hx).
Qed.

Lemma find_first_is_Some {A} (p : A → bool) l x :
  x ∈ l → p x = true → is_Some (find_first p l).
Proof.
  intros Hx Hp. destruct (find_first p l) eqn:E; [by eexists|].
  rewrite find_first_None in E. specialize (E x Hx). congruence.
Qed.

(** Reading [n] bytes at [off]. *)
Definition slice {A} (off n : nat) (l : list A) : list A := take n (drop off l).

(** [buf[off..off+src.len()].copy_from_slice(src)]: panics out of range. *)
Definition copy_at {A} (off : nat) (src buf : list A) : exec (list A) :=
  if bool_decide (off + length src ≤ length buf)%nat
  then Ret (take off buf ++ src ++ drop (off + length src) buf)
  else Panic.

(** Iterated writes at consecutive offsets. *)
Lemma copy_at_app {A} (done src rest pad : list A) :
  length pad = length src →
  copy_at (length done) src (done ++ pad ++ rest) = Ret ((done ++ src) ++ rest).
Proof.
  intros Hl. unfold copy_at. rewrite bool_decide_true.
  2: { rewrite !length_app. lia. }
  f_equal. rewrite take_app_length, <- app_assoc. f_equal. f_equal.
  rewrite app_assoc, drop_app_length'; [done|]. rewrite length_app. lia.
Qed.

(** ** Bytes *)

Definition bytes_ok (l : bytes) : Prop := Forall (λ b, 0 ≤ b < 256) l.

(** [n.to_be_bytes()] and [n.to_ne_bytes()] (the supported targets are
    little-endian). *)
Definition be16 (z : Z) : bytes := [u8 (Z.shiftr z 8); u8 z].
Definition be32 (z : Z) : bytes :=
  [u8 (Z.shiftr z 24); u8 (Z.shiftr z 16); u8 (Z.shiftr z 8); u8 z].
Definition ne16 (z : Z) : bytes := [u8 z; u8 (Z.shiftr z 8)].
Definition ne32 (z : Z) : bytes :=
  [u8 z; u8 (Z.shiftr z 8); u8 (Z.shiftr z 16); u8 (Z.shiftr z 24)].

(** [u16::from_be_bytes] and the native-endian readers. *)
Definition from_be16 (a b : byte) : Z := 256 * a + b.
Definition from_be32 (a b c d : byte) : Z := 16777216 * a + 65536 * b + 256 * c + d.
Definition from_ne16 (a b : byte) : Z := from_be16 b a.
Definition from_ne32 (a b c d : byte) : Z := from_be32 d c b a.

(** ** Automation *)

Create HintDb z8s.
Create Rewrite HintDb z8s_len.
#[export] Hint Rewrite @length_app @length_cons @length_nil @length_take @length_drop
  @length_replicate @length_fmap : z8s_len.

(** Lengths of concatenations, then linear arithmetic. *)
Ltac len := rewrite ?length_app, ?length_cons, ?length_replicate, ?length_take,
  ?length_drop, ?length_nil in *; cbn [length] in *; lia.

(** Case analysis on the scrutinee of a [match] or [if] of the goal. *)
Ltac case_match_eq :=
  match goal with
  | |- context [match ?x with _ => _ end] => let E := fresh "E" in destruct x eqn:E
  end.

(** Booleans of the code to propositions. *)
Ltac to_prop :=
  repeat match goal with
  | H : _ && _ = true |- _ => apply andb_true_iff in H as [? ?]
  | H : _ || _ = false |- _ => apply orb_false_iff in H as [? ?]
  | H : negb _ = true |- _ => apply negb_true_iff in H
  | H : negb _ = false |- _ => apply negb_false_iff in H
  | H : bool_decide _ = true |- _ => apply bool_decide_eq_true in H
  | H : bool_decide _ = false |- _ => apply bool_decide_eq_false in H
  | H : (_ =? _)%Z = true |- _ => apply Z.eqb_eq in H
  | H : (_ =? _)%Z = false |- _ => apply Z.eqb_neq in H
  | H : (_ <? _)%Z = true |- _ => apply Z.ltb_lt in H
  | H : (_ <? _)%Z = false |- _ => apply Z.ltb_ge in H
  | H : (_ <=? _)%Z = true |- _ => apply Z.leb_le in H
  | H : (_ <=? _)%Z = false |- _ => apply Z.leb_gt in H
  end.

Lemma length_be16 z : length (be16 z) = 2%nat.
Proof. done. Qed.
Lemma length_be32 z : length (be32 z) = 4%nat.
Proof. done. Qed.
Lemma length_ne16 z : length (ne16 z) = 2%nat.
Proof. done. Qed.
Lemma length_ne32 z : length (ne32 z) = 4%nat.
Proof. done. Qed.
#[export] Hint Rewrite length_be16 length_be32 length_ne16 length_ne32 : z8s_len.

Lemma from_be16_be16 z :
  0 ≤ z < 65536 → from_be16 (u8 (Z.shiftr z 8)) (u8 z) = z.
Proof.
  intros Hz. unfold from_be16, u8, wrap. rewrite Z.shiftr_div_pow2 by lia.
  change (2 ^ 8) with 256.
  rewrite (Z.mod_small (z / 256)); [|split; [apply Z.div_pos|apply Z.div_lt_upper_bound]; lia].
  pose proof (Z.div_mod z 256). lia.
Qed.

Lemma from_ne16_ne16 z :
  0 ≤ z < 65536 → from_ne16 (u8 z) (u8 (Z.shiftr z 8)) = z.
Proof. apply from_be16_be16. Qed.

Lemma from_be32_be32 z :
  0 ≤ z < 4294967296 →
  from_be32 (u8 (Z.shiftr z 24)) (u8 (Z.shiftr z 16)) (u8 (Z.shiftr z 8)) (u8 z) = z.
Proof.
  intros Hz. unfold from_be32, u8, wrap. rewrite !Z.shiftr_div_pow2 by lia.
  change (2 ^ 8) with 256. change (2 ^ 16) with (256 * 256).
  change (2 ^ 24) with (256 * (256 * 256)).
  rewrite <- !Z.div_div by lia.
  pose proof (Z.div_mod z 256). pose proof (Z.div_mod (z / 256) 256).
  pose proof (Z.div_mod (z / 256 / 256) 256).
  rewrite (Z.mod_small (z / 256 / 256 / 256)); [lia|].
  split; [repeat apply Z.div_pos; lia|]. repeat apply Z.div_lt_upper_bound; lia.
Qed.

Lemma from_ne32_ne32 z :
  0 ≤ z < 4294967296 →
  from_ne32 (u8 z) (u8 (Z.shiftr z 8)) (u8 (Z.shiftr z 16)) (u8 (Z.shiftr z 24)) = z.
Proof. apply from_be32_be32. Qed.
