(* ===== verification/Text.v ===== *)
(** * Text: the string and number operations of the Rust standard library

    The part of [str], [String], [char], integer [FromStr]/[Display] and
    [Ipv4Addr] that the sources use, as executable functions on [string], which
    holds the UTF-8 bytes of a Rust string. *)
From S2P Require Import Prelude.

(** ** Bytes of a string *)

Definition byte_of_ascii (a : ascii) : byte := Z.of_N (N_of_ascii a).
Definition ascii_of_byte (b : byte) : ascii := ascii_of_N (Z.to_N b).

Fixpoint as_bytes (s : string) : bytes :=
  match s with
  | EmptyString => []
  | String a s' => byte_of_ascii a :: as_bytes s'
  end.

Fixpoint of_bytes (l : bytes) : string :=
  match l with
  | [] => EmptyString
  | b :: l' => String (ascii_of_byte b) (of_bytes l')
  end.

Fixpoint chars (s : string) : list ascii :=
  match s with EmptyString => [] | String a s' => a :: chars s' end.

Fixpoint of_chars (l : list ascii) : string :=
  match l with [] => EmptyString | a :: l' => String a (of_chars l') end.

Lemma byte_of_ascii_range a : 0 ≤ byte_of_ascii a < 256.
Proof.
  unfold byte_of_ascii. pose proof (N_ascii_bounded a). lia.
Qed.

Lemma ascii_of_byte_of_ascii a : ascii_of_byte (byte_of_ascii a) = a.
Proof.
  unfold ascii_of_byte, byte_of_ascii. rewrite N2Z.id. apply ascii_N_embedding.
Qed.

Lemma byte_of_ascii_of_byte b : 0 ≤ b < 256 → byte_of_ascii (ascii_of_byte b) = b.
Proof.
  intros Hb. unfold ascii_of_byte, byte_of_ascii.
  rewrite N_ascii_embedding by lia. lia.
Qed.

Lemma of_as_bytes s : of_bytes (as_bytes s) = s.
Proof. induction s as [|a s IH]; cbn; [done|]. by rewrite ascii_of_byte_of_ascii, IH. Qed.

Lemma as_bytes_ok s : bytes_ok (as_bytes s).
Proof. induction s; cbn; constructor; auto using byte_of_ascii_range. Qed.

Lemma as_of_bytes l : bytes_ok l → as_bytes (of_bytes l) = l.
Proof.
  induction 1 as [|b l Hb Hl IH]; cbn; [done|].
  by rewrite byte_of_ascii_of_byte, IH.
Qed.

Lemma length_as_bytes s : length (as_bytes s) = String.length s.
Proof. induction s; cbn; auto. Qed.

Lemma as_bytes_app s t : as_bytes (s +:+ t) = as_bytes s ++ as_bytes t.
Proof. induction s as [|a s IH]; [done|]. cbn. by rewrite IH. Qed.

Lemma as_bytes_inj s t : as_bytes s = as_bytes t → s = t.
Proof. intros H. by rewrite <- (of_as_bytes s), H, of_as_bytes. Qed.

Lemma of_chars_chars s : of_chars (chars s) = s.
Proof. induction s; cbn; f_equal; auto. Qed.

Lemma chars_of_chars l : chars (of_chars l) = l.
Proof. induction l; cbn; f_equal; auto. Qed.

Lemma chars_app s t : chars (s +:+ t) = chars s ++ chars t.
Proof. induction s as [|a s IH]; [done|]. cbn. by rewrite IH. Qed.

Lemma string_app_assoc (s t u : string) : (s +:+ t) +:+ u = s +:+ (t +:+ u).
Proof. induction s; cbn; f_equal; auto. Qed.

Lemma string_app_nil_r (s : string) : s +:+ "" = s.
Proof. induction s; cbn; f_equal; auto. Qed.

Lemma string_app_inj_l (s t u : string) : s +:+ t = s +:+ u → t = u.
Proof. induction s; cbn; [done|]. intros [= H]; auto. Qed.

(** ** Prefixes, suffixes, searching *)

(** [s.strip_prefix(p)] *)
Fixpoint strip_prefix (p s : string) : option string :=
  match p, s with
  | EmptyString, _ => Some s
  | String a p', String b s' => if Ascii.eqb a b then strip_prefix p' s' else None
  | String _ _, EmptyString => None
  end.

(** [s.starts_with(p)] *)
Definition starts_with (p s : string) : bool := is_some (strip_prefix p s).

Definition srev (s : string) : string := of_chars (reverse (chars s)).

(** [s.strip_suffix(p)] *)
Definition strip_suffix (p s : string) : option string :=
  match strip_prefix (srev p) (srev s) with
  | Some r => Some (srev r)
  | None => None
  end.

(** [s.contains(p)] *)
Fixpoint contains (p s : string) : bool :=
  starts_with p s ||
  match s with EmptyString => false | String _ s' => contains p s' end.

Lemma strip_prefix_Some p s r : strip_prefix p s = Some r ↔ s = p +:+ r.
Proof.
  revert s. induction p as [|a p IH]; intros s; cbn.
  - split; congruence.
  - destruct s as [|b s]; [split; discriminate|].
    destruct (Ascii.eqb_spec a b) as [->|Hab].
    + rewrite IH. split; [intros ->; done|]. by intros [= ->].
    + split; [discriminate|]. intros [= ->]. done.
Qed.

Lemma starts_with_spec p s : starts_with p s = true ↔ ∃ r, s = p +:+ r.
Proof.
  unfold starts_with. rewrite is_some_true. split; intros [r Hr]; exists r;
    by apply strip_prefix_Some.
Qed.

Lemma starts_with_app p r : starts_with p (p +:+ r) = true.
Proof. apply starts_with_spec. by eexists. Qed.

Lemma starts_with_app_3 p q r : starts_with (p +:+ q) (p +:+ q +:+ r) = true.
Proof. rewrite <- string_app_assoc. apply starts_with_app. Qed.

Lemma srev_app s t : srev (s +:+ t) = srev t +:+ srev s.
Proof.
  unfold srev. rewrite chars_app, reverse_app.
  generalize (reverse (chars s)), (reverse (chars t)). clear.
  intros l k. induction k as [|a k IH]; [done|]. cbn. by rewrite IH.
Qed.

Lemma srev_involutive s : srev (srev s) = s.
Proof. unfold srev. by rewrite chars_of_chars, reverse_involutive, of_chars_chars. Qed.

Lemma strip_suffix_Some p s r : strip_suffix p s = Some r ↔ s = r +:+ p.
Proof.
  unfold strip_suffix. split.
  - destruct (strip_prefix (srev p) (srev s)) as [q|] eqn:E; [|done]. intros [= <-].
    apply strip_prefix_Some in E. apply (f_equal srev) in E.
    by rewrite srev_app, !srev_involutive in E.
  - intros ->. rewrite srev_app.
    destruct (strip_prefix (srev p) (srev p +:+ srev r)) as [q|] eqn:E.
    + apply strip_prefix_Some, string_app_inj_l in E. by rewrite <- E, srev_involutive.
    + pose proof (starts_with_app (srev p) (srev r)) as H. unfold starts_with in H.
      by rewrite E in H.
Qed.

(** ** Splitting *)

(** [s.split(c)]: at least one piece. *)
Fixpoint split_on (c : ascii) (s : string) : list string :=
  match s with
  | EmptyString => [EmptyString]
  | String a s' =>
      if Ascii.eqb a c then EmptyString :: split_on c s'
      else match split_on c s' with
           | p :: ps => String a p :: ps
           | [] => [String a EmptyString]
           end
  end.

(** [s.split_once(c)] and [s.rsplit_once(c)] *)
Fixpoint split_once (c : ascii) (s : string) : option (string * string) :=
  match s with
  | EmptyString => None
  | String a s' =>
      if Ascii.eqb a c then Some (EmptyString, s')
      else match split_once c s' with
           | Some (l, r) => Some (String a l, r)
           | None => None
           end
  end.

Definition rsplit_once (c : ascii) (s : string) : option (string * string) :=
  match split_once c (srev s) with
  | Some (r, l) => Some (srev l, srev r)
  | None => None
  end.

(** [v.join(sep)] *)
Fixpoint join (sep : string) (l : list string) : string :=
  match l with
  | [] => EmptyString
  | [s] => s
  | s :: l' => s +:+ sep +:+ join sep l'
  end.

(** Does [c] occur in [s]? *)
Fixpoint has_char (c : ascii) (s : string) : bool :=
  match s with
  | EmptyString => false
  | String a s' => Ascii.eqb a c || has_char c s'
  end.

(** [s.replace(c, r)] for a one-character pattern. *)
Fixpoint replace_char (c : ascii) (r : string) (s : string) : string :=
  match s with
  | EmptyString => EmptyString
  | String a s' =>
      if Ascii.eqb a c then r +:+ replace_char c r s'
      else String a (replace_char c r s')
  end.

Lemma split_on_ne c s : split_on c s ≠ [].
Proof. destruct s as [|a s]; cbn; [done|]. destruct (Ascii.eqb a c); [done|]. by destruct (split_on c s). Qed.

Lemma split_on_no_char c s : has_char c s = false → split_on c s = [s].
Proof.
  induction s as [|a s IH]; cbn; [done|]. intros H. to_prop.
  destruct (Ascii.eqb a c); [done|]. by rewrite IH.
Qed.

Lemma split_on_app c s t :
  has_char c s = false → split_on c (s +:+ String c t) = s :: split_on c t.
Proof.
  induction s as [|a s IH]; cbn.
  - by rewrite Ascii.eqb_refl.
  - intros H. to_prop. destruct (Ascii.eqb a c); [done|]. by rewrite IH.
Qed.

Lemma split_on_join c l :
  l ≠ [] → Forall (λ s, has_char c s = false) l →
  split_on c (join (String c "") l) = l.
Proof.
  intros Hl H. induction H as [|s l Hs H IH]; [done|]. destruct l as [|t l].
  - by apply split_on_no_char.
  - change (join (String c "") (s :: t :: l))
      with (s +:+ String c (join (String c "") (t :: l))).
    rewrite split_on_app by done. by rewrite IH.
Qed.

Lemma join_split_on c s : join (String c "") (split_on c s) = s.
Proof.
  induction s as [|a s IH]; cbn; [done|].
  destruct (Ascii.eqb_spec a c) as [->|Hac].
  - pose proof (split_on_ne c s). destruct (split_on c s) as [|p ps]; [done|].
    cbn in *. by rewrite IH.
  - pose proof (split_on_ne c s). destruct (split_on c s) as [|p ps]; [done|].
    destruct ps; cbn in *; by rewrite IH.
Qed.

Lemma split_once_Some c s l r :
  split_once c s = Some (l, r) → s = l +:+ String c r ∧ has_char c l = false.
Proof.
  revert l r. induction s as [|a s IH]; intros l r; cbn; [done|].
  destruct (Ascii.eqb_spec a c) as [->|Hac].
  - by intros [= <- <-].
  - destruct (split_once c s) as [[l' r']|] eqn:E; [|done]. intros [= <- <-].
    destruct (IH _ _ eq_refl) as [-> Hl]. cbn. split; [done|].
    apply orb_false_iff. split; [by apply Ascii.eqb_neq|done].
Qed.

Lemma split_once_app c l r :
  has_char c l = false → split_once c (l +:+ String c r) = Some (l, r).
Proof.
  induction l as [|a l IH]; cbn.
  - by rewrite Ascii.eqb_refl.
  - intros H. to_prop. destruct (Ascii.eqb a c); [done|]. by rewrite IH.
Qed.

Lemma split_once_None c s : has_char c s = false → split_once c s = None.
Proof.
  induction s as [|a s IH]; cbn; [done|]. intros H. to_prop.
  destruct (Ascii.eqb a c); [done|]. by rewrite IH.
Qed.

Lemma has_char_app c s t : has_char c (s +:+ t) = has_char c s || has_char c t.
Proof. induction s as [|a s IH]; cbn; [done|]. by rewrite IH, orb_assoc. Qed.

Lemma has_char_srev c s : has_char c (srev s) = has_char c s.
Proof.
  induction s as [|a s IH]; [done|].
  change (String a s) with (String a "" +:+ s). rewrite srev_app, !has_char_app, IH.
  cbn. by rewrite orb_false_r, orb_comm.
Qed.

Lemma rsplit_once_app c l r :
  has_char c r = false → rsplit_once c (l +:+ String c r) = Some (l, r).
Proof.
  intros Hr. unfold rsplit_once.
  assert (srev (l +:+ String c r) = srev r +:+ String c (srev l)) as ->.
  { rewrite srev_app. change (String c r) with (String c "" +:+ r).
    rewrite srev_app, string_app_assoc. done. }
  rewrite split_once_app by (by rewrite has_char_srev). by rewrite !srev_involutive.
Qed.

(** ** Whitespace and case *)

(** The UTF-8 encodings of the 25 code points with the White_Space property
    ([char::is_whitespace]). *)
Definition white_space : list string :=
  of_bytes <$>
  [[9]; [10]; [11]; [12]; [13]; [32]; [0xC2; 0x85]; [0xC2; 0xA0];
   [0xE1; 0x9A; 0x80]; [0xE2; 0x80; 0x80]; [0xE2; 0x80; 0x81]; [0xE2; 0x80; 0x82];
   [0xE2; 0x80; 0x83]; [0xE2; 0x80; 0x84]; [0xE2; 0x80; 0x85]; [0xE2; 0x80; 0x86];
   [0xE2; 0x80; 0x87]; [0xE2; 0x80; 0x88]; [0xE2; 0x80; 0x89]; [0xE2; 0x80; 0x8A];
   [0xE2; 0x80; 0xA8]; [0xE2; 0x80; 0xA9]; [0xE2; 0x80; 0xAF]; [0xE2; 0x81; 0x9F];
   [0xE3; 0x80; 0x80]].

Fixpoint trim_start_fuel (fuel : nat) (pats : list string) (s : string) : string :=
  match fuel with
  | O => s
  | S fuel' =>
      match find_map (λ p, strip_prefix p s) pats with
      | Some r => trim_start_fuel fuel' pats r
      | None => s
      end
  end.

(** [s.trim_start()], [s.trim_end()] and [s.trim()]: every pattern is nonempty,
    so the length of [s] bounds the number of patterns removed. *)
Definition trim_start (s : string) : string :=
  trim_start_fuel (String.length s) white_space s.
Definition trim_end (s : string) : string :=
  srev (trim_start_fuel (String.length s) (srev <$> white_space) (srev s)).
Definition trim (s : string) : string := trim_end (trim_start s).

(** [s.trim_start_matches(c)] and [s.trim_end_matches(c)] *)
Fixpoint trim_start_matches (c : ascii) (s : string) : string :=
  match s with
  | String a s' => if Ascii.eqb a c then trim_start_matches c s' else s
  | EmptyString => EmptyString
  end.
Definition trim_end_matches (c : ascii) (s : string) : string :=
  srev (trim_start_matches c (srev s)).

(** The components of a path from its last one on. Separators and dots at the end of a path
    are no components; an absolute path begins with an empty one. *)
Fixpoint drop_trailing (r : list string) : list string :=
  match r with
  | s :: ((_ :: _) as r') => if bool_decide (s = "") || bool_decide (s = ".") then drop_trailing r' else r
  | _ => r
  end.
Definition path_components_rev (p : string) : list string := drop_trailing (reverse (split_on "/" p)).

(** [Path::parent] *)
Definition path_parent (p : string) : option string :=
  match path_components_rev p with
  | [] | [""] => None
  | [_] => Some ""
  | _ :: r =>
      let r := drop_trailing r in
      Some (if bool_decide (r = [""]) then "/" else join "/" (reverse r))
  end.

(** [Path::file_name] *)
Definition path_file_name (p : string) : option string :=
  match path_components_rev p with
  | s :: _ => if bool_decide (s ∈ [""; "."; ".."]) then None else Some s
  | [] => None
  end.

Lemma split_on_app_all c s t : split_on c (s +:+ String c t) = split_on c s ++ split_on c t.
Proof.
  induction s as [|a s IH]; cbn; [by rewrite Ascii.eqb_refl|].
  destruct (Ascii.eqb a c); [by rewrite IH|]. rewrite IH.
  pose proof (split_on_ne c s). by destruct (split_on c s).
Qed.

Lemma split_on_slash s t : split_on "/" (s +:+ "/" +:+ t) = split_on "/" s ++ split_on "/" t.
Proof. apply (split_on_app_all "/"). Qed.

Lemma split_on_pieces c s : Forall (λ p, has_char c p = false) (split_on c s).
Proof.
  induction s as [|a s IH]; cbn; [by constructor|].
  destruct (Ascii.eqb a c) eqn:E; [by constructor|]. destruct (split_on c s) as [|p ps].
  - constructor; [|done]. cbn. by rewrite E.
  - apply Forall_cons in IH as [Hp Hps]. constructor; [|done]. cbn. by rewrite E.
Qed.

(** A relative path begins with a component that is not empty. *)
Lemma split_on_head s : s ≠ "" →
  (starts_with "/" s = false ↔ ∃ x l, split_on "/" s = x :: l ∧ x ≠ "").
Proof.
  destruct s as [|a s]; [done|]. intros _. unfold starts_with. cbn [strip_prefix split_on].
  rewrite Ascii.eqb_sym. destruct (Ascii.eqb a "/"); cbn.
  - split; [done|]. by intros (x & l & [= <- _] & Hx).
  - split; [|done]. intros _. destruct (split_on "/" s); eauto.
Qed.

Lemma split_on_trailing s r : strip_suffix "/" s = Some r → last (split_on "/" s) = Some "".
Proof. intros ->%strip_suffix_Some. rewrite (split_on_app_all "/" r ""). apply last_snoc. Qed.

Lemma drop_trailing_keeps l x : ∃ l', drop_trailing (l ++ [x]) = l' ++ [x] ∧ (∀ s, s ∈ l' → s ∈ l)
  ∧ match l' with [] => True | c :: _ => c ≠ "" ∧ c ≠ "." end.
Proof.
  induction l as [|s l (l' & E & Hs & Hl)]; [by exists []|]. cbn [app drop_trailing].
  destruct (l ++ [x]) as [|y r] eqn:Er; [by destruct l|].
  destruct (bool_decide (s = "") || bool_decide (s = ".")) eqn:Es.
  - exists l'. split; [done|]. split; [|done]. intros t Ht. right. by apply Hs.
  - exists (s :: l). rewrite <- Er. repeat split; [done| |]; apply orb_false_iff in Es as [?%bool_decide_eq_false ?%bool_decide_eq_false]; done.
Qed.

(** The parent of a relative path is empty, or a relative path that does not end in a
    separator and has components of the path only. *)
Lemma path_parent_relative path pp : starts_with "/" path = false → path_parent path = Some pp →
  pp = "" ∨ (starts_with "/" pp = false ∧ last (split_on "/" pp) ≠ Some "" ∧ pp ≠ "" ∧ ∀ s, s ∈ split_on "/" pp → s ∈ split_on "/" path).
Proof.
  intros Ha. unfold path_parent, path_components_rev.
  destruct (decide (path = "")) as [-> |Hne]; [done|].
  apply (split_on_head path Hne) in Ha as (x & l & E & Hx). pose proof (split_on_pieces "/" path) as Hp.
  rewrite E in *. rewrite reverse_cons. apply Forall_cons in Hp as [Hpx Hpl].
  destruct (drop_trailing_keeps (reverse l) x) as (l1 & -> & H1 & _).
  destruct l1 as [|c l1]; cbn [app]; [destruct x; [done|]; intros [= <-]; by left|].
  assert (∃ y r, l1 ++ [x] = y :: r) as (y & r & Er) by (destruct l1; eauto). rewrite Er. rewrite <- Er. clear y r Er.
  destruct (drop_trailing_keeps l1 x) as (l2 & -> & H2 & H3).
  assert (l2 ++ [x] ≠ [""]) as Hn by (destruct l2 as [|? [|]]; cbn; congruence).
  assert ((if bool_decide (l2 ++ [x] = [""]) then "/" else join "/" (reverse (l2 ++ [x]))) = join "/" (x :: reverse l2)) as ->.
  { rewrite bool_decide_eq_false_2 by done. by rewrite reverse_app. }
  assert (∀ s, s ∈ l2 → s ∈ l) as Hin.
  { intros s Hs%H2. apply elem_of_reverse, H1. by right. }
  assert (split_on "/" (join "/" (x :: reverse l2)) = x :: reverse l2) as Hsp.
  { apply (split_on_join "/"); [done|]. constructor; [done|]. apply Forall_reverse, Forall_forall. intros s Hs%Hin.
    by rewrite Forall_forall in Hpl; apply Hpl. }
  intros Hpp. assert (pp = join "/" (x :: reverse l2)) as -> by (destruct c; congruence). clear Hpp. right.
  assert (join "/" (x :: reverse l2) ≠ "") as Hj.
  { intros Hj. rewrite Hj in Hsp. cbn in Hsp. by injection Hsp. }
  split; [apply split_on_head; eauto|]. split.
  - rewrite Hsp. intros Hq. destruct l2 as [|d l2]; [by injection Hq|]. rewrite reverse_cons, app_comm_cons, last_snoc in Hq.
    injection Hq as ->. by destruct H3.
  - split; [done|]. rewrite Hsp. intros s [-> |Hs]%elem_of_cons; [by left|]. right. by apply Hin, elem_of_reverse.
Qed.

Lemma path_file_name_piece path n : path_file_name path = Some n → n ∈ split_on "/" path ∧ n ∉ [""; "."; ".."].
Proof.
  unfold path_file_name, path_components_rev. pose proof (split_on_ne "/" path) as Hne.
  destruct (split_on "/" path) as [|x l] eqn:E; [done|]. rewrite reverse_cons.
  destruct (drop_trailing_keeps (reverse l) x) as (l1 & -> & H1 & _).
  assert (∃ c r, l1 ++ [x] = c :: r ∧ c ∈ x :: l) as (c & r & -> & Hc).
  { destruct l1 as [|c l1]; cbn; [exists x, []; split; [done|by left]|]. exists c, (l1 ++ [x]). split; [done|].
    right. apply elem_of_reverse, H1. by left. }
  case_bool_decide; [done|]. intros [= <-]. by split.
Qed.

Example path_parent_spec :
  path_parent <$> ["/"; "."; "a"; "/a"; "a/b/"; "./a"; "/a/./b/.//"; "a/.."] =
    [None; Some ""; Some ""; Some "/"; Some "a"; Some "."; Some "/a"; Some "a"]
  ∧ path_file_name <$> ["/"; "."; "a"; "/a/"; "a/b/."; "a/.."] = [None; None; Some "a"; Some "a"; Some "b"; None].
Proof. vm_compute. done. Qed.

(** [s.lines()]: a final line terminator does not start another line; the
    terminator is [\n] or [\r\n]. *)
Definition newline : ascii := ascii_of_byte 10.
Definition strip_cr (s : string) : string :=
  unwrap_or (strip_suffix (of_bytes [13]) s) s.
Fixpoint finish_lines (l : list string) : list string :=
  match l with
  | [] => []
  | [s] => match s with EmptyString => [] | _ => [s] end
  | s :: l' => strip_cr s :: finish_lines l'
  end.
Definition lines (s : string) : list string := finish_lines (split_on newline s).

(** [s.split_whitespace()]: the maximal runs without white space. *)
Fixpoint split_ws_fuel (fuel : nat) (cur : string) (s : string) : list string :=
  let flush l := match cur with EmptyString => l | _ => srev cur :: l end in
  match fuel, s with
  | O, _ | _, EmptyString => flush []
  | S fuel', String a s' =>
      match find_map (λ p, strip_prefix p s) white_space with
      | Some r => flush (split_ws_fuel fuel' EmptyString r)
      | None => split_ws_fuel fuel' (String a cur) s'
      end
  end.
Definition split_whitespace (s : string) : list string :=
  split_ws_fuel (S (String.length s)) EmptyString s.

Example split_whitespace_ex : split_whitespace " a  bc " = ["a"; "bc"].
Proof. vm_compute. reflexivity. Qed.
Example lines_ex :
  lines (of_bytes [97; 13; 10; 98; 10]) = ["a"; "b"].
Proof. vm_compute. reflexivity. Qed.

Definition is_ascii (s : string) : bool := forallb (λ b, b <? 128) (as_bytes s).

Definition lower_byte (b : byte) : byte := if (65 <=? b) && (b <=? 90) then b + 32 else b.
Definition upper_byte (b : byte) : byte := if (97 <=? b) && (b <=? 122) then b - 32 else b.

Definition to_ascii_lowercase (s : string) : string := of_bytes (lower_byte <$> as_bytes s).
Definition to_ascii_uppercase (s : string) : string := of_bytes (upper_byte <$> as_bytes s).

(** [str::to_lowercase] and [str::to_uppercase] follow Unicode: on ASCII
    strings they change ASCII letters only; on other strings the Unicode tables
    are a parameter. *)
Class UnicodeCase := {
  unicode_lower : string → string;
  unicode_upper : string → string
}.
Definition to_lowercase `{UnicodeCase} (s : string) : string :=
  if is_ascii s then to_ascii_lowercase s else unicode_lower s.
Definition to_uppercase `{UnicodeCase} (s : string) : string :=
  if is_ascii s then to_ascii_uppercase s else unicode_upper s.

#[export] Instance unicode_case_default : UnicodeCase | 100 :=
  {| unicode_lower := to_ascii_lowercase; unicode_upper := to_ascii_uppercase |}.

(** ** Decimal integers *)

Definition dec_digit (a : ascii) : option Z :=
  let b := byte_of_ascii a in
  if (48 <=? b) && (b <=? 57) then Some (b - 48) else None.

Fixpoint parse_dec_from (acc : Z) (s : string) : option Z :=
  match s with
  | EmptyString => Some acc
  | String a s' =>
      match dec_digit a with
      | Some d => parse_dec_from (acc * 10 + d) s'
      | None => None
      end
  end.

(** One or more decimal digits. *)
Definition parse_dec (s : string) : option Z :=
  match s with EmptyString => None | _ => parse_dec_from 0 s end.

Definition in_range (lo hi : Z) (o : option Z) : option Z :=
  match o with
  | Some z => if (lo <=? z) && (z <=? hi) then Some z else None
  | None => None
  end.

(** [FromStr] for the unsigned and signed integers: an optional sign, at least
    one digit, an error on overflow. *)
Definition parse_unsigned (w : Z) (s : string) : option Z :=
  match s with
  | String "+" s' => in_range 0 (2 ^ w - 1) (parse_dec s')
  | _ => in_range 0 (2 ^ w - 1) (parse_dec s)
  end.

Definition parse_signed (w : Z) (s : string) : option Z :=
  match s with
  | String "-" s' =>
      in_range (- 2 ^ (w - 1)) (2 ^ (w - 1) - 1) (Z.opp <$> parse_dec s')
  | String "+" s' => in_range (- 2 ^ (w - 1)) (2 ^ (w - 1) - 1) (parse_dec s')
  | _ => in_range (- 2 ^ (w - 1)) (2 ^ (w - 1) - 1) (parse_dec s)
  end.

Definition parse_u8 := parse_unsigned 8.
Definition parse_u16 := parse_unsigned 16.
Definition parse_u32 := parse_unsigned 32.
Definition parse_u64 := parse_unsigned 64.
Definition parse_i64 := parse_signed 64.

(** [format!("{}", z)] *)
Definition display (z : Z) : string := pretty z.

(** [format!("{:0nx}", z)] for [0 <= z < 16 ^ n] *)
Definition hex_digit (d : Z) : ascii :=
  ascii_of_byte (if d <? 10 then 48 + d else 87 + d).
Fixpoint hex_pad (n : nat) (z : Z) : string :=
  match n with
  | O => EmptyString
  | S n' => hex_pad n' (z / 16) +:+ String (hex_digit (z `mod` 16)) EmptyString
  end.

(** [c.to_digit(16)] *)
Definition to_digit16 (b : byte) : option Z :=
  if (48 <=? b) && (b <=? 57) then Some (b - 48)
  else if (97 <=? b) && (b <=? 102) then Some (b - 87)
  else if (65 <=? b) && (b <=? 70) then Some (b - 55)
  else None.

Definition is_ascii_hexdigit (a : ascii) : bool := is_some (to_digit16 (byte_of_ascii a)).

Lemma dec_digit_char n :
  (n < 10)%N → dec_digit (pretty_N_char n) = Some (Z.of_N n).
Proof.
  intros Hn.
  assert (n = 0 ∨ n = 1 ∨ n = 2 ∨ n = 3 ∨ n = 4 ∨ n = 5 ∨ n = 6 ∨ n = 7 ∨ n = 8 ∨ n = 9)%N
    as H by lia.
  by repeat destruct H as [->|H]; try subst.
Qed.

Lemma parse_dec_pretty_go n s acc :
  (0 < n)%N →
  parse_dec_from acc (pretty_N_go n s)
  = parse_dec_from (acc * 10 ^ Z.of_nat (String.length (pretty_N_go n "")) + Z.of_N n) s.
Proof.
  revert s acc. induction n as [n IH] using (well_founded_induction N.lt_wf_0).
  intros s acc Hn. rewrite !(pretty_N_go_step n) by done.
  assert (n `mod` 10 < 10)%N as Hm by (apply N.mod_upper_bound; done).
  destruct (N.eq_dec (n / 10) 0) as [E|E].
  - rewrite E, !pretty_N_go_0. cbn. rewrite dec_digit_char by done.
    f_equal. pose proof (N.div_mod n 10). change (10 ^ Z.of_nat 1) with 10. lia.
  - assert (n / 10 < n)%N as Hlt by (apply N.div_lt; lia).
    assert (0 < n / 10)%N as Hpos by (apply N.neq_0_lt_0; done).
    rewrite (IH _ Hlt) by done. cbn [parse_dec_from]. rewrite dec_digit_char by done. f_equal.
    assert (∀ t, String.length (pretty_N_go (n / 10) t)
                 = (String.length (pretty_N_go (n / 10) "") + String.length t)%nat) as Hlen.
    { clear. generalize (n / 10)%N. clear n. intros n.
      induction n as [n IH] using (well_founded_induction N.lt_wf_0). intros t.
      destruct (N.eq_dec n 0) as [->|Hn]; [by rewrite !pretty_N_go_0|].
      rewrite !(pretty_N_go_step n) by lia.
      assert (n / 10 < n)%N as Hlt by (apply N.div_lt; lia).
      rewrite (IH _ Hlt (String _ t)), (IH _ Hlt (String _ "")). cbn [String.length]. lia. }
    rewrite (Hlen (String _ "")). cbn [String.length].
    rewrite Nat2Z.inj_add, Z.pow_add_r by lia. change (10 ^ Z.of_nat 1) with 10.
    assert (Z.of_N n = 10 * Z.of_N (n / 10) + Z.of_N (n `mod` 10)) as Hn'.
    { pose proof (N.div_mod n 10). lia. }
    rewrite Hn'. ring.
Qed.

(** A printed integer is read back. *)
Lemma parse_dec_display z : 0 ≤ z → parse_dec (display z) = Some z.
Proof.
  intros Hz. unfold display. destruct z as [|p|p]; [done| |lia].
  change (pretty (Z.pos p)) with (pretty_N_go (N.pos p) "").
  pose proof (parse_dec_pretty_go (N.pos p) "" 0) as H.
  unfold parse_dec. destruct (pretty_N_go (N.pos p) "") eqn:E.
  - exfalso. rewrite pretty_N_go_step in E by lia.
    assert (∀ n s, s ≠ "" → pretty_N_go n s ≠ "") as Hne.
    { clear. intros n. induction n as [n IH] using (well_founded_induction N.lt_wf_0).
      intros s Hs. destruct (N.eq_dec n 0) as [->|Hn]; [by rewrite pretty_N_go_0|].
      rewrite pretty_N_go_step by lia. apply IH; [apply N.div_lt; lia|done]. }
    by eapply Hne; [|exact E].
  - rewrite H by lia. done.
Qed.

Lemma display_head z a s :
  0 ≤ z → display z = String a s → dec_digit a ≠ None.
Proof.
  intros Hz E. pose proof (parse_dec_display z Hz) as H. rewrite E in H. cbn in H.
  by destruct (dec_digit a).
Qed.

Lemma parse_unsigned_display w z : 0 ≤ z < 2 ^ w → parse_unsigned w (display z) = Some z.
Proof.
  intros Hz. pose proof (parse_dec_display z) as H. unfold parse_unsigned.
  destruct (display z) as [|a s] eqn:E; [specialize (H ltac:(lia)); discriminate H|].
  assert (a ≠ "+"%char) as Ha.
  { intros ->. by apply (display_head z "+" s); [lia|done|]. }
  assert (in_range 0 (2 ^ w - 1) (parse_dec (String a s)) = Some z) as Hp.
  { rewrite H by lia. unfold in_range.
    replace ((0 <=? z) && (z <=? 2 ^ w - 1)) with true; [done|].
    symmetry. apply andb_true_iff. split; apply Z.leb_le; lia. }
  clear H E. by destruct a as [[] [] [] [] [] [] [] []]; try exact Hp; destruct Ha.
Qed.

(** ** Trimming and suffixes of graphic ASCII text *)

(** A printable ASCII character other than space. *)
Definition graphic (a : ascii) : bool :=
  (33 <=? byte_of_ascii a) && (byte_of_ascii a <=? 126).

Definition is_digit (a : ascii) : bool := is_some (dec_digit a).

Lemma trim_start_fuel_id n pats s :
  (∀ p, p ∈ pats → strip_prefix p s = None) → trim_start_fuel n pats s = s.
Proof.
  intros H. destruct n as [|n]; [done|]. cbn.
  assert (find_map (λ p, strip_prefix p s) pats = None) as -> by (by apply find_map_None).
  done.
Qed.

Lemma strip_prefix_head_ne a b p s :
  a ≠ b → strip_prefix (String a p) (String b s) = None.
Proof. intros H. cbn. by rewrite (proj2 (Ascii.eqb_neq a b) H). Qed.

(** The first characters of the white space patterns, read in either direction. *)
Lemma white_space_not_graphic pats p :
  pats = white_space ∨ pats = srev <$> white_space → p ∈ pats →
  ∃ a q, p = String a q ∧ graphic a = false.
Proof.
  intros Hp Hin.
  assert (forallb (λ p, match p with String a _ => negb (graphic a) | _ => false end) pats = true)
    as H by (by destruct Hp as [-> | ->]; vm_compute).
  rewrite forallb_forall in H. specialize (H p (proj1 (list_elem_of_In _ _) Hin)).
  destruct p as [|a q]; [done|]. exists a, q. split; [done|]. by apply negb_true_iff.
Qed.

Lemma trim_pats_id n pats a s :
  pats = white_space ∨ pats = srev <$> white_space → graphic a = true →
  trim_start_fuel n pats (String a s) = String a s.
Proof.
  intros Hp Ha. apply trim_start_fuel_id. intros p Hin.
  destruct (white_space_not_graphic pats p Hp Hin) as (b & q & -> & Hb).
  apply strip_prefix_head_ne. intros ->. congruence.
Qed.

Lemma srev_snoc s a : srev (s +:+ String a "") = String a (srev s).
Proof. by rewrite srev_app. Qed.

(** Text that starts and ends with graphic characters is not trimmed. *)
Lemma trim_graphic a s b :
  graphic a = true → graphic b = true →
  trim (String a s +:+ String b "") = String a s +:+ String b "".
Proof.
  intros Ha Hb. unfold trim, trim_start, trim_end. cbn [String.append].
  rewrite trim_pats_id by auto.
  change (String a (s +:+ String b "")) with (String a s +:+ String b "").
  rewrite srev_snoc, trim_pats_id by auto. rewrite <- srev_snoc. apply srev_involutive.
Qed.

Lemma trim_graphic_1 a : graphic a = true → trim (String a "") = String a "".
Proof.
  intros Ha. unfold trim, trim_start, trim_end. rewrite trim_pats_id by auto.
  change (srev (String a "")) with (String a ""). by rewrite trim_pats_id by auto.
Qed.

Lemma digit_graphic a : is_digit a = true → graphic a = true.
Proof.
  unfold is_digit, graphic, dec_digit.
  destruct ((48 <=? byte_of_ascii a) && (byte_of_ascii a <=? 57)) eqn:E; [|done].
  intros _. to_prop. apply andb_true_iff. split; apply Z.leb_le; lia.
Qed.

Lemma parse_dec_from_digits acc s z :
  parse_dec_from acc s = Some z → forallb is_digit (chars s) = true.
Proof.
  revert acc. induction s as [|a s IH]; intros acc; cbn; [done|].
  unfold is_digit at 1. destruct (dec_digit a); [|done]. apply IH.
Qed.

Lemma display_digits z : 0 ≤ z → forallb is_digit (chars (display z)) = true.
Proof.
  intros Hz. pose proof (parse_dec_display z Hz) as H.
  destruct (display z) as [|a s] eqn:E; [done|]. by eapply parse_dec_from_digits.
Qed.

Lemma display_nonempty z : 0 ≤ z → display z ≠ "".
Proof.
  intros Hz E. pose proof (parse_dec_display z Hz) as H. by rewrite E in H.
Qed.

Lemma string_snoc s : s ≠ "" → ∃ t b, s = t +:+ String b "".
Proof.
  induction s as [|a s IH]; [done|]. intros _. destruct s as [|c s].
  - by exists "", a.
  - destruct IH as (t & b & E); [done|]. exists (String a t), b. cbn. by rewrite <- E.
Qed.

Lemma all_graphic_trim s : forallb graphic (chars s) = true → trim s = s.
Proof.
  destruct s as [|a s]; [done|]. intros H. cbn in H. apply andb_true_iff in H as [Ha Hs].
  destruct (decide (s = "")) as [->|Hne]; [by apply trim_graphic_1|].
  destruct (string_snoc s Hne) as (t & b & ->).
  rewrite chars_app, forallb_app in Hs. to_prop.
  assert (graphic b = true) as Hb by (cbn in *; by destruct (graphic b)).
  by apply (trim_graphic a t b).
Qed.

Lemma forallb_impl {A} (p q : A → bool) l :
  (∀ x, p x = true → q x = true) → forallb p l = true → forallb q l = true.
Proof. intros H. rewrite !forallb_forall. auto. Qed.

Lemma display_graphic z : 0 ≤ z → forallb graphic (chars (display z)) = true.
Proof. intros Hz. eapply forallb_impl, display_digits, Hz. apply digit_graphic. Qed.

(** A suffix with a character that is not a digit does not end a number. *)
Lemma strip_suffix_digits p z :
  0 ≤ z → forallb is_digit (chars p) = false → strip_suffix p (display z) = None.
Proof.
  intros Hz Hp. destruct (strip_suffix p (display z)) as [r|] eqn:E; [|done].
  apply strip_suffix_Some in E. pose proof (display_digits z Hz) as H.
  rewrite E, chars_app, forallb_app in H. to_prop. congruence.
Qed.

Lemma strip_suffix_app p s : strip_suffix p (s +:+ p) = Some s.
Proof. by apply strip_suffix_Some. Qed.

(** Whether [p] ends [s +:+ t] is decided by [t] when [t] is as long as [p]. *)
Lemma strip_suffix_app_ne p s t :
  strip_prefix (srev p) (srev t) = None → (String.length p ≤ String.length t)%nat →
  strip_suffix p (s +:+ t) = None.
Proof.
  intros H Hl. destruct (strip_suffix p (s +:+ t)) as [r|] eqn:E; [|done]. exfalso.
  apply strip_suffix_Some, (f_equal srev) in E. rewrite !srev_app in E.
  assert (String.length (srev p) ≤ String.length (srev t))%nat as Hl'.
  { rewrite <- !length_as_bytes in *.
    assert (∀ u, length (as_bytes (srev u)) = length (as_bytes u)) as L.
    { intros u. rewrite !length_as_bytes. unfold srev.
      rewrite <- (of_chars_chars u) at 2.
      assert (∀ l, String.length (of_chars l) = length l) as Lc.
      { induction l; cbn; auto. }
      by rewrite !Lc, length_reverse. }
    by rewrite !L. }
  revert H Hl' E. generalize (srev p), (srev t), (srev s), (srev r). clear.
  intros p. induction p as [|a p IH]; intros t u v; cbn; [done|].
  destruct t as [|b t]; cbn; [lia|].
  destruct (Ascii.eqb_spec a b) as [->|Hab].
  - intros H Hl [= E]. by apply (IH t u v H); [lia|].
  - intros _ _ [= E _]. done.
Qed.

Lemma strip_suffix_last_ne p s t a b p' t' :
  srev p = String a p' → srev t = String b t' → a ≠ b →
  strip_suffix p (s +:+ t) = None.
Proof.
  intros Hp Ht Hab. unfold strip_suffix. rewrite srev_app, Hp, Ht. cbn.
  by rewrite (proj2 (Ascii.eqb_neq a b) Hab).
Qed.
