(* ===== verification/Utf8.v ===== *)
(** * Utf8: UTF-8 validation, lossy decoding and IPv4 addresses

    [std::str::from_utf8], [String::from_utf8_lossy] and the [FromStr] and
    [Display] implementations of [std::net::Ipv4Addr]. *)
From S2P Require Import Prelude Text.

(** ** Validation *)

Definition is_cont (b : byte) : bool := (0x80 <=? b) && (b <=? 0xBF).

(** The bytes allowed after the leading byte [b0] of a sequence of three or
    four bytes. *)
Definition second_ok (b0 b1 : byte) : bool :=
  if b0 =? 0xE0 then (0xA0 <=? b1) && (b1 <=? 0xBF)
  else if b0 =? 0xED then (0x80 <=? b1) && (b1 <=? 0x9F)
  else if b0 =? 0xF0 then (0x90 <=? b1) && (b1 <=? 0xBF)
  else if b0 =? 0xF4 then (0x80 <=? b1) && (b1 <=? 0x8F)
  else is_cont b1.

Definition at_byte (l : bytes) (i : nat) : byte := unwrap_or (l !! i) 0.

(** The first chunk of a nonempty byte string: [(true, n)] when its first [n]
    bytes encode one character, [(false, n)] when they are a maximal invalid
    prefix, replaced by one U+FFFD. *)
Definition utf8_next (l : bytes) : bool * nat :=
  let b0 := at_byte l 0 in
  let b1 := at_byte l 1 in
  let b2 := at_byte l 2 in
  let b3 := at_byte l 3 in
  if b0 <? 0x80 then (true, 1%nat)
  else if (0xC2 <=? b0) && (b0 <=? 0xDF) then
    if is_cont b1 then (true, 2%nat) else (false, 1%nat)
  else if (0xE0 <=? b0) && (b0 <=? 0xEF) then
    if negb (second_ok b0 b1) then (false, 1%nat)
    else if negb (is_cont b2) then (false, 2%nat)
    else (true, 3%nat)
  else if (0xF0 <=? b0) && (b0 <=? 0xF4) then
    if negb (second_ok b0 b1) then (false, 1%nat)
    else if negb (is_cont b2) then (false, 2%nat)
    else if negb (is_cont b3) then (false, 3%nat)
    else (true, 4%nat)
  else (false, 1%nat).

Fixpoint utf8_valid_fuel (fuel : nat) (l : bytes) : bool :=
  match fuel, l with
  | _, [] => true
  | O, _ => false
  | S fuel', _ =>
      let (ok, n) := utf8_next l in
      ok && utf8_valid_fuel fuel' (drop n l)
  end.

(** Every step consumes a byte, so the length is enough fuel. *)
Definition utf8_valid (l : bytes) : bool := utf8_valid_fuel (length l) l.

(** [std::str::from_utf8(b).ok()] *)
Definition from_utf8 (l : bytes) : option string :=
  if utf8_valid l then Some (of_bytes l) else None.

Fixpoint lossy_fuel (fuel : nat) (l : bytes) : bytes :=
  match fuel, l with
  | _, [] => []
  | O, _ => []
  | S fuel', _ =>
      let (ok, n) := utf8_next l in
      (if ok then take n l else [0xEF; 0xBF; 0xBD]) ++ lossy_fuel fuel' (drop n l)
  end.

(** [String::from_utf8_lossy(b).into_owned()] *)
Definition from_utf8_lossy (l : bytes) : string := of_bytes (lossy_fuel (length l) l).

Lemma utf8_next_pos l : (0 < (utf8_next l).2)%nat.
Proof.
  unfold utf8_next.
  repeat match goal with |- context [if ?b then _ else _] => destruct b end; cbn; lia.
Qed.

Lemma utf8_valid_fuel_lossy fuel l :
  (length l ≤ fuel)%nat → utf8_valid_fuel fuel l = true → lossy_fuel fuel l = l.
Proof.
  revert l. induction fuel as [|fuel IH]; intros l Hl.
  - by destruct l; [|cbn in Hl; lia].
  - destruct l as [|b l']; [done|]. set (l := b :: l') in *.
    cbn [utf8_valid_fuel lossy_fuel]. fold l.
    pose proof (utf8_next_pos l) as Hn. destruct (utf8_next l) as [ok n]. cbn in Hn.
    intros [-> H]%andb_true_iff. rewrite IH, take_drop; [done| |done].
    rewrite length_drop. cbn in *. lia.
Qed.

(** Decoding valid UTF-8 loses nothing. *)
Lemma from_utf8_lossy_valid l s : from_utf8 l = Some s → from_utf8_lossy l = s.
Proof.
  unfold from_utf8, from_utf8_lossy, utf8_valid.
  destruct (utf8_valid_fuel (length l) l) eqn:E; [|done]. intros [= <-].
  by rewrite utf8_valid_fuel_lossy.
Qed.

Lemma utf8_valid_fuel_ascii fuel l :
  (length l ≤ fuel)%nat → Forall (λ b, b < 128) l → utf8_valid_fuel fuel l = true.
Proof.
  revert l. induction fuel as [|fuel IH]; intros l Hl H.
  - by destruct l; [|cbn in Hl; lia].
  - destruct H as [|b l Hb H]; [done|].
    cbn [utf8_valid_fuel]. unfold utf8_next, at_byte. cbn [lookup list_lookup unwrap_or].
    replace (b <? 0x80) with true by (symmetry; apply Z.ltb_lt; lia).
    apply (IH l); [cbn in Hl; lia|done].
Qed.

Lemma from_utf8_ascii l : Forall (λ b, b < 128) l → from_utf8 l = Some (of_bytes l).
Proof.
  intros H. unfold from_utf8, utf8_valid. by rewrite utf8_valid_fuel_ascii.
Qed.

Lemma from_utf8_as_bytes s : is_ascii s = true → from_utf8 (as_bytes s) = Some s.
Proof.
  intros H. rewrite from_utf8_ascii, of_as_bytes; [done|].
  unfold is_ascii in H. rewrite forallb_forall in H. apply Forall_forall.
  intros b Hb%list_elem_of_In. by apply Z.ltb_lt, H.
Qed.

(** ** IPv4 addresses *)

(** [Ipv4Addr] is its 32-bit value ([u32::from]). *)
Abbreviation Ipv4Addr := Z (only parsing).

Definition octets (ip : Ipv4Addr) : bytes := be32 ip.

Definition ipv4_new (a b c d : byte) : Ipv4Addr := from_be32 a b c d.

(** One octet of the dotted form: at most three digits, no leading zero. *)
Definition parse_octet (s : string) : option Z :=
  match s with
  | String "0" (String _ _) => None
  | _ => if (String.length s <=? 3)%nat then in_range 0 255 (parse_dec s) else None
  end.

(** [s.parse::<Ipv4Addr>().ok()] *)
Definition parse_ipv4addr (s : string) : option Ipv4Addr :=
  match split_on "." s with
  | [a; b; c; d] =>
      match parse_octet a, parse_octet b, parse_octet c, parse_octet d with
      | Some a, Some b, Some c, Some d => Some (ipv4_new a b c d)
      | _, _, _, _ => None
      end
  | _ => None
  end.

(** [ip.to_string()] *)
Definition display_ipv4 (ip : Ipv4Addr) : string :=
  join "." (display <$> octets ip).

Definition ipv4_ok (ip : Ipv4Addr) : Prop := 0 ≤ ip < 4294967296.

Lemma ipv4_new_octets ip :
  ipv4_ok ip → ∃ a b c d, octets ip = [a; b; c; d] ∧ ipv4_new a b c d = ip.
Proof. intros H. do 4 eexists. split; [done|]. by apply from_be32_be32. Qed.

Lemma u8_range z : 0 ≤ u8 z < 256.
Proof. by apply (wrap_range 8). Qed.

(** The 256 octets, read back: by computation. *)
Lemma parse_octet_display z : 0 ≤ z < 256 → parse_octet (display z) = Some z.
Proof.
  intros Hz.
  assert (forallb (λ z, bool_decide (parse_octet (display z) = Some z)) (seqZ 0 256) = true)
    as H by (vm_compute; reflexivity).
  rewrite forallb_forall in H. specialize (H z).
  rewrite bool_decide_eq_true in H. apply H, list_elem_of_In, elem_of_seqZ. lia.
Qed.

Lemma display_octet_no_dot z : 0 ≤ z < 256 → has_char "." (display z) = false.
Proof.
  intros Hz.
  assert (forallb (λ z, negb (has_char "." (display z))) (seqZ 0 256) = true)
    as H by (vm_compute; reflexivity).
  rewrite forallb_forall in H. specialize (H z).
  rewrite negb_true_iff in H. apply H, list_elem_of_In, elem_of_seqZ. lia.
Qed.

(** Printing an address and parsing it gives the address back. *)
Lemma parse_display_ipv4 ip : ipv4_ok ip → parse_ipv4addr (display_ipv4 ip) = Some ip.
Proof.
  intros Hip. unfold parse_ipv4addr, display_ipv4.
  rewrite split_on_join; [|done|].
  - unfold octets, be32. cbn [fmap list_fmap].
    rewrite !parse_octet_display by apply u8_range. f_equal. by apply from_be32_be32.
  - unfold octets, be32. cbn [fmap list_fmap].
    repeat constructor; apply display_octet_no_dot, u8_range.
Qed.
