(* ===== verification/Resources.v ===== *)
(** * Resources: the resource model and the resource store (src/src/types.rs)

    The Kubernetes objects are records with the fields of the API schema that
    the sources read or write, optional where the API makes them optional; the
    custom resources are those of src/src/netmux/crds.rs. [ResourceStore] is a
    map from uids to trackers; each operation holds the store's lock for its
    whole duration and is one function. *)
From S2P Require Import Prelude Text.

(** ** API objects *)

Abbreviation labels := (gmap string string) (only parsing).

Record OwnerReference := {
  or_kind : string;
  or_name : string;
  or_controller : option bool;
  or_uid : string
}.

Record ObjectMeta := {
  om_name : option string;
  om_namespace : option string;
  om_uid : option string;
  om_labels : option (gmap string string);
  om_annotations : option (gmap string string);
  om_owner_references : option (list OwnerReference);
  om_creation_timestamp : option Z;
  om_resource_version : option string
}.

Definition meta_default : ObjectMeta := {|
  om_name := None; om_namespace := None; om_uid := None; om_labels := None;
  om_annotations := None; om_owner_references := None;
  om_creation_timestamp := None; om_resource_version := None |}.

Definition set_name (n : option string) (m : ObjectMeta) : ObjectMeta := {|
  om_name := n; om_namespace := om_namespace m; om_uid := om_uid m;
  om_labels := om_labels m; om_annotations := om_annotations m;
  om_owner_references := om_owner_references m;
  om_creation_timestamp := om_creation_timestamp m;
  om_resource_version := om_resource_version m |}.
Definition set_namespace (n : option string) (m : ObjectMeta) : ObjectMeta := {|
  om_name := om_name m; om_namespace := n; om_uid := om_uid m;
  om_labels := om_labels m; om_annotations := om_annotations m;
  om_owner_references := om_owner_references m;
  om_creation_timestamp := om_creation_timestamp m;
  om_resource_version := om_resource_version m |}.
Definition set_uid (u : option string) (m : ObjectMeta) : ObjectMeta := {|
  om_name := om_name m; om_namespace := om_namespace m; om_uid := u;
  om_labels := om_labels m; om_annotations := om_annotations m;
  om_owner_references := om_owner_references m;
  om_creation_timestamp := om_creation_timestamp m;
  om_resource_version := om_resource_version m |}.
Definition set_labels (l : option (gmap string string)) (m : ObjectMeta) : ObjectMeta := {|
  om_name := om_name m; om_namespace := om_namespace m; om_uid := om_uid m;
  om_labels := l; om_annotations := om_annotations m;
  om_owner_references := om_owner_references m;
  om_creation_timestamp := om_creation_timestamp m;
  om_resource_version := om_resource_version m |}.
Definition set_annotations (l : option (gmap string string)) (m : ObjectMeta) : ObjectMeta := {|
  om_name := om_name m; om_namespace := om_namespace m; om_uid := om_uid m;
  om_labels := om_labels m; om_annotations := l;
  om_owner_references := om_owner_references m;
  om_creation_timestamp := om_creation_timestamp m;
  om_resource_version := om_resource_version m |}.
Definition set_owner_references (l : option (list OwnerReference)) (m : ObjectMeta) : ObjectMeta := {|
  om_name := om_name m; om_namespace := om_namespace m; om_uid := om_uid m;
  om_labels := om_labels m; om_annotations := om_annotations m;
  om_owner_references := l;
  om_creation_timestamp := om_creation_timestamp m;
  om_resource_version := om_resource_version m |}.
Definition set_creation_timestamp (t : option Z) (m : ObjectMeta) : ObjectMeta := {|
  om_name := om_name m; om_namespace := om_namespace m; om_uid := om_uid m;
  om_labels := om_labels m; om_annotations := om_annotations m;
  om_owner_references := om_owner_references m;
  om_creation_timestamp := t; om_resource_version := om_resource_version m |}.
Definition set_resource_version (v : option string) (m : ObjectMeta) : ObjectMeta := {|
  om_name := om_name m; om_namespace := om_namespace m; om_uid := om_uid m;
  om_labels := om_labels m; om_annotations := om_annotations m;
  om_owner_references := om_owner_references m;
  om_creation_timestamp := om_creation_timestamp m; om_resource_version := v |}.

Definition Quantity := string.

Inductive IntOrString :=
  | IoInt (n : Z)
  | IoString (s : string).

Record EnvVar := { ev_name : string; ev_value : option string }.
Record EnvFromSource := {
  ef_prefix : option string;
  ef_config_map_ref : option string;
  ef_secret_ref : option string
}.
Record ContainerPort := { cp_name : option string; cp_container_port : Z }.
Record VolumeMount := {
  vm_name : string; vm_mount_path : string; vm_sub_path : option string;
  vm_read_only : option bool
}.
Record SecurityContext := {
  sc_run_as_user : option Z; sc_run_as_group : option Z;
  sc_privileged : option bool; sc_capabilities_add : option (list string)
}.
Record ResourceRequirements := {
  rr_limits : option (gmap string Quantity);
  rr_requests : option (gmap string Quantity)
}.
Record HTTPGetAction := {
  hg_host : option string; hg_path : option string; hg_port : IntOrString;
  hg_scheme : option string; hg_headers : option (list (string * string))
}.
Record TCPSocketAction := { ts_host : option string; ts_port : IntOrString }.
Record Probe := {
  pr_exec : option (option (list string));
  pr_http_get : option HTTPGetAction;
  pr_tcp_socket : option TCPSocketAction;
  pr_initial_delay_seconds : option Z;
  pr_period_seconds : option Z;
  pr_timeout_seconds : option Z
}.
Record Container := {
  c_name : string;
  c_image : option string;
  c_command : option (list string);
  c_args : option (list string);
  c_working_dir : option string;
  c_env : option (list EnvVar);
  c_env_from : option (list EnvFromSource);
  c_ports : option (list ContainerPort);
  c_resources : option ResourceRequirements;
  c_volume_mounts : option (list VolumeMount);
  c_security_context : option SecurityContext;
  c_liveness_probe : option Probe;
  c_readiness_probe : option Probe;
  c_startup_probe : option Probe
}.
Record Volume := {
  v_name : string;
  v_host_path : option string;
  v_empty_dir : bool;
  v_config_map : option string;
  v_secret : option (option string);
  v_pvc : option string
}.
Record PodSpec := {
  ps_containers : list Container;
  ps_init_containers : option (list Container);
  ps_restart_policy : option string;
  ps_volumes : option (list Volume);
  ps_security_context : option SecurityContext
}.
Record Pod := { pod_metadata : ObjectMeta; pod_spec : option PodSpec }.

Record DeploymentSpec := {
  ds_replicas : option Z;
  ds_match_labels : option (gmap string string);
  ds_template_metadata : option ObjectMeta;
  ds_template_spec : option PodSpec
}.
Record Deployment := { dep_metadata : ObjectMeta; dep_spec : option DeploymentSpec }.

Record ServicePort := {
  sp_name : option string; sp_port : Z; sp_target_port : option IntOrString;
  sp_node_port : option Z
}.
Record ServiceSpec := {
  ss_type : option string;
  ss_cluster_ip : option string;
  ss_cluster_ips : option (list string);
  ss_selector : option (gmap string string);
  ss_ports : option (list ServicePort);
  ss_external_name : option string
}.
Record Service := {
  svc_metadata : ObjectMeta; svc_spec : option ServiceSpec; svc_has_status : bool
}.

Record ConfigMap := {
  cm_metadata : ObjectMeta;
  cm_data : option (gmap string string);
  cm_binary_data : option (gmap string (list Z))
}.
Record Secret := {
  sec_metadata : ObjectMeta;
  sec_data : option (gmap string (list Z));
  sec_string_data : option (gmap string string)
}.

Record ObjectReference := {
  ref_kind : option string; ref_name : option string; ref_namespace : option string
}.
Record PersistentVolumeSpec := {
  pvs_capacity : option (gmap string Quantity);
  pvs_access_modes : option (list string);
  pvs_claim_ref : option ObjectReference;
  pvs_reclaim_policy : option string;
  pvs_host_path : option string
}.
Record PersistentVolume := {
  pv_metadata : ObjectMeta; pv_spec : option PersistentVolumeSpec;
  pv_phase : option (option string)
}.
Record PersistentVolumeClaimSpec := {
  pcs_access_modes : option (list string);
  pcs_requests : option (option (gmap string Quantity));
  pcs_volume_name : option string;
  pcs_storage_class_name : option string
}.
Record PersistentVolumeClaimStatus := {
  pct_phase : option string;
  pct_capacity : option (gmap string Quantity);
  pct_access_modes : option (list string)
}.
Record PersistentVolumeClaim := {
  pvc_metadata : ObjectMeta;
  pvc_spec : option PersistentVolumeClaimSpec;
  pvc_status : option PersistentVolumeClaimStatus
}.

(** ** Custom resources (src/src/netmux/crds.rs) *)

Record VNetSpec := { vs_cidr : option string; vs_internet_access : bool; vs_role : string }.
Record VNet := { vnet_metadata : ObjectMeta; vnet_spec : VNetSpec }.
Record SubnetSpec := { sns_vnet : string; sns_cidr : string }.
Record Subnet := { sn_metadata : ObjectMeta; sn_spec : SubnetSpec }.
Record NsgRule := {
  nr_name : string; nr_action : string; nr_src_cidrs : list string;
  nr_dst_cidrs : list string; nr_ports : list string; nr_protocol : string;
  nr_priority : Z
}.
Record NsgSpec := { ns_target_vnets : list string; ns_rules : list NsgRule }.
Record Nsg := { nsg_metadata : ObjectMeta; nsg_spec : NsgSpec }.
Record HeaderMatch := { hm_name : string; hm_value : string; hm_operator : string }.
Record RouteRule := {
  rt_name : string; rt_methods : list string; rt_paths : list string;
  rt_headers : list HeaderMatch; rt_action : string
}.
Record RouteTable := { rtb_metadata : ObjectMeta; rtb_rules : list RouteRule }.

Record IngressBackendService := { ibs_name : string; ibs_port_number : option (option Z) }.
Record IngressPath := { ip_backend_service : option IngressBackendService }.
Record IngressRule := { ir_host : option string; ir_http : option (list IngressPath) }.
Record Ingress := {
  ing_metadata : ObjectMeta; ing_spec : option (option (list IngressRule))
}.

Record LabelSelectorRequirement := {
  lsr_key : string; lsr_operator : string; lsr_values : option (list string)
}.
Record LabelSelector := {
  ls_match_labels : option (gmap string string);
  ls_match_expressions : option (list LabelSelectorRequirement)
}.
Record IPBlock := { ib_cidr : string; ib_except : option (list string) }.
Record NetworkPolicyPeer := {
  npp_pod_selector : option LabelSelector;
  npp_namespace_selector : option LabelSelector;
  npp_ip_block : option IPBlock
}.
Record NetworkPolicy := {
  np_metadata : ObjectMeta;
  np_spec : option (option (list (option (list NetworkPolicyPeer))))
}.

(** ** AnyResource *)

Inductive AnyResource :=
  | RPod (r : Pod)
  | RDeployment (r : Deployment)
  | RService (r : Service)
  | RConfigMap (r : ConfigMap)
  | RSecret (r : Secret)
  | RPersistentVolume (r : PersistentVolume)
  | RPersistentVolumeClaim (r : PersistentVolumeClaim)
  | RVNet (r : VNet)
  | RSubnet (r : Subnet)
  | RNsg (r : Nsg)
  | RRouteTable (r : RouteTable)
  | RIngress (r : Ingress)
  | RNetworkPolicy (r : NetworkPolicy).

Definition metadata (r : AnyResource) : ObjectMeta :=
  match r with
  | RPod r => pod_metadata r
  | RDeployment r => dep_metadata r
  | RService r => svc_metadata r
  | RConfigMap r => cm_metadata r
  | RSecret r => sec_metadata r
  | RPersistentVolume r => pv_metadata r
  | RPersistentVolumeClaim r => pvc_metadata r
  | RVNet r => vnet_metadata r
  | RSubnet r => sn_metadata r
  | RNsg r => nsg_metadata r
  | RRouteTable r => rtb_metadata r
  | RIngress r => ing_metadata r
  | RNetworkPolicy r => np_metadata r
  end.

(** [*r.metadata_mut() = f(r.metadata)] *)
Definition metadata_mut (f : ObjectMeta → ObjectMeta) (r : AnyResource) : AnyResource :=
  match r with
  | RPod r => RPod {| pod_metadata := f (pod_metadata r); pod_spec := pod_spec r |}
  | RDeployment r =>
      RDeployment {| dep_metadata := f (dep_metadata r); dep_spec := dep_spec r |}
  | RService r =>
      RService {| svc_metadata := f (svc_metadata r); svc_spec := svc_spec r;
                  svc_has_status := svc_has_status r |}
  | RConfigMap r =>
      RConfigMap {| cm_metadata := f (cm_metadata r); cm_data := cm_data r;
                    cm_binary_data := cm_binary_data r |}
  | RSecret r =>
      RSecret {| sec_metadata := f (sec_metadata r); sec_data := sec_data r;
                 sec_string_data := sec_string_data r |}
  | RPersistentVolume r =>
      RPersistentVolume {| pv_metadata := f (pv_metadata r); pv_spec := pv_spec r;
                           pv_phase := pv_phase r |}
  | RPersistentVolumeClaim r =>
      RPersistentVolumeClaim {| pvc_metadata := f (pvc_metadata r);
        pvc_spec := pvc_spec r; pvc_status := pvc_status r |}
  | RVNet r => RVNet {| vnet_metadata := f (vnet_metadata r); vnet_spec := vnet_spec r |}
  | RSubnet r => RSubnet {| sn_metadata := f (sn_metadata r); sn_spec := sn_spec r |}
  | RNsg r => RNsg {| nsg_metadata := f (nsg_metadata r); nsg_spec := nsg_spec r |}
  | RRouteTable r =>
      RRouteTable {| rtb_metadata := f (rtb_metadata r); rtb_rules := rtb_rules r |}
  | RIngress r => RIngress {| ing_metadata := f (ing_metadata r); ing_spec := ing_spec r |}
  | RNetworkPolicy r =>
      RNetworkPolicy {| np_metadata := f (np_metadata r); np_spec := np_spec r |}
  end.

Definition kind (r : AnyResource) : string :=
  match r with
  | RPod _ => "Pod"
  | RDeployment _ => "Deployment"
  | RService _ => "Service"
  | RConfigMap _ => "ConfigMap"
  | RSecret _ => "Secret"
  | RPersistentVolume _ => "PersistentVolume"
  | RPersistentVolumeClaim _ => "PersistentVolumeClaim"
  | RVNet _ => "VNet"
  | RSubnet _ => "Subnet"
  | RNsg _ => "NSG"
  | RRouteTable _ => "RouteTable"
  | RIngress _ => "Ingress"
  | RNetworkPolicy _ => "NetworkPolicy"
  end.

Definition name (r : AnyResource) : string :=
  unwrap_or (om_name (metadata r)) "<unnamed>".

Definition namespace (r : AnyResource) : string :=
  match r with
  | RPersistentVolume _ => ""
  | _ => unwrap_or (om_namespace (metadata r)) "default"
  end.

Definition uid (r : AnyResource) : string :=
  kind r +:+ "/" +:+ namespace r +:+ "/" +:+ name r.

(** [selector.iter().all(|(k, v)| labels.get(k) == Some(v))]; the order of the keys
    does not matter. *)
Definition has_labels (selector lbls : gmap string string) : bool :=
  forallb (λ '(k, v), bool_decide (lbls !! k = Some v)) (btree_iter selector).

Lemma has_labels_spec selector lbls : has_labels selector lbls = true ↔ selector ⊆ lbls.
Proof.
  unfold has_labels. rewrite forallb_forall, map_subseteq_spec. split.
  - intros H k v Hk. specialize (H (k, v)). rewrite <- list_elem_of_In, elem_of_btree_iter in H.
    specialize (H Hk). by apply bool_decide_eq_true in H.
  - intros H [k v]. rewrite <- list_elem_of_In, elem_of_btree_iter. intros Hk.
    by apply bool_decide_eq_true, H.
Qed.

(** ** ResourceStore *)

Inductive ResourceState :=
  | Pending
  | Running
  | Succeeded
  | Failed (msg : string)
  | Terminated.

#[export] Instance ResourceState_eq_dec : EqDecision ResourceState.
Proof. solve_decision. Defined.

Record ResourceTracker := {
  resource : AnyResource;
  state : ResourceState;
  last_updated : Z
}.

Definition tracker_new (now : Z) (r : AnyResource) : ResourceTracker :=
  {| resource := r; state := Pending; last_updated := now |}.

Abbreviation ResourceStore := (gmap string ResourceTracker).

Definition store_new : ResourceStore := ∅.

Definition apply (now : Z) (r : AnyResource) (s : ResourceStore) : ResourceStore :=
  let existing_state := state <$> s !! uid r in
  let tracker := tracker_new now r in
  let tracker :=
    match existing_state with
    | Some st => {| resource := resource tracker; state := st;
                    last_updated := last_updated tracker |}
    | None => tracker
    end in
  <[uid r := tracker]> s.

Definition store_delete (r : AnyResource) (s : ResourceStore) : ResourceStore :=
  delete (uid r) s.

Definition get (u : string) (s : ResourceStore) : option ResourceTracker := s !! u.

Definition update_state (now : Z) (u : string) (st : ResourceState) (s : ResourceStore)
    : ResourceStore :=
  match s !! u with
  | Some t => <[u := {| resource := resource t; state := st; last_updated := now |}]> s
  | None => s
  end.

Section store_iter.
Context `{HO : HashOrder}.

Definition get_all (s : ResourceStore) : list ResourceTracker := hash_values s.

Definition get_by_kind (k : string) (s : ResourceStore) : list ResourceTracker :=
  List.filter (λ t, bool_decide (kind (resource t) = k)) (hash_values s).
End store_iter.

(** ** Helpers *)

Definition extract_containers (r : AnyResource) : list Container :=
  let of_spec s := ps_containers s ++ unwrap_or (ps_init_containers s) [] in
  match r with
  | RPod pod => match pod_spec pod with Some s => of_spec s | None => [] end
  | RDeployment d =>
      match d.(dep_spec) with
      | Some ds => match ds_template_spec ds with Some s => of_spec s | None => [] end
      | None => []
      end
  | _ => []
  end.

(** ** Manifests *)

(** The YAML library: documents, their [kind] field, and the typed decoders
    ([serde_yaml::from_value]). *)
Record YamlLib (doc : Type) := {
  yaml_kind : doc → option string;
  yaml_pod : doc → option Pod;
  yaml_deployment : doc → option Deployment;
  yaml_service : doc → option Service;
  yaml_config_map : doc → option ConfigMap;
  yaml_secret : doc → option Secret;
  yaml_pv : doc → option PersistentVolume;
  yaml_pvc : doc → option PersistentVolumeClaim;
  yaml_vnet : doc → option VNet;
  yaml_subnet : doc → option Subnet;
  yaml_nsg : doc → option Nsg;
  yaml_route_table : doc → option RouteTable;
  yaml_ingress : doc → option Ingress;
  yaml_network_policy : doc → option NetworkPolicy
}.
#[global] Arguments yaml_kind {doc}. #[global] Arguments yaml_pod {doc}.
#[global] Arguments yaml_deployment {doc}. #[global] Arguments yaml_service {doc}.
#[global] Arguments yaml_config_map {doc}. #[global] Arguments yaml_secret {doc}.
#[global] Arguments yaml_pv {doc}. #[global] Arguments yaml_pvc {doc}.
#[global] Arguments yaml_vnet {doc}. #[global] Arguments yaml_subnet {doc}.
#[global] Arguments yaml_nsg {doc}. #[global] Arguments yaml_route_table {doc}.
#[global] Arguments yaml_ingress {doc}. #[global] Arguments yaml_network_policy {doc}.

Section manifest.
Context {doc : Type} (lib : YamlLib doc).

Definition parse_manifest_doc (value : doc) : result AnyResource :=
  match yaml_kind lib value with
  | None => Err "Missing 'kind' field in YAML"
  | Some k =>
      if bool_decide (k = "Pod") then
        RPod <$> ok_or (yaml_pod lib value) "Failed to parse Pod"
      else if bool_decide (k = "Deployment") then
        RDeployment <$> ok_or (yaml_deployment lib value) "Failed to parse Deployment"
      else if bool_decide (k = "Service") then
        RService <$> ok_or (yaml_service lib value) "Failed to parse Service"
      else if bool_decide (k = "ConfigMap") then
        RConfigMap <$> ok_or (yaml_config_map lib value) "Failed to parse ConfigMap"
      else if bool_decide (k = "Secret") then
        RSecret <$> ok_or (yaml_secret lib value) "Failed to parse Secret"
      else if bool_decide (k = "PersistentVolume") then
        RPersistentVolume <$>
          ok_or (yaml_pv lib value) "Failed to parse PersistentVolume"
      else if bool_decide (k = "PersistentVolumeClaim") then
        RPersistentVolumeClaim <$>
          ok_or (yaml_pvc lib value) "Failed to parse PersistentVolumeClaim"
      else if bool_decide (k = "VNet") then
        RVNet <$> ok_or (yaml_vnet lib value) "Failed to parse VNet"
      else if bool_decide (k = "Subnet") then
        RSubnet <$> ok_or (yaml_subnet lib value) "Failed to parse Subnet"
      else if bool_decide (k = "NSG") then
        RNsg <$> ok_or (yaml_nsg lib value) "Failed to parse NSG"
      else if bool_decide (k = "RouteTable") then
        RRouteTable <$> ok_or (yaml_route_table lib value) "Failed to parse RouteTable"
      else if bool_decide (k = "Ingress") then
        RIngress <$> ok_or (yaml_ingress lib value) "Failed to parse Ingress"
      else if bool_decide (k = "NetworkPolicy") then
        RNetworkPolicy <$>
          ok_or (yaml_network_policy lib value) "Failed to parse NetworkPolicy"
      else Err ("Unsupported resource kind: " +:+ k)
  end.

(** [docs] are the documents of the stream; [None] is one that fails to
    parse. The first error ends the loop. *)
Fixpoint parse_manifest_yaml (docs : list (option doc)) : result (list AnyResource) :=
  match docs with
  | [] => Ok []
  | None :: _ => Err "Failed to parse YAML document"
  | Some d :: docs' =>
      match parse_manifest_doc d with
      | Err e => Err e
      | Ok r => cons r <$> parse_manifest_yaml docs'
      end
  end.
End manifest.

(** ** Keys *)

Definition key (k ns n : string) : string := k +:+ "/" +:+ ns +:+ "/" +:+ n.

Definition no_slash (s : string) : Prop := has_char "/" s = false.

Lemma uid_key r : uid r = key (kind r) (namespace r) (name r).
Proof. done. Qed.

Lemma kind_no_slash r : no_slash (kind r).
Proof. by destruct r. Qed.

Lemma key_inj k ns n k' ns' n' :
  no_slash k → no_slash k' → no_slash ns → no_slash ns' →
  key k ns n = key k' ns' n' → k = k' ∧ ns = ns' ∧ n = n'.
Proof.
  intros Hk Hk' Hns Hns' E. unfold key in E. cbn [String.append] in E.
  pose proof (split_once_app "/" k (ns +:+ String "/" n) Hk) as H1.
  cbn [String.append] in H1. rewrite E in H1.
  rewrite (split_once_app "/" k' (ns' +:+ String "/" n') Hk') in H1.
  injection H1 as -> H2.
  pose proof (split_once_app "/" ns n Hns) as H3.
  rewrite <- H2, (split_once_app "/" ns' n' Hns') in H3. by injection H3 as -> ->.
Qed.

(** Two resources share a uid only if they agree on kind, namespace and name,
    when their namespaces contain no slash. *)
Theorem uid_inj r1 r2 :
  no_slash (namespace r1) → no_slash (namespace r2) → uid r1 = uid r2 →
  kind r1 = kind r2 ∧ namespace r1 = namespace r2 ∧ name r1 = name r2.
Proof.
  intros H1 H2. rewrite !uid_key. apply key_inj; auto using kind_no_slash.
Qed.

(** ** The store refines a map keyed by kind, namespace and name *)

Inductive store_op :=
  | OpApply (now : Z) (r : AnyResource)
  | OpDelete (r : AnyResource)
  | OpUpdate (now : Z) (r : AnyResource) (st : ResourceState).

Definition op_resource (o : store_op) : AnyResource :=
  match o with OpApply _ r | OpDelete r | OpUpdate _ r _ => r end.

Definition run_op (o : store_op) (s : ResourceStore) : ResourceStore :=
  match o with
  | OpApply now r => apply now r s
  | OpDelete r => store_delete r s
  | OpUpdate now r st => update_state now (uid r) st s
  end.

Abbreviation Identity := (string * string * string)%type (only parsing).
Definition identity (r : AnyResource) : (string * string * string)%type := (kind r, namespace r, name r).

(** What the store promises: the last applied object of an identity with a
    state that survives re-application. *)
Definition spec_op (o : store_op) (m : gmap Identity (AnyResource * ResourceState))
    : gmap Identity (AnyResource * ResourceState) :=
  match o with
  | OpApply _ r => <[identity r := (r, unwrap_or (snd <$> m !! identity r) Pending)]> m
  | OpDelete r => delete (identity r) m
  | OpUpdate _ r st => alter (λ p, (p.1, st)) (identity r) m
  end.

Definition store_rel (s : ResourceStore) (m : gmap Identity (AnyResource * ResourceState))
    : Prop :=
  ∀ k ns n, no_slash k → no_slash ns →
    m !! (k, ns, n) = (λ t, (resource t, state t)) <$> s !! key k ns n.

Lemma store_rel_lookup s m r :
  store_rel s m → no_slash (namespace r) →
  m !! identity r = (λ t, (resource t, state t)) <$> s !! uid r.
Proof. intros H Hr. rewrite uid_key. apply H; auto using kind_no_slash. Qed.

Lemma run_op_refines o s m :
  store_rel s m → no_slash (namespace (op_resource o)) →
  store_rel (run_op o s) (spec_op o m).
Proof.
  intros H Hr k ns n Hk Hns. pose proof (store_rel_lookup s m (op_resource o) H Hr) as Hl.
  assert (key k ns n = uid (op_resource o) ↔ (k, ns, n) = identity (op_resource o)) as Hkey.
  { rewrite uid_key. unfold identity. split; [|by intros [= -> -> ->]].
    intros (-> & -> & ->)%key_inj; auto using kind_no_slash. }
  destruct (decide ((k, ns, n) = identity (op_resource o))) as [E|E].
  - rewrite E, (proj2 Hkey E). destruct o as [now r|r|now r st]; cbn [op_resource run_op spec_op] in *.
    + rewrite lookup_insert_eq, Hl. unfold apply. rewrite lookup_insert_eq.
      by destruct (s !! uid r).
    + unfold store_delete. by rewrite !lookup_delete_eq.
    + rewrite lookup_alter_eq, Hl. unfold update_state.
      destruct (s !! uid r) eqn:Es; cbn; [by rewrite lookup_insert_eq|by rewrite Es].
  - assert (uid (op_resource o) ≠ key k ns n) as Hne by (intros E'; apply E, Hkey; congruence).
    destruct o as [now r|r|now r st]; cbn [op_resource run_op spec_op] in *.
    + rewrite lookup_insert_ne by congruence. unfold apply.
      rewrite lookup_insert_ne by done. by apply H.
    + unfold store_delete. rewrite !lookup_delete_ne by congruence. by apply H.
    + rewrite lookup_alter_ne by congruence. unfold update_state.
      destruct (s !! uid r); [rewrite lookup_insert_ne by done|]; by apply H.
Qed.

(** C4. Any sequence of store operations on resources whose namespaces contain no
    slash leaves the store representing what the specification computes. *)
Theorem store_refines ops :
  Forall (λ o, no_slash (namespace (op_resource o))) ops →
  store_rel (foldl (λ s o, run_op o s) store_new ops)
    (foldl (λ m o, spec_op o m) ∅ ops).
Proof.
  intros Hops.
  assert (store_rel store_new ∅) as H0.
  { intros k ns n _ _. unfold store_new. by rewrite !lookup_empty. }
  revert H0. generalize store_new, (∅ : gmap Identity (AnyResource * ResourceState)).
  induction Hops as [|o ops Ho _ IH]; intros s m H; cbn; [done|].
  by apply IH, run_op_refines.
Qed.

(** Every entry of a reachable store is filed under the uid of its resource. *)
Definition store_wf (s : ResourceStore) : Prop := ∀ u t, s !! u = Some t → uid (resource t) = u.

Lemma run_op_wf o s : store_wf s → store_wf (run_op o s).
Proof.
  intros H u t. destruct o as [now r|r|now r st]; cbn.
  - unfold apply. rewrite lookup_insert. case_decide as E; [|apply H].
    intros [= <-]. destruct (s !! uid r); by cbn.
  - unfold store_delete. intros [_ Ht]%lookup_delete_Some. by apply H.
  - unfold update_state. destruct (s !! uid r) eqn:Es; [|apply H].
    rewrite lookup_insert. case_decide as E; [|apply H].
    intros [= <-]. cbn. rewrite <- E. by apply H.
Qed.

Lemma store_new_wf : store_wf store_new.
Proof. intros u t Ht. unfold store_new in Ht. by rewrite lookup_empty in Ht. Qed.

(** [get_by_kind] of a well-formed store lists exactly the trackers of that
    kind, each once. *)
Theorem get_by_kind_spec `{HashOrder} k s t :
  store_wf s →
  (t ∈ get_by_kind k s ↔ kind (resource t) = k ∧ s !! uid (resource t) = Some t)
  ∧ NoDup (get_by_kind k s).
Proof.
  intros Hwf. split.
  - unfold get_by_kind. rewrite list_elem_of_In, filter_In, <- list_elem_of_In.
    rewrite elem_of_hash_values, bool_decide_eq_true. split.
    + intros [[u Hu] Hk]. by rewrite (Hwf u t Hu).
    + intros [Hk Hu]. split; [by eexists|done].
  - apply NoDup_ListNoDup, List.NoDup_filter, NoDup_ListNoDup.
    unfold hash_values.
    assert (NoDup ((uid ∘ resource) <$> (hash_iter s).*2)) as Hn.
    { assert ((uid ∘ resource) <$> (hash_iter s).*2 = (hash_iter s).*1) as ->.
      { rewrite <- list_fmap_compose. apply list_fmap_ext. intros i [u t'] Hi.
        apply list_elem_of_lookup_2, elem_of_hash_iter in Hi. by apply Hwf. }
      rewrite hash_iter_perm. apply NoDup_fst_map_to_list. }
    by apply NoDup_fmap_1 in Hn.
Qed.

(** A stream is accepted only when every document parses, and then the
    resources are in document order, each of the kind its document names. *)
Theorem parse_manifest_kinds {doc} (lib : YamlLib doc) docs rs :
  parse_manifest_yaml lib docs = Ok rs →
  Forall2 (λ d r, ∃ v, d = Some v ∧ yaml_kind lib v = Some (kind r)) docs rs.
Proof.
  revert rs. induction docs as [|[v|] docs IH]; intros rs; cbn; [|destruct (parse_manifest_doc lib v) as [r|] eqn:E|done].
  - intros [= <-]. constructor.
  - destruct (parse_manifest_yaml lib docs) as [rs'|]; [|done]. intros [= <-].
    constructor; [|by apply IH]. exists v. split; [done|].
    revert E. unfold parse_manifest_doc. destruct (yaml_kind lib v) as [k|]; [|done].
    repeat (case_bool_decide as Hk; [rewrite Hk; destruct (ok_or _ _) eqn:Eo; cbn; [by intros [= <-]|done]|clear Hk]).
    done.
  - done.
Qed.

(** ** Concrete instances *)

Definition sample_meta (n ns : string) : ObjectMeta :=
  set_namespace (Some ns) (set_name (Some n) meta_default).
Definition sample_pod (n ns : string) : AnyResource :=
  RPod {| pod_metadata := sample_meta n ns; pod_spec := None |}.

Lemma uid_inj_witness :
  kind (sample_pod "a/b" "c") = "Pod" ∧ "c" = "c" ∧ "a/b" = name (sample_pod "a/b" "c").
Proof. by apply (uid_inj (sample_pod "a/b" "c") (sample_pod "a/b" "c")). Defined.

Lemma store_refines_witness :
  store_rel
    (run_op (OpDelete (sample_pod "b" "x"))
      (run_op (OpUpdate 2 (sample_pod "a" "x") Running)
        (run_op (OpApply 1 (sample_pod "a" "x")) store_new)))
    {[ ("Pod", "x", "a") := (sample_pod "a" "x", Running) ]}.
Proof.
  apply (store_refines [OpApply 1 (sample_pod "a" "x");
    OpUpdate 2 (sample_pod "a" "x") Running; OpDelete (sample_pod "b" "x")]).
  by repeat constructor.
Defined.

Definition sample_store : ResourceStore := apply 1 (sample_pod "a" "x") store_new.

Lemma get_by_kind_spec_witness :
  get_by_kind "Pod" sample_store = [tracker_new 1 (sample_pod "a" "x")]
  ∧ NoDup (get_by_kind "Pod" sample_store).
Proof.
  split; [by vm_compute|].
  apply (get_by_kind_spec "Pod" sample_store (tracker_new 1 (sample_pod "a" "x"))).
  apply (run_op_wf (OpApply 1 (sample_pod "a" "x"))), store_new_wf.
Defined.

Definition sample_yaml : YamlLib string := {|
  yaml_kind s := if bool_decide (s = "p") then Some "Pod" else None;
  yaml_pod _ := Some {| pod_metadata := meta_default; pod_spec := None |};
  yaml_deployment _ := None; yaml_service _ := None; yaml_config_map _ := None;
  yaml_secret _ := None; yaml_pv _ := None; yaml_pvc _ := None; yaml_vnet _ := None;
  yaml_subnet _ := None; yaml_nsg _ := None; yaml_route_table _ := None;
  yaml_ingress _ := None; yaml_network_policy _ := None |}.

Lemma parse_manifest_kinds_witness :
  Forall2 (λ d r, ∃ v, d = Some v ∧ yaml_kind sample_yaml v = Some (kind r))
    [Some "p"] [RPod {| pod_metadata := meta_default; pod_spec := None |}].
Proof. by apply (parse_manifest_kinds sample_yaml). Defined.
