(* ===== verification/Quantity.v ===== *)
(** * Quantity: Kubernetes quantities (src/src/types.rs)

    [parse_quantity_bytes] with the wrap-around of [u64] multiplication, and
    [parse_quantity_cpu] with IEEE binary64 arithmetic: the decimal literal is
    rounded once to the nearest double, multiplied by 100000.0, and cast to
    [i64] with the saturation of [as]. *)
From Stdlib Require Import SpecFloat.
From S2P Require Import Prelude Text Resources.

(** ** Bytes *)

(** [rest.parse::<u64>().unwrap_or(0) * factor] *)
Definition scaled (rest : string) (factor : Z) : Z :=
  u64 (unwrap_or (parse_u64 rest) 0 * factor).

Definition parse_quantity_bytes (q : Quantity) : Z :=
  let s := trim q in
  match strip_suffix "Ti" s with Some rest => scaled rest (1024 ^ 4) | None =>
  match strip_suffix "Gi" s with Some rest => scaled rest (1024 ^ 3) | None =>
  match strip_suffix "Mi" s with Some rest => scaled rest (1024 ^ 2) | None =>
  match strip_suffix "Ki" s with Some rest => scaled rest 1024 | None =>
  match strip_suffix "Pi" s with Some rest => scaled rest (1024 ^ 5) | None =>
  match strip_suffix "Ei" s with Some rest => scaled rest (1024 ^ 6) | None =>
  match strip_suffix "T" s with Some rest => scaled rest 1000000000000 | None =>
  match strip_suffix "G" s with Some rest => scaled rest 1000000000 | None =>
  match strip_suffix "M" s with Some rest => scaled rest 1000000 | None =>
  match strip_suffix "k" s with Some rest => scaled rest 1000 | None =>
  unwrap_or (parse_u64 s) 0
  end end end end end end end end end end.

(** ** CPU *)

(** Binary64: 53 bits of precision, exponents up to 1024. *)
Definition f64_div := SFdiv 53 1024.
Definition f64_mul := SFmul 53 1024.

Definition f64_of_Z (z : Z) : spec_float :=
  match z with
  | Z0 => S754_zero false
  | Zpos p => binary_normalize 53 1024 (Zpos p) 0 false
  | Zneg p => binary_normalize 53 1024 (Zneg p) 0 true
  end.

(** The double nearest to [(-1)^neg * m * 10^e]. *)
Definition f64_of_dec (neg : bool) (m e : Z) : spec_float :=
  match m with
  | Zpos p =>
      if 0 <=? e then
        binary_normalize 53 1024 (if neg then - (m * 10 ^ e) else m * 10 ^ e) 0 neg
      else f64_div (S754_finite neg p 0) (S754_finite false (Z.to_pos (10 ^ (- e))) 0)
  | _ => S754_zero neg
  end.

(** Digits of a prefix of [s]: their value, their number, and the rest. *)
Fixpoint take_digits (acc : Z) (n : nat) (s : string) : Z * nat * string :=
  match s with
  | String a s' =>
      match dec_digit a with
      | Some d => take_digits (acc * 10 + d) (S n) s'
      | None => (acc, n, s)
      end
  | EmptyString => (acc, n, s)
  end.

(** An exponent [e+5], [E-3], ..., or nothing. *)
Definition parse_exponent (s : string) : option Z :=
  match s with
  | EmptyString => Some 0
  | String a s' =>
      if Ascii.eqb a "e" || Ascii.eqb a "E" then
        match s' with
        | String "-" r => Z.opp <$> parse_dec r
        | String "+" r => parse_dec r
        | _ => parse_dec s'
        end
      else None
  end.

(** [Number ::= Digit+ | Digit+ '.' Digit* | Digit* '.' Digit+, Exp?] *)
Definition parse_f64_number (neg : bool) (s : string) : option spec_float :=
  match take_digits 0 0 s with
  | (ip, ni, String "." r) =>
      match take_digits ip 0 r with
      | (m, nf, r') =>
          if (ni + nf =? 0)%nat then None
          else match parse_exponent r' with
               | Some e => Some (f64_of_dec neg m (e - Z.of_nat nf))
               | None => None
               end
      end
  | (ip, ni, r) =>
      if (ni =? 0)%nat then None
      else match parse_exponent r with
           | Some e => Some (f64_of_dec neg ip e)
           | None => None
           end
  end.

(** [s.parse::<f64>().ok()] *)
Definition parse_f64 (s : string) : option spec_float :=
  let go neg s :=
    let l := to_ascii_lowercase s in
    if bool_decide (l = "inf") || bool_decide (l = "infinity") then Some (S754_infinity neg)
    else if bool_decide (l = "nan") then Some S754_nan
    else parse_f64_number neg s in
  match s with
  | String "-" r => go true r
  | String "+" r => go false r
  | _ => go false s
  end.

(** [x as i64]: truncation toward zero, saturating, NaN to 0. *)
Definition f64_to_i64 (x : spec_float) : Z :=
  let clamp z := Z.max (- 2 ^ 63) (Z.min (2 ^ 63 - 1) z) in
  match x with
  | S754_zero _ => 0
  | S754_infinity neg => if neg then - 2 ^ 63 else 2 ^ 63 - 1
  | S754_nan => 0
  | S754_finite neg m e =>
      let a := if 0 <=? e then Zpos m * 2 ^ e else Zpos m / 2 ^ (- e) in
      clamp (if neg then - a else a)
  end.

Definition parse_quantity_cpu (q : Quantity) : Z * Z :=
  let s := trim q in
  match strip_suffix "m" s with
  | Some rest =>
      let millicores := unwrap_or (parse_i64 rest) 0 in
      (i64 (millicores * 100), 100000)
  | None =>
      let cores := unwrap_or (parse_f64 s) (S754_zero false) in
      (f64_to_i64 (f64_mul cores (f64_of_Z 100000)), 100000)
  end.

Example cpu_half : parse_quantity_cpu "0.5" = (50000, 100000).
Proof. vm_compute. reflexivity. Qed.
Example cpu_third : parse_quantity_cpu " .29 " = (28999, 100000).
Proof. vm_compute. reflexivity. Qed.
Example cpu_millis : parse_quantity_cpu "500m" = (50000, 100000).
Proof. vm_compute. reflexivity. Qed.
Example bytes_mi : parse_quantity_bytes "256Mi" = 256 * 1024 * 1024.
Proof. vm_compute. reflexivity. Qed.

(** ** The value of a quantity *)

(** The suffixes the code knows, with their factors. *)
Definition byte_suffixes : list (string * Z) :=
  [("Ti", 1024 ^ 4); ("Gi", 1024 ^ 3); ("Mi", 1024 ^ 2); ("Ki", 1024);
   ("Pi", 1024 ^ 5); ("Ei", 1024 ^ 6); ("T", 10 ^ 12); ("G", 10 ^ 9);
   ("M", 10 ^ 6); ("k", 10 ^ 3)].

Lemma scaled_display n f : 0 ≤ n < 2 ^ 64 → scaled (display n) f = u64 (n * f).
Proof. intros Hn. unfold scaled, parse_u64. by rewrite parse_unsigned_display. Qed.

Lemma trim_number_suffix n t :
  0 ≤ n → forallb graphic (chars t) = true → trim (display n +:+ t) = display n +:+ t.
Proof.
  intros Hn Ht. apply all_graphic_trim. rewrite chars_app, forallb_app, Ht.
  by rewrite display_graphic.
Qed.

(** Decides a suffix test on [display n +:+ t] from [t]. *)
Ltac suffix_step :=
  match goal with
  | |- context [strip_suffix ?p (_ +:+ ?p)] => rewrite (strip_suffix_app p)
  | |- context [strip_suffix ?p (_ +:+ ?t)] =>
      first [ rewrite (strip_suffix_last_ne p _ t _ _ _ _ eq_refl eq_refl)
                by discriminate
            | rewrite (strip_suffix_app_ne p _ t)
                by (first [reflexivity | cbn; lia]) ]
  end.

(** A decimal number followed by one of the known suffixes denotes the product,
    as [u64] arithmetic computes it: exact below [2 ^ 64], reduced modulo
    [2 ^ 64] above. *)
Theorem parse_quantity_bytes_suffix n suf f :
  0 ≤ n < 2 ^ 64 → (suf, f) ∈ byte_suffixes →
  parse_quantity_bytes (display n +:+ suf) = u64 (n * f).
Proof.
  intros Hn Hin. unfold byte_suffixes in Hin.
  repeat (apply elem_of_cons in Hin as [[= -> ->]|Hin]); [..|by inversion Hin].
  all: unfold parse_quantity_bytes; rewrite trim_number_suffix by (first [done | lia]).
  all: repeat suffix_step.
  all: by rewrite scaled_display.
Qed.

Lemma parse_quantity_bytes_suffix_witness :
  (0 ≤ 3 < 2 ^ 64 ∧ ("Gi", 1024 ^ 3) ∈ byte_suffixes)
  ∧ parse_quantity_bytes ("3" +:+ "Gi") = 3221225472.
Proof.
  split; [split; [lia|by apply (list_elem_of_lookup_2 _ 1)]|].
  assert (0 ≤ 3 < 2 ^ 64) as Hn by lia.
  assert (("Gi", 1024 ^ 3) ∈ byte_suffixes) as Hin by by apply (list_elem_of_lookup_2 _ 1).
  exact (parse_quantity_bytes_suffix 3 "Gi" (1024 ^ 3) Hn Hin).
Defined.

(** A number without suffix is itself. *)
Lemma parse_quantity_bytes_plain n :
  0 ≤ n < 2 ^ 64 → parse_quantity_bytes (display n) = n.
Proof.
  intros Hn. unfold parse_quantity_bytes.
  rewrite all_graphic_trim by (apply display_graphic; lia).
  rewrite !strip_suffix_digits by (first [lia | reflexivity]).
  unfold parse_u64. by rewrite parse_unsigned_display.
Qed.

Lemma scaled_range s f : 0 ≤ scaled s f < 2 ^ 64.
Proof. unfold scaled. by apply (wrap_range 64). Qed.

Lemma parse_quantity_bytes_range q : 0 ≤ parse_quantity_bytes q < 2 ^ 64.
Proof.
  unfold parse_quantity_bytes.
  repeat (destruct (strip_suffix _ (trim q)); [apply scaled_range|]).
  destruct (parse_u64 (trim q)) as [z|] eqn:E; cbn; [|lia].
  unfold parse_u64, parse_unsigned, in_range in E. repeat case_match; simplify_eq; to_prop; lia.
Qed.

(** The capacity comparison of the binder reads these values: a request of 16Ei
    wraps to zero, and a fractional request is unreadable and counts as zero. *)
Theorem quantity_not_monotone :
  parse_quantity_bytes "16Ei" = 0 ∧ parse_quantity_bytes "15Ei" = 15 * 1024 ^ 6
  ∧ parse_quantity_bytes "1.5Gi" = 0 ∧ parse_quantity_bytes "1P" = 0.
Proof. by vm_compute. Qed.

Lemma parse_signed_display w z : 0 < w → 0 ≤ z < 2 ^ (w - 1) → parse_signed w (display z) = Some z.
Proof.
  intros Hw Hz. pose proof (parse_dec_display z) as H. unfold parse_signed.
  destruct (display z) as [|a s] eqn:E; [specialize (H ltac:(lia)); discriminate H|].
  assert (a ≠ "+"%char ∧ a ≠ "-"%char) as [Ha Hb].
  { split; intros ->; by eapply (display_head z); [lia|done|]. }
  assert (in_range (- 2 ^ (w - 1)) (2 ^ (w - 1) - 1) (parse_dec (String a s)) = Some z) as Hp.
  { rewrite H by lia. unfold in_range.
    replace ((- 2 ^ (w - 1) <=? z) && (z <=? 2 ^ (w - 1) - 1)) with true; [done|].
    symmetry. apply andb_true_iff. split; apply Z.leb_le; lia. }
  clear H E. by destruct a as [[] [] [] [] [] [] [] []]; try exact Hp; first [destruct Ha|destruct Hb].
Qed.

(** [n] millicores are [n * 100] microseconds of quota in a period of 100 ms. *)
Theorem parse_quantity_cpu_millis n :
  0 ≤ n * 100 < 2 ^ 63 → parse_quantity_cpu (display n +:+ "m") = (n * 100, 100000).
Proof.
  intros Hn. unfold parse_quantity_cpu.
  rewrite trim_number_suffix by (first [done | lia]).
  rewrite strip_suffix_app. unfold parse_i64. rewrite parse_signed_display by lia.
  cbn [unwrap_or]. unfold i64. rewrite swrap_small; [done|lia|]. lia.
Qed.

Lemma parse_quantity_cpu_millis_witness :
  0 ≤ 1500 * 100 < 2 ^ 63 ∧ parse_quantity_cpu "1500m" = (150000, 100000).
Proof. split; [lia|]. apply (parse_quantity_cpu_millis 1500). lia. Defined.

(** Whole cores up to 1024, by evaluating the double arithmetic. *)
Lemma parse_quantity_cpu_cores n :
  0 ≤ n ≤ 1024 → parse_quantity_cpu (display n) = (n * 100000, 100000).
Proof.
  intros Hn.
  assert (forallb (λ n, bool_decide (parse_quantity_cpu (display n) = (n * 100000, 100000)))
            (seqZ 0 1025) = true) as H by (vm_compute; reflexivity).
  rewrite forallb_forall in H. specialize (H n).
  rewrite bool_decide_eq_true in H. apply H, list_elem_of_In, elem_of_seqZ. lia.
Qed.
