(* ===== verification/Pool.v ===== *)
(** * Pool: CIDR blocks and the IP pool (src/src/netmux/pool.rs)

    [Ipv4Cidr] and [IpPool]. The [BTreeSet<u32>] of free addresses is the
    strictly increasing list of its elements, which is also the order of its
    iterators. [u32] arithmetic wraps and shift amounts are masked. *)
From S2P Require Import Prelude Text Utf8.

(** ** BTreeSet<u32> *)

Fixpoint set_insert (x : Z) (l : list Z) : list Z :=
  match l with
  | [] => [x]
  | y :: l' =>
      if x <? y then x :: l else if x =? y then l else y :: set_insert x l'
  end.

Fixpoint set_remove (x : Z) (l : list Z) : list Z :=
  match l with
  | [] => []
  | y :: l' => if x =? y then l' else y :: set_remove x l'
  end.

Abbreviation sorted := (StronglySorted Z.lt).

(** [for i in lo..hi { f(i) }] *)
Definition range (lo hi : Z) : list Z := seqZ lo (hi - lo).

(** ** Ipv4Cidr *)

Record Ipv4Cidr := { network : Ipv4Addr; prefix : Z }.

(** [!0u32 << (32 - prefix)], the subtraction being on [u8]. *)
Definition cidr_mask (p : Z) : Z := shl32 (2 ^ 32 - 1) (u8 (32 - p)).

Definition cidr_parse (s : string) : option Ipv4Cidr :=
  '(ip_str, prefix_str) ← split_once "/" s;
  p ← parse_u8 prefix_str;
  if 32 <? p then None
  else
    ip ← parse_ipv4addr ip_str;
    Some {| network := Z.land ip (cidr_mask p); prefix := p |}.

Definition host_count (c : Ipv4Cidr) : Z :=
  let bits := u32 (32 - prefix c) in
  u32 (shl32 1 bits - 2).

Definition cidr_contains (c : Ipv4Cidr) (ip : Ipv4Addr) : bool :=
  let mask := cidr_mask (prefix c) in
  Z.land ip mask =? Z.land (network c) mask.

(** ** IpPool *)

Record IpPool := { cidr : Ipv4Cidr; free : list Z }.

Definition insert_range (network lo hi : Z) (l : list Z) : list Z :=
  foldl (λ l i, set_insert (u32 (network + i)) l) l (range lo hi).

Definition pool_new (c : Ipv4Cidr) : IpPool :=
  let bits := u32 (32 - prefix c) in
  let total := shl32 1 bits in
  {| cidr := c;
     free := if 31 <=? prefix c then insert_range (network c) 0 total []
             else insert_range (network c) 2 (u32 (total - 1)) [] |}.

(** The methods take [&mut self]: they return the new pool. *)
Definition allocate (p : IpPool) : option Ipv4Addr * IpPool :=
  match free p with
  | [] => (None, p)
  | ip :: rest => (Some ip, {| cidr := cidr p; free := rest |})
  end.

Definition release (ip : Ipv4Addr) (p : IpPool) : IpPool :=
  {| cidr := cidr p; free := set_insert ip (free p) |}.

Definition count_free (p : IpPool) : Z := Z.of_nat (length (free p)).

Definition expand (new_cidr : Ipv4Cidr) (p : IpPool) : result unit * IpPool :=
  let old_network := network (cidr p) in
  let old_size := shl32 1 (u32 (32 - prefix (cidr p))) in
  let new_network := network new_cidr in
  if negb (new_network =? u32 (old_network + old_size)) then
    (Err "New CIDR is not adjacent to current CIDR", p)
  else
    let bits := u32 (32 - prefix new_cidr) in
    (Ok (), {| cidr := cidr p;
               free := insert_range new_network 0 (shl32 1 bits) (free p) |}).

(** [v.windows(n)] for [n > 0] *)
Fixpoint windows {A} (n : nat) (l : list A) : list (list A) :=
  match l with
  | [] => []
  | _ :: l' => if (n <=? length l)%nat then take n l :: windows n l' else []
  end.

(** The loop body of [allocate_subnet]: the start of a window that is an
    aligned contiguous block. *)
Definition check_window (subnet_size : Z) (window : list Z) : option Z :=
  match window with
  | [] => None
  | start :: _ =>
      if negb (Z.land start (subnet_size - 1) =? 0) then None
      else if forallb (λ '(i, v), v =? u32 (start + i))
                (zip (seqZ 0 (Z.of_nat (length window))) window)
      then Some start else None
  end.

Definition subnet_size (subnet_prefix : Z) : Z := shl32 1 (u32 (32 - subnet_prefix)).

Definition allocate_subnet (subnet_prefix : Z) (p : IpPool) : option Ipv4Cidr * IpPool :=
  let size := subnet_size subnet_prefix in
  if u32 (Z.of_nat (length (free p))) <? size then (None, p)
  else
    match find_map (check_window size) (windows (Z.to_nat size) (free p)) with
    | Some start =>
        (Some {| network := start; prefix := subnet_prefix |},
         {| cidr := cidr p;
            free := foldl (λ l ip, set_remove ip l) (free p)
                      (range start (u32 (start + size))) |})
    | None => (None, p)
    end.

Example pool_30 : free (pool_new {| network := 0x0A2A0000; prefix := 30 |}) = [0x0A2A0002].
Proof. reflexivity. Qed.
Example parse_20 : cidr_parse "10.42.1.7/20" = Some {| network := 0x0A2A0000; prefix := 20 |}.
Proof. by vm_compute. Qed.

(** ** Sets *)

Lemma elem_of_set_insert x y l : y ∈ set_insert x l ↔ y = x ∨ y ∈ l.
Proof.
  induction l as [|z l IH]; cbn; [set_solver|].
  destruct (Z.ltb_spec x z); [set_solver|].
  destruct (Z.eqb_spec x z); [subst|]; set_solver.
Qed.

Lemma elem_of_release y x p : y ∈ free (release x p) ↔ y = x ∨ y ∈ free p.
Proof. apply elem_of_set_insert. Qed.

Lemma set_insert_sorted x l : sorted l → sorted (set_insert x l).
Proof.
  induction 1 as [|z l Hs IH Hz]; cbn; [repeat constructor|].
  destruct (Z.ltb_spec x z).
  - constructor; [by constructor|]. constructor; [done|].
    eapply Forall_impl; [exact Hz|]. cbn. intros. lia.
  - destruct (Z.eqb_spec x z); [by constructor|]. constructor; [done|].
    apply Forall_forall. intros y [->|Hy]%elem_of_set_insert; [lia|].
    rewrite Forall_forall in Hz. auto.
Qed.

Lemma elem_of_set_remove x y l : sorted l → (y ∈ set_remove x l ↔ y ≠ x ∧ y ∈ l).
Proof.
  induction 1 as [|z l Hs IH Hz]; cbn; [set_solver|]. rewrite Forall_forall in Hz.
  destruct (Z.eqb_spec x z) as [->|Hne].
  - split; [|set_solver]. intros Hy. split; [|set_solver]. specialize (Hz y Hy). lia.
  - rewrite !elem_of_cons, IH. split; [|naive_solver].
    intros [->|[? ?]]; [split; [congruence|by left]|split; [done|by right]].
Qed.

Lemma set_remove_sorted x l : sorted l → sorted (set_remove x l).
Proof.
  induction 1 as [|z l Hs IH Hz]; cbn; [constructor|].
  destruct (x =? z); [done|]. constructor; [done|].
  rewrite Forall_forall in *. intros y Hy%elem_of_set_remove; [|done]. naive_solver.
Qed.

Lemma sorted_NoDup l : sorted l → NoDup l.
Proof.
  induction 1 as [|x l Hs IH Hx]; constructor; [|done]. intros Hin.
  rewrite Forall_forall in Hx. specialize (Hx x Hin). lia.
Qed.

Lemma set_insert_perm x l : x ∉ l → set_insert x l ≡ₚ x :: l.
Proof.
  induction l as [|y l IH]; cbn; [done|]. intros Hx.
  destruct (x <? y); [done|]. destruct (Z.eqb_spec x y); [set_solver|].
  rewrite IH by set_solver. constructor.
Qed.

Lemma foldl_set_insert_sorted {A} (f : A → Z) (js : list A) l :
  sorted l → sorted (foldl (λ l i, set_insert (f i) l) l js).
Proof. revert l. induction js; cbn; auto using set_insert_sorted. Qed.

Lemma elem_of_foldl_set_insert {A} (f : A → Z) (js : list A) l y :
  y ∈ foldl (λ l i, set_insert (f i) l) l js ↔ y ∈ l ∨ ∃ i, i ∈ js ∧ y = f i.
Proof.
  revert l. induction js as [|i js IH]; intros l; cbn; [set_solver|].
  rewrite IH, elem_of_set_insert. set_solver.
Qed.

Lemma foldl_set_remove_sorted xs l :
  sorted l → sorted (foldl (λ l ip, set_remove ip l) l xs).
Proof. revert l. induction xs; cbn; auto using set_remove_sorted. Qed.

Lemma elem_of_foldl_set_remove xs l y :
  sorted l → (y ∈ foldl (λ l ip, set_remove ip l) l xs ↔ y ∈ l ∧ y ∉ xs).
Proof.
  revert l. induction xs as [|x xs IH]; intros l Hl; cbn; [set_solver|].
  rewrite IH by by apply set_remove_sorted. rewrite elem_of_set_remove by done. set_solver.
Qed.

Lemma insert_range_sorted n lo hi l : sorted l → sorted (insert_range n lo hi l).
Proof. apply foldl_set_insert_sorted. Qed.

Lemma elem_of_range lo hi i : i ∈ range lo hi ↔ lo ≤ i < hi.
Proof. unfold range. rewrite elem_of_seqZ. lia. Qed.

Lemma elem_of_insert_range n lo hi l y :
  y ∈ insert_range n lo hi l ↔ y ∈ l ∨ ∃ i, lo ≤ i < hi ∧ y = u32 (n + i).
Proof.
  unfold insert_range. rewrite elem_of_foldl_set_insert. setoid_rewrite elem_of_range. done.
Qed.

Lemma pool_new_sorted c : sorted (free (pool_new c)).
Proof. cbn. destruct (31 <=? prefix c); apply insert_range_sorted; constructor. Qed.

(** ** Membership in a block *)

(** The number of addresses of a block with prefix [p]. *)
Definition block_size (p : Z) : Z := 2 ^ (32 - p).

Lemma block_size_pos p : 0 ≤ p ≤ 32 → 0 < block_size p.
Proof. intros. apply Z.pow_pos_nonneg; lia. Qed.

Lemma prefix_cases (P : Z → Prop) lo hi :
  (∀ p, p ∈ seqZ lo (hi - lo + 1) → P p) → ∀ p, lo ≤ p ≤ hi → P p.
Proof. intros H p Hp. apply H, elem_of_seqZ. lia. Qed.

Lemma cidr_mask_ones p :
  1 ≤ p ≤ 32 → cidr_mask p = Z.shiftl (Z.ones p) (32 - p).
Proof.
  revert p. apply prefix_cases. intros p Hp.
  assert (forallb (λ p, cidr_mask p =? Z.shiftl (Z.ones p) (32 - p)) (seqZ 1 32) = true) as H
    by by vm_compute.
  rewrite forallb_forall in H. by apply Z.eqb_eq, H, list_elem_of_In.
Qed.

Lemma subnet_size_pow p : 1 ≤ p ≤ 32 → subnet_size p = block_size p.
Proof.
  revert p. apply prefix_cases. intros p Hp.
  assert (forallb (λ p, subnet_size p =? block_size p) (seqZ 1 32) = true) as H
    by by vm_compute.
  rewrite forallb_forall in H. by apply Z.eqb_eq, H, list_elem_of_In.
Qed.

(** Masking clears the host bits. *)
Lemma land_cidr_mask x p :
  1 ≤ p ≤ 32 → ipv4_ok x → Z.land x (cidr_mask p) = x / block_size p * block_size p.
Proof.
  intros Hp Hx. unfold block_size. rewrite cidr_mask_ones by done.
  rewrite <- Z.shiftr_div_pow2, <- Z.shiftl_mul_pow2 by lia.
  assert (Z.shiftr x (32 - p) = Z.land (Z.shiftr x (32 - p)) (Z.ones p)) as ->.
  { rewrite Z.land_ones, Z.mod_small; [done| |lia].
    rewrite Z.shiftr_div_pow2 by lia. split; [apply Z.div_pos; [apply Hx|apply block_size_pos; lia]|].
    apply Z.div_lt_upper_bound; [apply block_size_pos; lia|].
    rewrite <- Z.pow_add_r by lia. replace (32 - p + p) with 32 by lia. apply Hx. }
  apply Z.bits_inj'. intros n Hn. rewrite Z.land_spec.
  destruct (Z_lt_le_dec n (32 - p)) as [Hlt|Hle].
  - rewrite !Z.shiftl_spec_low by done. apply andb_false_r.
  - rewrite !Z.shiftl_spec, Z.land_spec, Z.shiftr_spec by lia. do 2 f_equal. lia.
Qed.

Lemma parse_octet_range s z : parse_octet s = Some z → 0 ≤ z < 256.
Proof.
  assert (in_range 0 255 (parse_dec s) = Some z → 0 ≤ z < 256) as H.
  { unfold in_range. destruct (parse_dec s); [|done].
    destruct (_ && _) eqn:E; [|done]. intros [= <-]. to_prop. lia. }
  unfold parse_octet. intros E. apply H. revert E.
  repeat case_match; done.
Qed.

Lemma parse_ipv4addr_ok s ip : parse_ipv4addr s = Some ip → ipv4_ok ip.
Proof.
  unfold parse_ipv4addr.
  destruct (split_on "." s) as [|a [|b [|c [|d [|? ?]]]]]; try done.
  destruct (parse_octet a) eqn:Ea, (parse_octet b) eqn:Eb, (parse_octet c) eqn:Ec,
    (parse_octet d) eqn:Ed; try done.
  apply parse_octet_range in Ea, Eb, Ec, Ed. intros [= <-].
  unfold ipv4_new, from_be32, ipv4_ok. lia.
Qed.

Lemma cidr_parse_ok s c :
  cidr_parse s = Some c →
  0 ≤ prefix c ≤ 32 ∧ ∃ ip, ipv4_ok ip ∧ network c = Z.land ip (cidr_mask (prefix c)).
Proof.
  unfold cidr_parse. destruct (split_once "/" s) as [[a b]|]; [|done]. cbn.
  destruct (parse_u8 b) as [p|] eqn:Ep; [|done]. cbn.
  destruct (Z.ltb_spec 32 p); [done|].
  destruct (parse_ipv4addr a) as [ip|] eqn:Ei; [|done]. cbn. intros [= <-]. cbn.
  split; [|exists ip; split; [by eapply parse_ipv4addr_ok|done]].
  assert (∀ o, in_range 0 (2 ^ 8 - 1) o = Some p → 0 ≤ p) as H'.
  { intros [z|]; cbn; [|done]. destruct (_ && _) eqn:E; [|done]. intros [= ->]. to_prop. lia. }
  split; [|done]. revert Ep. unfold parse_u8, parse_unsigned.
  repeat case_match; apply H'.
Qed.

(** A parsed block starts at a multiple of its size and [contains] is
    membership in [network, network + size). *)
Theorem cidr_contains_spec s c ip :
  cidr_parse s = Some c → 1 ≤ prefix c → ipv4_ok ip →
  (cidr_contains c ip = true ↔ network c ≤ ip < network c + block_size (prefix c))
  ∧ network c `mod` block_size (prefix c) = 0.
Proof.
  intros (Hp & ip0 & Hip0 & Hn)%cidr_parse_ok H1 Hip.
  pose proof (block_size_pos (prefix c)) as Hb. rewrite land_cidr_mask in Hn by lia || done.
  assert (Z.land (network c) (cidr_mask (prefix c)) = network c) as Hnn.
  { rewrite land_cidr_mask; [|lia|]; rewrite Hn; [rewrite Z.div_mul by lia; lia|].
    unfold ipv4_ok in *. pose proof (Z.div_mod ip0 (block_size (prefix c))).
    pose proof (Z.mod_pos_bound ip0 (block_size (prefix c))).
    split; [apply Z.mul_nonneg_nonneg; [apply Z.div_pos|]|]; lia. }
  unfold cidr_contains. rewrite Hnn, land_cidr_mask by lia || done. rewrite Z.eqb_eq, Hn.
  split; [|by apply Z.mod_mul; lia].
  generalize (block_size (prefix c)) as b, (ip0 / block_size (prefix c)) as q, Hb.
  clear - Hp. intros b q Hb. specialize (Hb ltac:(lia)).
  pose proof (Z.div_mod ip b). pose proof (Z.mod_pos_bound ip b). split; [nia|].
  intros Hq. f_equal. symmetry. apply Z.div_unique with (ip - q * b); [left; lia|ring].
Qed.

Lemma cidr_contains_spec_witness :
  cidr_contains {| network := 0x0A2A0000; prefix := 20 |} 0x0A2A0FFF = true.
Proof.
  apply (cidr_contains_spec "10.42.0.0/20" {| network := 0x0A2A0000; prefix := 20 |});
    [by vm_compute|cbn; lia|unfold ipv4_ok; lia|unfold block_size; cbn; lia].
Defined.

(** A prefix of 0 shifts by 32, which the hardware masks to 0: the block
    contains only its own address instead of every address. *)
Theorem cidr_zero_prefix n ip :
  ipv4_ok n → ipv4_ok ip →
  (cidr_contains {| network := n; prefix := 0 |} ip = true ↔ ip = n).
Proof.
  intros Hn Hip. unfold cidr_contains. cbn [network prefix].
  change (cidr_mask 0) with (2 ^ 32 - 1). rewrite !land_ones_mod by lia.
  rewrite Z.eqb_eq, !Z.mod_small by done. done.
Qed.

Lemma cidr_zero_prefix_witness :
  cidr_contains {| network := 0; prefix := 0 |} 0x08080808 = true ↔ 0x08080808 = 0.
Proof. apply cidr_zero_prefix; unfold ipv4_ok; lia. Defined.

(** ** Subnets *)

(** [s, s + n) is a free aligned block. *)
Definition free_block (n s : Z) (l : list Z) : Prop :=
  s `mod` n = 0 ∧ ∀ i, s ≤ i < s + n → i ∈ l.

Lemma sorted_contiguous n s l :
  sorted l → (∀ i, s ≤ i < s + Z.of_nat n → i ∈ l) → (∀ y, y ∈ l → s ≤ y) →
  (n ≤ length l)%nat ∧ take n l = seqZ s (Z.of_nat n).
Proof.
  intros Hs. revert n s. induction Hs as [|x l Hs IH Hx]; intros n s Hin Hlb.
  - destruct n as [|n]; [done|]. specialize (Hin s ltac:(lia)). set_solver.
  - destruct n as [|n]; [split; [cbn; lia|done]|]. rewrite Forall_forall in Hx.
    assert (x = s) as ->.
    { specialize (Hlb x (list_elem_of_here _ _)).
      specialize (Hin s ltac:(lia)) as [->|Hs']%elem_of_cons; [done|].
      specialize (Hx s Hs'). lia. }
    destruct (IH n (s + 1)) as [Hl Ht].
    + intros i Hi. specialize (Hin i ltac:(lia)) as [->|?]%elem_of_cons; [lia|done].
    + intros y Hy. specialize (Hx y Hy). lia.
    + split; [cbn; lia|]. cbn [take]. rewrite seqZ_cons by lia. rewrite Ht.
      f_equal. f_equal; lia.
Qed.

Lemma take_seqZ_contiguous n s l :
  take n l = seqZ s (Z.of_nat n) → ∀ i, s ≤ i < s + Z.of_nat n → i ∈ l.
Proof.
  intros Ht i Hi. assert (i ∈ take n l) as H by (rewrite Ht, elem_of_seqZ; lia).
  by eapply subseteq_take.
Qed.

Lemma zip_forallb_seq s w :
  forallb (λ '(i, v), v =? u32 (s + i)) (zip (seqZ 0 (Z.of_nat (length w))) w) = true ↔
  w = (λ i, u32 (s + i)) <$> seqZ 0 (Z.of_nat (length w)).
Proof.
  assert (∀ k, forallb (λ '(i, v), v =? u32 (s + i)) (zip (seqZ k (Z.of_nat (length w))) w) = true ↔
    w = (λ i, u32 (s + i)) <$> seqZ k (Z.of_nat (length w))) as H; [|apply H].
  induction w as [|x w IH]; intros k; [done|].
  cbn [length]. rewrite seqZ_cons by lia.
  replace (Z.pred (Z.of_nat (S (length w)))) with (Z.of_nat (length w)) by lia.
  cbn [zip zip_with forallb fmap list_fmap]. rewrite andb_true_iff, Z.eqb_eq, IH.
  split; [intros [-> ->]; f_equal; by rewrite length_fmap, length_seqZ, Nat2Z.id|].
  by intros [= -> <-].
Qed.

Lemma seqZ_u32 s n :
  0 ≤ s → s + n ≤ 2 ^ 32 → (λ i, u32 (s + i)) <$> seqZ 0 n = seqZ s n.
Proof.
  intros Hs Hn. trans (Z.add s <$> seqZ 0 n).
  2: { rewrite fmap_add_seqZ. f_equal. lia. }
  apply list_fmap_ext. intros i x Hi%list_elem_of_lookup_2. apply elem_of_seqZ in Hi.
  apply u32_small. lia.
Qed.

(** An aligned block below [2 ^ 32] ends at or below [2 ^ 32]. *)
Lemma aligned_end p s :
  1 ≤ p ≤ 32 → ipv4_ok s → s `mod` block_size p = 0 → s + block_size p ≤ 2 ^ 32.
Proof.
  intros Hp Hs Hm. pose proof (block_size_pos p ltac:(lia)) as Hb.
  assert (2 ^ 32 = 2 ^ p * block_size p) as Ht.
  { unfold block_size. rewrite <- Z.pow_add_r by lia. f_equal. lia. }
  pose proof (Z.div_mod s (block_size p) ltac:(lia)) as Hd. rewrite Hm in Hd.
  unfold ipv4_ok in Hs. change 4294967296 with (2 ^ 32) in Hs. rewrite Ht in Hs |- *.
  set (q := s / block_size p) in *. set (b := block_size p) in *. clearbody q b.
  assert (q < 2 ^ p) by nia. nia.
Qed.

Lemma check_window_spec p w s :
  1 ≤ p ≤ 32 → Z.of_nat (length w) = block_size p → Forall ipv4_ok w →
  check_window (block_size p) w = Some s ↔
  s `mod` block_size p = 0 ∧ w = seqZ s (block_size p).
Proof.
  intros Hp Hl Hw. pose proof (block_size_pos p ltac:(lia)) as Hb.
  destruct w as [|x w]; [cbn in Hl; lia|].
  assert (ipv4_ok x) as Hx by by inversion Hw.
  assert (∀ z, Z.land z (block_size p - 1) = z `mod` block_size p) as Hland.
  { intros z. apply land_ones_mod. lia. }
  unfold check_window. rewrite Hland.
  assert (x :: w = seqZ s (block_size p) → x = s) as Hxs.
  { rewrite seqZ_cons by lia. by intros [= ->]. }
  destruct (Z.eqb_spec (x `mod` block_size p) 0) as [Hm|Hm]; cbn [negb].
  - destruct (forallb _ _) eqn:E.
    + apply zip_forallb_seq in E. rewrite Hl, seqZ_u32 in E.
      2: apply Hx. 2: by apply aligned_end.
      split; [by intros [= <-]|]. intros [_ ?]. f_equal. auto.
    + split; [done|]. intros [Hs Hseq]. pose proof (Hxs Hseq) as ->.
      enough (false = true) as ? by done. rewrite <- E. apply zip_forallb_seq.
      rewrite Hl, seqZ_u32; [done|apply Hx|by apply aligned_end].
  - split; [done|]. intros [Hs Hseq]. by rewrite <- (Hxs Hseq) in Hs.
Qed.

(** The free addresses are increasing and below 255.255.255.255. *)
Definition pool_ok (p : IpPool) : Prop :=
  sorted (free p) ∧ Forall (λ x, 0 ≤ x < 2 ^ 32 - 1) (free p).

Lemma sorted_bounded_length l m :
  sorted l → Forall (λ x, 0 ≤ x < m) l → (length l ≤ Z.to_nat m)%nat.
Proof.
  intros Hs%sorted_NoDup Hl. rewrite <- (length_seqZ 0 m).
  apply submseteq_length, NoDup_submseteq; [done|].
  intros x Hx. rewrite Forall_forall in Hl. apply elem_of_seqZ. specialize (Hl x Hx). lia.
Qed.

Lemma free_block_length n s l :
  0 ≤ n → free_block n s l → (Z.to_nat n ≤ length l)%nat.
Proof.
  intros Hn [_ H]. rewrite <- (length_seqZ s n).
  apply submseteq_length, NoDup_submseteq; [apply NoDup_seqZ|].
  intros x Hx%elem_of_seqZ. auto.
Qed.

Lemma free_block_cons n s x l :
  0 < n → sorted (x :: l) → free_block n s (x :: l) →
  (s = x ∧ take (Z.to_nat n) (x :: l) = seqZ s n) ∨ (x < s ∧ free_block n s l).
Proof.
  intros Hn Hs [Hm Hin]. pose proof Hs as [Hsl Hx]%StronglySorted_inv.
  rewrite Forall_forall in Hx.
  assert (s = x ∨ s ∈ l) as [->|Hsin] by (apply elem_of_cons, Hin; lia).
  - left. split; [done|]. destruct (sorted_contiguous (Z.to_nat n) x (x :: l)) as [_ Ht].
    + done.
    + intros i Hi. apply Hin. lia.
    + intros y [->|Hy]%elem_of_cons; [lia|]. specialize (Hx y Hy). lia.
    + by rewrite Z2Nat.id in Ht by lia.
  - right. pose proof (Hx s Hsin). split; [done|]. split; [done|]. intros i Hi.
    specialize (Hin i Hi) as [->|?]%elem_of_cons; [lia|done].
Qed.

Lemma free_block_weaken n s x l : free_block n s l → free_block n s (x :: l).
Proof. intros [Hm H]. split; [done|]. intros i Hi. right. auto. Qed.

(** The scan returns the lowest free aligned block, if there is one. *)
Lemma scan_spec p l :
  1 ≤ p ≤ 32 → sorted l → Forall ipv4_ok l →
  match find_map (check_window (block_size p)) (windows (Z.to_nat (block_size p)) l) with
  | Some s => free_block (block_size p) s l
              ∧ ∀ s', free_block (block_size p) s' l → s ≤ s'
  | None => ∀ s', ¬ free_block (block_size p) s' l
  end.
Proof.
  intros Hp Hs Hok. pose proof (block_size_pos p ltac:(lia)) as Hb.
  induction l as [|x l IH]; cbn [windows find_map].
  - intros s' [_ H]. specialize (H s' ltac:(lia)). by apply elem_of_nil in H.
  - destruct (Nat.leb_spec (Z.to_nat (block_size p)) (length (x :: l))) as [Hle|Hlt];
      cbn [find_map].
    2: { intros s' H%free_block_length; lia. }
    pose proof (free_block_cons (block_size p)) as Hcons.
    specialize (IH (proj1 (StronglySorted_inv Hs)) (Forall_inv_tail Hok)).
    set (w := take (Z.to_nat (block_size p)) (x :: l)) in *.
    assert (∀ s, check_window (block_size p) w = Some s ↔
              s `mod` block_size p = 0 ∧ w = seqZ s (block_size p)) as Hw.
    { intros s. apply check_window_spec; [done| |by apply Forall_take].
      unfold w. rewrite length_take. lia. }
    destruct (check_window (block_size p) w) as [s|].
    + destruct (proj1 (Hw s) eq_refl) as [Hm Hseq]. split.
      * split; [done|]. intros i Hi.
        by apply (take_seqZ_contiguous (Z.to_nat (block_size p)) s); rewrite Z2Nat.id by lia.
      * assert (x = s) as ->.
        { unfold w in Hseq. rewrite (seqZ_cons s) in Hseq by lia.
          destruct (Z.to_nat (block_size p)) eqn:E; [lia|]. by injection Hseq. }
        intros s' [[-> _]|[? _]]%Hcons; [lia|lia|done|done].
    + assert (∀ s', free_block (block_size p) s' (x :: l) → free_block (block_size p) s' l)
        as Htail.
      { intros s' Hf. destruct (Hcons s' x l Hb Hs Hf) as [[-> Hseq]|[_ ?]]; [|done].
        destruct (Hw x) as [_ Hw']. discriminate Hw'. split; [apply Hf|done]. }
      destruct (find_map _ _) as [s|]; [|naive_solver].
      destruct IH as [Hf Hmin]. split; [by apply free_block_weaken|auto].
Qed.

(** [allocate_subnet] is complete and takes the lowest block: it returns an
    aligned block of free addresses whenever one exists, the one with the
    smallest start, and removes exactly that block; otherwise nothing changes. *)
Theorem allocate_subnet_spec p pool :
  1 ≤ p ≤ 32 → pool_ok pool →
  let n := block_size p in
  match allocate_subnet p pool with
  | (Some c, pool') =>
      prefix c = p ∧ free_block n (network c) (free pool)
      ∧ (∀ s, free_block n s (free pool) → network c ≤ s)
      ∧ pool_ok pool' ∧ cidr pool' = cidr pool
      ∧ ∀ y, y ∈ free pool' ↔ y ∈ free pool ∧ ¬ network c ≤ y < network c + n
  | (None, pool') => pool' = pool ∧ ∀ s, ¬ free_block n s (free pool)
  end.
Proof.
  intros Hp [Hs Hok] n. pose proof (block_size_pos p ltac:(lia)) as Hb. fold n in Hb.
  pose proof (sorted_bounded_length _ _ Hs Hok) as Hlen.
  assert (Forall ipv4_ok (free pool)) as Hok'.
  { eapply Forall_impl; [exact Hok|]. unfold ipv4_ok. cbn. lia. }
  unfold allocate_subnet. rewrite subnet_size_pow by done. fold n.
  rewrite u32_small by lia.
  destruct (Z.ltb_spec (Z.of_nat (length (free pool))) n) as [Hlt|Hge].
  { split; [done|]. intros s H%free_block_length; lia. }
  pose proof (scan_spec p (free pool) Hp Hs Hok') as Hscan. fold n in Hscan.
  destruct (find_map _ _) as [s|]; [|done]. destruct Hscan as [Hf Hmin]. cbn.
  assert (0 ≤ s ∧ s + n < 2 ^ 32) as [Hs0 Hend].
  { destruct Hf as [_ Hf]. rewrite Forall_forall in Hok.
    pose proof (Hok s (Hf s ltac:(lia))). pose proof (Hok (s + n - 1) (Hf (s + n - 1) ltac:(lia))). lia. }
  rewrite u32_small by lia.
  assert (∀ y, y ∈ foldl (λ l ip, set_remove ip l) (free pool) (range s (s + n))
            ↔ y ∈ free pool ∧ ¬ s ≤ y < s + n) as Hrem.
  { intros y. by rewrite elem_of_foldl_set_remove, elem_of_range. }
  split; [done|]. split; [done|]. split; [done|]. split; [|by split].
  split; cbn.
  - by apply foldl_set_remove_sorted.
  - apply Forall_forall. intros y [Hy _]%Hrem. rewrite Forall_forall in Hok. auto.
Qed.

Lemma allocate_subnet_spec_witness :
  1 ≤ 30 ≤ 32 ∧
  ∃ c pool', allocate_subnet 30 (pool_new {| network := 0x0A000000; prefix := 28 |})
             = (Some c, pool') ∧ network c = 0x0A000004 ∧ prefix c = 30.
Proof.
  split; [lia|].
  assert (pool_ok (pool_new {| network := 0x0A000000; prefix := 28 |})) as Hok.
  { split; [apply pool_new_sorted|].
    assert (free (pool_new {| network := 0x0A000000; prefix := 28 |}) = seqZ 0x0A000002 13)
      as -> by by vm_compute.
    apply Forall_forall. intros x Hx%elem_of_seqZ. lia. }
  pose proof (allocate_subnet_spec 30 (pool_new {| network := 0x0A000000; prefix := 28 |})
    ltac:(lia) Hok) as H.
  destruct (allocate_subnet 30 _) as [[c|] pool'] eqn:E; vm_compute in E; simplify_eq.
  destruct H as (Hp & _). exists {| network := 0x0A000004; prefix := 30 |}. eexists.
  repeat split.
Defined.

(** ** Allocation as a transition system *)

(** The pool together with the addresses handed out and those it was ever
    given. A client releases only addresses it holds and expands only with
    addresses the pool never had. *)
Record PoolState := { ps_pool : IpPool; ps_held : list Z; ps_universe : list Z }.

Definition block_addrs (c : Ipv4Cidr) : list Z :=
  range (network c) (network c + block_size (prefix c)).

Inductive pool_step : PoolState → PoolState → Prop :=
  | step_allocate p held u ip p' :
      allocate p = (Some ip, p') →
      pool_step {| ps_pool := p; ps_held := held; ps_universe := u |}
                {| ps_pool := p'; ps_held := ip :: held; ps_universe := u |}
  | step_release p held held' u ip :
      held ≡ₚ ip :: held' →
      pool_step {| ps_pool := p; ps_held := held; ps_universe := u |}
                {| ps_pool := release ip p; ps_held := held'; ps_universe := u |}
  | step_subnet p held u n c p' :
      1 ≤ n ≤ 32 → allocate_subnet n p = (Some c, p') →
      pool_step {| ps_pool := p; ps_held := held; ps_universe := u |}
                {| ps_pool := p'; ps_held := block_addrs c ++ held; ps_universe := u |}
  | step_expand p held u c p' :
      1 ≤ prefix c ≤ 32 → 0 ≤ network c → network c + block_size (prefix c) < 2 ^ 32 →
      (∀ x, x ∈ block_addrs c → x ∉ u) → expand c p = (Ok (), p') →
      pool_step {| ps_pool := p; ps_held := held; ps_universe := u |}
                {| ps_pool := p'; ps_held := held; ps_universe := block_addrs c ++ u |}.

Definition pool_init (c : Ipv4Cidr) : PoolState :=
  {| ps_pool := pool_new c; ps_held := []; ps_universe := free (pool_new c) |}.

Definition pool_inv (s : PoolState) : Prop :=
  pool_ok (ps_pool s)
  ∧ free (ps_pool s) ++ ps_held s ≡ₚ ps_universe s
  ∧ NoDup (ps_universe s) ∧ Forall (λ x, 0 ≤ x < 2 ^ 32 - 1) (ps_universe s).

(** An address leaves or enters exactly one of the two sides. *)
Lemma pool_ok_perm p held u :
  sorted (free p) → free p ++ held ≡ₚ u → Forall (λ x, 0 ≤ x < 2 ^ 32 - 1) u → pool_ok p.
Proof.
  intros Hs Hp Hu. split; [done|]. rewrite <- Hp in Hu. by apply Forall_app in Hu as [? _].
Qed.

Lemma remove_block_perm p c n p' :
  1 ≤ n ≤ 32 → pool_ok p → allocate_subnet n p = (Some c, p') →
  block_addrs c ++ free p' ≡ₚ free p.
Proof.
  intros Hn Hok E. pose proof (allocate_subnet_spec n p Hn Hok) as H. rewrite E in H.
  destruct H as (Hpre & [_ Hf] & _ & [Hs' _] & _ & Hin). rewrite <- Hpre in Hf, Hin.
  apply NoDup_Permutation.
  - apply NoDup_app. split; [apply NoDup_seqZ|]. split; [|by apply sorted_NoDup].
    intros x Hx Hx'. apply Hin in Hx' as [_ Hx']. by apply elem_of_range in Hx.
  - apply sorted_NoDup, Hok.
  - intros x. unfold block_addrs. rewrite elem_of_app, elem_of_range, Hin.
    split; [intros [?|[? _]]; auto|].
    intros Hx. destruct (decide (network c ≤ x < network c + block_size (prefix c))); auto.
Qed.

Lemma insert_range_perm n m l :
  0 ≤ n → 0 ≤ m → n + m ≤ 2 ^ 32 → sorted l → (∀ x, x ∈ range n (n + m) → x ∉ l) →
  insert_range n 0 m l ≡ₚ range n (n + m) ++ l.
Proof.
  intros Hn Hm Hnm Hs Hfresh. apply NoDup_Permutation.
  - by apply sorted_NoDup, insert_range_sorted.
  - apply NoDup_app. split; [apply NoDup_seqZ|]. split; [done|by apply sorted_NoDup].
  - intros x. rewrite elem_of_insert_range, elem_of_app, elem_of_range.
    split; [intros [?|(i & Hi & ->)]; [by right|left; rewrite u32_small; lia]|].
    intros [Hx|?]; [right|by left]. exists (x - n). rewrite u32_small by lia. lia.
Qed.

Lemma expand_free c p p' :
  1 ≤ prefix c ≤ 32 → expand c p = (Ok (), p') →
  free p' = insert_range (network c) 0 (block_size (prefix c)) (free p).
Proof.
  intros Hp. unfold expand. destruct (negb _); [done|]. intros [= <-]. cbn [free].
  fold (subnet_size (prefix c)). by rewrite subnet_size_pow.
Qed.

Lemma pool_step_inv s s' : pool_step s s' → pool_inv s → pool_inv s'.
Proof.
  intros Hstep (Hok & Hperm & Hnd & Hu).
  destruct Hstep as [p held u ip p' E|p held held' u ip E|p held u n c p' Hn E|p held u c p' Hp Hn Hb Hfr E];
    cbn in *; pose proof Hok as [Hs _].
  - unfold allocate in E. destruct (free p) as [|x rest] eqn:Ef; simplify_eq.
    assert (rest ++ ip :: held ≡ₚ u) as Hperm' by (by rewrite <- Permutation_middle).
    split; [|done]. eapply pool_ok_perm; [|exact Hperm'|done].
    by apply StronglySorted_inv in Hs as [? _].
  - assert (ip ∉ free p) as Hip.
    { intros Hin. rewrite <- Hperm, E in Hnd.
      apply NoDup_app in Hnd as (_ & Hd & _). by apply (Hd ip Hin); left. }
    assert (set_insert ip (free p) ++ held' ≡ₚ u) as Hperm'.
    { by rewrite set_insert_perm, <- Hperm, E, <- Permutation_middle. }
    split; [|done]. eapply pool_ok_perm; [by apply set_insert_sorted|exact Hperm'|done].
  - pose proof (remove_block_perm p c n p' Hn Hok E) as Hb.
    assert (free p' ++ block_addrs c ++ held ≡ₚ u) as Hperm'.
    { rewrite <- Hperm, <- Hb, <- app_assoc, !app_assoc. by rewrite (Permutation_app_comm (free p')). }
    split; [|done]. eapply pool_ok_perm; [|exact Hperm'|done].
    pose proof (allocate_subnet_spec n p Hn Hok) as H. rewrite E in H. apply H.
  - pose proof (expand_free c p p' Hp E) as Hf. pose proof (block_size_pos (prefix c) ltac:(lia)).
    assert (∀ x, x ∈ block_addrs c → x ∉ free p) as Hfresh.
    { intros x Hx Hx'. apply (Hfr x Hx). rewrite <- Hperm. set_solver. }
    assert (free p' ++ held ≡ₚ block_addrs c ++ u) as Hperm'.
    { rewrite Hf, insert_range_perm by (lia || done || apply Hs || apply Hfresh).
      by rewrite <- app_assoc, Hperm. }
    assert (Forall (λ x, 0 ≤ x < 2 ^ 32 - 1) (block_addrs c ++ u)) as Hu'.
    { apply Forall_app. split; [|done]. apply Forall_forall. intros x Hx%elem_of_range. lia. }
    split; [|split; [done|split; [|done]]].
    + apply (pool_ok_perm p' held (block_addrs c ++ u)); [rewrite Hf|done|done]. by apply insert_range_sorted.
    + apply NoDup_app. split; [apply NoDup_seqZ|]. done.
Qed.

Definition cidr_ok (c : Ipv4Cidr) : Prop :=
  1 ≤ prefix c ≤ 32 ∧ 0 ≤ network c ∧ network c + block_size (prefix c) < 2 ^ 32.

Lemma elem_of_pool_new c x :
  cidr_ok c →
  (x ∈ free (pool_new c) ↔
    if 31 <=? prefix c then network c ≤ x < network c + block_size (prefix c)
    else network c + 2 ≤ x < network c + block_size (prefix c) - 1).
Proof.
  intros (Hp & Hn & Hb). cbn. fold (subnet_size (prefix c)).
  rewrite subnet_size_pow by done. pose proof (block_size_pos (prefix c) ltac:(lia)).
  destruct (31 <=? prefix c).
  - rewrite elem_of_insert_range. split.
    + intros [Hx|(i & Hi & ->)]; [by inversion Hx|]. rewrite u32_small; lia.
    + intros Hx. right. exists (x - network c). rewrite u32_small; lia.
  - rewrite elem_of_insert_range, u32_small by lia. split.
    + intros [Hx|(i & Hi & ->)]; [by inversion Hx|]. rewrite u32_small; lia.
    + intros Hx. right. exists (x - network c). rewrite u32_small; lia.
Qed.

Lemma pool_init_inv c : cidr_ok c → pool_inv (pool_init c).
Proof.
  intros Hc. pose proof Hc as (Hp & Hn & Hb).
  assert (Forall (λ x, 0 ≤ x < 2 ^ 32 - 1) (free (pool_new c))) as Hf.
  { apply Forall_forall. intros x Hx%elem_of_pool_new; [|done].
    destruct (31 <=? prefix c); lia. }
  split_and!; [|by rewrite app_nil_r| |done].
  - split; [apply pool_new_sorted|done].
  - apply sorted_NoDup, pool_new_sorted.
Qed.

(** C32. No address is ever handed out twice or lost: in every reachable state of a
    pool whose clients release only what they hold, the free addresses and the
    handed-out ones together are exactly the pool's addresses, each once. *)
Theorem pool_conservation c s :
  cidr_ok c → rtc pool_step (pool_init c) s →
  NoDup (free (ps_pool s) ++ ps_held s) ∧ free (ps_pool s) ++ ps_held s ≡ₚ ps_universe s.
Proof.
  intros Hc Hr.
  assert (pool_inv s) as (_ & Hp & Hnd & _).
  { remember (pool_init c) as s0 eqn:E0. assert (pool_inv s0) as H0 by (subst; by apply pool_init_inv).
    clear E0. induction Hr; eauto using pool_step_inv. }
  by rewrite Hp.
Qed.

Lemma pool_conservation_witness :
  let c := {| network := 0x0A000000; prefix := 29 |} in
  ∃ s, rtc pool_step (pool_init c) s ∧ ps_held s = [0x0A000004; 0x0A000005; 0x0A000002]
       ∧ NoDup (free (ps_pool s) ++ ps_held s).
Proof.
  intros c.
  assert (cidr_ok c) as Hc by (unfold cidr_ok, block_size; cbn; lia).
  assert (rtc pool_step (pool_init c)
    {| ps_pool := {| cidr := c; free := [0x0A000003; 0x0A000006] |};
       ps_held := [0x0A000004; 0x0A000005; 0x0A000002];
       ps_universe := free (pool_new c) |}) as Hr.
  { eapply rtc_l. { eapply step_allocate. reflexivity. }
    eapply rtc_l. { eapply (step_subnet _ _ _ 31); [lia|]. vm_compute. reflexivity. }
    reflexivity. }
  eexists. split; [exact Hr|]. split; [done|]. by apply (pool_conservation c _ Hc Hr).
Defined.

(** [allocate] hands out the lowest free address. *)
Theorem allocate_lowest p ip p' :
  pool_ok p → allocate p = (Some ip, p') →
  ip ∈ free p ∧ (∀ y, y ∈ free p → ip ≤ y) ∧ ∀ y, y ∈ free p' ↔ y ∈ free p ∧ y ≠ ip.
Proof.
  intros [Hs _]. unfold allocate. destruct (free p) as [|x rest]; [done|]. intros [= <- <-].
  cbn. pose proof (sorted_NoDup _ Hs) as [Hni _]%NoDup_cons.
  apply StronglySorted_inv in Hs as [_ Hx]. rewrite Forall_forall in Hx. split_and!.
  - left.
  - intros y [->|Hy]%elem_of_cons; [lia|]. specialize (Hx y Hy). lia.
  - intros y. rewrite elem_of_cons. naive_solver.
Qed.
