(* ===== verification/Json.v ===== *)
(** * Json: [serde_json::Value]

    The JSON values the API handlers build and read. [serde_json::Map] keeps its
    keys in byte order: an object is the list of its members in that order. *)
From S2P Require Import Prelude Text.

Inductive json :=
  | JNull
  | JBool (b : bool)
  | JNum (n : Z)
  | JStr (s : string)
  | JArr (l : list json)
  | JObj (m : list (string * json)).

(** Induction with the elements of arrays and objects. *)
Section json_rec.
Variable P : json → Prop.
Hypothesis Hnull : P JNull.
Hypothesis Hbool : ∀ b, P (JBool b).
Hypothesis Hnum : ∀ n, P (JNum n).
Hypothesis Hstr : ∀ s, P (JStr s).
Hypothesis Harr : ∀ l, Forall P l → P (JArr l).
Hypothesis Hobj : ∀ m, Forall (λ kv, P kv.2) m → P (JObj m).

Fixpoint json_nested_ind (j : json) : P j :=
  match j with
  | JNull => Hnull
  | JBool b => Hbool b
  | JNum n => Hnum n
  | JStr s => Hstr s
  | JArr l =>
      Harr l ((fix go l : Forall P l :=
        match l with
        | [] => List.Forall_nil _
        | x :: l' => List.Forall_cons _ x l' (json_nested_ind x) (go l')
        end) l)
  | JObj m =>
      Hobj m ((fix go m : Forall (λ kv, P kv.2) m :=
        match m with
        | [] => List.Forall_nil _
        | x :: m' => List.Forall_cons (λ kv, P kv.2) x m' (json_nested_ind x.2) (go m')
        end) m)
  end.
End json_rec.

(** ** Objects *)

Abbreviation jmap := (list (string * json)) (only parsing).

Fixpoint jm_get (k : string) (m : jmap) : option json :=
  match m with
  | [] => None
  | (k', v) :: m' => if bool_decide (k = k') then Some v else jm_get k m'
  end.

Fixpoint jm_insert (k : string) (v : json) (m : jmap) : jmap :=
  match m with
  | [] => [(k, v)]
  | (k', v') :: m' =>
      if bool_decide (k = k') then (k, v) :: m'
      else if String.ltb k k' then (k, v) :: m
      else (k', v') :: jm_insert k v m'
  end.

Fixpoint jm_remove (k : string) (m : jmap) : jmap :=
  match m with
  | [] => []
  | (k', v') :: m' => if bool_decide (k = k') then m' else (k', v') :: jm_remove k m'
  end.

(** [json!({ k1: v1, ... })] *)
Definition jobj (l : list (string * json)) : json :=
  JObj (foldl (λ m kv, jm_insert kv.1 kv.2 m) [] l).

(** [v.get(k)], which is [None] on a value that is not an object. *)
Definition jget (k : string) (j : json) : option json :=
  match j with JObj m => jm_get k m | _ => None end.

(** [v[k] = x] for a [v] built as an object. *)
Definition jset (k : string) (x : json) (j : json) : json :=
  match j with
  | JObj m => JObj (jm_insert k x m)
  | JNull => JObj [(k, x)]
  | _ => j
  end.

Definition as_str (j : json) : option string :=
  match j with JStr s => Some s | _ => None end.

Definition as_bool (j : json) : option bool :=
  match j with JBool b => Some b | _ => None end.
Definition as_array (j : json) : option (list json) :=
  match j with JArr l => Some l | _ => None end.
Definition as_i64 (j : json) : option Z :=
  match j with JNum n => in_range (- 2 ^ 63) (2 ^ 63 - 1) (Some n) | _ => None end.

(** [v[k]]: a member that is missing reads as null. *)
Definition jidx (k : string) (j : json) : json := unwrap_or (jget k j) JNull.

(** [f(&mut v[k])]: indexing makes the member, and makes an object of null, but panics
    on any other value. *)
Definition jupd (k : string) (f : json → exec json) (j : json) : exec json :=
  match j with
  | JObj m => x ← f (unwrap_or (jm_get k m) JNull); Ret (JObj (jm_insert k x m))
  | JNull => x ← f JNull; Ret (JObj [(k, x)])
  | _ => Panic
  end.

Definition string_map_json (m : gmap string string) : json :=
  JObj (foldl (λ a kv, jm_insert kv.1 (JStr kv.2) a) [] (btree_iter m)).

Lemma jm_get_insert k v m : jm_get k (jm_insert k v m) = Some v.
Proof.
  induction m as [|[k' v'] m IH]; cbn; [by rewrite bool_decide_true|].
  case_bool_decide as E; cbn; [by rewrite bool_decide_true|].
  destruct (String.ltb k k'); cbn; [by rewrite bool_decide_true|].
  by rewrite bool_decide_false.
Qed.

Lemma jm_get_insert_ne k k2 v m : k ≠ k2 → jm_get k (jm_insert k2 v m) = jm_get k m.
Proof.
  intros Hne. induction m as [|[k' v'] m IH]; cbn; [by rewrite bool_decide_false|].
  case_bool_decide as E; cbn.
  - subst. by rewrite bool_decide_false.
  - destruct (String.ltb k2 k'); cbn; [by rewrite (bool_decide_false (k = k2))|]. by rewrite IH.
Qed.

Lemma jm_get_remove_ne k k2 m : k ≠ k2 → jm_get k (jm_remove k2 m) = jm_get k m.
Proof.
  intros Hne. induction m as [|[k' v'] m IH]; cbn; [done|].
  case_bool_decide as E; cbn; [subst; by rewrite bool_decide_false|by rewrite IH].
Qed.

Lemma jm_get_remove k m : NoDup m.*1 → jm_get k (jm_remove k m) = None.
Proof.
  induction m as [|[k' v'] m IH]; cbn; [done|].
  rewrite NoDup_cons. intros [Hk' Hm]. case_bool_decide as E; cbn.
  - subst. clear IH Hm. induction m as [|[k v] m IH]; cbn in *; [done|].
    rewrite bool_decide_false; set_solver.
  - rewrite bool_decide_false by done. auto.
Qed.

Lemma jget_jset k x m : jget k (jset k x (JObj m)) = Some x.
Proof. apply jm_get_insert. Qed.

Lemma jget_jset_ne k k2 x m : k ≠ k2 → jget k (jset k2 x (JObj m)) = jget k (JObj m).
Proof. apply jm_get_insert_ne. Qed.
