(* ===== verification/Proto.v ===== *)
(** * Proto: the Kubernetes protobuf decoder (src/src/api/proto.rs)

    The wire-format parser ([Parser], [next_field], [read_varint]), the field
    readers and the decoders from protobuf to JSON. A [Parser] borrows its data
    and carries a position; slicing out of order panics. The loops
    [while let Some(..) = p.next_field()] run on fuel, one unit per field: every
    field consumes at least one byte, so the length of the message is enough
    ([while_fields_fuel]). *)
From S2P Require Import Prelude Text Utf8 Json.

(** ** Wire format *)

Inductive Value :=
  | Varint (n : Z)
  | Bytes (b : bytes)
  | Fixed32 (n : Z)
  | Fixed64 (n : Z).

Record Parser := { data : bytes; pos : Z }.

Definition parser_new (d : bytes) : Parser := {| data := d; pos := 0 |}.

Definition at_pos (n : Z) (p : Parser) : Parser := {| data := data p; pos := n |}.

Definition data_len (p : Parser) : Z := Z.of_nat (length (data p)).

(** [&data[lo..hi]] panics unless [lo <= hi <= data.len()]. *)
Definition slice_range (lo hi : Z) (d : bytes) : exec bytes :=
  if (lo <=? hi) && (hi <=? Z.of_nat (length d))
  then Ret (slice (Z.to_nat lo) (Z.to_nat (hi - lo)) d)
  else Panic.

(** The loop ends by its own tests after at most ten bytes. *)
Fixpoint read_varint_loop (fuel : nat) (result shift : Z) (p : Parser) : option Z * Parser :=
  match fuel with
  | O => (None, p)
  | S fuel' =>
      if data_len p <=? pos p then (None, p)
      else
        let b := unwrap_or (data p !! Z.to_nat (pos p)) 0 in
        let p := at_pos (pos p + 1) p in
        let result := Z.lor result (u64 (Z.shiftl (Z.land b 0x7f) shift)) in
        if Z.land b 0x80 =? 0 then (Some result, p)
        else
          let shift := shift + 7 in
          if 64 <=? shift then (None, p) else read_varint_loop fuel' result shift p
  end.

Definition read_varint (p : Parser) : option Z * Parser := read_varint_loop 10 0 0 p.

(** [u64::from_le_bytes] and [u32::from_le_bytes] *)
Fixpoint from_le_bytes (l : bytes) : Z :=
  match l with [] => 0 | b :: l' => b + 256 * from_le_bytes l' end.

(** The branches for wire types 1 and 5. *)
Definition read_fixed (n : Z) (mk : Z → Value) (field : Z) (p : Parser)
    : exec (option (Z * Value) * Parser) :=
  if data_len p <? usize (pos p + n) then Ret (None, p)
  else
    b ← slice_range (pos p) (usize (pos p + n)) (data p);
    Ret (Some (field, mk (from_le_bytes b)), at_pos (usize (pos p + n)) p).

Definition next_field (p : Parser) : exec (option (Z * Value) * Parser) :=
  match read_varint p with
  | (None, p) => Ret (None, p)
  | (Some tag, p) =>
      let field := u32 (Z.shiftr tag 3) in
      let wire := Z.land tag 0x7 in
      if wire =? 0 then
        match read_varint p with
        | (None, p) => Ret (None, p)
        | (Some n, p) => Ret (Some (field, Varint n), p)
        end
      else if wire =? 1 then read_fixed 8 Fixed64 field p
      else if wire =? 2 then
        match read_varint p with
        | (None, p) => Ret (None, p)
        | (Some len, p) =>
            if data_len p <? usize (pos p + len) then Ret (None, p)
            else
              b ← slice_range (pos p) (usize (pos p + len)) (data p);
              Ret (Some (field, Bytes b), at_pos (usize (pos p + len)) p)
        end
      else if wire =? 5 then read_fixed 4 Fixed32 field p
      else Ret (None, p)
  end.

(** ** Loops over fields *)

Inductive flow (A : Type) :=
  | Continue (a : A)
  | Break (a : A).
#[global] Arguments Continue {A} a.
#[global] Arguments Break {A} a.

(** [while let Some((f, v)) = p.next_field() { body }] *)
Fixpoint while_fields {A} (fuel : nat) (body : Z → Value → A → exec (flow A)) (a : A)
    (p : Parser) : exec A :=
  match fuel with
  | O => Ret a
  | S fuel' =>
      '(r, p) ← next_field p;
      match r with
      | None => Ret a
      | Some (f, v) =>
          fl ← body f v a;
          match fl with
          | Continue a => while_fields fuel' body a p
          | Break a => Ret a
          end
      end
  end.

Definition for_fields {A} (body : Z → Value → A → exec (flow A)) (a : A) (msg : bytes)
    : exec A :=
  while_fields (S (length msg)) body a (parser_new msg).

(** [while let Some((f, Value::Bytes(b))) = p.next_field() { body }]: a field
    of another type ends the loop. *)
Definition for_bytes_fields {A} (body : Z → bytes → A → exec (flow A)) (a : A) (msg : bytes)
    : exec A :=
  for_fields (λ f v a, match v with Bytes b => body f b a | _ => Ret (Break a) end) a msg.

Definition get_bytes_field (msg : bytes) (target : Z) : exec (option bytes) :=
  for_bytes_fields (λ f b r, Ret (if f =? target then Break (Some b) else Continue r))
    None msg.

Definition lossy (b : bytes) : string := from_utf8_lossy b.

Definition get_string_field (msg : bytes) (target : Z) : exec (option string) :=
  r ← get_bytes_field msg target; Ret (option_map lossy r).

Definition get_varint_field (msg : bytes) (target : Z) : exec (option Z) :=
  for_fields (λ f v r,
    Ret (if f =? target then match v with Varint n => Break (Some n) | _ => Continue r end
         else Continue r)) None msg.

(** ** Decoders *)

(** [map<string, string>] entries of field [field]. *)
Definition string_map_field (field : Z) (msg : bytes) : exec (list (string * json)) :=
  for_bytes_fields (λ f b labels,
    if f =? field then
      k ← get_string_field b 1;
      match k with
      | None => Ret (Continue labels)
      | Some k =>
          v ← get_string_field b 2;
          Ret (Continue (match v with
                         | Some v => jm_insert k (JStr v) labels
                         | None => labels
                         end))
      end
    else Ret (Continue labels)) [] msg.

Definition set_nonempty (key : string) (s : string) (j : json) : json :=
  if bool_decide (s = "") then j else jset key (JStr s) j.

Definition set_nonempty_arr (key : string) (l : list json) (j : json) : json :=
  match l with [] => j | _ => jset key (JArr l) j end.

Definition parse_object_meta (msg : bytes) (field : Z) : exec json :=
  inner ← get_bytes_field msg field;
  match inner with
  | None => Ret (JObj [])
  | Some inner =>
      name ← get_string_field inner 1;
      generate_name ← get_string_field inner 2;
      namespace ← get_string_field inner 3;
      uid ← get_string_field inner 5;
      labels ← string_map_field 11 inner;
      let out := jobj [("name", JStr (unwrap_or name ""))] in
      let out := set_nonempty "generateName" (unwrap_or generate_name "") out in
      let out := set_nonempty "namespace" (unwrap_or namespace "") out in
      let out := set_nonempty "uid" (unwrap_or uid "") out in
      Ret (match labels with [] => out | _ => jset "labels" (JObj labels) out end)
  end.

Record ContainerFields := {
  pc_command : list json; pc_args : list json; pc_env : list json; pc_ports : list json
}.

Definition parse_container (msg : bytes) : exec json :=
  name ← get_string_field msg 1;
  image ← get_string_field msg 2;
  fs ← for_fields (λ f v a,
    match v with
    | Bytes b =>
        if f =? 3 then
          Ret (Continue {| pc_command := pc_command a ++ [JStr (lossy b)];
                 pc_args := pc_args a; pc_env := pc_env a; pc_ports := pc_ports a |})
        else if f =? 4 then
          Ret (Continue {| pc_command := pc_command a; pc_args := pc_args a ++ [JStr (lossy b)];
                 pc_env := pc_env a; pc_ports := pc_ports a |})
        else if f =? 6 then
          k ← get_string_field b 1;
          match k with
          | None => Ret (Continue a)
          | Some k =>
              v ← get_string_field b 2;
              Ret (Continue {| pc_command := pc_command a; pc_args := pc_args a;
                pc_env := pc_env a ++
                  [jobj [("name", JStr k); ("value", JStr (unwrap_or v ""))]];
                pc_ports := pc_ports a |})
          end
        else if f =? 7 then
          port ← get_varint_field b 1;
          protocol ← get_string_field b 4;
          Ret (Continue {| pc_command := pc_command a; pc_args := pc_args a;
            pc_env := pc_env a;
            pc_ports := pc_ports a ++
              [jobj [("containerPort", JNum (i64 (unwrap_or port 0)));
                     ("protocol", JStr (unwrap_or protocol "TCP"))]] |})
        else Ret (Continue a)
    | _ => Ret (Continue a)
    end) {| pc_command := []; pc_args := []; pc_env := []; pc_ports := [] |} msg;
  let c := jobj [("name", JStr (unwrap_or name "")); ("image", JStr (unwrap_or image ""))] in
  Ret (set_nonempty_arr "ports" (pc_ports fs)
        (set_nonempty_arr "env" (pc_env fs)
          (set_nonempty_arr "args" (pc_args fs)
            (set_nonempty_arr "command" (pc_command fs) c)))).

Definition parse_containers (msg : bytes) (field : Z) : exec (list json) :=
  for_bytes_fields (λ f b out,
    if f =? field then c ← parse_container b; Ret (Continue (out ++ [c]))
    else Ret (Continue out)) [] msg.

Definition set_opt_str (key : string) (s : option string) (j : json) : json :=
  match s with Some s => jset key (JStr s) j | None => j end.

Definition parse_pod_spec (msg : bytes) (field : Z) : exec json :=
  inner ← get_bytes_field msg field;
  match inner with
  | None => Ret (JObj [])
  | Some inner =>
      containers ← parse_containers inner 2;
      init_containers ← parse_containers inner 20;
      let spec := jobj [("containers", JArr containers)] in
      let spec := set_nonempty_arr "initContainers" init_containers spec in
      dns ← get_string_field inner 6;
      let spec := set_opt_str "dnsPolicy" dns spec in
      svc ← get_string_field inner 8;
      let spec := set_opt_str "serviceAccountName" svc spec in
      restart ← get_string_field inner 3;
      Ret (set_opt_str "restartPolicy" restart spec)
  end.

Definition parse_deploy_spec (msg : bytes) (field : Z) : exec json :=
  inner ← get_bytes_field msg field;
  match inner with
  | None => Ret (JObj [])
  | Some inner =>
      r ← get_varint_field inner 1;
      let replicas := i64 (unwrap_or r 1) in
      sel ← get_bytes_field inner 2;
      selector ← match sel with
                 | None => Ret (JObj [])
                 | Some sel =>
                     labels ← string_map_field 1 sel;
                     Ret (jobj [("matchLabels", JObj labels)])
                 end;
      tmpl ← get_bytes_field inner 3;
      template ← match tmpl with
                 | None => Ret (JObj [])
                 | Some tmpl =>
                     m ← parse_object_meta tmpl 1;
                     s ← parse_pod_spec tmpl 2;
                     Ret (jobj [("metadata", m); ("spec", s)])
                 end;
      Ret (jobj [("replicas", JNum replicas); ("selector", selector);
                 ("template", template)])
  end.

Definition decode_namespace (raw : bytes) (api_version : string) : exec json :=
  meta ← parse_object_meta raw 1;
  Ret (jobj [("apiVersion", JStr api_version); ("kind", JStr "Namespace");
             ("metadata", meta)]).

Definition decode_pod (raw : bytes) (api_version : string) : exec json :=
  meta ← parse_object_meta raw 1;
  spec ← parse_pod_spec raw 2;
  Ret (jobj [("apiVersion", JStr api_version); ("kind", JStr "Pod");
             ("metadata", meta); ("spec", spec)]).

Definition decode_deployment (raw : bytes) (api_version : string) : exec json :=
  meta ← parse_object_meta raw 1;
  spec ← parse_deploy_spec raw 2;
  Ret (jobj [("apiVersion", JStr api_version); ("kind", JStr "Deployment");
             ("metadata", meta); ("spec", spec)]).

Definition magic : bytes := [107; 56; 115; 0].

Record Unknown := { un_api_version : string; un_kind : string; un_raw : bytes }.

Definition parse_unknown (msg : bytes) : exec Unknown :=
  for_fields (λ f v u,
    match v with
    | Bytes b =>
        if f =? 1 then
          u ← for_fields (λ f2 v2 u,
            Ret (Continue (match v2 with
              | Bytes s =>
                  if f2 =? 1 then {| un_api_version := lossy s; un_kind := un_kind u;
                                     un_raw := un_raw u |}
                  else if f2 =? 2 then {| un_api_version := un_api_version u;
                                          un_kind := lossy s; un_raw := un_raw u |}
                  else u
              | _ => u
              end))) u b;
          Ret (Continue u)
        else if f =? 2 then
          Ret (Continue {| un_api_version := un_api_version u; un_kind := un_kind u;
                           un_raw := b |})
        else Ret (Continue u)
    | _ => Ret (Continue u)
    end) {| un_api_version := ""; un_kind := ""; un_raw := [] |} msg.

Definition try_proto_to_json (bs : bytes) : exec (option json) :=
  if negb (bool_decide (take 4 bs = magic)) then Ret None
  else
    u ← parse_unknown (drop 4 bs);
    if bool_decide (un_kind u = "Namespace") then
      Some <$> decode_namespace (un_raw u) (un_api_version u)
    else if bool_decide (un_kind u = "Pod") then
      Some <$> decode_pod (un_raw u) (un_api_version u)
    else if bool_decide (un_kind u = "Deployment") then
      Some <$> decode_deployment (un_raw u) (un_api_version u)
    else Ret None.

(** ** Reference encoder *)

(** Base-128, least significant group first; ten groups hold 64 bits. *)
Fixpoint encode_varint_fuel (fuel : nat) (n : Z) : bytes :=
  match fuel with
  | O => []
  | S fuel' =>
      if n <? 128 then [n] else (n `mod` 128 + 128) :: encode_varint_fuel fuel' (n / 128)
  end.
Definition encode_varint (n : Z) : bytes := encode_varint_fuel 10 n.

Fixpoint le_bytes (k : nat) (n : Z) : bytes :=
  match k with O => [] | S k' => n `mod` 256 :: le_bytes k' (n / 256) end.

Definition encode_field (fv : Z * Value) : bytes :=
  let '(f, v) := fv in
  match v with
  | Varint n => encode_varint (f * 8 + 0) ++ encode_varint n
  | Fixed64 n => encode_varint (f * 8 + 1) ++ le_bytes 8 n
  | Bytes b => encode_varint (f * 8 + 2) ++ encode_varint (Z.of_nat (length b)) ++ b
  | Fixed32 n => encode_varint (f * 8 + 5) ++ le_bytes 4 n
  end.

Definition encode_msg (fs : list (Z * Value)) : bytes := concat (encode_field <$> fs).

(** Field numbers have 29 bits. *)
Definition value_ok (v : Value) : Prop :=
  match v with
  | Varint n | Fixed64 n => 0 ≤ n < 2 ^ 64
  | Fixed32 n => 0 ≤ n < 2 ^ 32
  | Bytes b => Z.of_nat (length b) < 2 ^ 63
  end.
Definition field_ok (fv : Z * Value) : Prop := 0 ≤ fv.1 < 2 ^ 29 ∧ value_ok fv.2.

(** ** Reading back varints *)

(** The unread bytes. A slice is shorter than [isize::MAX]. *)
Definition rest (p : Parser) : bytes := drop (Z.to_nat (pos p)) (data p).
Definition parser_ok (p : Parser) : Prop :=
  0 ≤ pos p ≤ data_len p ∧ data_len p < 2 ^ 63.

Lemma rest_cons p b l :
  parser_ok p → rest p = b :: l →
  (data_len p <=? pos p) = false ∧ data p !! Z.to_nat (pos p) = Some b
  ∧ rest (at_pos (pos p + 1) p) = l ∧ parser_ok (at_pos (pos p + 1) p).
Proof.
  intros [Hp Hd] Hr. unfold rest in *. cbn in *. unfold data_len in *.
  assert (Hl : (length (b :: l) = length (data p) - Z.to_nat (pos p))%nat).
  { by rewrite <- Hr, length_drop. }
  cbn in Hl. split_and!.
  - apply Z.leb_gt. lia.
  - pose proof (lookup_drop (data p) (Z.to_nat (pos p)) 0) as H. rewrite Hr in H.
    by rewrite Nat.add_0_r in H.
  - cbn. replace (Z.to_nat (pos p + 1)) with (Z.to_nat (pos p) + 1)%nat by lia.
    by rewrite <- drop_drop, Hr.
  - unfold parser_ok, data_len. cbn. lia.
Qed.

Lemma rest_app p l1 l2 :
  parser_ok p → rest p = l1 ++ l2 →
  pos p + Z.of_nat (length l1) ≤ data_len p
  ∧ rest (at_pos (pos p + Z.of_nat (length l1)) p) = l2
  ∧ slice (Z.to_nat (pos p)) (length l1) (data p) = l1.
Proof.
  intros [Hp Hd] Hr. unfold rest, slice in *. cbn in *. unfold data_len in *.
  assert (Hl : (length (l1 ++ l2) = length (data p) - Z.to_nat (pos p))%nat).
  { by rewrite <- Hr, length_drop. }
  rewrite length_app in Hl. split_and!.
  - destruct l1; cbn in *; lia.
  - replace (Z.to_nat (pos p + Z.of_nat (length l1)))
      with (Z.to_nat (pos p) + length l1)%nat by lia.
    by rewrite <- drop_drop, Hr, drop_app_length.
  - by rewrite Hr, take_app_length.
Qed.

Lemma lor_shiftl_add a b s :
  0 ≤ s → 0 ≤ a < 2 ^ s → Z.lor a (Z.shiftl b s) = a + b * 2 ^ s.
Proof.
  intros Hs Ha. rewrite <- Z.shiftl_mul_pow2 by done.
  assert (Z.land a (Z.shiftl b s) = 0) as Hl.
  { apply Z.bits_inj'. intros n Hn. rewrite Z.land_spec, Z.bits_0.
    destruct (Z_lt_le_dec n s).
    - rewrite Z.shiftl_spec_low by done. apply andb_false_r.
    - rewrite <- (Z.mod_small a (2 ^ s)) by done.
      by rewrite Z.mod_pow2_bits_high by lia. }
  pose proof (Z.add_lor_land a (Z.shiftl b s)). lia.
Qed.

Lemma varint_byte_bits b :
  0 ≤ b < 256 →
  Z.land b 0x7f = b `mod` 128 ∧ (Z.land b 0x80 =? 0) = (b <? 128).
Proof.
  intros Hb.
  assert (forallb (λ b, (Z.land b 0x7f =? b `mod` 128)
            && Bool.eqb (Z.land b 0x80 =? 0) (b <? 128)) (seqZ 0 256) = true) as H
    by by vm_compute.
  rewrite forallb_forall in H. specialize (H b).
  rewrite <- list_elem_of_In, elem_of_seqZ in H. specialize (H ltac:(lia)).
  apply andb_true_iff in H as [H1 H2]. apply Z.eqb_eq in H1. apply Bool.eqb_prop in H2. done.
Qed.

Lemma read_varint_loop_spec fuel n result shift p l :
  parser_ok p → rest p = encode_varint_fuel fuel n ++ l →
  0 ≤ n → 0 ≤ shift → 0 ≤ result < 2 ^ shift → n * 2 ^ shift + result < 2 ^ 64 →
  64 ≤ shift + 7 * Z.of_nat fuel → (0 < fuel)%nat →
  read_varint_loop fuel result shift p
  = (Some (n * 2 ^ shift + result),
     at_pos (pos p + Z.of_nat (length (encode_varint_fuel fuel n))) p).
Proof.
  revert n result shift p. induction fuel as [|fuel IH]; [lia|].
  intros n result shift p Hok Hr Hn Hs Hres Hlt Hfuel _.
  assert (0 < 2 ^ shift) as Hpow by (by apply Z.pow_pos_nonneg).
  cbn [encode_varint_fuel read_varint_loop] in *.
  destruct (Z.ltb_spec n 128) as [Hsmall|Hbig].
  - destruct (rest_cons p n l Hok Hr) as (-> & -> & _ & _). cbn [unwrap_or].
    destruct (varint_byte_bits n ltac:(lia)) as [-> ->].
    rewrite (proj2 (Z.ltb_lt n 128) Hsmall), (Z.mod_small n) by lia.
    rewrite u64_small by (rewrite Z.shiftl_mul_pow2 by done; nia).
    rewrite lor_shiftl_add by lia. cbn. do 2 f_equal. lia.
  - pose proof (Z.mod_pos_bound n 128 ltac:(lia)) as Hm.
    pose proof (Z.div_mod n 128 ltac:(lia)) as Hd.
    destruct (rest_cons p _ _ Hok Hr) as (-> & -> & Hr' & Hok'). cbn [unwrap_or].
    destruct (varint_byte_bits (n `mod` 128 + 128) ltac:(lia)) as [-> ->].
    replace (n `mod` 128 + 128 <? 128) with false by (symmetry; apply Z.ltb_ge; lia).
    replace ((n `mod` 128 + 128) `mod` 128) with (n `mod` 128).
    2: { rewrite Z.add_mod, Z_mod_same_full, Z.add_0_r, !Z.mod_mod by lia. done. }
    rewrite u64_small by (rewrite Z.shiftl_mul_pow2 by done; nia).
    rewrite lor_shiftl_add by lia.
    assert (2 ^ (shift + 7) = 2 ^ shift * 128) as Hp7 by (by rewrite Z.pow_add_r by lia).
    destruct (Z.leb_spec 64 (shift + 7)) as [H64|H64].
    { exfalso. assert (2 ^ 64 ≤ 2 ^ (shift + 7)) by (apply Z.pow_le_mono_r; lia). nia. }
    rewrite (IH (n / 128)).
    + f_equal; [f_equal; rewrite Hp7; nia|].
      unfold at_pos. cbn. f_equal. lia.
    + done.
    + done.
    + apply Z.div_pos; lia.
    + lia.
    + rewrite Hp7. nia.
    + rewrite Hp7. nia.
    + lia.
    + lia.
Qed.

(** Every 64-bit value is read back from its encoding. *)
Lemma read_varint_spec n p l :
  parser_ok p → rest p = encode_varint n ++ l → 0 ≤ n < 2 ^ 64 →
  read_varint p = (Some n, at_pos (pos p + Z.of_nat (length (encode_varint n))) p).
Proof.
  intros Hok Hr Hn. unfold read_varint.
  rewrite (read_varint_loop_spec 10 n 0 0 p l Hok Hr) by (cbn; lia).
  f_equal. f_equal. cbn. lia.
Qed.

(** ** Reading back fields *)

Lemma at_pos_ok p n l1 l2 :
  parser_ok p → rest p = l1 ++ l2 → n = pos p + Z.of_nat (length l1) → parser_ok (at_pos n p).
Proof.
  intros Hok Hr ->. destruct (rest_app p l1 l2 Hok Hr) as (H & _).
  destruct Hok as [Hp Hd]. unfold parser_ok, data_len in *. cbn. lia.
Qed.

Lemma tag_split f w :
  0 ≤ f < 2 ^ 29 → 0 ≤ w < 8 →
  u32 (Z.shiftr (f * 8 + w) 3) = f ∧ Z.land (f * 8 + w) 0x7 = w.
Proof.
  intros Hf Hw. rewrite Z.shiftr_div_pow2 by lia. change (2 ^ 3) with 8.
  rewrite Z.div_add_l, (Z.div_small w), Z.add_0_r, u32_small by lia.
  change 7 with (2 ^ 3 - 1). rewrite land_ones_mod by lia. change (2 ^ 3) with 8.
  rewrite Z.add_comm, Z.mod_add, Z.mod_small by lia. done.
Qed.

Lemma length_le_bytes k n : length (le_bytes k n) = k.
Proof. revert n. induction k; intros; cbn; auto. Qed.

Lemma from_le_bytes_le_bytes k n :
  0 ≤ n < 256 ^ Z.of_nat k → from_le_bytes (le_bytes k n) = n.
Proof.
  revert n. induction k as [|k IH]; intros n Hn; cbn [le_bytes from_le_bytes].
  - change (256 ^ Z.of_nat 0) with 1 in Hn. lia.
  - rewrite Nat2Z.inj_succ, Z.pow_succ_r in Hn by lia.
    rewrite IH; [pose proof (Z.div_mod n 256); lia|].
    split; [apply Z.div_pos; lia|]. apply Z.div_lt_upper_bound; lia.
Qed.

Lemma slice_range_rest p l1 l2 :
  parser_ok p → rest p = l1 ++ l2 →
  slice_range (pos p) (pos p + Z.of_nat (length l1)) (data p) = Ret l1.
Proof.
  intros Hok Hr. destruct (rest_app p l1 l2 Hok Hr) as (H & _ & Hs).
  unfold slice_range, data_len in *. rewrite (proj2 (Z.leb_le _ _)) by lia.
  rewrite (proj2 (Z.leb_le _ _)) by lia. cbn [andb].
  replace (Z.to_nat (pos p + Z.of_nat (length l1) - pos p)) with (length l1) by lia.
  by rewrite Hs.
Qed.

Lemma end_no_wrap p l1 l2 :
  parser_ok p → rest p = l1 ++ l2 →
  usize (pos p + Z.of_nat (length l1)) = pos p + Z.of_nat (length l1)
  ∧ (data_len p <? pos p + Z.of_nat (length l1)) = false.
Proof.
  intros Hok Hr. destruct (rest_app p l1 l2 Hok Hr) as (H & _). destruct Hok as [Hp Hd].
  split; [apply usize_small; lia|]. apply Z.ltb_ge. lia.
Qed.

Lemma read_fixed_spec k mk f p n l :
  parser_ok p → rest p = le_bytes k n ++ l → 0 ≤ n < 256 ^ Z.of_nat k →
  read_fixed (Z.of_nat k) mk f p
  = Ret (Some (f, mk n), at_pos (pos p + Z.of_nat k) p).
Proof.
  intros Hok Hr Hn. pose proof (end_no_wrap p _ l Hok Hr) as [H1 H2].
  pose proof (slice_range_rest p _ l Hok Hr) as H3.
  rewrite length_le_bytes in H1, H2, H3. unfold read_fixed.
  rewrite H1, H2, H3. cbn. by rewrite from_le_bytes_le_bytes.
Qed.

Lemma read_tag n p l :
  parser_ok p → rest p = encode_varint n ++ l → 0 ≤ n < 2 ^ 64 →
  ∃ p', read_varint p = (Some n, p') ∧ parser_ok p' ∧ rest p' = l
        ∧ p' = at_pos (pos p + Z.of_nat (length (encode_varint n))) p.
Proof.
  intros Hok Hr Hn. eexists. split; [by eapply read_varint_spec|].
  split; [by eapply at_pos_ok|]. split; [|done]. apply (rest_app p _ l Hok Hr).
Qed.

(** [next_field] reads back every well-formed field and stops right after it. *)
Lemma next_field_spec p fv l :
  parser_ok p → rest p = encode_field fv ++ l → field_ok fv →
  next_field p = Ret (Some fv, at_pos (pos p + Z.of_nat (length (encode_field fv))) p).
Proof.
  intros Hok Hr [Hf Hv]. destruct fv as [f v]. cbn [fst snd] in *.
  destruct v as [n|b|n|n]; cbn [encode_field value_ok] in *; rewrite <- ?app_assoc in Hr.
  all: destruct (read_tag _ p _ Hok Hr) as (p1 & E1 & Hok1 & Hr1 & Hp1); [lia|].
  all: unfold next_field; rewrite E1.
  - destruct (tag_split f 0 Hf) as [-> ->]; [lia|]. cbn [Z.eqb].
    destruct (read_tag _ p1 _ Hok1 Hr1 Hv) as (p2 & E2 & _ & _ & Hp2). rewrite E2.
    rewrite Hp2, Hp1, length_app. unfold at_pos. cbn. do 3 f_equal. lia.
  - destruct (tag_split f 2 Hf) as [-> ->]; [lia|]. cbn [Z.eqb Pos.eqb].
    destruct (read_tag _ p1 _ Hok1 Hr1) as (p2 & E2 & Hok2 & Hr2 & Hp2); [lia|]. rewrite E2.
    destruct (end_no_wrap p2 b l Hok2 Hr2) as [-> ->].
    rewrite (slice_range_rest p2 b l Hok2 Hr2). cbn.
    rewrite Hp2, Hp1, !length_app. unfold at_pos. cbn. do 3 f_equal. lia.
  - destruct (tag_split f 5 Hf) as [-> ->]; [lia|]. cbn [Z.eqb Pos.eqb].
    pose proof (read_fixed_spec 4 Fixed32 f p1 n l Hok1 Hr1 Hv) as E3.
    change (Z.of_nat 4) with 4 in E3. rewrite E3.
    rewrite Hp1, length_app, length_le_bytes. unfold at_pos. cbn. do 3 f_equal. lia.
  - destruct (tag_split f 1 Hf) as [-> ->]; [lia|]. cbn [Z.eqb Pos.eqb].
    pose proof (read_fixed_spec 8 Fixed64 f p1 n l Hok1 Hr1 Hv) as E3.
    change (Z.of_nat 8) with 8 in E3. rewrite E3.
    rewrite Hp1, length_app, length_le_bytes. unfold at_pos. cbn. do 3 f_equal. lia.
Qed.

(** What a loop over the fields computes. *)
Fixpoint run_fields {A} (body : Z → Value → A → exec (flow A)) (a : A)
    (fs : list (Z * Value)) : exec A :=
  match fs with
  | [] => Ret a
  | (f, v) :: fs' =>
      fl ← body f v a;
      match fl with
      | Continue a => run_fields body a fs'
      | Break a => Ret a
      end
  end.

Definition msg_ok (fs : list (Z * Value)) : Prop :=
  Forall field_ok fs ∧ Z.of_nat (length (encode_msg fs)) < 2 ^ 63.

Lemma while_fields_spec {A} (body : Z → Value → A → exec (flow A)) fs fuel a p :
  parser_ok p → rest p = encode_msg fs → Forall field_ok fs → (length fs < fuel)%nat →
  while_fields fuel body a p = run_fields body a fs.
Proof.
  revert fuel a p. induction fs as [|[f v] fs IH]; intros fuel a p Hok Hr Hfs Hfuel;
    (destruct fuel as [|fuel]; [cbn in Hfuel; lia|]); cbn [while_fields run_fields].
  - assert (read_varint p = (None, p)) as E.
    { unfold read_varint. cbn [read_varint_loop].
      assert ((data_len p <=? pos p) = true) as ->; [|done].
      apply Z.leb_le. unfold rest, encode_msg in Hr. cbn in Hr.
      apply (f_equal length) in Hr. rewrite length_drop in Hr. cbn in Hr.
      unfold data_len. destruct Hok as [? _]. lia. }
    unfold next_field. rewrite E. done.
  - apply Forall_cons in Hfs as [Hf Hfs].
    unfold encode_msg in Hr. cbn [fmap list_fmap concat] in Hr.
    rewrite (next_field_spec p (f, v) _ Hok Hr Hf). cbn.
    destruct (body f v a) as [[a'|a']|]; cbn; [|done|done].
    apply IH; [by eapply at_pos_ok| |done|cbn in Hfuel; lia].
    by apply (rest_app p _ _ Hok Hr).
Qed.

Lemma encode_field_length fv : (0 < length (encode_field fv))%nat.
Proof.
  destruct fv as [f v].
  assert (∀ n, (0 < length (encode_varint n))%nat) as H.
  { intros n. unfold encode_varint. cbn [encode_varint_fuel]. destruct (n <? 128); cbn; lia. }
  destruct v; cbn [encode_field]; rewrite length_app.
  all: match goal with |- context [(length (encode_varint ?n) + _)%nat] => specialize (H n) end; lia.
Qed.

Lemma encode_msg_length fs : (length fs ≤ length (encode_msg fs))%nat.
Proof.
  unfold encode_msg. induction fs as [|fv fs IH]; cbn; [lia|]. rewrite length_app.
  pose proof (encode_field_length fv). lia.
Qed.

(** A loop over an encoded message visits its fields in order. *)
Theorem for_fields_spec {A} (body : Z → Value → A → exec (flow A)) a fs :
  msg_ok fs → for_fields body a (encode_msg fs) = run_fields body a fs.
Proof.
  intros [Hfs Hlen]. unfold for_fields. apply while_fields_spec; try done.
  - unfold parser_ok, data_len. cbn. lia.
  - pose proof (encode_msg_length fs). lia.
Qed.

(** The fields before the first one that is not length-delimited. *)
Fixpoint leading_bytes (fs : list (Z * Value)) : list (Z * bytes) :=
  match fs with
  | (f, Bytes b) :: fs' => (f, b) :: leading_bytes fs'
  | _ => []
  end.

(** [get_bytes_field] finds the first payload of the field among the leading
    length-delimited fields only: any other field type ends its search. *)
Theorem get_bytes_field_spec fs target :
  msg_ok fs →
  get_bytes_field (encode_msg fs) target
  = Ret (find_map (λ '(f, b), if f =? target then Some b else None) (leading_bytes fs)).
Proof.
  intros H. unfold get_bytes_field, for_bytes_fields. rewrite for_fields_spec by done.
  clear H. induction fs as [|[f [n|b|n|n]] fs IH]; cbn; try done.
  destruct (f =? target); cbn; [done|]. apply IH.
Qed.

Lemma get_varint_field_encoded fs target :
  msg_ok fs →
  get_varint_field (encode_msg fs) target
  = Ret (find_map (λ '(f, v), if f =? target
                              then match v with Varint n => Some n | _ => None end
                              else None) fs).
Proof.
  intros H. unfold get_varint_field. rewrite for_fields_spec by done.
  clear H. induction fs as [|[f v] fs IH]; cbn; try done.
  destruct (f =? target); [destruct v|]; cbn; done || apply IH.
Qed.

(** [get_varint_field] searches the whole message. *)
Theorem get_varint_field_spec fs target :
  msg_ok fs →
  get_varint_field (encode_msg fs) target
  = Ret (find_map (λ '(f, v), if f =? target
                              then match v with Varint n => Some n | _ => None end
                              else None) fs).
Proof. apply get_varint_field_encoded. Qed.

(** ** Progress, termination and panics *)

Definition advances (p p' : Parser) : Prop := data p' = data p ∧ pos p < pos p' ≤ data_len p.

Lemma u64_range z : 0 ≤ u64 z < 2 ^ 64.
Proof. by apply (wrap_range 64). Qed.

Lemma lor_range a b : 0 ≤ a < 2 ^ 64 → 0 ≤ b < 2 ^ 64 → 0 ≤ Z.lor a b < 2 ^ 64.
Proof.
  intros Ha Hb. assert (0 ≤ Z.lor a b) as Hp by (apply Z.lor_nonneg; lia). split; [done|].
  rewrite <- (Z.mod_small a (2 ^ 64)), <- (Z.mod_small b (2 ^ 64)) by done.
  rewrite <- !Z.land_ones, <- Z.land_lor_distr_l, Z.land_ones by lia.
  apply Z.mod_pos_bound. lia.
Qed.

Lemma read_varint_loop_progress fuel result shift p n p' :
  0 ≤ pos p → 0 ≤ result < 2 ^ 64 → read_varint_loop fuel result shift p = (Some n, p') →
  advances p p' ∧ 0 ≤ n < 2 ^ 64.
Proof.
  revert result shift p. induction fuel as [|fuel IH]; intros result shift p Hp Hres; [done|].
  cbn [read_varint_loop]. destruct (Z.leb_spec (data_len p) (pos p)) as [|Hlt]; [done|].
  set (b := unwrap_or _ _). set (r := Z.lor _ _).
  assert (0 ≤ r < 2 ^ 64) as Hr by (apply lor_range; [done|apply u64_range]).
  destruct (Z.land b 128 =? 0).
  - intros [= <- <-]. unfold advances, data_len in *. split; [split; [done|cbn; lia]|done].
  - destruct (64 <=? shift + 7); [done|]. intros H%IH; cbn in *; [|lia|done].
    destruct H as [[Hd Hlt'] Hn]. split; [|done]. unfold advances, data_len in *. cbn in *.
    split; [done|]. lia.
Qed.

Lemma read_varint_progress p n p' :
  0 ≤ pos p → read_varint p = (Some n, p') → advances p p' ∧ 0 ≤ n < 2 ^ 64.
Proof. intros Hp. apply read_varint_loop_progress; [done|lia]. Qed.

Lemma read_fixed_progress k mk f p x p' :
  0 ≤ pos p → 0 ≤ k → read_fixed k mk f p = Ret (Some x, p') →
  data p' = data p ∧ pos p ≤ pos p' ≤ data_len p.
Proof.
  intros Hp Hk. unfold read_fixed, slice_range.
  destruct (_ <? _); [done|]. destruct (_ && _) eqn:E; [|done]. cbn. intros [= _ <-]. cbn.
  to_prop. unfold data_len. split; [done|lia].
Qed.

(** Every field consumes at least one byte and stays within the data. *)
Lemma next_field_progress p x p' :
  0 ≤ pos p → next_field p = Ret (Some x, p') → advances p p'.
Proof.
  intros Hp. unfold next_field. destruct (read_varint p) as [[tag|] p1] eqn:E1; [|done].
  apply read_varint_progress in E1 as [[Hd1 Hp1] _]; [|done].
  assert (∀ p', data p' = data p1 ∧ pos p1 ≤ pos p' ≤ data_len p1 → advances p p') as Hadv.
  { intros q [Hd Hq]. unfold advances, data_len in *. rewrite Hd1 in *. split; [done|lia]. }
  destruct (_ =? 0).
  { destruct (read_varint p1) as [[n|] p2] eqn:E2; [|done].
    apply read_varint_progress in E2 as [[Hd2 Hp2] _]; [|lia].
    intros [= _ <-]. apply Hadv. split; [done|lia]. }
  destruct (_ =? 1); [intros H%read_fixed_progress; [auto|lia|lia]|].
  destruct (_ =? 2).
  { destruct (read_varint p1) as [[n|] p2] eqn:E2; [|done].
    apply read_varint_progress in E2 as [[Hd2 Hp2] _]; [|lia].
    destruct (_ <? _); [done|]. unfold slice_range. destruct (_ && _) eqn:E; [|done]. cbn.
    intros [= _ <-]. apply Hadv. to_prop. unfold data_len in *. cbn. rewrite Hd2 in *.
    split; [done|lia]. }
  destruct (_ =? 5); [intros H%read_fixed_progress; [auto|lia|lia]|done].
Qed.

Lemma while_fields_fuel_mono {A} (body : Z → Value → A → exec (flow A)) n fuel a p :
  0 ≤ pos p ≤ data_len p → data_len p - pos p < Z.of_nat n → (n ≤ fuel)%nat →
  while_fields fuel body a p = while_fields n body a p.
Proof.
  revert fuel a p. induction n as [|n IH]; intros fuel a p Hp Hn Hle; [lia|].
  destruct fuel as [|fuel]; [lia|]. cbn [while_fields].
  destruct (next_field p) as [[[[f v]|] p']|] eqn:E; cbn; try done.
  destruct (body f v a) as [[a'|a']|]; cbn; try done.
  apply next_field_progress in E as [Hd Hp']; [|lia]. unfold data_len in *.
  apply IH; [rewrite Hd; lia|rewrite Hd; lia|lia].
Qed.

(** The loops terminate: the fuel [for_fields] gives is never used up, any
    larger amount computes the same. *)
Theorem while_fields_fuel {A} (body : Z → Value → A → exec (flow A)) a msg fuel :
  (S (length msg) ≤ fuel)%nat →
  while_fields fuel body a (parser_new msg) = for_fields body a msg.
Proof.
  intros H. apply while_fields_fuel_mono; unfold data_len; cbn [data pos parser_new]; lia.
Qed.

Lemma while_fields_fuel_witness :
  for_fields (λ _ _ a, Ret (Continue (a + 1))) 0 [8; 1; 8; 2] = Ret 2.
Proof. by rewrite <- (while_fields_fuel _ 0 [8; 1; 8; 2] 100) by (cbn; lia). Defined.

(** [next_field] aborts the server exactly on a length-delimited field whose
    declared length overflows the position. *)
Theorem next_field_panic p :
  parser_ok p →
  next_field p = Panic ↔
  ∃ tag p1 n p2, read_varint p = (Some tag, p1) ∧ Z.land tag 0x7 = 2
                 ∧ read_varint p1 = (Some n, p2) ∧ 2 ^ 64 ≤ pos p2 + n.
Proof.
  intros [Hp Hlen].
  assert (∀ k mk f p1, 0 ≤ pos p1 ≤ data_len p1 → data_len p1 < 2 ^ 63 → 0 ≤ k ≤ 8 →
            read_fixed k mk f p1 ≠ Panic) as Hfixed.
  { intros k mk f p1 Hp1 Hl Hk. unfold read_fixed. rewrite usize_small by lia.
    destruct (Z.ltb_spec (data_len p1) (pos p1 + k)); [done|]. unfold slice_range.
    unfold data_len in *. rewrite (proj2 (Z.leb_le _ _)), (proj2 (Z.leb_le _ _)) by lia. done. }
  unfold next_field. destruct (read_varint p) as [[tag|] p1] eqn:E1.
  2: { split; [done|]. by intros (?&?&?&?&?&_). }
  apply read_varint_progress in E1 as [[Hd1 Hp1] _]; [|lia].
  assert (data_len p1 = data_len p) as Hl1 by (unfold data_len; by rewrite Hd1).
  assert (∀ B : Prop, Z.land tag 7 ≠ 2 → ¬ B →
    (B ↔ ∃ tag0 p0 n p2, (Some tag, p1) = (Some tag0, p0) ∧ Z.land tag0 7 = 2
                   ∧ read_varint p0 = (Some n, p2) ∧ 2 ^ 64 ≤ pos p2 + n)) as Hother.
  { intros B Hw HB. split; [done|]. by intros (?&?&?&?&[= <- <-]&?&_). }
  destruct (Z.eqb_spec (Z.land tag 7) 0) as [E|_].
  { apply Hother; [lia|]. by destruct (read_varint p1) as [[?|] ?]. }
  destruct (Z.eqb_spec (Z.land tag 7) 1) as [E|_]; [apply Hother; [lia|apply Hfixed; lia]|].
  destruct (Z.eqb_spec (Z.land tag 7) 2) as [E|E].
  2: { destruct (_ =? 5); [apply Hother; [lia|apply Hfixed; lia]|by apply Hother]. }
  destruct (read_varint p1) as [[n|] p2] eqn:E2.
  2: { split; [done|]. intros (?&?&?&?&[= <- <-]&_&?&_). congruence. }
  pose proof (read_varint_progress p1 n p2 ltac:(lia) E2) as [[Hd2 Hp2] Hn].
  assert (data_len p2 = data_len p) as Hl2 by (unfold data_len; by rewrite Hd2, Hd1).
  destruct (Z_lt_le_dec (pos p2 + n) (2 ^ 64)) as [Hlt|Hge].
  - rewrite usize_small by lia. split.
    + destruct (Z.ltb_spec (data_len p2) (pos p2 + n)); [done|]. unfold slice_range, data_len in *.
      rewrite (proj2 (Z.leb_le _ _)), (proj2 (Z.leb_le _ _)) by lia. done.
    + intros (?&?&n'&p'&[= <- <-]&_&E2'&?). rewrite E2 in E2'. simplify_eq. lia.
  - split; [intros _; by exists tag, p1, n, p2|]. intros _.
    assert (usize (pos p2 + n) = pos p2 + n - 2 ^ 64) as ->.
    { unfold usize, wrap. symmetry. apply Z.mod_unique with 1; lia. }
    rewrite (proj2 (Z.ltb_ge _ _)) by lia. unfold slice_range.
    by rewrite (proj2 (Z.leb_gt _ _)) by lia.
Qed.

Lemma next_field_panic_witness :
  parser_ok (parser_new (10 :: encode_varint (2 ^ 64 - 1)))
  ∧ next_field (parser_new (10 :: encode_varint (2 ^ 64 - 1))) = Panic
  ∧ try_proto_to_json (magic ++ 10 :: encode_varint (2 ^ 64 - 1)) = Panic.
Proof.
  assert (parser_ok (parser_new (10 :: encode_varint (2 ^ 64 - 1)))) as Hok
    by (split; [split|]; vm_compute; done).
  split; [done|]. split; [|by vm_compute]. apply (next_field_panic _ Hok).
  eexists 10, _, (2 ^ 64 - 1), _. split; [reflexivity|]. split; [reflexivity|].
  split; [vm_compute; reflexivity|]. cbn. lia.
Defined.

(** A Deployment message carries its replica count as field 1, a varint, ahead
    of selector and template. The search for those stops there: whatever
    follows, both are decoded as empty objects. *)
Theorem deployment_selector_lost r fs field :
  0 ≤ field < 2 ^ 29 → msg_ok ((1, Varint r) :: fs) →
  msg_ok [(field, Bytes (encode_msg ((1, Varint r) :: fs)))] →
  parse_deploy_spec (encode_msg [(field, Bytes (encode_msg ((1, Varint r) :: fs)))]) field
  = Ret (jobj [("replicas", JNum (i64 r)); ("selector", JObj []); ("template", JObj [])]).
Proof.
  intros Hf Hin Hout. unfold parse_deploy_spec. rewrite get_bytes_field_spec by done.
  cbn [leading_bytes find_map]. rewrite Z.eqb_refl. cbn [mbind exec_bind].
  rewrite get_varint_field_encoded, !get_bytes_field_spec by done. done.
Qed.

Lemma deployment_selector_lost_witness :
  parse_deploy_spec (encode_msg [(2, Bytes (encode_msg [(1, Varint 3); (3, Bytes [])]))]) 2
  = Ret (jobj [("replicas", JNum 3); ("selector", JObj []); ("template", JObj [])]).
Proof.
  apply (deployment_selector_lost 3 [(3, Bytes [])] 2); [lia|..];
    (split; [repeat constructor; cbn; lia|vm_compute; done]).
Defined.

Lemma get_bytes_field_spec_witness :
  get_bytes_field (encode_msg [(1, Bytes [7]); (2, Bytes [9]); (3, Varint 1); (4, Bytes [])]) 2
  = Ret (Some [9])
  ∧ get_bytes_field (encode_msg [(1, Bytes [7]); (2, Bytes [9]); (3, Varint 1); (4, Bytes [])]) 4
  = Ret None.
Proof.
  split; rewrite get_bytes_field_spec; try done;
    (split; [repeat constructor; cbn; lia|vm_compute; done]).
Defined.

Lemma for_fields_spec_witness :
  for_fields (λ f v a, Ret (Continue (a ++ [(f, v)]))) []
    (encode_msg [(1, Varint 300); (2, Bytes [1; 2]); (3, Fixed32 7)])
  = Ret [(1, Varint 300); (2, Bytes [1; 2]); (3, Fixed32 7)].
Proof.
  rewrite for_fields_spec; [done|].
  split; [repeat constructor; cbn; lia|vm_compute; done].
Defined.

Lemma get_varint_field_spec_witness :
  get_varint_field (encode_msg [(1, Bytes [7]); (2, Varint 9); (2, Varint 1)]) 2 = Ret (Some 9).
Proof.
  rewrite get_varint_field_spec; [done|].
  split; [repeat constructor; cbn; lia|vm_compute; done].
Defined.
