(* ===== verification/Dns.v ===== *)
(** * Dns: the cluster DNS server (src/src/netmux/dns.rs)

    Packet parsing and building, the resolution of service names against the
    resource store, and the handling of one query. The exchange with an upstream
    resolver (socket, send, receive with a time limit) is the parameter
    [exchange]; the cluster domain of the configuration is an argument. *)
From S2P Require Import Prelude Text Utf8 Resources.

Definition TTL : Z := 30.

Section dns.
Context `{HO : HashOrder} `{UC : UnicodeCase}.

(** ** Packet helpers *)

(** One iteration per label or pointer; [steps] ends the loop after 51 of them,
    so 52 units of fuel are enough. The result carries the new [*offset]. *)
Fixpoint parse_name_loop (fuel : nat) (buf : bytes) (offset cur : Z) (jumped : bool)
    (steps : Z) (labels : list string) : option (string * Z) :=
  match fuel with
  | O => None
  | S fuel' =>
      if (Z.of_nat (length buf) <=? cur) || (50 <? steps) then None
      else
        let steps := steps + 1 in
        let len := at_byte buf (Z.to_nat cur) in
        if len =? 0 then
          Some (join "." (reverse labels), if jumped then offset else cur + 1)
        else if Z.land len 0xC0 =? 0xC0 then
          if Z.of_nat (length buf) <=? cur + 1 then None
          else
            let ptr := Z.lor (Z.shiftl (Z.land len 0x3F) 8)
                             (at_byte buf (Z.to_nat (cur + 1))) in
            let offset := if jumped then offset else cur + 2 in
            parse_name_loop fuel' buf offset ptr true steps labels
        else
          let cur := cur + 1 in
          if Z.of_nat (length buf) <? cur + len then None
          else
            match from_utf8 (slice (Z.to_nat cur) (Z.to_nat len) buf) with
            | None => None
            | Some s =>
                parse_name_loop fuel' buf offset (cur + len) jumped steps
                  (to_lowercase s :: labels)
            end
  end.

Definition parse_name (buf : bytes) (offset : Z) : option (string * Z) :=
  parse_name_loop 52 buf offset offset false 0 [].

Definition encode_label (label : string) : bytes :=
  match label with
  | EmptyString => []
  | _ => u8 (Z.of_nat (String.length label)) :: as_bytes label
  end.

Definition encode_name (name : string) : bytes :=
  concat (encode_label <$> split_on "." name) ++ [0].

Definition response_flags (rd : bool) (rcode : Z) : Z :=
  Z.lor (Z.lor 0x8000 (if rd then 0x0180 else 0x0100)) (Z.land rcode 0xF).

Definition make_response (id : Z) (rd : bool) (question_bytes : bytes)
    (answers : list bytes) (rcode : Z) : bytes :=
  be16 id ++ be16 (response_flags rd rcode) ++ be16 1
  ++ be16 (u16 (Z.of_nat (length answers))) ++ be16 0 ++ be16 0
  ++ question_bytes ++ concat answers.

Definition a_record (name : string) (ip : bytes) : bytes :=
  encode_name name ++ be16 1 ++ be16 1 ++ be32 TTL ++ be16 4 ++ ip.

Definition cname_record (name target : string) : bytes :=
  let encoded_target := encode_name target in
  encode_name name ++ be16 5 ++ be16 1 ++ be32 TTL
  ++ be16 (u16 (Z.of_nat (length encoded_target))) ++ encoded_target.

(** ** Resolution *)

Inductive ServiceResolution :=
  | ClusterIP (ip : string)
  | ExternalName (n : string)
  | NoResolution.

(** [parts[i]], every use of which is in range. *)
Definition part (parts : list string) (i : nat) : string := unwrap_or (parts !! i) "".

Definition parse_service_name (cluster_domain name : string)
    : option (string * option string) :=
  let parts := split_on "." name in
  let n := length parts in
  let domain_parts := split_on "." cluster_domain in
  let dn := length domain_parts in
  let tail := drop (n - dn) parts in
  let full_prefix := (dn + 2)%nat in
  if (full_prefix + 1 <=? n)%nat && bool_decide (tail = domain_parts)
     && bool_decide (part parts (n - dn - 1) = "svc") then
    Some (join "." (take (n - dn - 2) parts), Some (part parts (n - dn - 2)))
  else if (dn + 2 <=? n)%nat && bool_decide (tail = domain_parts)
     && bool_decide (part parts (n - dn - 1) = "svc") then
    Some (part parts 0, None)
  else if (dn + 1 <=? n)%nat && bool_decide (tail = domain_parts) then
    Some (part parts 0, None)
  else if (n =? 1)%nat then Some (part parts 0, None)
  else if (n =? 2)%nat then Some (part parts 0, Some (part parts 1))
  else None.

(** The body of the loop over services: [None] continues. *)
Definition resolve_tracker (svc_name : string) (ns_hint : option string)
    (t : ResourceTracker) : option ServiceResolution :=
  match resource t with
  | RService svc =>
      let svc_n := unwrap_or (om_name (svc_metadata svc)) "" in
      let svc_ns := unwrap_or (om_namespace (svc_metadata svc)) "default" in
      if negb (bool_decide (svc_n = svc_name)) then None
      else if match ns_hint with
              | Some hint => negb (bool_decide (svc_ns = hint))
              | None => false
              end then None
      else
        match svc_spec svc with
        | None => None
        | Some spec =>
            if bool_decide (ss_type spec = Some "ExternalName") then
              match ss_external_name spec with
              | Some ext =>
                  Some (if bool_decide (ext = "") then NoResolution else ExternalName ext)
              | None => Some NoResolution
              end
            else
              let ip := unwrap_or (ss_cluster_ip spec) "None" in
              Some (if bool_decide (ip = "None") || bool_decide (ip = "") then NoResolution
                    else ClusterIP ip)
        end
  | _ => None
  end.

Definition resolve_service (cluster_domain name : string) (store : ResourceStore)
    : ServiceResolution :=
  let name := trim_end_matches "." name in
  match parse_service_name cluster_domain name with
  | None => NoResolution
  | Some (svc_name, ns_hint) =>
      unwrap_or (find_map (resolve_tracker svc_name ns_hint)
                   (get_by_kind "Service" store)) NoResolution
  end.

Definition parse_ipv4 (s : string) : option bytes :=
  match split_on "." s with
  | [a; b; c; d] =>
      a ← parse_u8 a; b ← parse_u8 b; c ← parse_u8 c; d ← parse_u8 d;
      Some [a; b; c; d]
  | _ => None
  end.

Definition read_upstream_dns (resolv_conf : string) : list string :=
  let ips :=
    omap (λ l, split_whitespace l !! 1%nat)
      (List.filter (starts_with "nameserver ") (lines resolv_conf)) in
  (λ ip, ip +:+ ":53") <$> List.filter (λ ip, negb (bool_decide (ip = "127.0.0.1"))) ips.

(** ** Queries *)

(** A resolver at an address answers a query, or not. *)
Variable exchange : string → bytes → option bytes.

Definition forward (query : bytes) (upstream : list string) : option bytes :=
  find_map (λ addr, exchange addr query) upstream.

Definition a_answers (qtype : Z) (record : bytes) : list bytes :=
  if qtype =? 28 then [] else [record].

Definition handle_query (cluster_domain : string) (query : bytes) (store : ResourceStore)
    (upstream : list string) (dns_records : gmap string Ipv4Addr) : option bytes :=
  let q i := at_byte query i in
  if (length query <? 12)%nat then None
  else
    let id := from_be16 (q 0%nat) (q 1%nat) in
    let flags := from_be16 (q 2%nat) (q 3%nat) in
    if negb (Z.land flags 0x8000 =? 0) then None
    else
      let rd := negb (Z.land flags 0x0100 =? 0) in
      let qdcount := from_be16 (q 4%nat) (q 5%nat) in
      if qdcount =? 0 then None
      else
        '(name, offset) ← parse_name query 12;
        if Z.of_nat (length query) <? offset + 4 then None
        else
          let qtype := from_be16 (q (Z.to_nat offset)) (q (Z.to_nat (offset + 1))) in
          let question_bytes := slice 12 (Z.to_nat (offset + 4 - 12)) query in
          if negb (qtype =? 1) && negb (qtype =? 28) && negb (qtype =? 255) then
            forward query upstream
          else
            match dns_records !! trim_end_matches "." name with
            | Some ip =>
                Some (make_response id rd question_bytes
                        (a_answers qtype (a_record name (octets ip))) 0)
            | None =>
                match resolve_service cluster_domain name store with
                | ClusterIP cluster_ip =>
                    ip_bytes ← parse_ipv4 cluster_ip;
                    Some (make_response id rd question_bytes
                            (a_answers qtype (a_record name ip_bytes)) 0)
                | ExternalName external_name =>
                    match parse_ipv4 external_name with
                    | Some ip_bytes =>
                        Some (make_response id rd question_bytes
                                (a_answers qtype (a_record name ip_bytes)) 0)
                    | None =>
                        Some (make_response id rd question_bytes
                                (a_answers qtype (cname_record name external_name)) 0)
                    end
                | NoResolution =>
                    if rd then
                      match upstream with
                      | [] => forward query ["1.1.1.1:53"; "8.8.8.8:53"]
                      | _ => forward query upstream
                      end
                    else Some (make_response id rd question_bytes [] 3)
                end
            end.
End dns.

#[global] Arguments handle_query {HO UC}.

(** ** Names on the wire *)

(** A host name label in lower case. *)
Definition label_ok (s : string) : Prop :=
  s ≠ "" ∧ (String.length s ≤ 63)%nat ∧ has_char "." s = false
  ∧ is_ascii s = true ∧ to_ascii_lowercase s = s.

Section names.
Context `{UC : UnicodeCase}.

Lemma encode_label_cons s :
  s ≠ "" → (String.length s ≤ 63)%nat →
  encode_label s = Z.of_nat (String.length s) :: as_bytes s.
Proof. intros Hs Hl. destruct s; [done|]. unfold encode_label. by rewrite u8_small by lia. Qed.

Lemma small_len_not_pointer l : 1 ≤ l ≤ 63 → (Z.land l 0xC0 =? 0xC0) = false ∧ (l =? 0) = false.
Proof.
  intros Hl.
  assert (forallb (λ l, negb (Z.land l 0xC0 =? 0xC0)) (seqZ 1 63) = true) as H by by vm_compute.
  rewrite forallb_forall in H. specialize (H l). rewrite <- list_elem_of_In, elem_of_seqZ in H.
  split; [apply negb_true_iff, H; lia|]. apply Z.eqb_neq. lia.
Qed.

Lemma at_byte_drop buf n b l : drop n buf = b :: l → at_byte buf n = b ∧ (n < length buf)%nat.
Proof.
  intros H. split.
  - unfold at_byte. pose proof (lookup_drop buf n 0) as Hl. rewrite H, Nat.add_0_r in Hl.
    by rewrite <- Hl.
  - apply (f_equal length) in H. rewrite length_drop in H. cbn in H. lia.
Qed.

Lemma parse_name_loop_labels ls fuel buf off cur steps acc post :
  Forall label_ok ls → 0 ≤ cur → 0 ≤ steps →
  drop (Z.to_nat cur) buf = concat (encode_label <$> ls) ++ 0 :: post →
  steps + Z.of_nat (length ls) ≤ 50 → (length ls < fuel)%nat →
  parse_name_loop fuel buf off cur false steps acc
  = Some (join "." (reverse acc ++ ls),
          cur + Z.of_nat (length (concat (encode_label <$> ls))) + 1).
Proof.
  intros Hls. revert fuel cur steps acc.
  induction Hls as [|s ls (Hne & Hlen & _ & Hasc & Hlow) Hls IH];
    intros fuel cur steps acc Hcur Hst Hdrop Hsteps Hfuel;
    (destruct fuel as [|fuel]; [cbn in Hfuel; lia|]); cbn [parse_name_loop].
  - destruct (at_byte_drop _ _ _ _ Hdrop) as [-> Hlt].
    rewrite (proj2 (Z.leb_gt _ _)), (proj2 (Z.ltb_ge _ _)) by (cbn in Hsteps; lia).
    cbn [orb]. rewrite Z.eqb_refl, app_nil_r. cbn. do 2 f_equal. lia.
  - cbn [fmap list_fmap concat] in Hdrop. rewrite encode_label_cons in Hdrop by done.
    rewrite <- app_assoc in Hdrop. cbn [app] in Hdrop.
    destruct (at_byte_drop _ _ _ _ Hdrop) as [-> Hlt].
    rewrite (proj2 (Z.leb_gt _ _)), (proj2 (Z.ltb_ge _ _)) by (cbn in Hsteps; lia).
    cbn [orb]. assert (1 ≤ Z.of_nat (String.length s) ≤ 63) as Hl.
    { destruct s; [done|]. cbn in *. lia. }
    destruct (small_len_not_pointer _ Hl) as [-> ->].
    assert (drop (Z.to_nat (cur + 1)) buf = as_bytes s ++ concat (encode_label <$> ls) ++ 0 :: post)
      as Hdrop'.
    { replace (Z.to_nat (cur + 1)) with (Z.to_nat cur + 1)%nat by lia.
      by rewrite <- drop_drop, Hdrop. }
    assert (Z.of_nat (length buf) <? cur + 1 + Z.of_nat (String.length s) = false) as ->.
    { apply Z.ltb_ge. pose proof (f_equal length Hdrop') as Hlb.
      rewrite length_drop, length_app, length_as_bytes in Hlb. lia. }
    assert (slice (Z.to_nat (cur + 1)) (Z.to_nat (Z.of_nat (String.length s))) buf = as_bytes s)
      as ->.
    { unfold slice. rewrite Hdrop', Nat2Z.id, <- length_as_bytes. by rewrite take_app_length. }
    rewrite from_utf8_as_bytes by done. unfold to_lowercase. rewrite Hasc, Hlow.
    rewrite IH; [|lia|lia| |cbn in Hsteps; lia|cbn in Hfuel; lia].
    + rewrite reverse_cons, <- app_assoc. cbn [app fmap list_fmap concat].
      rewrite length_app, encode_label_cons by done. cbn [length].
      rewrite length_as_bytes. do 2 f_equal. unfold fmap. lia.
    + replace (Z.to_nat (cur + 1 + Z.of_nat (String.length s)))
        with (Z.to_nat (cur + 1) + length (as_bytes s))%nat by (rewrite length_as_bytes; lia).
      by rewrite <- drop_drop, Hdrop', drop_app_length.
Qed.

Lemma encode_name_join ls :
  Forall label_ok ls → encode_name (join "." ls) = concat (encode_label <$> ls) ++ [0].
Proof.
  intros H. destruct (decide (ls = [])) as [->|Hne]; [done|].
  unfold encode_name. rewrite split_on_join; [done|done|].
  eapply Forall_impl; [exact H|]. by intros s (_ & _ & ? & _).
Qed.

Lemma parse_name_encoded ls pre post :
  Forall label_ok ls → (length ls ≤ 50)%nat →
  let name := join "." ls in
  parse_name (pre ++ encode_name name ++ post) (Z.of_nat (length pre))
  = Some (name, Z.of_nat (length pre) + Z.of_nat (length (encode_name name))).
Proof.
  intros Hls Hlen name. unfold parse_name, name. rewrite encode_name_join by done.
  rewrite (parse_name_loop_labels ls _ _ _ _ _ _ post); [| |lia|lia| |lia|lia].
  - cbn. rewrite length_app. cbn. do 2 f_equal. lia.
  - done.
  - by rewrite Nat2Z.id, drop_app_length, <- app_assoc.
Qed.

(** A name of at most 50 lower-case labels survives encoding and parsing at any
    offset, and the parser stops right after it. *)
Theorem parse_name_encode_name ls pre post :
  Forall label_ok ls → (length ls ≤ 50)%nat →
  let name := join "." ls in
  parse_name (pre ++ encode_name name ++ post) (Z.of_nat (length pre))
  = Some (name, Z.of_nat (length pre) + Z.of_nat (length (encode_name name))).
Proof. apply parse_name_encoded. Qed.
End names.

Lemma label_ok_dec s :
  negb (bool_decide (s = "")) && (String.length s <=? 63)%nat && negb (has_char "." s)
  && is_ascii s && bool_decide (to_ascii_lowercase s = s) = true → label_ok s.
Proof.
  intros H. to_prop. apply Nat.leb_le in H3. done.
Qed.

Lemma parse_name_encode_name_witness :
  Forall label_ok ["web"; "default"; "svc"; "cluster"; "local"]
  ∧ parse_name ([0; 1; 2] ++ encode_name "web.default.svc.cluster.local" ++ [0; 1; 0; 1]) 3
    = Some ("web.default.svc.cluster.local", 34).
Proof.
  assert (Forall label_ok ["web"; "default"; "svc"; "cluster"; "local"]) as H
    by (repeat constructor; by apply label_ok_dec).
  split; [done|]. by apply (parse_name_encode_name _ [0; 1; 2] [0; 1; 0; 1] H); cbn; lia.
Defined.

(** ** Service names *)

Lemma split_on_dot_app s t :
  has_char "." s = false → split_on "." (s +:+ "." +:+ t) = s :: split_on "." t.
Proof. apply (split_on_app "." s t). Qed.

(** [svc.ns.svc.<domain>] names the service [svc] of the namespace [ns], for
    every cluster domain. *)
Theorem parse_service_name_full domain svc ns :
  has_char "." svc = false → has_char "." ns = false →
  parse_service_name domain (svc +:+ "." +:+ ns +:+ "." +:+ "svc" +:+ "." +:+ domain)
  = Some (svc, Some ns).
Proof.
  intros Hs Hn. unfold parse_service_name. rewrite !split_on_dot_app by done.
  set (dp := split_on "." domain). cbn [length].
  replace (S (S (S (length dp))) - length dp)%nat with 3%nat by lia.
  replace (length dp + 2 + 1 <=? S (S (S (length dp))))%nat with true
    by (symmetry; apply Nat.leb_le; lia).
  cbn. by rewrite bool_decide_true.
Qed.

Lemma parse_service_name_full_witness :
  parse_service_name "cluster.local" "web.prod.svc.cluster.local" = Some ("web", Some "prod").
Proof. by apply (parse_service_name_full "cluster.local" "web" "prod"). Defined.

Lemma find_map_unique {A B} (f : A → option B) l x y :
  x ∈ l → f x = Some y → (∀ x', x' ∈ l → is_Some (f x') → x' = x) → find_map f l = Some y.
Proof.
  intros Hx Hf Hu. destruct (find_map f l) as [y'|] eqn:E.
  - apply find_map_Some in E as (x' & Hx' & Hf').
    rewrite (Hu x' Hx') in Hf' by eauto. congruence.
  - rewrite find_map_None in E. specialize (E x Hx). congruence.
Qed.

(** Trackers of a store whose namespaces can be read back from their uids. *)
Definition store_named (s : ResourceStore) : Prop :=
  ∀ u t, s !! u = Some t → no_slash (namespace (resource t)).

Section resolve.
Context `{HO : HashOrder}.

Lemma resolve_tracker_key n ns t r :
  n ≠ "" → resolve_tracker n (Some ns) t = Some r →
  uid (resource t) = key "Service" ns n.
Proof.
  intros Hn. unfold resolve_tracker. destruct (resource t); try done.
  case_bool_decide as H1; cbn [negb]; [|done].
  case_bool_decide as H2; cbn [negb]; [|done]. intros _.
  unfold uid, key, namespace, name. cbn [kind metadata]. rewrite H2.
  destruct (om_name _); cbn in *; by subst.
Qed.

(** With a namespace hint the resolution reads exactly the tracker stored under
    the service's key: the order in which the map is iterated is irrelevant. *)
Theorem resolve_service_key domain nm s n ns :
  store_wf s → store_named s → no_slash ns → n ≠ "" → n ≠ "<unnamed>" →
  parse_service_name domain (trim_end_matches "." nm) = Some (n, Some ns) →
  resolve_service domain nm s
  = unwrap_or (t ← s !! key "Service" ns n; resolve_tracker n (Some ns) t) NoResolution.
Proof.
  intros Hwf Hnm Hns Hn Hu Hp. unfold resolve_service. rewrite Hp. f_equal.
  pose proof (λ t, get_by_kind_spec "Service" s t Hwf) as Hk.
  destruct (s !! key "Service" ns n ≫= resolve_tracker n (Some ns)) as [r|] eqn:E.
  - destruct (s !! key "Service" ns n) as [t|] eqn:Et; [|done]. cbn in E.
    pose proof (resolve_tracker_key n ns t r Hn E) as Hkey.
    apply (find_map_unique _ _ t); [|done|].
    + apply (Hk t). split; [|by rewrite Hkey].
      revert E. unfold resolve_tracker. by destruct (resource t).
    + intros t' Ht' [r' Hr']. apply (Hk t') in Ht' as [_ Ht'].
      rewrite (resolve_tracker_key n ns t' r' Hn Hr') in Ht'. congruence.
  - apply find_map_None. intros t Ht. apply (Hk t) in Ht as [_ Ht].
    destruct (resolve_tracker n (Some ns) t) as [r|] eqn:Er; [|done].
    rewrite (resolve_tracker_key n ns t r Hn Er) in Ht. rewrite Ht in E. cbn in E. congruence.
Qed.
End resolve.

Definition sample_service : AnyResource := RService {|
  svc_metadata := sample_meta "web" "prod";
  svc_spec := Some {| ss_type := None; ss_cluster_ip := Some "10.96.0.7";
    ss_cluster_ips := None; ss_selector := None; ss_ports := None;
    ss_external_name := None |};
  svc_has_status := false |}.
Definition service_store : ResourceStore := apply 1 sample_service store_new.

Lemma service_store_ok : store_wf service_store ∧ store_named service_store.
Proof.
  split; intros u t Ht; unfold service_store, apply, store_new in Ht; cbn in Ht;
    rewrite lookup_insert in Ht; case_decide; simplify_eq; by vm_compute.
Qed.

Lemma resolve_service_key_witness :
  resolve_service "cluster.local" "web.prod.svc.cluster.local." service_store
  = ClusterIP "10.96.0.7".
Proof.
  rewrite (resolve_service_key "cluster.local" _ service_store "web" "prod");
    [by vm_compute|apply service_store_ok|apply service_store_ok|done|done|done|by vm_compute].
Defined.

(** ** Replies *)

Lemma parse_ipv4_display ip : ipv4_ok ip → parse_ipv4 (display_ipv4 ip) = Some (octets ip).
Proof.
  intros Hip. unfold parse_ipv4, display_ipv4. rewrite split_on_join; [|done|].
  - unfold octets, be32, parse_u8. cbn [fmap list_fmap].
    rewrite !parse_unsigned_display by apply u8_range. done.
  - unfold octets, be32. cbn [fmap list_fmap].
    repeat constructor; apply display_octet_no_dot, u8_range.
Qed.

(** A reply of the server's own. *)
Definition own_reply `{UnicodeCase} (q r : bytes) : Prop :=
  ∃ name offset answers rcode,
    parse_name q 12 = Some (name, offset) ∧ offset + 4 ≤ Z.of_nat (length q)
    ∧ (length answers ≤ 1)%nat ∧ (rcode = 0 ∨ rcode = 3 ∧ answers = [])
    ∧ (from_be16 (at_byte q (Z.to_nat offset)) (at_byte q (Z.to_nat (offset + 1))) = 28 →
       answers = [])
    ∧ r = make_response (from_be16 (at_byte q 0) (at_byte q 1))
            (negb (Z.land (from_be16 (at_byte q 2) (at_byte q 3)) 0x0100 =? 0))
            (slice 12 (Z.to_nat (offset + 4 - 12)) q) answers rcode.

(** A query is either relayed to an upstream resolver, or answered with its own
    id and question, at most one record, none for an IPv6 question, and with
    NXDOMAIN only together with an empty answer. *)
Theorem handle_query_reply `{HashOrder} `{UnicodeCase} exchange domain q s upstream records r :
  handle_query exchange domain q s upstream records = Some r →
  (∃ addr, exchange addr q = Some r) ∨ own_reply q r.
Proof.
  assert (∀ ups, forward exchange q ups = Some r → ∃ addr, exchange addr q = Some r) as Hfwd.
  { intros ups (addr & _ & E)%find_map_Some. by exists addr. }
  unfold handle_query. destruct (Nat.ltb_spec (length q) 12) as [|Hlen]; [done|].
  destruct (negb _); [done|]. destruct (_ =? 0); [done|].
  destruct (parse_name q 12) as [[nm off]|] eqn:Ep; [|done]. cbn [mbind option_bind].
  destruct (Z.ltb_spec (Z.of_nat (length q)) (off + 4)) as [|Hoff]; [done|].
  set (qtype := from_be16 (at_byte q (Z.to_nat off)) _).
  destruct (_ && _); [intros E; left; eauto|].
  assert (∀ rec rc answers rcode,
    (answers = a_answers qtype rec ∧ rcode = 0 ∨ answers = [] ∧ rcode = 3) →
    Some (make_response (from_be16 (at_byte q 0) (at_byte q 1))
       (negb (Z.land (from_be16 (at_byte q 2) (at_byte q 3)) 256 =? 0))
       (slice 12 (Z.to_nat (off + 4 - 12)) q) answers rcode) = Some rc →
    own_reply q rc) as Hown.
  { intros rec rc answers rcode Ha [= <-]. exists nm, off, answers, rcode.
    split; [done|]. split; [lia|].
    destruct Ha as [[-> ->]|[-> ->]]; unfold a_answers; split_and!; try done;
      try (destruct (qtype =? 28); cbn; lia); try (cbn; lia); auto.
    intros E. unfold qtype. by rewrite E. }
  destruct (records !! _) as [ip|]; [intros E; right; eapply Hown; [by left|exact E]|].
  destruct (resolve_service _ _ _) as [cip|ext|].
  - destruct (parse_ipv4 cip); [|done]. intros E. right. eapply Hown; [by left|exact E].
  - destruct (parse_ipv4 ext); intros E; right; (eapply Hown; [by left|exact E]).
  - set (rd := negb (_ =? 0)) in *. destruct rd.
    + intros Er. left. destruct upstream; by eapply Hfwd.
    + intros Er. right. eapply (Hown []); [by right|exact Er].
Qed.

(** The reply sets the recursion-desired bit whatever the query asked, and
    recursion-available exactly when recursion was desired. *)
Theorem reply_rd_always_set id rd question answers rcode :
  let r := make_response id rd question answers rcode in
  Z.testbit (at_byte r 2) 0 = true ∧ Z.testbit (at_byte r 3) 7 = rd.
Proof.
  cbn zeta. change (at_byte _ 2) with (wrap 8 (Z.shiftr (response_flags rd rcode) 8)).
  change (at_byte _ 3) with (wrap 8 (response_flags rd rcode)).
  unfold wrap, response_flags.
  rewrite !Z.mod_pow2_bits_low, Z.shiftr_spec, !Z.lor_spec, !Z.land_spec by lia.
  split; [by destruct rd|]. change (Z.testbit 0xF 7) with false.
  rewrite andb_false_r. by destruct rd.
Qed.

(** A query packet for one name. *)
Definition make_query (id flags : Z) (name : string) (qtype : Z) : bytes :=
  be16 id ++ be16 flags ++ be16 1 ++ [0; 0; 0; 0; 0; 0]
  ++ encode_name name ++ be16 qtype ++ be16 1.

Definition question (name : string) (qtype : Z) : bytes :=
  encode_name name ++ be16 qtype ++ be16 1.

Lemma make_query_app id flags name qtype :
  make_query id flags name qtype
  = (be16 id ++ be16 flags ++ be16 1 ++ [0; 0; 0; 0; 0; 0]) ++ question name qtype.
Proof. done. Qed.

Lemma at_byte_app l1 l2 i : at_byte (l1 ++ l2) (length l1 + i) = at_byte l2 i.
Proof. unfold at_byte. by rewrite lookup_app_r, Nat.add_comm, Nat.add_sub by lia. Qed.

Section answer.
Context `{HO : HashOrder} `{UC : UnicodeCase}.

(** What the handler computes for a well-formed address query. *)
Lemma handle_query_question exchange domain id flags ls qtype s upstream records :
  let nm := join "." ls in
  0 ≤ id < 65536 → 0 ≤ flags < 32768 → qtype = 1 ∨ qtype = 28 → Forall label_ok ls →
  (length ls ≤ 50)%nat → records !! trim_end_matches "." nm = None →
  handle_query exchange domain (make_query id flags nm qtype) s upstream records
  = match resolve_service domain nm s with
    | ClusterIP c =>
        ip ← parse_ipv4 c;
        Some (make_response id (negb (Z.land flags 0x0100 =? 0)) (question nm qtype)
                (a_answers qtype (a_record nm ip)) 0)
    | ExternalName e =>
        Some (make_response id (negb (Z.land flags 0x0100 =? 0)) (question nm qtype)
          (a_answers qtype (match parse_ipv4 e with
                            | Some ip => a_record nm ip
                            | None => cname_record nm e
                            end)) 0)
    | NoResolution =>
        if negb (Z.land flags 0x0100 =? 0) then
          forward exchange (make_query id flags nm qtype)
            (match upstream with [] => ["1.1.1.1:53"; "8.8.8.8:53"] | _ => upstream end)
        else Some (make_response id false (question nm qtype) [] 3)
    end.
Proof.
  intros nm Hid Hfl Hqt Hls Hlen Hrec. unfold handle_query.
  set (q := make_query id flags nm qtype).
  set (hd := be16 id ++ be16 flags ++ be16 1 ++ [0; 0; 0; 0; 0; 0]).
  assert (q = hd ++ encode_name nm ++ (be16 qtype ++ be16 1)) as Hq by done.
  assert (length hd = 12%nat) as Hhd by done.
  assert (length q = (16 + length (encode_name nm))%nat) as Hlq.
  { rewrite Hq, !length_app, Hhd. cbn. lia. }
  rewrite (proj2 (Nat.ltb_ge _ _)) by lia.
  change (from_be16 (at_byte q 0) (at_byte q 1))
    with (from_be16 (u8 (Z.shiftr id 8)) (u8 id)).
  change (from_be16 (at_byte q 2) (at_byte q 3))
    with (from_be16 (u8 (Z.shiftr flags 8)) (u8 flags)).
  change (from_be16 (at_byte q 4) (at_byte q 5)) with 1.
  rewrite !from_be16_be16 by lia.
  assert (Z.land flags 0x8000 = 0) as ->.
  { apply Z.bits_inj'. intros n Hn. rewrite Z.land_spec, Z.bits_0.
    destruct (Z.eq_dec n 15) as [->|Hne].
    - rewrite <- (Z.mod_small flags (2 ^ 15)) by lia. by rewrite Z.mod_pow2_bits_high by lia.
    - change 0x8000 with (2 ^ 15). rewrite Z.pow2_bits_false by lia. apply andb_false_r. }
  cbn [negb Z.eqb].
  pose proof (parse_name_encoded ls hd (be16 qtype ++ be16 1) Hls Hlen) as Hp.
  cbv zeta in Hp. fold nm in Hp. rewrite <- Hq in Hp.
  change (Z.of_nat (length hd)) with 12 in Hp. rewrite Hp. cbn [mbind option_bind].
  rewrite (proj2 (Z.ltb_ge _ _)) by lia.
  assert (∀ i, at_byte q (12 + (length (encode_name nm) + i)) = at_byte (be16 qtype ++ be16 1) i)
    as Hat.
  { intros i. rewrite Hq, <- Hhd, !at_byte_app. done. }
  replace (Z.to_nat (12 + Z.of_nat (length (encode_name nm))))
    with (12 + (length (encode_name nm) + 0))%nat by lia.
  replace (Z.to_nat (12 + Z.of_nat (length (encode_name nm)) + 1))
    with (12 + (length (encode_name nm) + 1))%nat by lia.
  rewrite !Hat.
  change (from_be16 (at_byte (be16 qtype ++ be16 1) 0) (at_byte (be16 qtype ++ be16 1) 1))
    with (from_be16 (u8 (Z.shiftr qtype 8)) (u8 qtype)).
  rewrite from_be16_be16 by lia.
  assert (slice 12 (Z.to_nat (12 + Z.of_nat (length (encode_name nm)) + 4 - 12)) q
          = question nm qtype) as ->.
  { unfold slice. rewrite Hq, <- Hhd, drop_app_length. apply take_ge.
    unfold question. rewrite !length_app. cbn. lia. }
  assert (negb (qtype =? 1) && negb (qtype =? 28) && negb (qtype =? 255) = false) as ->
    by (destruct Hqt as [-> | ->]; done).
  rewrite Hrec. destruct (resolve_service domain nm s) as [c|e|]; [done| |].
  - by destruct (parse_ipv4 e).
  - destruct (negb (Z.land flags 256 =? 0)); [by destruct upstream|done].
Qed.
End answer.

Lemma trim_end_matches_id c s b : b ≠ c → trim_end_matches c (s +:+ String b "") = s +:+ String b "".
Proof.
  intros Hb. unfold trim_end_matches. rewrite srev_snoc. cbn [trim_start_matches].
  rewrite (proj2 (Ascii.eqb_neq b c) Hb), <- srev_snoc. apply srev_involutive.
Qed.

(** A name that ends with a label has no trailing dot to trim. *)
Lemma trim_end_matches_join ls s :
  s ≠ "" → has_char "." s = false →
  trim_end_matches "." (join "." (ls ++ [s])) = join "." (ls ++ [s]).
Proof.
  intros Hne Hs. destruct (string_snoc s Hne) as (t & b & ->).
  rewrite has_char_app in Hs. to_prop. cbn in *. rewrite orb_false_r in *.
  assert (∃ u, join "." (ls ++ [t +:+ String b ""]) = u +:+ String b "") as [u ->].
  { clear. induction ls as [|l ls [u IH]]; cbn [app]; [by exists t|].
    exists (l +:+ "." +:+ u).
    assert (join "." (l :: ls ++ [t +:+ String b ""])
            = l +:+ "." +:+ join "." (ls ++ [t +:+ String b ""])) as -> by by destruct ls.
    by rewrite IH, !string_app_assoc. }
  apply trim_end_matches_id. by apply Ascii.eqb_neq.
Qed.

(** End to end: a query for [svc.ns.svc.<domain>] is answered with the cluster
    address the store holds for that service. *)
Theorem service_query_answered `{HashOrder} `{UnicodeCase} exchange dls ns n s t id flags ip
    upstream (records : gmap string Z) :
  let domain := join "." dls in
  let nm := join "." ([n; ns; "svc"] ++ dls) in
  store_wf s → store_named s → no_slash ns → n ≠ "<unnamed>" →
  Forall label_ok ([n; ns; "svc"] ++ dls) → (length dls ≤ 47)%nat → dls ≠ [] →
  s !! key "Service" ns n = Some t →
  resolve_tracker n (Some ns) t = Some (ClusterIP (display_ipv4 ip)) →
  ipv4_ok ip → 0 ≤ id < 65536 → 0 ≤ flags < 32768 → records !! nm = None →
  handle_query exchange domain (make_query id flags nm 1) s upstream records
  = Some (make_response id (negb (Z.land flags 0x0100 =? 0)) (question nm 1)
            [a_record nm (octets ip)] 0).
Proof.
  intros domain nm Hwf Hnm Hns Hn Hls Hlen Hne Ht Hr Hip Hid Hfl Hrec.
  assert (trim_end_matches "." nm = nm) as Htrim.
  { unfold nm. destruct dls as [|l ls _] using rev_ind; [done|]. rewrite app_assoc.
    apply Forall_app in Hls as [_ Hls]. apply Forall_app in Hls as [_ Hl].
    apply Forall_cons in Hl as [(? & _ & ? & _) _]. by apply trim_end_matches_join. }
  unfold nm, domain. rewrite handle_query_question; try done; try lia.
  2: cbn; lia. 2: by fold nm; rewrite Htrim.
  fold nm domain. assert (n ≠ "" ∧ has_char "." n = false ∧ has_char "." ns = false) as (?&?&?).
  { apply Forall_app in Hls as [Hls _]. rewrite !Forall_cons in Hls.
    destruct Hls as ((?&_&?&_)&(_&_&?&_)&_). done. }
  assert (nm = n +:+ "." +:+ ns +:+ "." +:+ "svc" +:+ "." +:+ domain) as Hnmeq.
  { unfold nm, domain. cbn [app join]. destruct dls; [done|]. done. }
  rewrite (resolve_service_key domain nm s n ns); try done.
  2: { rewrite Htrim, Hnmeq. by apply parse_service_name_full. }
  rewrite Ht. cbn [mbind option_bind]. rewrite Hr. cbn [unwrap_or].
  rewrite parse_ipv4_display by done. done.
Qed.

Lemma service_query_answered_witness :
  let q := make_query 7 0x0100 "web.prod.svc.cluster.local" 1 in
  handle_query (λ _ _, None) "cluster.local" q service_store [] ∅
  = Some (make_response 7 true (question "web.prod.svc.cluster.local" 1)
            [a_record "web.prod.svc.cluster.local" [10; 96; 0; 7]] 0).
Proof.
  apply (service_query_answered (λ _ _, None) ["cluster"; "local"] "prod" "web" service_store
    (tracker_new 1 sample_service) 7 0x0100 0x0A600007 [] ∅).
  - apply service_store_ok.
  - apply service_store_ok.
  - done.
  - done.
  - repeat constructor; by apply label_ok_dec.
  - cbn. lia.
  - done.
  - by vm_compute.
  - by vm_compute.
  - unfold ipv4_ok. lia.
  - lia.
  - lia.
  - apply lookup_empty.
Defined.

Lemma handle_query_reply_witness :
  let q := make_query 9 0 "nope" 28 in
  let r := make_response 9 false (question "nope" 28) [] 3 in
  handle_query (λ _ _, None) "cluster.local" q service_store [] ∅ = Some r
  ∧ ((∃ addr : string, (None : option bytes) = Some r) ∨ own_reply q r).
Proof.
  assert (handle_query (λ _ _, None) "cluster.local" (make_query 9 0 "nope" 28) service_store [] ∅
    = Some (make_response 9 false (question "nope" 28) [] 3)) as H by (vm_compute; reflexivity).
  split; [exact H|].
  destruct (handle_query_reply (λ _ _, None) "cluster.local" _ _ _ _ _ H) as [[a Ha]|Ho];
    [left; by exists a|by right].
Defined.
