(* ===== verification/Netlink.v ===== *)
(** * Netlink: route-netlink messages (src/src/netmux/netlink.rs)

    The message builders as the code writes them: a zeroed buffer of the computed
    size, then [copy_from_slice] at explicit offsets, each of which panics out
    of range. The socket (open, send, receive) is the parameter [transact] over
    an abstract kernel state; an operation is a state transformer that may
    panic or return an error. *)
From S2P Require Import Prelude Text Utf8.

(** ** Constants *)
Definition RTM_NEWLINK := 16.
Definition RTM_DELLINK := 17.
Definition RTM_GETLINK := 18.
Definition RTM_NEWADDR := 20.
Definition RTM_NEWROUTE := 24.
Definition RTM_DELROUTE := 25.
Definition NLM_F_REQUEST := 1.
Definition NLM_F_CREATE := 0x400.
Definition NLM_F_EXCL := 0x200.
Definition NLM_F_ACK := 4.
Definition NLMSG_ERROR := 2.
Definition RTN_UNICAST := 1.
Definition RT_TABLE_MAIN := 254.
Definition RT_SCOPE_UNIVERSE := 0.
Definition RT_SCOPE_LINK := 253.
Definition RTPROT_BOOT := 3.
Definition IFLA_IFNAME := 3.
Definition IFLA_LINKINFO := 18.
Definition IFLA_INFO_KIND := 1.
Definition IFLA_INFO_DATA := 2.
Definition IFLA_VETH_PEER := 1.
Definition IFLA_MTU := 4.
Definition IFLA_NET_NS_PID := 19.
Definition RTA_GATEWAY := 5.
Definition RTA_OIF := 4.
Definition RTA_DST := 1.
Definition IFA_LOCAL := 2.
Definition IFA_ADDRESS := 1.
Definition AF_INET := 2.
Definition IFF_UP := 1.

Definition zeros (n : nat) : bytes := replicate n 0.

(** [a | b | c] for the flags above. *)
Definition flags_or (l : list Z) : Z := foldr Z.lor 0 l.

(** ** Attributes *)

(** [nlattr::<u32>]: the only instance the code uses is a four-byte value. *)
Definition nlattr (nla_type : Z) (data : bytes) : exec bytes :=
  let size := (length data + 4)%nat in
  b ← copy_at 0 (ne16 (u16 (Z.of_nat size))) (zeros size);
  b ← copy_at 2 (ne16 nla_type) b;
  copy_at 4 data b.

(** [(n + 3) & !3] *)
Definition align4 (n : nat) : nat :=
  Z.to_nat (Z.land (usize (Z.of_nat n + 3)) (2 ^ 64 - 4)).

Definition nlattr_bytes (nla_type : Z) (data : bytes) : exec bytes :=
  let padded := align4 (length data) in
  let size := (padded + 4)%nat in
  b ← copy_at 0 (ne16 (u16 (Z.of_nat size))) (zeros size);
  b ← copy_at 2 (ne16 nla_type) b;
  copy_at 4 data b.

Definition nlattr_nested (nla_type : Z) (attrs : bytes) : exec bytes :=
  let size := (length attrs + 4)%nat in
  b ← copy_at 0 (ne16 (u16 (Z.of_nat size))) (zeros size);
  b ← copy_at 2 (ne16 nla_type) b;
  copy_at 4 attrs b.

(** ** Message parts *)

(** The five writes of a [nlmsghdr]. *)
Definition write_nlmsghdr (total_len : nat) (ty flags : Z) (b : bytes) : exec bytes :=
  b ← copy_at 0 (ne32 (u32 (Z.of_nat total_len))) b;
  b ← copy_at 4 (ne16 ty) b;
  b ← copy_at 6 (ne16 flags) b;
  b ← copy_at 8 (ne32 1) b;
  copy_at 12 (ne32 0) b.

(** The six writes of an [ifinfomsg]. *)
Definition write_ifinfomsg (family index flags : Z) (b : bytes) : exec bytes :=
  b ← copy_at 16 [u8 family] b;
  b ← copy_at 17 [0] b;
  b ← copy_at 18 (ne16 0) b;
  b ← copy_at 20 (ne32 index) b;
  b ← copy_at 24 (ne32 flags) b;
  copy_at 28 (ne32 0) b.

(** The nine writes of a [rtmsg]. *)
Definition write_rtmsg (prefix scope rtm_flags : Z) (b : bytes) : exec bytes :=
  b ← copy_at 16 [u8 AF_INET] b;
  b ← copy_at 17 [prefix] b;
  b ← copy_at 18 [0] b;
  b ← copy_at 19 [0] b;
  b ← copy_at 20 [u8 RT_TABLE_MAIN] b;
  b ← copy_at 21 [RTPROT_BOOT] b;
  b ← copy_at 22 [scope] b;
  b ← copy_at 23 [RTN_UNICAST] b;
  copy_at 24 (ne32 rtm_flags) b.

(** [for attr in attrs { buf[offset..offset+attr.len()].copy_from_slice(attr); .. }] *)
Fixpoint write_attrs (offset : nat) (attrs : list bytes) (b : bytes) : exec bytes :=
  match attrs with
  | [] => Ret b
  | attr :: attrs' =>
      b ← copy_at offset attr b;
      write_attrs (offset + length attr) attrs' b
  end.

(** ** Messages *)

Definition veth_message (host_name peer_name : string) (peer_pid : option Z) : exec bytes :=
  peer_ifname ← nlattr_bytes IFLA_IFNAME (as_bytes peer_name);
  pid_attr ← match peer_pid with
             | Some pid => nlattr IFLA_NET_NS_PID (ne32 pid)
             | None => Ret []
             end;
  let peer_data := zeros 16 ++ peer_ifname ++ pid_attr in
  peer_nested ← nlattr_nested IFLA_VETH_PEER peer_data;
  kind ← nlattr_bytes IFLA_INFO_KIND (as_bytes "veth" ++ [0]);
  data ← nlattr_nested IFLA_INFO_DATA peer_nested;
  info_nested ← nlattr_nested IFLA_LINKINFO (kind ++ data);
  ifname_attr ← nlattr_bytes IFLA_IFNAME (as_bytes host_name);
  mtu_attr ← nlattr IFLA_MTU (ne32 1500);
  let payload_len := (16 + length ifname_attr + length mtu_attr + length info_nested)%nat in
  let total_len := (16 + payload_len)%nat in
  b ← write_nlmsghdr total_len RTM_NEWLINK
        (flags_or [NLM_F_REQUEST; NLM_F_CREATE; NLM_F_EXCL; NLM_F_ACK]) (zeros total_len);
  b ← write_ifinfomsg 0 0 0 b;
  write_attrs 32 [ifname_attr; mtu_attr; info_nested] b.

Definition get_ifindex_message (name : string) : exec bytes :=
  name_attr ← nlattr_bytes IFLA_IFNAME (as_bytes name);
  let total_len := (16 + 16 + length name_attr)%nat in
  b ← write_nlmsghdr total_len RTM_GETLINK (flags_or [NLM_F_REQUEST; NLM_F_ACK])
        (zeros total_len);
  b ← write_ifinfomsg AF_INET 0 0 b;
  copy_at 32 name_attr b.

(** [set_link_up] and [del_link] build the same message but for type and flags. *)
Definition link_message (ty ifindex ifi_flags : Z) : exec bytes :=
  let total_len := (16 + 16)%nat in
  b ← write_nlmsghdr total_len ty (flags_or [NLM_F_REQUEST; NLM_F_ACK]) (zeros total_len);
  write_ifinfomsg AF_INET ifindex ifi_flags b.

(** [u32::from_ne_bytes(ip.octets())], then written back as a [u32]. *)
Definition octets_attr (ty : Z) (ip : Ipv4Addr) : exec bytes :=
  match octets ip with
  | [a; b; c; d] => nlattr ty (ne32 (from_ne32 a b c d))
  | _ => Panic
  end.

Definition route_attrs (dest : Ipv4Addr) (prefix : Z) (gateway : option Ipv4Addr)
    (oif : option Z) : exec (list bytes) :=
  dst ← (if 0 <? prefix then a ← octets_attr RTA_DST dest; Ret [a] else Ret []);
  gw ← match gateway with
       | Some gw => a ← octets_attr RTA_GATEWAY gw; Ret [a]
       | None => Ret []
       end;
  o ← match oif with
      | Some idx => a ← nlattr RTA_OIF (ne32 idx); Ret [a]
      | None => Ret []
      end;
  Ret (dst ++ gw ++ o).

Definition attrs_len (attrs : list bytes) : nat := sum_list_with length attrs.

Definition route_message (ty flags : Z) (prefix scope rtm_flags : Z) (attrs : list bytes)
    : exec bytes :=
  let total_len := (16 + 12 + attrs_len attrs)%nat in
  b ← write_nlmsghdr total_len ty flags (zeros total_len);
  b ← write_rtmsg prefix scope rtm_flags b;
  write_attrs 28 attrs b.

Definition add_route_message (dest : Ipv4Addr) (prefix : Z) (gateway : option Ipv4Addr)
    (oif : option Z) : exec bytes :=
  attrs ← route_attrs dest prefix gateway oif;
  route_message RTM_NEWROUTE (flags_or [NLM_F_REQUEST; NLM_F_CREATE; NLM_F_ACK]) prefix
    (if is_some gateway then RT_SCOPE_UNIVERSE else RT_SCOPE_LINK)
    (if is_some gateway then 4 else 0) attrs.

Definition del_route_message (dest : Ipv4Addr) (prefix : Z) (gateway : option Ipv4Addr)
    (oif : option Z) : exec bytes :=
  attrs ← route_attrs dest prefix gateway oif;
  route_message RTM_DELROUTE (flags_or [NLM_F_REQUEST; NLM_F_ACK]) prefix RT_SCOPE_UNIVERSE 0
    attrs.

Definition add_addr_message (ifindex : Z) (ip : Ipv4Addr) (prefix : Z) : exec bytes :=
  local_attr ← octets_attr IFA_LOCAL ip;
  addr_attr ← octets_attr IFA_ADDRESS ip;
  let total_len := (16 + 8 + length local_attr + length addr_attr)%nat in
  b ← write_nlmsghdr total_len RTM_NEWADDR
        (flags_or [NLM_F_REQUEST; NLM_F_CREATE; NLM_F_EXCL; NLM_F_ACK]) (zeros total_len);
  b ← copy_at 16 [u8 AF_INET] b;
  b ← copy_at 17 [prefix] b;
  b ← copy_at 18 [0] b;
  b ← copy_at 19 [0] b;
  b ← copy_at 20 (ne32 ifindex) b;
  write_attrs 24 [local_attr; addr_attr] b.

(** [move_peer_to_netns] of src/src/netmux/mod.rs. *)
Definition move_peer_message (peer_ifindex pid : Z) : exec bytes :=
  ns_pid_attr ← nlattr_bytes IFLA_NET_NS_PID (ne32 pid);
  let total_len := (16 + 16 + length ns_pid_attr)%nat in
  b ← write_nlmsghdr total_len RTM_NEWLINK (flags_or [NLM_F_REQUEST; NLM_F_ACK])
        (zeros total_len);
  b ← write_ifinfomsg AF_INET peer_ifindex 0 b;
  copy_at 32 ns_pid_attr b.

(** ** Responses *)

(** [buf[i]], which panics out of range. *)
Definition index (i : nat) (b : bytes) : exec Z :=
  match b !! i with Some x => Ret x | None => Panic end.

Definition msg_type (resp : bytes) : exec Z :=
  a ← index 4 resp; b ← index 5 resp; Ret (from_ne16 a b).

Definition err_code (resp : bytes) : exec Z :=
  a ← index 16 resp; b ← index 17 resp; c ← index 18 resp; d ← index 19 resp;
  Ret (i32 (from_ne32 a b c d)).

Section responses.
(** [nix::errno::Errno]'s name of an error number. *)
Variable errno_name : Z → string.

Definition check_nl_response (resp : bytes) (context : string) : exec (result unit) :=
  if (16 <=? length resp)%nat then
    ty ← msg_type resp;
    if (ty =? NLMSG_ERROR) && (20 <=? length resp)%nat then
      code ← err_code resp;
      Ret (if code =? 0 then Ok ()
           else Err (context +:+ ": netlink error " +:+ display code +:+ " ("
                     +:+ errno_name code +:+ ")"))
    else Ret (Ok ())
  else Ret (Ok ()).

Definition ifindex_of_response (name : string) (resp : bytes) : exec (result Z) :=
  let not_found := Err ("get_ifindex: interface " +:+ name +:+ " not found") in
  if (20 <=? length resp)%nat then
    ty ← msg_type resp;
    if negb (ty =? NLMSG_ERROR) then
      a ← index 20 resp; b ← index 21 resp; c ← index 22 resp; d ← index 23 resp;
      let idx := from_ne32 a b c d in
      Ret (if negb (idx =? 0) then Ok idx else not_found)
    else Ret not_found
  else Ret not_found.

(** ** Operations *)

Context {K : Type}.
(** Open a socket, send one message and receive the answer. *)
Variable transact : bytes → K → result bytes * K.

Definition nl (A : Type) : Type := K → exec (result A * K).

Definition nl_ret {A} (a : A) : nl A := λ k, Ret (Ok a, k).
Definition nl_bind {A B} (m : nl A) (f : A → nl B) : nl B := λ k,
  '(r, k) ← m k;
  match r with Ok a => f a k | Err e => Ret (Err e, k) end.
(** [.context(msg)] *)
Definition nl_context {A} (msg : string) (m : nl A) : nl A := λ k,
  '(r, k) ← m k;
  Ret (match r with Ok a => Ok a | Err _ => Err msg end, k).

(** Build, exchange, then read the response. *)
Definition request {A} (msg : exec bytes) (read : bytes → exec (result A)) : nl A := λ k,
  b ← msg;
  let '(r, k) := transact b k in
  match r with
  | Err e => Ret (Err e, k)
  | Ok resp => r ← read resp; Ret (r, k)
  end.

Definition get_ifindex (name : string) : nl Z :=
  request (get_ifindex_message name) (ifindex_of_response name).

Definition create_veth_pair (host_name peer_name : string) (peer_pid : option Z)
    : nl (Z * Z) :=
  nl_bind (request (veth_message host_name peer_name peer_pid)
             (λ resp, check_nl_response resp "create_veth")) (λ _,
  nl_bind (get_ifindex host_name) (λ host_idx,
  nl_bind (if is_some peer_pid then nl_ret 0 else get_ifindex peer_name) (λ peer_idx,
  nl_ret (host_idx, peer_idx)))).

Definition set_link_up (ifindex : Z) : nl unit :=
  request (link_message RTM_NEWLINK ifindex IFF_UP)
    (λ resp, check_nl_response resp "set_link_up").

Definition del_link (ifindex : Z) : nl unit :=
  request (link_message RTM_DELLINK ifindex 0) (λ resp, check_nl_response resp "del_link").

Definition add_route (dest : Ipv4Addr) (prefix : Z) (gateway : option Ipv4Addr)
    (oif : option Z) : nl unit :=
  request (add_route_message dest prefix gateway oif)
    (λ resp, check_nl_response resp "add_route").

Definition del_route (dest : Ipv4Addr) (prefix : Z) (gateway : option Ipv4Addr)
    (oif : option Z) : nl unit :=
  request (del_route_message dest prefix gateway oif)
    (λ resp, check_nl_response resp "del_route").

Definition add_addr (ifindex : Z) (ip : Ipv4Addr) (prefix : Z) : nl unit :=
  request (add_addr_message ifindex ip prefix) (λ resp, check_nl_response resp "add_addr").

Definition move_peer_to_netns (peer_ifindex pid : Z) : nl unit :=
  request (move_peer_message peer_ifindex pid) (λ resp,
    if (16 <=? length resp)%nat then
      ty ← msg_type resp;
      if ty =? NLMSG_ERROR then
        if (20 <=? length resp)%nat then
          code ← err_code resp;
          Ret (if code =? 0 then Ok ()
               else Err ("move_peer_to_netns: netlink error " +:+ display code))
        else Ret (Ok ())
      else Ret (Ok ())
    else Ret (Ok ())).
End responses.

(** ** What the builders produce *)

(** An attribute with its (already padded) payload. *)
Definition nl_attr (ty : Z) (payload : bytes) : bytes :=
  ne16 (u16 (Z.of_nat (length payload + 4))) ++ ne16 ty ++ payload.

Definition nl_header (total : nat) (ty flags : Z) : bytes :=
  ne32 (u32 (Z.of_nat total)) ++ ne16 ty ++ ne16 flags ++ ne32 1 ++ ne32 0.

(** A whole message: header, fixed part, attributes. *)
Definition nl_message (ty flags : Z) (body : bytes) (attrs : list bytes) : bytes :=
  nl_header (16 + length body + length (concat attrs)) ty flags ++ body ++ concat attrs.

Definition ifinfomsg (family index flags : Z) : bytes :=
  [u8 family; 0] ++ ne16 0 ++ ne32 index ++ ne32 flags ++ ne32 0.

Definition rtmsg (prefix scope flags : Z) : bytes :=
  [AF_INET; prefix; 0; 0; RT_TABLE_MAIN; RTPROT_BOOT; scope; RTN_UNICAST] ++ ne32 flags.

Definition pad4 (data : bytes) : bytes := data ++ zeros (align4 (length data) - length data).

Lemma length_zeros n : length (zeros n) = n.
Proof. apply length_replicate. Qed.

(** One write into the zeroed rest of the buffer. *)
Lemma copy_zeros off src done m :
  off = length done → (length src ≤ m)%nat →
  copy_at off src (done ++ zeros m) = Ret ((done ++ src) ++ zeros (m - length src)).
Proof.
  intros -> Hm. unfold zeros. rewrite <- (copy_at_app done src _ (replicate (length src) 0)).
  - rewrite <- replicate_add. do 3 f_equal. lia.
  - by rewrite length_replicate.
Qed.

Lemma copy_zeros_first src m :
  (length src ≤ m)%nat → copy_at 0 src (zeros m) = Ret (src ++ zeros (m - length src)).
Proof. intros H. exact (copy_zeros 0 src [] m eq_refl H). Qed.

Ltac bytes_len := rewrite ?length_app, ?length_be16, ?length_ne16, ?length_ne32, ?length_zeros;
  cbn [length]; lia.
Ltac copy_step :=
  first [rewrite copy_zeros by bytes_len | rewrite copy_zeros_first by bytes_len];
  cbn [mbind exec_bind].

(** Both sides list the same writes; the zeros left are counted. *)
Ltac bytes_done :=
  match goal with
  | |- Ret (_ ++ zeros ?a) = Ret (_ ++ zeros ?b) =>
      replace a with b by bytes_len; by rewrite <- ?app_assoc
  end.

Lemma zeros_0 n : n = 0%nat → zeros n = [].
Proof. by intros ->. Qed.

Lemma nlattr_spec ty data : nlattr ty data = Ret (nl_attr ty data).
Proof.
  unfold nlattr. do 3 copy_step. rewrite zeros_0 by bytes_len. unfold nl_attr.
  by rewrite app_nil_r, <- app_assoc.
Qed.

Lemma nlattr_nested_spec ty data : nlattr_nested ty data = Ret (nl_attr ty data).
Proof. apply nlattr_spec. Qed.

Lemma align4_spec n :
  Z.of_nat n < 2 ^ 63 → Z.of_nat (align4 n) = (Z.of_nat n + 3) / 4 * 4.
Proof.
  intros Hn. unfold align4. rewrite usize_small by lia.
  assert (Z.land (Z.of_nat n + 3) (2 ^ 64 - 4) = (Z.of_nat n + 3) / 4 * 4) as ->.
  { set (x := Z.of_nat n + 3). assert (0 ≤ x < 2 ^ 64) as Hx by lia. clearbody x.
    change 4 with (2 ^ 2) at 2 3. rewrite <- Z.shiftr_div_pow2, <- Z.shiftl_mul_pow2 by lia.
    change (2 ^ 64 - 4) with (Z.shiftl (Z.ones 62) 2).
    apply Z.bits_inj'. intros i Hi. rewrite Z.land_spec.
    destruct (Z_lt_le_dec i 2) as [Hlt|Hle].
    - rewrite !Z.shiftl_spec_low by done. apply andb_false_r.
    - rewrite !Z.shiftl_spec, Z.shiftr_spec by lia. replace (i - 2 + 2) with i by lia.
      destruct (Z_lt_le_dec i 64) as [H64|H64].
      + rewrite Z.ones_spec_low by lia. apply andb_true_r.
      + rewrite <- (Z.mod_small x (2 ^ 64)) by done. by rewrite Z.mod_pow2_bits_high by lia. }
  rewrite Z2Nat.id; [done|]. apply Z.mul_nonneg_nonneg; [apply Z.div_pos|]; lia.
Qed.

Lemma align4_bounds n :
  Z.of_nat n < 2 ^ 63 → (n ≤ align4 n < n + 4)%nat ∧ Z.of_nat (align4 n) `mod` 4 = 0.
Proof.
  intros Hn. pose proof (align4_spec n Hn) as E.
  pose proof (Z.div_mod (Z.of_nat n + 3) 4). pose proof (Z.mod_pos_bound (Z.of_nat n + 3) 4).
  split; [lia|]. rewrite E. by apply Z.mod_mul.
Qed.

Lemma length_pad4 data :
  Z.of_nat (length data) < 2 ^ 63 → length (pad4 data) = align4 (length data).
Proof. intros H%align4_bounds. unfold pad4. rewrite length_app, length_zeros. lia. Qed.

Lemma nlattr_bytes_spec ty data :
  Z.of_nat (length data) < 2 ^ 63 → nlattr_bytes ty data = Ret (nl_attr ty (pad4 data)).
Proof.
  intros H. pose proof (align4_bounds _ H) as [Hb _]. unfold nlattr_bytes.
  do 3 copy_step. unfold nl_attr. rewrite length_pad4 by done. unfold pad4.
  rewrite <- !app_assoc. do 4 f_equal. f_equal. bytes_len.
Qed.

Lemma write_nlmsghdr_spec total ty flags m :
  (16 ≤ m)%nat →
  write_nlmsghdr total ty flags (zeros m) = Ret (nl_header total ty flags ++ zeros (m - 16)).
Proof.
  intros Hm. unfold write_nlmsghdr. do 5 copy_step. unfold nl_header. bytes_done.
Qed.

Lemma length_nl_header total ty flags : length (nl_header total ty flags) = 16%nat.
Proof. done. Qed.

Lemma write_ifinfomsg_spec family index flags hd m :
  length hd = 16%nat → (16 ≤ m)%nat →
  write_ifinfomsg family index flags (hd ++ zeros m)
  = Ret ((hd ++ ifinfomsg family index flags) ++ zeros (m - 16)).
Proof.
  intros Hhd Hm. unfold write_ifinfomsg. do 6 copy_step. unfold ifinfomsg. bytes_done.
Qed.

Lemma write_rtmsg_spec prefix scope flags hd m :
  length hd = 16%nat → (12 ≤ m)%nat →
  write_rtmsg prefix scope flags (hd ++ zeros m)
  = Ret ((hd ++ rtmsg prefix scope flags) ++ zeros (m - 12)).
Proof.
  intros Hhd Hm. unfold write_rtmsg. do 9 copy_step. unfold rtmsg. bytes_done.
Qed.

Lemma write_attrs_spec off attrs done m :
  off = length done → (length (concat attrs) ≤ m)%nat →
  write_attrs off attrs (done ++ zeros m)
  = Ret ((done ++ concat attrs) ++ zeros (m - length (concat attrs))).
Proof.
  revert off done m. induction attrs as [|a attrs IH]; intros off done m -> Hm; cbn in *.
  - by rewrite app_nil_r, Nat.sub_0_r.
  - rewrite length_app in Hm. rewrite copy_zeros by lia. cbn.
    rewrite IH by (rewrite ?length_app; lia). rewrite <- !app_assoc, length_app.
    do 5 f_equal. lia.
Qed.

Lemma length_concat_attrs attrs : length (concat attrs) = attrs_len attrs.
Proof. unfold attrs_len. induction attrs; cbn; [done|]. rewrite length_app. lia. Qed.

Lemma link_build_spec ty flags family index ifi attrs total :
  total = (16 + 16 + length (concat attrs))%nat →
  (b ← write_nlmsghdr total ty flags (zeros total);
   b ← write_ifinfomsg family index ifi b; write_attrs 32 attrs b)
  = Ret (nl_message ty flags (ifinfomsg family index ifi) attrs).
Proof.
  intros ->. rewrite write_nlmsghdr_spec by lia. cbn [mbind exec_bind].
  rewrite write_ifinfomsg_spec by (first [done | lia]). cbn [mbind exec_bind].
  rewrite write_attrs_spec by (first [done | lia]).
  rewrite zeros_0 by lia. unfold nl_message. by rewrite app_nil_r, <- app_assoc.
Qed.

Lemma write_attrs_1 off a b : write_attrs off [a] b = copy_at off a b.
Proof. cbn. by destruct (copy_at off a b). Qed.

Lemma get_ifindex_message_spec name :
  Z.of_nat (String.length name) < 2 ^ 63 →
  get_ifindex_message name
  = Ret (nl_message RTM_GETLINK 5 (ifinfomsg AF_INET 0 0)
           [nl_attr IFLA_IFNAME (pad4 (as_bytes name))]).
Proof.
  intros H. unfold get_ifindex_message.
  rewrite nlattr_bytes_spec by by rewrite length_as_bytes. cbn [mbind exec_bind].
  rewrite <- (link_build_spec _ _ _ _ _ _ _ eq_refl). cbn [concat]. rewrite app_nil_r.
  change (flags_or [NLM_F_REQUEST; NLM_F_ACK]) with 5.
  destruct (write_nlmsghdr _ _ _ _); cbn [mbind exec_bind]; [|done].
  destruct (write_ifinfomsg _ _ _ _); cbn [mbind exec_bind]; [|done]. by rewrite write_attrs_1.
Qed.

Lemma move_peer_message_spec index pid :
  move_peer_message index pid
  = Ret (nl_message RTM_NEWLINK 5 (ifinfomsg AF_INET index 0)
           [nl_attr IFLA_NET_NS_PID (ne32 pid)]).
Proof.
  unfold move_peer_message. rewrite nlattr_bytes_spec by (rewrite length_ne32; lia).
  cbn [mbind exec_bind]. rewrite <- (link_build_spec _ _ _ _ _ _ _ eq_refl).
  cbn [concat]. rewrite app_nil_r. change (pad4 (ne32 pid)) with (ne32 pid).
  change (flags_or [NLM_F_REQUEST; NLM_F_ACK]) with 5.
  destruct (write_nlmsghdr _ _ _ _); cbn [mbind exec_bind]; [|done].
  destruct (write_ifinfomsg _ _ _ _); cbn [mbind exec_bind]; [|done]. by rewrite write_attrs_1.
Qed.

Lemma link_message_spec ty index ifi :
  link_message ty index ifi = Ret (nl_message ty 5 (ifinfomsg AF_INET index ifi) []).
Proof.
  unfold link_message. rewrite <- (link_build_spec _ _ _ _ _ _ _ eq_refl). cbn.
  done.
Qed.

Lemma octets_attr_spec ty ip : ipv4_ok ip → octets_attr ty ip = Ret (nl_attr ty (octets ip)).
Proof.
  intros Hip. unfold octets_attr, octets, be32. rewrite nlattr_spec. do 2 f_equal.
  unfold from_ne32. cbv [ne32].
  pose proof (from_be32_be32 ip Hip) as Hb. unfold from_be32 in *.
  pose proof (u8_range (Z.shiftr ip 24)). pose proof (u8_range (Z.shiftr ip 16)).
  pose proof (u8_range (Z.shiftr ip 8)). pose proof (u8_range ip).
  set (a := u8 (Z.shiftr ip 24)) in *. set (b := u8 (Z.shiftr ip 16)) in *.
  set (c := u8 (Z.shiftr ip 8)) in *. set (d := u8 ip) in *. clearbody a b c d.
  clear Hb Hip. unfold u8, wrap. rewrite !Z.shiftr_div_pow2 by lia.
  change (2 ^ 24) with 16777216. change (2 ^ 16) with 65536. change (2 ^ 8) with 256.
  repeat f_equal; symmetry.
  - apply Z.mod_unique with (65536 * d + 256 * c + b); lia.
  - rewrite <- (Z.div_unique (16777216 * d + 65536 * c + 256 * b + a) 256 (65536 * d + 256 * c + b) a) by lia.
    apply Z.mod_unique with (256 * d + c); lia.
  - rewrite <- (Z.div_unique (16777216 * d + 65536 * c + 256 * b + a) 65536 (256 * d + c) (256 * b + a)) by lia.
    apply Z.mod_unique with d; lia.
  - rewrite <- (Z.div_unique (16777216 * d + 65536 * c + 256 * b + a) 16777216 d (65536 * c + 256 * b + a)) by lia.
    apply Z.mod_unique with 0; lia.
Qed.

(** The attributes of a route, in the order of the code. *)
Definition route_attr_list (dest : Ipv4Addr) (prefix : Z) (gateway : option Ipv4Addr)
    (oif : option Z) : list (Z * bytes) :=
  (if 0 <? prefix then [(RTA_DST, octets dest)] else [])
  ++ match gateway with Some gw => [(RTA_GATEWAY, octets gw)] | None => [] end
  ++ match oif with Some i => [(RTA_OIF, ne32 i)] | None => [] end.

Definition encode_attrs (l : list (Z * bytes)) : list bytes := (λ p, nl_attr p.1 p.2) <$> l.

Definition opt_ipv4_ok (o : option Ipv4Addr) : Prop :=
  match o with Some ip => ipv4_ok ip | None => True end.

Lemma route_attrs_spec dest prefix gateway oif :
  ipv4_ok dest → opt_ipv4_ok gateway →
  route_attrs dest prefix gateway oif
  = Ret (encode_attrs (route_attr_list dest prefix gateway oif)).
Proof.
  intros Hd Hg. unfold route_attrs, route_attr_list.
  destruct (0 <? prefix), gateway as [gw|], oif as [i|]; cbn in Hg;
    rewrite ?octets_attr_spec, ?nlattr_spec by done; cbn;
    rewrite ?octets_attr_spec, ?nlattr_spec by done; cbn;
    rewrite ?nlattr_spec; done.
Qed.

Lemma route_message_spec ty flags prefix scope rtm_flags attrs :
  route_message ty flags prefix scope rtm_flags attrs
  = Ret (nl_message ty flags (rtmsg prefix scope rtm_flags) attrs).
Proof.
  unfold route_message. rewrite write_nlmsghdr_spec by lia. cbn [mbind exec_bind].
  rewrite write_rtmsg_spec by (first [done | lia]). cbn [mbind exec_bind].
  rewrite write_attrs_spec; [|done|rewrite length_concat_attrs; lia].
  rewrite zeros_0 by (rewrite length_concat_attrs; lia).
  unfold nl_message. rewrite app_nil_r, <- app_assoc, length_concat_attrs. done.
Qed.

(** ** Reading a message back *)

(** The attribute format of the protocol: length, type, payload, padding. *)
Fixpoint parse_attrs (fuel : nat) (l : bytes) : option (list (Z * bytes)) :=
  match fuel, l with
  | _, [] => Some []
  | S fuel', l0 :: l1 :: t0 :: t1 :: r =>
      let len := Z.to_nat (from_ne16 l0 l1) in
      if (len <? 4)%nat || (length l <? len)%nat then None
      else
        rest ← parse_attrs fuel' (drop (align4 len - 4) r);
        Some ((from_ne16 t0 t1, take (len - 4) r) :: rest)
  | _, _ => None
  end.

(** A message with a fixed part of [body_len] bytes: type, flags, fixed part
    and attributes, when the header gives the message's true length. *)
Definition parse_nlmsg (body_len : nat) (m : bytes)
    : option (Z * Z * bytes * list (Z * bytes)) :=
  match m with
  | l0 :: l1 :: l2 :: l3 :: t0 :: t1 :: f0 :: f1 :: r =>
      if (Z.of_nat (length m) =? from_ne32 l0 l1 l2 l3) && (16 + body_len <=? length m)%nat then
        let attrs := drop (16 + body_len) m in
        l ← parse_attrs (length attrs) attrs;
        Some (from_ne16 t0 t1, from_ne16 f0 f1, take body_len (drop 16 m), l)
      else None
  | _ => None
  end.

Definition attr_ok (p : Z * bytes) : Prop :=
  0 ≤ p.1 < 65536 ∧ Z.of_nat (length p.2) + 4 < 65536 ∧ Z.of_nat (length p.2) `mod` 4 = 0.

Lemma align4_exact n : Z.of_nat n < 2 ^ 63 → Z.of_nat n `mod` 4 = 0 → align4 n = n.
Proof.
  intros Hn Hm. apply Nat2Z.inj. rewrite align4_spec by done.
  pose proof (Z.div_mod (Z.of_nat n) 4). rewrite Hm in *.
  replace (Z.of_nat n + 3) with (3 + Z.of_nat n / 4 * 4) by lia.
  rewrite Z.div_add by lia. change (3 / 4) with 0. lia.
Qed.

Lemma parse_attrs_encode l fuel :
  Forall attr_ok l → (length (concat (encode_attrs l)) ≤ fuel)%nat →
  parse_attrs fuel (concat (encode_attrs l)) = Some l.
Proof.
  intros Hl. revert fuel. induction Hl as [|[ty p] l (Hty & Hlen & Hmod) Hl IH]; intros fuel Hf.
  - by destruct fuel.
  - change (concat (encode_attrs ((ty, p) :: l)))
      with (nl_attr ty p ++ concat (encode_attrs l)) in *. rewrite length_app in Hf.
    assert (length (nl_attr ty p) = (4 + length p)%nat) as Hla by (unfold nl_attr; bytes_len).
    destruct fuel as [|fuel]; [lia|].
    set (tl := concat (encode_attrs l)) in *.
    assert (length tl ≤ fuel)%nat as Hfuel by lia.
    assert (nl_attr ty p ++ tl =
      u8 (u16 (Z.of_nat (length p + 4))) :: u8 (Z.shiftr (u16 (Z.of_nat (length p + 4))) 8)
      :: u8 ty :: u8 (Z.shiftr ty 8) :: p ++ tl) as -> by done.
    cbn [parse_attrs]. cbn [fst snd] in *. rewrite u16_small by lia.
    rewrite !from_ne16_ne16 by lia. rewrite Nat2Z.id. cbn [length].
    rewrite (proj2 (Nat.ltb_ge _ _)), (proj2 (Nat.ltb_ge _ _)) by (rewrite ?length_app; lia).
    cbn [orb]. rewrite (align4_exact (length p + 4)) by
      (first [lia | rewrite Nat2Z.inj_add, Z.add_mod, Hmod by lia; done]).
    replace (length p + 4 - 4)%nat with (length p) by lia.
    rewrite drop_app_length, take_app_length, IH by done. done.
Qed.

Lemma parse_nlmsg_message ty flags body l :
  0 ≤ ty < 65536 → 0 ≤ flags < 65536 → Forall attr_ok l →
  16 + Z.of_nat (length body) + Z.of_nat (length (concat (encode_attrs l))) < 2 ^ 32 →
  parse_nlmsg (length body) (nl_message ty flags body (encode_attrs l))
  = Some (ty, flags, body, l).
Proof.
  intros Hty Hfl Hl Hlen. set (at_ := concat (encode_attrs l)) in *.
  set (m := nl_message ty flags body (encode_attrs l)).
  assert (length m = (16 + length body + length at_)%nat) as Hm.
  { unfold m, nl_message. rewrite !length_app, length_nl_header. fold at_. lia. }
  set (n := (16 + length body + length at_)%nat) in *.
  assert (m = nl_header n ty flags ++ body ++ at_) as Hm' by done.
  assert (drop (16 + length body) m = at_) as Hd.
  { rewrite Hm', app_assoc, drop_app_length'; [done|]. by rewrite length_app. }
  assert (take (length body) (drop 16 m) = body) as Hb.
  { rewrite Hm', drop_app_length' by done. by rewrite take_app_length. }
  unfold parse_nlmsg. rewrite Hd, Hb, Hm. rewrite Hm' at 1.
  unfold nl_header, ne32 at 1, ne16. cbn [app].
  rewrite from_ne32_ne32, !from_ne16_ne16 by (rewrite ?u32_small; lia).
  rewrite u32_small by lia. rewrite Z.eqb_refl, (proj2 (Nat.leb_le _ _)) by lia. cbn [andb].
  unfold at_. rewrite parse_attrs_encode by done. done.
Qed.

(** C38. [add_route] sends a message the kernel reads as intended: its header holds
    the true length, the fixed part is the [rtmsg] of the route, and the
    attributes are the destination, the gateway and the interface, as given. *)
Theorem add_route_message_parses dest prefix gateway oif :
  ipv4_ok dest → opt_ipv4_ok gateway →
  ∃ m, add_route_message dest prefix gateway oif = Ret m
  ∧ parse_nlmsg 12 m = Some (RTM_NEWROUTE, 0x405,
      rtmsg prefix (if is_some gateway then RT_SCOPE_UNIVERSE else RT_SCOPE_LINK)
        (if is_some gateway then 4 else 0),
      route_attr_list dest prefix gateway oif).
Proof.
  intros Hd Hg. unfold add_route_message. rewrite route_attrs_spec by done.
  cbn [mbind exec_bind]. rewrite route_message_spec. eexists. split; [reflexivity|].
  apply (parse_nlmsg_message _ _ (rtmsg _ _ _)); [unfold RTM_NEWROUTE; lia|by vm_compute| |].
  - unfold route_attr_list. destruct (0 <? prefix), gateway, oif; repeat constructor; done.
  - unfold route_attr_list. destruct (0 <? prefix), gateway, oif; cbn; lia.
Qed.

Lemma add_route_message_parses_witness :
  ∃ m, add_route_message 0 0 (Some 0x0A640001) (Some 9) = Ret m
  ∧ parse_nlmsg 12 m = Some (24, 0x405, [2; 0; 0; 0; 254; 3; 0; 1; 4; 0; 0; 0],
                             [(5, [10; 100; 0; 1]); (4, [9; 0; 0; 0])]).
Proof. apply (add_route_message_parses 0 0 (Some 0x0A640001) (Some 9)); unfold opt_ipv4_ok, ipv4_ok; lia.
Defined.

(** No message builder leaves its buffer, and every message starts with its own
    length. *)
Definition builds (e : exec bytes) : Prop :=
  ∃ m, e = Ret m ∧ take 4 m = ne32 (u32 (Z.of_nat (length m))).

Lemma builds_nl_message ty flags body attrs : builds (Ret (nl_message ty flags body attrs)).
Proof.
  eexists. split; [done|].
  assert (length (nl_message ty flags body attrs) = (16 + length body + length (concat attrs))%nat)
    as -> by (unfold nl_message; rewrite !length_app, length_nl_header; lia).
  done.
Qed.

Lemma veth_message_spec host peer pid :
  Z.of_nat (String.length host) < 2 ^ 63 → Z.of_nat (String.length peer) < 2 ^ 63 →
  veth_message host peer pid = Ret (nl_message RTM_NEWLINK 0x605 (ifinfomsg 0 0 0)
    [nl_attr IFLA_IFNAME (pad4 (as_bytes host)); nl_attr IFLA_MTU (ne32 1500);
     nl_attr IFLA_LINKINFO (nl_attr IFLA_INFO_KIND (pad4 (as_bytes "veth" ++ [0]))
       ++ nl_attr IFLA_INFO_DATA (nl_attr IFLA_VETH_PEER (zeros 16
         ++ nl_attr IFLA_IFNAME (pad4 (as_bytes peer))
         ++ match pid with Some p => nl_attr IFLA_NET_NS_PID (ne32 p) | None => [] end)))]).
Proof.
  intros Hh Hp. unfold veth_message.
  rewrite !nlattr_bytes_spec by (rewrite ?length_as_bytes; done). cbn [mbind exec_bind].
  assert (match pid with Some p => nlattr IFLA_NET_NS_PID (ne32 p) | None => Ret [] end
    = Ret match pid with Some p => nl_attr IFLA_NET_NS_PID (ne32 p) | None => [] end) as ->
    by (destruct pid; [apply nlattr_spec|done]).
  do 4 (cbn [mbind exec_bind]; rewrite ?nlattr_nested_spec, ?nlattr_spec).
  cbn [mbind exec_bind].
  apply link_build_spec. cbn [concat]. rewrite !length_app. cbn [length]. lia.
Qed.

Lemma add_addr_message_spec index ip prefix :
  ipv4_ok ip →
  add_addr_message index ip prefix
  = Ret (nl_message RTM_NEWADDR 0x605 ([u8 AF_INET; prefix; 0; 0] ++ ne32 index)
           [nl_attr IFA_LOCAL (octets ip); nl_attr IFA_ADDRESS (octets ip)]).
Proof.
  intros Hip. unfold add_addr_message. rewrite !octets_attr_spec by done.
  cbn [mbind exec_bind]. rewrite write_nlmsghdr_spec by lia. cbn [mbind exec_bind].
  do 5 (rewrite copy_zeros by (rewrite ?length_app, ?length_nl_header; bytes_len);
        cbn [mbind exec_bind]).
  rewrite write_attrs_spec.
  - rewrite zeros_0 by (cbn [concat length]; rewrite ?length_app, ?length_nl_header; bytes_len).
    unfold nl_message. rewrite app_nil_r, <- !app_assoc. done.
  - rewrite ?length_app, ?length_nl_header. bytes_len.
  - cbn [concat]. rewrite ?length_app, ?length_nl_header. bytes_len.
Qed.

(** No message builder writes outside its buffer, and every message starts with
    its own length. *)
Theorem builders_total host peer pid dest prefix gateway oif ip ty index flags :
  Z.of_nat (String.length host) < 2 ^ 63 → Z.of_nat (String.length peer) < 2 ^ 63 →
  ipv4_ok dest → opt_ipv4_ok gateway → ipv4_ok ip →
  builds (veth_message host peer pid) ∧ builds (get_ifindex_message host)
  ∧ builds (link_message ty index flags) ∧ builds (add_route_message dest prefix gateway oif)
  ∧ builds (del_route_message dest prefix gateway oif)
  ∧ builds (add_addr_message index ip prefix) ∧ builds (move_peer_message index prefix).
Proof.
  intros Hh Hp Hd Hg Hip. split_and!.
  - rewrite veth_message_spec by done. apply builds_nl_message.
  - rewrite get_ifindex_message_spec by done. apply builds_nl_message.
  - rewrite link_message_spec. apply builds_nl_message.
  - unfold add_route_message. rewrite route_attrs_spec by done. cbn [mbind exec_bind].
    rewrite route_message_spec. apply builds_nl_message.
  - unfold del_route_message. rewrite route_attrs_spec by done. cbn [mbind exec_bind].
    rewrite route_message_spec. apply builds_nl_message.
  - rewrite add_addr_message_spec by done. apply builds_nl_message.
  - rewrite move_peer_message_spec. apply builds_nl_message.
Qed.

Lemma builders_total_witness :
  builds (veth_message "veth-1" "zeth-1" (Some 77)) ∧ builds (get_ifindex_message "veth-1").
Proof.
  pose proof (builders_total "veth-1" "zeth-1" (Some 77) 0 0 None None 0 16 1 1) as H.
  split; apply H; unfold opt_ipv4_ok, ipv4_ok; cbn; lia.
Defined.

(** ** Responses *)

Lemma index_ret i b : (i < length b)%nat → ∃ x, index i b = Ret x.
Proof.
  intros H. unfold index. destruct (lookup_lt_is_Some_2 b i H) as [x ->]. eauto.
Qed.

Ltac index_step :=
  match goal with
  | |- context [index ?i ?b] =>
      let x := fresh "x" in let E := fresh "E" in
      destruct (index_ret i b ltac:(lia)) as [x E]; rewrite E; clear E
  end; cbn [mbind exec_bind].

(** Reading the outcome of a request never panics: an error message of the
    kernel with a nonzero code is an error, anything else is success. *)
Theorem check_nl_response_total errno resp ctx :
  check_nl_response errno resp ctx
  = Ret (if (20 <=? length resp)%nat
            && bool_decide (msg_type resp = Ret NLMSG_ERROR)
            && negb (bool_decide (err_code resp = Ret 0))
         then Err (ctx +:+ ": netlink error "
                   +:+ display (match err_code resp with Ret c => c | Panic => 0 end)
                   +:+ " (" +:+ errno (match err_code resp with Ret c => c | Panic => 0 end)
                   +:+ ")")
         else Ok ()).
Proof.
  unfold check_nl_response. destruct (Nat.leb_spec 16 (length resp)) as [H16|H16].
  2: { by rewrite (proj2 (Nat.leb_gt _ _)) by lia. }
  assert (∃ t, msg_type resp = Ret t) as [t Et].
  { unfold msg_type. do 2 index_step. by eexists. }
  rewrite Et. cbn [mbind exec_bind].
  destruct (Nat.leb_spec 20 (length resp)) as [H20|H20]; cbn [andb].
  2: { by rewrite andb_false_r. }
  assert (∃ c, err_code resp = Ret c) as [c Ec].
  { unfold err_code. do 4 index_step. by eexists. }
  rewrite Ec, andb_true_r. cbn [mbind exec_bind].
  destruct (Z.eqb_spec t NLMSG_ERROR) as [->|Ht].
  - rewrite bool_decide_true by done. cbn [andb].
    destruct (Z.eqb_spec c 0) as [->|Hc]; [by rewrite bool_decide_true|].
    by rewrite bool_decide_false by congruence.
  - by rewrite bool_decide_false by congruence.
Qed.

(** [get_ifindex] reads bytes 20 to 23 after having checked for 20 bytes only:
    it panics exactly on responses of 20 to 23 bytes that are not errors. *)
Theorem ifindex_of_response_panic nm resp :
  ifindex_of_response nm resp = Panic ↔
  (20 ≤ length resp < 24)%nat ∧ msg_type resp ≠ Ret NLMSG_ERROR.
Proof.
  unfold ifindex_of_response. destruct (Nat.leb_spec 20 (length resp)) as [H20|H20].
  2: { split; [done|]. lia. }
  assert (∃ t, msg_type resp = Ret t) as [t Et].
  { unfold msg_type. do 2 index_step. by eexists. }
  rewrite Et. cbn [mbind exec_bind].
  destruct (Z.eqb_spec t NLMSG_ERROR) as [->|Ht]; cbn [negb].
  { split; [done|]. by intros [_ ?]. }
  split.
  - intros Hp. split; [|congruence]. split; [done|].
    destruct (Nat.lt_ge_cases (length resp) 24) as [|H24]; [done|].
    exfalso. revert Hp. do 4 index_step. done.
  - intros [[_ H24] _].
    destruct (index 20 resp); cbn [mbind exec_bind]; [|done].
    destruct (index 21 resp); cbn [mbind exec_bind]; [|done].
    destruct (index 22 resp); cbn [mbind exec_bind]; [|done].
    unfold index. by rewrite lookup_ge_None_2 by lia.
Qed.
