(* ===== verification/Nft.v ===== *)
(** * Nft: the nftables engine (src/src/netmux/nftables.rs)

    [NftEngine]: the batches it sends to the kernel, the error codes it ignores
    and the two lists of chains that already have jump rules. A batch is the list
    of objects added or deleted; the expressions of a rule are a constructor with
    the data the code puts in them. The kernel ([Batch::send]) is the parameter
    [batch_send] over an abstract state; [IpNetwork::parse] is [parse_net]. *)
From S2P Require Import Prelude Text Utf8.

Definition NAT_TABLE := "z8s_nat".
Definition FILTER_TABLE := "z8s_filter".
Definition HOOK_PRIO_NAT := -100.
Definition HOOK_PRIO_FILTER := 0.

(** [format!("svc-{:08x}-{:04x}", ..)] *)
Definition chain_name (ip : Ipv4Addr) (port : Z) : string :=
  "svc-" +:+ hex_pad 8 ip +:+ "-" +:+ hex_pad 4 port.
Definition nodeport_chain_name (node_port : Z) : string := "np-" +:+ hex_pad 4 node_port.

(** ** Batches *)

Inductive hook_class := PreRouting | PostRouting | HookIn | HookOut | HookForward.

(** What a rule matches: payload loads compared with bytes. *)
Inductive payload_match :=
  | MatchDaddr (ip : bytes)
  | MatchTcpDport (port : bytes).

Section nft.
Context {net : Type}.

Inductive rule_expr :=
  | EstablishedAccept
  | Jump (chain : string)
  | SnetMasquerade (src : net)
  | Dnat (matches : list payload_match) (ip port : bytes)
  | SnetDnet (src dst : net) (accept : bool)
  | SetDnetAccept (set : string) (dst : net)
  | DnetAccept (dst : net).

Inductive nft_obj :=
  | OTable (table : string)
  | OChain (table chain : string) (hook : option (hook_class * Z))
  | ORule (table chain : string) (e : rule_expr)
  | OSet (table set : string)
  | OSetElems (table set : string) (ips : list Ipv4Addr).

Inductive msg_kind := MsgAdd | MsgDel.
Definition batch : Type := list (nft_obj * msg_kind).

Inductive send_outcome :=
  | SendOk
  | NetlinkError (error : Z)
  | OtherError (msg : string).

(** ** The engine *)

Context {K : Type}.
Variable batch_send : batch → K → send_outcome * K.
Variable parse_net : string → option net.
(** The name of an error number in messages ([code_name]). *)
Definition code_name (c : Z) : string :=
  unwrap_or (snd <$> find_first (λ p, p.1 =? c)
    [(1, "EPERM"); (2, "ENOENT"); (3, "ESRCH"); (4, "EINTR"); (5, "EIO"); (6, "ENXIO");
     (11, "EAGAIN"); (12, "ENOMEM"); (13, "EACCES"); (16, "EBUSY"); (17, "EEXIST");
     (22, "EINVAL"); (25, "ENOTTY"); (26, "ETXTBSY"); (95, "EOPNOTSUPP");
     (105, "ENOBUFS"); (114, "EALREADY")]) "UNKNOWN".

Record NftEngine := {
  kernel : K;
  jump_track : list (Ipv4Addr * Z);
  nodeport_jump_track : list Z
}.

Abbreviation nft := (stateR NftEngine).

Definition set_jump_track (l : list (Ipv4Addr * Z)) (s : NftEngine) : NftEngine :=
  {| kernel := kernel s; jump_track := l; nodeport_jump_track := nodeport_jump_track s |}.
Definition set_nodeport_jump_track (l : list Z) (s : NftEngine) : NftEngine :=
  {| kernel := kernel s; jump_track := jump_track s; nodeport_jump_track := l |}.

Definition send (b : batch) : nft unit := λ s,
  let '(r, k) := batch_send b (kernel s) in
  let s := {| kernel := k; jump_track := jump_track s;
              nodeport_jump_track := nodeport_jump_track s |} in
  match r with
  | SendOk => (Ok (), s)
  | NetlinkError error =>
      let code := Z.abs error in
      if (code =? 2) || (code =? 16) || (code =? 17) then (Ok (), s)
      else (Err ("nftables error " +:+ display code +:+ " (" +:+ code_name code +:+ ")"), s)
  | OtherError e => (Err e, s)
  end.

Definition init (pod_cidr : string) : nft unit :=
  _ ← for_each (λ tbl,
        _ ← send [(OTable tbl, MsgDel)];
        send [(OTable tbl, MsgAdd)]) [NAT_TABLE; FILTER_TABLE];
  _ ← sr_modify (set_jump_track []);
  _ ← sr_modify (set_nodeport_jump_track []);
  _ ← send ((λ '(n, h), (OChain NAT_TABLE n (Some (h, HOOK_PRIO_NAT)), MsgAdd)) <$>
        [("prerouting", PreRouting); ("postrouting", PostRouting); ("output", HookOut)]);
  _ ← send [(OChain FILTER_TABLE "forward" (Some (HookForward, HOOK_PRIO_FILTER)), MsgAdd);
            (OChain FILTER_TABLE "input" (Some (HookIn, HOOK_PRIO_FILTER)), MsgAdd);
            (OChain FILTER_TABLE "output" (Some (HookOut, HOOK_PRIO_FILTER)), MsgAdd);
            (ORule FILTER_TABLE "forward" EstablishedAccept, MsgAdd)];
  send [(OChain FILTER_TABLE "nsg-rules" None, MsgAdd);
        (ORule FILTER_TABLE "forward" (Jump "nsg-rules"), MsgAdd)].

Definition parse_cidr_net (s : string) : nft net :=
  lift_result (ok_or (parse_net s) "invalid address").

Definition add_snat (vnet_name vnet_cidr : string) : nft unit :=
  cidr ← parse_cidr_net vnet_cidr;
  send [(ORule NAT_TABLE "postrouting" (SnetMasquerade cidr), MsgAdd)].

(** ** DNAT *)

Definition add_dnat_rule (chain : string) (matches : list payload_match)
    (backend : Ipv4Addr * Z) : batch :=
  [(ORule NAT_TABLE chain (Dnat matches (octets backend.1) (be16 backend.2)), MsgAdd)].

Definition update_dnat_chain (svc : string) (backends : list (Ipv4Addr * Z))
    (matches : list payload_match) : nft unit :=
  _ ← send [(OChain NAT_TABLE svc None, MsgAdd)];
  for_each (λ be, send (add_dnat_rule svc matches be)) backends.

Definition add_jump_rules (svc : string) (hooks : list string) : nft unit :=
  for_each (λ h, send [(ORule NAT_TABLE h (Jump svc), MsgAdd)]) hooks.

Definition svc_matches (cluster_ip : Ipv4Addr) (port : Z) : list payload_match :=
  [MatchDaddr (octets cluster_ip); MatchTcpDport (be16 port)].

Definition add_dnat (cluster_ip : Ipv4Addr) (port : Z) (backends : list (Ipv4Addr * Z))
    : nft unit :=
  let svc := chain_name cluster_ip port in
  _ ← update_dnat_chain svc backends (svc_matches cluster_ip port);
  s ← sr_get;
  if negb (existsb (λ '(ip, p), (ip =? cluster_ip) && (p =? port)) (jump_track s)) then
    _ ← sr_put (set_jump_track (jump_track s ++ [(cluster_ip, port)]) s);
    add_jump_rules svc ["prerouting"; "output"]
  else mret ().

Definition remove_dnat (cluster_ip : Ipv4Addr) (port : Z) : nft unit :=
  _ ← send [(OChain NAT_TABLE (chain_name cluster_ip port) None, MsgDel)];
  sr_modify (λ s, set_jump_track
    (List.filter (λ '(ip, p), negb (ip =? cluster_ip) || negb (p =? port)) (jump_track s)) s).

Definition add_nodeport_dnat (node_port : Z) (backends : list (Ipv4Addr * Z)) : nft unit :=
  match backends with
  | [] => mret ()
  | _ =>
      let svc := nodeport_chain_name node_port in
      _ ← update_dnat_chain svc backends [MatchTcpDport (be16 node_port)];
      s ← sr_get;
      if negb (existsb (Z.eqb node_port) (nodeport_jump_track s)) then
        _ ← sr_put (set_nodeport_jump_track (nodeport_jump_track s ++ [node_port]) s);
        add_jump_rules svc ["prerouting"; "output"]
      else mret ()
  end.

Definition remove_nodeport_dnat (node_port : Z) : nft unit :=
  _ ← send [(OChain NAT_TABLE (nodeport_chain_name node_port) None, MsgDel)];
  sr_modify (λ s, set_nodeport_jump_track
    (List.filter (λ p, negb (p =? node_port)) (nodeport_jump_track s)) s).

(** ** Filter rules *)

Definition add_forward (accept : bool) (src_cidr dst_cidr : string) : nft unit :=
  src ← parse_cidr_net src_cidr;
  dst ← parse_cidr_net dst_cidr;
  send [(ORule FILTER_TABLE "nsg-rules" (SnetDnet src dst accept), MsgAdd)].
Definition add_forward_allow := add_forward true.
Definition add_forward_deny := add_forward false.

Definition add_forward_allow_set_src (set_name dst_cidr : string) : nft unit :=
  dst ← parse_cidr_net dst_cidr;
  send [(ORule FILTER_TABLE "nsg-rules" (SetDnetAccept set_name dst), MsgAdd)].

Definition reset_nsg_rules : nft unit :=
  _ ← send [(OChain FILTER_TABLE "nsg-rules" None, MsgDel)];
  send [(OChain FILTER_TABLE "nsg-rules" None, MsgAdd)].

Definition add_forward_catchall (pod_cidr : string) : nft unit :=
  cidr ← parse_cidr_net pod_cidr;
  send [(OChain FILTER_TABLE "catch-all" None, MsgAdd);
        (ORule FILTER_TABLE "catch-all" (DnetAccept cidr), MsgAdd);
        (ORule FILTER_TABLE "forward" (Jump "catch-all"), MsgAdd)].

Definition create_set (name : string) (initial_ips : list Ipv4Addr) : nft unit :=
  send [(OSet FILTER_TABLE name, MsgAdd); (OSetElems FILTER_TABLE name initial_ips, MsgAdd)].

Definition replace_set (name : string) (ips : list Ipv4Addr) : nft unit := create_set name ips.
End nft.

#[global] Arguments NftEngine : clear implicits.
#[global] Arguments batch : clear implicits.
#[global] Arguments nft_obj : clear implicits.
#[global] Arguments rule_expr : clear implicits.

(** ** Chain names *)

Lemma length_hex_pad n z : String.length (hex_pad n z) = n.
Proof.
  revert z. induction n as [|n IH]; intros z; [done|]. cbn [hex_pad].
  rewrite <- length_as_bytes, as_bytes_app, length_app, length_as_bytes, IH. cbn. lia.
Qed.

Lemma string_app_inj s1 s2 t1 t2 :
  String.length s1 = String.length s2 → s1 +:+ t1 = s2 +:+ t2 → s1 = s2 ∧ t1 = t2.
Proof.
  revert s2. induction s1 as [|a s1 IH]; intros [|b s2]; cbn; try done.
  intros [= Hl] [= -> E]. destruct (IH s2 Hl E) as [-> ->]. done.
Qed.

Lemma hex_digit_inj a b : 0 ≤ a < 16 → 0 ≤ b < 16 → hex_digit a = hex_digit b → a = b.
Proof.
  intros Ha Hb. unfold hex_digit. intros E%(f_equal byte_of_ascii).
  rewrite !byte_of_ascii_of_byte in E by (repeat case_match; lia).
  destruct (Z.ltb_spec a 10), (Z.ltb_spec b 10); lia.
Qed.

Lemma hex_pad_inj n a b :
  0 ≤ a < 16 ^ Z.of_nat n → 0 ≤ b < 16 ^ Z.of_nat n → hex_pad n a = hex_pad n b → a = b.
Proof.
  revert a b. induction n as [|n IH]; intros a b Ha Hb; cbn [hex_pad].
  - change (16 ^ Z.of_nat 0) with 1 in *. lia.
  - rewrite Nat2Z.inj_succ, Z.pow_succ_r in Ha, Hb by lia.
    intros [E1 E2]%string_app_inj; [|by rewrite !length_hex_pad]. injection E2 as E2.
    apply hex_digit_inj in E2; [|apply Z.mod_pos_bound; lia..].
    apply IH in E1; [pose proof (Z.div_mod a 16); pose proof (Z.div_mod b 16); lia|..].
    all: split; [apply Z.div_pos; lia|apply Z.div_lt_upper_bound; lia].
Qed.

(** Different services never share a chain. *)
Lemma chain_name_eq ip1 port1 ip2 port2 :
  ipv4_ok ip1 → ipv4_ok ip2 → 0 ≤ port1 < 65536 → 0 ≤ port2 < 65536 →
  chain_name ip1 port1 = chain_name ip2 port2 → ip1 = ip2 ∧ port1 = port2.
Proof.
  intros Hi1 Hi2 Hp1 Hp2 E. unfold chain_name in E. apply string_app_inj_l in E.
  apply string_app_inj in E as [E1 E2]; [|by rewrite !length_hex_pad].
  apply string_app_inj_l in E2.
  apply (hex_pad_inj 8) in E1; [|done|done]. by apply (hex_pad_inj 4) in E2.
Qed.

Lemma chain_name_eq_example :
  chain_name 0x0A600001 80 = "svc-0a600001-0050" ∧ 0x0A600001 = 0x0A600001 ∧ 80 = 80.
Proof.
  split; [by vm_compute|].
  apply (chain_name_eq 0x0A600001 80 0x0A600001 80); unfold ipv4_ok; try lia; done.
Defined.

(** ** The batches a call sends *)

(** A kernel that accepts and records every batch. *)
Definition record_send {net} (b : batch net) (k : list (batch net))
    : send_outcome * list (batch net) := (SendOk, k ++ [b]).

Section batches.
Context {net : Type}.
Implicit Types s : NftEngine (list (batch net)).

Abbreviation send_r := (send (K := list (batch net)) record_send).
Abbreviation add_dnat_r := (add_dnat (K := list (batch net)) record_send).

Definition log_app (l : list (batch net)) s : NftEngine (list (batch net)) :=
  {| kernel := kernel s ++ l; jump_track := jump_track s;
     nodeport_jump_track := nodeport_jump_track s |}.

Lemma log_app_app l1 l2 s : log_app l2 (log_app l1 s) = log_app (l1 ++ l2) s.
Proof. unfold log_app. cbn. by rewrite app_assoc. Qed.

Lemma log_app_nil s : log_app [] s = s.
Proof. destruct s. unfold log_app. cbn. by rewrite app_nil_r. Qed.

Lemma send_record b s : send_r b s = (Ok (), log_app [b] s).
Proof. done. Qed.

Lemma for_each_send_record {A} (f : A → batch net) l s :
  for_each (λ x, send_r (f x)) l s = (Ok (), log_app (f <$> l) s).
Proof.
  revert s. induction l as [|x l IH]; intros s; cbn [for_each fmap list_fmap].
  - by rewrite log_app_nil.
  - unfold mbind, stateR_bind. rewrite send_record, IH, log_app_app. done.
Qed.

Definition jump_batch (h svc : string) : batch net := [(ORule NAT_TABLE h (Jump svc), MsgAdd)].

Definition chain_batches (svc : string) (matches : list payload_match)
    (backends : list (Ipv4Addr * Z)) : list (batch net) :=
  [(OChain NAT_TABLE svc None, MsgAdd)] :: (add_dnat_rule svc matches <$> backends).

(** The jump rules of a chain that is not tracked. *)
Definition jump_batches (svc : string) (t : bool) : list (batch net) :=
  if t then [] else [jump_batch "prerouting" svc; jump_batch "output" svc].

Definition tracked (ip : Ipv4Addr) (port : Z) (l : list (Ipv4Addr * Z)) : bool :=
  existsb (λ '(i, p), (i =? ip) && (p =? port)) l.

Lemma tracked_spec ip port l : tracked ip port l = true ↔ (ip, port) ∈ l.
Proof.
  unfold tracked. rewrite existsb_exists, list_elem_of_In. split.
  - intros [[i p] [Hin Hp]]. to_prop. by subst.
  - intros H. exists (ip, port). by rewrite !Z.eqb_refl.
Qed.

Lemma add_dnat_log ip port backends s :
  let svc := chain_name ip port in
  let t := tracked ip port (jump_track s) in
  add_dnat_r ip port backends s
  = (Ok (), set_jump_track
       (if t then jump_track s else jump_track s ++ [(ip, port)])
       (log_app (chain_batches svc (svc_matches ip port) backends
                 ++ jump_batches svc t) s)).
Proof.
  cbn zeta. unfold add_dnat, update_dnat_chain. unfold mbind, stateR_bind.
  rewrite send_record, for_each_send_record, log_app_app. unfold sr_get. cbn [jump_track log_app].
  fold (tracked ip port (jump_track s)).
  destruct (tracked ip port (jump_track s)); cbn [negb].
  - unfold mret, stateR_ret. cbn [jump_batches]. rewrite app_nil_r. done.
  - unfold sr_put, add_jump_rules. rewrite for_each_send_record. unfold log_app, set_jump_track.
    cbn. by rewrite <- !app_assoc.
Qed.

(** [add_dnat] adds the chain and one rule per backend, in order, and the two
    jump rules exactly when the service is not tracked yet. *)
Theorem add_dnat_batches ip port backends s :
  let svc := chain_name ip port in
  let t := tracked ip port (jump_track s) in
  add_dnat_r ip port backends s
  = (Ok (), set_jump_track
       (if t then jump_track s else jump_track s ++ [(ip, port)])
       (log_app (chain_batches svc (svc_matches ip port) backends
                 ++ jump_batches svc t) s)).
Proof. apply add_dnat_log. Qed.

(** Jump rules for a chain in a log. *)
Definition is_jump_to (h svc : string) (b : batch net) : bool :=
  match b with
  | [(ORule t h' (Jump c), MsgAdd)] =>
      bool_decide (t = NAT_TABLE) && bool_decide (h' = h) && bool_decide (c = svc)
  | _ => false
  end.

Lemma is_jump_to_jump_batch h svc h' c :
  is_jump_to h svc (jump_batch h' c) = bool_decide (h' = h) && bool_decide (c = svc).
Proof. unfold is_jump_to, jump_batch. by rewrite (bool_decide_true (NAT_TABLE = NAT_TABLE)). Qed.

Definition jumps (h svc : string) (l : list (batch net)) : nat :=
  length (List.filter (is_jump_to h svc) l).

Lemma jumps_app h svc l1 l2 : jumps h svc (l1 ++ l2) = (jumps h svc l1 + jumps h svc l2)%nat.
Proof. unfold jumps. by rewrite List.filter_app, length_app. Qed.

Lemma jumps_chain_batches h svc c m bs : jumps h svc (chain_batches c m bs) = 0%nat.
Proof. unfold jumps, chain_batches. cbn. induction bs; cbn; done. Qed.

Definition service_ok (x : Ipv4Addr * Z * list (Ipv4Addr * Z)) : Prop :=
  ipv4_ok x.1.1 ∧ 0 ≤ x.1.2 < 65536.

Definition add_all (l : list (Ipv4Addr * Z * list (Ipv4Addr * Z)))
    : stateR (NftEngine (list (batch net))) unit :=
  for_each (λ x, add_dnat_r x.1.1 x.1.2 x.2) l.

Lemma add_all_inv l ip port s :
  ipv4_ok ip → 0 ≤ port < 65536 → Forall service_ok l →
  jumps "prerouting" (chain_name ip port) (kernel s)
    = (if tracked ip port (jump_track s) then 1 else 0)%nat →
  let s' := (add_all l s).2 in
  jumps "prerouting" (chain_name ip port) (kernel s')
    = (if tracked ip port (jump_track s') then 1 else 0)%nat
  ∧ ((ip, port) ∈ jump_track s' ↔ (ip, port) ∈ jump_track s ∨ (ip, port) ∈ l.*1).
Proof.
  intros Hip Hport Hl. revert s. induction Hl as [|[[i p] bs] l [Hi Hp] Hl IH]; intros s Hs; cbn.
  - split; [done|]. set_solver.
  - unfold add_all in *. cbn [for_each]. unfold mbind, stateR_bind.
    rewrite add_dnat_log. cbn [fst snd] in *.
    set (s1 := set_jump_track _ _).
    assert ((ip, port) ∈ jump_track s1 ↔ (ip, port) ∈ jump_track s ∨ (ip, port) = (i, p)) as Htr.
    { unfold s1. cbn. destruct (tracked i p (jump_track s)) eqn:Et; [|set_solver].
      apply tracked_spec in Et. split; [by left|]. by intros [?|[= -> ->]]. }
    destruct (IH s1) as [H1 H2].
    + unfold s1. cbn [kernel log_app set_jump_track jump_track].
      rewrite !jumps_app, jumps_chain_batches, Hs. unfold jump_batches.
      destruct (tracked i p (jump_track s)) eqn:Et; cbn [Nat.add].
      * rewrite Nat.add_0_r. done.
      * assert (jumps "prerouting" (chain_name ip port)
                  [jump_batch "prerouting" (chain_name i p); jump_batch "output" (chain_name i p)]
                = if bool_decide ((ip, port) = (i, p)) then 1 else 0)%nat as ->.
        { unfold jumps. cbn [List.filter]. rewrite !is_jump_to_jump_batch.
          rewrite (bool_decide_true ("prerouting" = "prerouting")) by done.
          rewrite (bool_decide_false ("output" = "prerouting")) by done. cbn [andb].
          case_bool_decide as E1.
          - apply chain_name_eq in E1 as [-> ->]; try done. by rewrite bool_decide_true.
          - rewrite bool_decide_false; [done|]. by intros [= -> ->]. }
        destruct (tracked ip port (jump_track s)) eqn:Et2.
        -- rewrite bool_decide_false by congruence.
           apply tracked_spec in Et2.
           rewrite (proj2 (tracked_spec ip port (_ ++ _))); [done|set_solver].
        -- case_bool_decide as E2.
           ++ rewrite (proj2 (tracked_spec ip port (_ ++ _))); [done|set_solver].
           ++ destruct (tracked ip port (jump_track s ++ [(i, p)])) eqn:E3; [|done].
              apply tracked_spec in E3. apply not_true_iff_false in Et2.
              rewrite tracked_spec in Et2. set_solver.
    + split; [done|]. rewrite H2, Htr. set_solver.
Qed.

(** However often the services are synchronised, each has exactly one jump rule
    per hook: traffic passes its chain once. *)
Theorem add_dnat_jumps_once l ip port s :
  Forall service_ok l → (ip, port) ∈ l.*1 → jump_track s = [] → kernel s = [] →
  jumps "prerouting" (chain_name ip port) (kernel (add_all l s).2) = 1%nat.
Proof.
  intros Hl Hin Ht Hk.
  assert (ipv4_ok ip ∧ 0 ≤ port < 65536) as [Hip Hport].
  { apply list_elem_of_fmap in Hin as ([[i p] bs] & [= -> ->] & Hin').
    rewrite Forall_forall in Hl. apply (Hl _ Hin'). }
  destruct (add_all_inv l ip port s Hip Hport Hl) as [H1 H2].
  - by rewrite Ht, Hk.
  - rewrite H1, (proj2 (tracked_spec _ _ _)); [done|]. apply H2. by right.
Qed.

(** Nothing [add_dnat] sends removes a rule: after the backends of a service
    changed, its chain starts with the rules of the old ones. *)
Definition is_del (b : batch net) : bool :=
  existsb (λ x, match x.2 with MsgDel => true | MsgAdd => false end) b.

Lemma chain_batches_no_del svc m bs : Forall (λ b, is_del b = false) (chain_batches svc m bs).
Proof. constructor; [done|]. induction bs; constructor; done. Qed.

Lemma jump_batches_no_del svc t : Forall (λ b, is_del b = false) (jump_batches svc t).
Proof. destruct t; repeat constructor. Qed.

Theorem add_dnat_keeps_stale_rules ip port bs1 bs2 s :
  let svc := chain_name ip port in
  let m := svc_matches ip port in
  ∃ js1 js2,
    kernel (add_all [(ip, port, bs1); (ip, port, bs2)] s).2
    = kernel s ++ (chain_batches svc m bs1 ++ js1) ++ (chain_batches svc m bs2 ++ js2)
    ∧ Forall (λ b, is_del b = false)
        ((chain_batches svc m bs1 ++ js1) ++ (chain_batches svc m bs2 ++ js2)).
Proof.
  cbn zeta. set (svc := chain_name ip port).
  exists (jump_batches svc (tracked ip port (jump_track s))), (jump_batches svc true).
  split; [|rewrite !Forall_app; split_and!; auto using chain_batches_no_del, jump_batches_no_del].
  unfold add_all. cbn [for_each fst snd].
  unfold mbind, stateR_bind. rewrite add_dnat_log. rewrite add_dnat_log.
  cbn [jump_track set_jump_track].
  assert (tracked ip port (if tracked ip port (jump_track s) then jump_track s
                           else jump_track s ++ [(ip, port)]) = true) as ->.
  { apply tracked_spec. destruct (tracked ip port (jump_track s)) eqn:E; [|set_solver].
    by apply tracked_spec. }
  cbn [mret stateR_ret snd kernel set_jump_track log_app]. by rewrite <- app_assoc.
Qed.
End batches.

(** [send] reports success for ENOENT, EBUSY and EEXIST on any batch, not only
    on deletions of missing objects. *)
Theorem send_ignores {net K} (batch_send : batch net → K → send_outcome * K) b s k code :
  batch_send b (kernel s) = (NetlinkError code, k) →
  (send batch_send b s).1 = Ok () ↔ Z.abs code = 2 ∨ Z.abs code = 16 ∨ Z.abs code = 17.
Proof.
  intros E. unfold send. rewrite E.
  destruct (Z.eqb_spec (Z.abs code) 2); [cbn; naive_solver|].
  destruct (Z.eqb_spec (Z.abs code) 16); [cbn; naive_solver|].
  destruct (Z.eqb_spec (Z.abs code) 17); [cbn; naive_solver|].
  cbn. split; [done|lia].
Qed.
