(* ===== verification/NetMux.v ===== *)
(** * NetMux: pod networking (src/src/netmux/mod.rs)

    The engine that gives pods addresses: the main pool and the subnet pools, the
    veth pair, routes and gateway of a pod, network policies of VNets and NSGs.
    Each method holds a pool's lock only for one pool operation and is one state
    transformer here. The host's interfaces and routes are the kernel state [K]
    behind the netlink exchange of Netlink.v; entering a network namespace
    ([setns]) is the parameter [set_netns]. *)
From S2P Require Import Prelude Text Utf8 Resources Pool Netlink Nft.

(** ** Interface names *)

(** The last eight hexadecimal digits of a uid. *)
Definition uid8 (uid : string) : string :=
  let hex := List.filter is_ascii_hexdigit (chars uid) in
  of_chars (drop (length hex - 8) hex).

Definition veth_name_from_uid (uid : string) : string := "veth-" +:+ uid8 uid.
Definition peer_name_from_uid (uid : string) : string := "zeth-" +:+ uid8 uid.

Section netmux.
Context `{HO : HashOrder} {K : Type}.
Variable errno_name : Z → string.
Variable transact : bytes → K → result bytes * K.

(** ** State *)

Record NetMux := {
  pool : IpPool;
  subnet_pools : gmap string IpPool;
  prefix : Z;
  gateway : Ipv4Addr;
  host : K
}.

Definition set_pool (p : IpPool) (s : NetMux) : NetMux :=
  {| pool := p; subnet_pools := subnet_pools s; prefix := prefix s;
     gateway := gateway s; host := host s |}.
Definition set_subnet_pools (m : gmap string IpPool) (s : NetMux) : NetMux :=
  {| pool := pool s; subnet_pools := m; prefix := prefix s;
     gateway := gateway s; host := host s |}.
Definition set_host (k : K) (s : NetMux) : NetMux :=
  {| pool := pool s; subnet_pools := subnet_pools s; prefix := prefix s;
     gateway := gateway s; host := k |}.

Definition derive_gateway (cidr : Ipv4Cidr) : Ipv4Addr := u32 (network cidr + 1).

Definition netmux_new (pod_cidr : string) (k : K) : result NetMux :=
  cidr ← ok_or (cidr_parse pod_cidr) "Invalid pod CIDR";
  Ok {| pool := pool_new cidr; subnet_pools := ∅; prefix := Pool.prefix cidr;
        gateway := derive_gateway cidr; host := k |}.

Definition allocate_ip (s : NetMux) : option Ipv4Addr * NetMux :=
  let '(r, p) := allocate (pool s) in (r, set_pool p s).

(** The main pool takes the address back, and so does the first subnet pool,
    in the iteration order of the map, whose CIDR contains it. *)
Definition release_ip (ip : Ipv4Addr) (s : NetMux) : NetMux :=
  let s := set_pool (release ip (pool s)) s in
  match find_first (λ '(_, p), cidr_contains (cidr p) ip) (hash_iter (subnet_pools s)) with
  | Some (n, p) => set_subnet_pools (<[n := release ip p]> (subnet_pools s)) s
  | None => s
  end.

Definition netmux_count_free (s : NetMux) : Z := count_free (pool s).

Definition netmux_allocate_subnet (pfx : Z) (s : NetMux) : option Ipv4Cidr * NetMux :=
  let '(r, p) := allocate_subnet pfx (pool s) in (r, set_pool p s).

Definition register_subnet_cidr (name cidr_str : string) (s : NetMux) : result unit * NetMux :=
  match cidr_parse cidr_str with
  | None => (Err "Invalid subnet CIDR", s)
  | Some cidr => (Ok (), set_subnet_pools (<[name := pool_new cidr]> (subnet_pools s)) s)
  end.

(** ** Interfaces and routes *)

Abbreviation nlk := (nl (K := K)).

Definition create_pod_veth (pod_uid : string) (peer_pid : option Z)
    : nlk (string * string * Z * Z) :=
  let host_name := veth_name_from_uid pod_uid in
  let peer_name := peer_name_from_uid pod_uid in
  nl_bind (nl_context "create_veth_pair"
             (create_veth_pair errno_name transact host_name peer_name peer_pid))
    (λ '(host_idx, peer_idx), nl_ret (host_name, peer_name, host_idx, peer_idx)).

Definition bring_up_veth (ifindex : Z) : nlk unit :=
  nl_context "set_link_up" (set_link_up errno_name transact ifindex).

Definition assign_ip (ifindex : Z) (ip : Ipv4Addr) (pfx : Z) : nlk unit :=
  nl_context "add_addr" (add_addr errno_name transact ifindex ip pfx).

Definition assign_gateway (gw : Ipv4Addr) (host_veth_ifindex : Z) : nlk unit :=
  nl_context "assign_gateway" (add_addr errno_name transact host_veth_ifindex gw 32).

Definition add_pod_host_route (pod_ip : Ipv4Addr) (host_veth_ifindex : Z) : nlk unit :=
  nl_context "add_pod_route"
    (add_route errno_name transact pod_ip 32 None (Some host_veth_ifindex)).

Definition del_pod_host_route (pod_ip : Ipv4Addr) (host_veth_ifindex : Z) : nlk unit :=
  nl_context "del_pod_route"
    (del_route errno_name transact pod_ip 32 None (Some host_veth_ifindex)).

Definition add_default_route (peer_ifindex : Z) (gw : Ipv4Addr) : nlk unit :=
  nl_context "add_default_route"
    (add_route errno_name transact 0 0 (Some gw) (Some peer_ifindex)).

Definition delete_veth (host_name : string) : nlk unit := λ k,
  '(r, k) ← get_ifindex transact host_name k;
  match r with
  | Ok idx => nl_context "del_link" (del_link errno_name transact idx) k
  | Err _ => Ret (Ok (), k)
  end.

(** ** Attaching and detaching pods *)

Definition on_host {A} (m : nlk A) (s : NetMux) : exec (result A * NetMux) :=
  '(r, k) ← m (host s); Ret (r, set_host k s).

Definition rollback_veth (pod_uid : string) (pod_ip : Ipv4Addr) (host_ifindex : Z)
    (s : NetMux) : exec NetMux :=
  let host_name := veth_name_from_uid pod_uid in
  '(_, s) ← on_host (del_pod_host_route pod_ip host_ifindex) s;
  '(_, s) ← on_host (delete_veth host_name) s;
  Ret (release_ip pod_ip s).

(** The address of the new pod, from the named subnet or the main pool. *)
Definition take_pod_ip (subnet : option string) (s : NetMux) : result Ipv4Addr * NetMux :=
  match subnet with
  | Some subnet_name =>
      match subnet_pools s !! subnet_name with
      | None => (Err ("No IPs available in subnet '" +:+ subnet_name +:+ "'"), s)
      | Some p =>
          let '(r, p') := allocate p in
          (ok_or r ("No IPs available in subnet '" +:+ subnet_name +:+ "'"),
           set_subnet_pools (<[subnet_name := p']> (subnet_pools s)) s)
      end
  | None =>
      let '(r, s') := allocate_ip s in (ok_or r "No IPs available in pod CIDR", s')
  end.

Definition attach_pod (pod_uid : string) (container_pid : option Z) (subnet : option string)
    (s : NetMux) : exec (result (Ipv4Addr * Z * Z) * NetMux) :=
  match take_pod_ip subnet s with
  | (Err e, s) => Ret (Err e, s)
  | (Ok pod_ip, s) =>
      '(r, s) ← on_host (create_pod_veth pod_uid container_pid) s;
      match r with
      | Err _ => Ret (Err "create_pod_veth", s)
      | Ok (_, _, host_idx, peer_idx) =>
          '(r, s) ← on_host (bring_up_veth host_idx) s;
          match r with
          | Err _ =>
              s ← rollback_veth pod_uid pod_ip host_idx s;
              Ret (Err "bring_up_veth", s)
          | Ok _ =>
              '(r, s) ← on_host (add_pod_host_route pod_ip host_idx) s;
              match r with
              | Err _ =>
                  s ← rollback_veth pod_uid pod_ip host_idx s;
                  Ret (Err "add_pod_host_route", s)
              | Ok _ =>
                  '(_, s) ← on_host (assign_gateway (gateway s) host_idx) s;
                  Ret (Ok (pod_ip, host_idx, peer_idx), s)
              end
          end
      end
  end.

Definition detach_pod (pod_uid : string) (pod_ip : Ipv4Addr) (host_ifindex : Z) (s : NetMux)
    : exec (result unit * NetMux) :=
  let host_name := veth_name_from_uid pod_uid in
  '(_, s) ← on_host (del_pod_host_route pod_ip host_ifindex) s;
  '(_, s) ← on_host (delete_veth host_name) s;
  Ret (Ok (), release_ip pod_ip s).

(** ** Inside the pod's namespace *)

(** Whether [/proc/<pid>/ns/net] can be opened, and [setns] on it. *)
Variable open_netns : Z → K → bool.
Variable set_netns : Z → K → bool * K.

Definition enter_netns (pid : Z) (open_msg set_msg : string) : nlk unit := λ k,
  if negb (open_netns pid k) then Ret (Err open_msg, k)
  else
    let '(ok, k) := set_netns pid k in
    Ret (if ok then Ok () else Err set_msg, k).

(** [NetNsGuard]: opened first, it returns to the namespace of process 1 when
    the scope is left, on every path. *)
Definition with_netns_guard {A} (m : nlk A) : nlk A := λ k,
  if negb (open_netns 1 k) then Ret (Err "open host netns for guard", k)
  else
    '(r, k) ← m k;
    let '(_, k) := set_netns 1 k in Ret (r, k).

Definition configure_pod_netns (gw : Ipv4Addr) (pod_uid : string) (pod_ip : Ipv4Addr)
    (container_pid peer_ifindex : Z) : nlk unit :=
  nl_bind
    (if negb (peer_ifindex =? 0) then
       nl_context "move_peer_to_netns"
         (move_peer_to_netns transact peer_ifindex container_pid)
     else nl_ret ()) (λ _,
  with_netns_guard (
    nl_bind
      (if peer_ifindex =? 0 then
         nl_bind (enter_netns container_pid "open pod netns" "setns into pod netns") (λ _,
         nl_bind (nl_context "get_ifindex zeth-* in pod netns"
                    (get_ifindex transact (peer_name_from_uid pod_uid))) (λ idx,
         nl_bind (enter_netns 1 "open host netns" "setns back to host") (λ _,
         nl_ret idx)))
       else nl_ret peer_ifindex) (λ target_ifindex,
    nl_bind (enter_netns container_pid "open pod netns" "setns into pod netns") (λ _,
    nl_bind (nl_context "assign_ip in pod netns" (assign_ip target_ifindex pod_ip 32)) (λ _,
    nl_bind (nl_context "set_link_up peer in pod netns"
               (set_link_up errno_name transact target_ifindex)) (λ _,
    nl_context "add_default_route in pod netns"
      (add_default_route target_ifindex gw))))))).

(** ** Orphans *)

Definition clean_orphan_veths (veths : list (string * Z)) (active_uids : list string)
    (k : K) : exec K :=
  let active_names := veth_name_from_uid <$> active_uids in
  foldl (λ acc '(name, idx),
    k ← acc;
    if negb (bool_decide (name ∈ active_names)) then
      '(_, k) ← del_link errno_name transact idx k; Ret k
    else Ret k) (Ret k) veths.
End netmux.

#[global] Arguments NetMux : clear implicits.

(** ** VNets and NSGs *)

Section policy.
Context {net KN : Type}.
Variable batch_send : batch net → KN → send_outcome * KN.
Variable parse_net : string → option net.
Abbreviation nft := (stateR (NftEngine KN)).

Definition apply_vnet (vnet : VNet) (cidr : string) : nft unit :=
  if negb (vs_internet_access (vnet_spec vnet)) then
    add_forward_deny batch_send parse_net cidr "0.0.0.0/0"
  else mret ().

(** [rules.sort_by_key(|r| r.priority)], a stable sort. *)
Fixpoint insert_by_priority (r : NsgRule) (l : list NsgRule) : list NsgRule :=
  match l with
  | [] => [r]
  | r' :: l' =>
      if nr_priority r <=? nr_priority r' then r :: l else r' :: insert_by_priority r l'
  end.
Definition sort_by_priority (l : list NsgRule) : list NsgRule :=
  foldr insert_by_priority [] l.

Definition for_pairs (f : string → string → nft unit) (srcs dsts : list string) : nft unit :=
  for_each (λ src, for_each (λ dst, f src dst) dsts) srcs.

Definition apply_nsg_rule (rule : NsgRule) : nft unit :=
  if bool_decide (nr_action rule = "deny") then
    for_pairs (add_forward_deny batch_send parse_net) (nr_src_cidrs rule) (nr_dst_cidrs rule)
  else if bool_decide (nr_action rule = "allow") then
    for_pairs (add_forward_allow batch_send parse_net) (nr_src_cidrs rule) (nr_dst_cidrs rule)
  else mret ().

Definition apply_nsg (nsg : Nsg) : nft unit :=
  _ ← reset_nsg_rules batch_send;
  _ ← for_each apply_nsg_rule (sort_by_priority (ns_rules (nsg_spec nsg)));
  add_forward_deny batch_send parse_net "0.0.0.0/0" "0.0.0.0/0".
End policy.

(** ** Addresses of pods *)

Lemma pool_step_release_ip `{HashOrder} {K} ip (s : NetMux K) :
  subnet_pools s = ∅ →
  pool (release_ip ip s) = release ip (pool s) ∧ subnet_pools (release_ip ip s) = ∅.
Proof.
  intros Hs. unfold release_ip. cbn [subnet_pools set_pool]. rewrite Hs.
  assert (hash_iter (∅ : gmap string IpPool) = []) as ->.
  { apply Permutation_nil. by rewrite hash_iter_perm, map_to_list_empty. }
  done.
Qed.

(** An address goes back to the main pool whatever pool it came from, and to
    the subnet pool that contains it: afterwards both offer it. *)
Theorem release_ip_both_pools `{HashOrder} {K} ip n p (s : NetMux K) :
  subnet_pools s !! n = Some p → cidr_contains (cidr p) ip = true →
  (∀ n' p', subnet_pools s !! n' = Some p' → cidr_contains (cidr p') ip = true → n' = n) →
  ip ∈ free (pool (release_ip ip s))
  ∧ ∃ p', subnet_pools (release_ip ip s) !! n = Some p' ∧ ip ∈ free p'.
Proof.
  intros Hn Hc Hu. unfold release_ip. cbn [subnet_pools set_pool].
  destruct (find_first _ _) as [[n' p']|] eqn:E.
  - apply find_first_Some in E as [Hin Hc']. apply elem_of_hash_iter in Hin.
    pose proof (Hu n' p' Hin Hc') as ->. cbn [pool set_subnet_pools set_pool release free subnet_pools].
    split; [apply elem_of_set_insert; by left|].
    exists (release ip p'). rewrite lookup_insert_eq. split; [done|].
    apply elem_of_set_insert. by left.
  - exfalso. rewrite find_first_None in E. specialize (E (n, p)).
    rewrite elem_of_hash_iter in E. specialize (E Hn). cbn in E. congruence.
Qed.

Section attach.
Context `{HO : HashOrder} {K : Type}.
Variable errno_name : Z → string.
Variable transact : bytes → K → result bytes * K.
Implicit Types s : NetMux K.

Lemma on_host_pools {A} (m : nl (K := K) A) s r s' :
  on_host m s = Ret (r, s') →
  pool s' = pool s ∧ subnet_pools s' = subnet_pools s ∧ gateway s' = gateway s.
Proof. unfold on_host. destruct (m (host s)) as [[r0 k]|]; cbn; [|done]. by intros [= _ <-]. Qed.

Lemma rollback_veth_pools uid ip idx s s' :
  subnet_pools s = ∅ → rollback_veth errno_name transact uid ip idx s = Ret s' →
  pool s' = release ip (pool s) ∧ subnet_pools s' = ∅.
Proof.
  intros Hs. unfold rollback_veth.
  destruct (on_host (del_pod_host_route _ _ _ _) s) as [[r1 s1]|] eqn:E1; cbn; [|done].
  apply on_host_pools in E1 as (Hp1 & Hs1 & _).
  destruct (on_host (delete_veth _ _ _) s1) as [[r2 s2]|] eqn:E2; cbn; [|done].
  apply on_host_pools in E2 as (Hp2 & Hs2 & _). intros [= <-].
  destruct (pool_step_release_ip ip s2) as [-> ->]; [congruence|]. by rewrite Hp2, Hp1.
Qed.

(** [attach_pod] from the main pool: on success the pod has the address the
    pool gave; a failure after the veth pair exists gives the address back; a
    failure to create the pair keeps it. *)
Theorem attach_pod_spec uid pid s r s' :
  subnet_pools s = ∅ → attach_pod errno_name transact uid pid None s = Ret (r, s') →
  subnet_pools s' = ∅ ∧
  match r with
  | Ok (ip, _, _) => allocate (pool s) = (Some ip, pool s')
  | Err e =>
      (fst (allocate (pool s)) = None ∧ pool s' = pool s)
      ∨ ∃ ip p, allocate (pool s) = (Some ip, p)
          ∧ ((e = "create_pod_veth" ∧ pool s' = p)
             ∨ ((e = "bring_up_veth" ∨ e = "add_pod_host_route") ∧ pool s' = release ip p))
  end.
Proof.
  intros Hs. unfold attach_pod. cbn [take_pod_ip]. unfold allocate_ip.
  destruct (allocate (pool s)) as [[ip|] p] eqn:Ea; cbn [ok_or].
  2: { intros [= <- <-]. split; [done|]. left. split; [done|]. cbn.
       unfold allocate in Ea. destruct (free (pool s)); by simplify_eq. }
  set (s1 := set_pool p s).
  destruct (on_host (create_pod_veth _ _ _ _) s1) as [[r2 s2]|] eqn:E2; cbn [mbind exec_bind]; [|done].
  apply on_host_pools in E2 as (Hp2 & Hs2 & _).
  destruct r2 as [[[[hn pn] hi] pi]|e2].
  2: { intros [= <- <-]. split; [by rewrite Hs2|]. right. exists ip, p.
       split; [done|]. left. by rewrite Hp2. }
  destruct (on_host (bring_up_veth _ _ _) s2) as [[r3 s3]|] eqn:E3; cbn [mbind exec_bind]; [|done].
  apply on_host_pools in E3 as (Hp3 & Hs3 & _).
  assert (subnet_pools s3 = ∅) as Hs3' by (rewrite Hs3, Hs2; done).
  assert (pool s3 = p) as Hp3' by (rewrite Hp3, Hp2; done).
  destruct r3 as [[]|e3].
  2: { destruct (rollback_veth _ _ _ _ _ s3) as [s4|] eqn:E4; cbn [mbind exec_bind]; [|done].
       apply rollback_veth_pools in E4 as [Hp4 Hs4]; [|done].
       intros [= <- <-]. split; [done|]. right. exists ip, p. split; [done|]. right.
       split; [by left|]. by rewrite Hp4, Hp3'. }
  destruct (on_host (add_pod_host_route _ _ _ _) s3) as [[r4 s4]|] eqn:E4; cbn [mbind exec_bind]; [|done].
  apply on_host_pools in E4 as (Hp4 & Hs4 & _).
  destruct r4 as [[]|e4].
  2: { destruct (rollback_veth _ _ _ _ _ s4) as [s5|] eqn:E5; cbn [mbind exec_bind]; [|done].
       apply rollback_veth_pools in E5 as [Hp5 Hs5]; [|congruence].
       intros [= <- <-]. split; [done|]. right. exists ip, p. split; [done|]. right.
       split; [by right|]. by rewrite Hp5, Hp4, Hp3'. }
  destruct (on_host (assign_gateway _ _ _ _) s4) as [[r5 s5]|] eqn:E5; cbn [mbind exec_bind]; [|done].
  apply on_host_pools in E5 as (Hp5 & Hs5 & _). intros [= <- <-].
  split; [congruence|]. by rewrite Hp5, Hp4, Hp3'.
Qed.

Lemma detach_pod_pools uid ip idx s r s' :
  subnet_pools s = ∅ → detach_pod errno_name transact uid ip idx s = Ret (r, s') →
  r = Ok () ∧ pool s' = release ip (pool s) ∧ subnet_pools s' = ∅.
Proof.
  intros Hs. unfold detach_pod.
  destruct (on_host (del_pod_host_route _ _ _ _) s) as [[r1 s1]|] eqn:E1; cbn; [|done].
  apply on_host_pools in E1 as (Hp1 & Hs1 & _).
  destruct (on_host (delete_veth _ _ _) s1) as [[r2 s2]|] eqn:E2; cbn; [|done].
  apply on_host_pools in E2 as (Hp2 & Hs2 & _). intros [= <- <-].
  destruct (pool_step_release_ip ip s2) as [-> ->]; [congruence|]. by rewrite Hp2, Hp1.
Qed.

(** The engine with its attached pods, and the addresses of attachments whose
    veth pair could not be created. *)
Record Net := { net_mux : NetMux K; net_pods : list (string * Ipv4Addr); net_leaked : list Ipv4Addr }.

Inductive net_step : Net → Net → Prop :=
  | net_attach s pods lk uid pid ip h p s' :
      attach_pod errno_name transact uid pid None s = Ret (Ok (ip, h, p), s') →
      net_step {| net_mux := s; net_pods := pods; net_leaked := lk |}
               {| net_mux := s'; net_pods := (uid, ip) :: pods; net_leaked := lk |}
  | net_attach_fail s pods lk uid pid e s' :
      attach_pod errno_name transact uid pid None s = Ret (Err e, s') →
      net_step {| net_mux := s; net_pods := pods; net_leaked := lk |}
               {| net_mux := s'; net_pods := pods;
                  net_leaked := if bool_decide (e = "create_pod_veth")
                                then option_list (fst (allocate (pool s))) ++ lk else lk |}
  | net_detach s pods pods' lk uid ip idx r s' :
      pods ≡ₚ (uid, ip) :: pods' → detach_pod errno_name transact uid ip idx s = Ret (r, s') →
      net_step {| net_mux := s; net_pods := pods; net_leaked := lk |}
               {| net_mux := s'; net_pods := pods'; net_leaked := lk |}.

Definition net_inv (u : list Z) (n : Net) : Prop :=
  subnet_pools (net_mux n) = ∅
  ∧ pool_inv {| ps_pool := pool (net_mux n); ps_held := (net_pods n).*2 ++ net_leaked n;
                ps_universe := u |}.

Lemma pool_inv_held p held held' u :
  held ≡ₚ held' →
  pool_inv {| ps_pool := p; ps_held := held; ps_universe := u |} →
  pool_inv {| ps_pool := p; ps_held := held'; ps_universe := u |}.
Proof. intros Hh (H1 & H2 & H3). split; [done|]. split; [|done]. cbn in *. by rewrite <- Hh. Qed.

Lemma net_step_inv u n n' : net_step n n' → net_inv u n → net_inv u n'.
Proof.
  intros Hstep [Hs Hinv]. destruct Hstep as [s pods lk uid pid ip h p s' E|s pods lk uid pid e s' E
    |s pods pods' lk uid ip idx r s' Hp E]; cbn in *.
  - apply attach_pod_spec in E as [Hs' Ea]; [|done]. split; [done|].
    eapply pool_step_inv; [by apply step_allocate|done].
  - apply attach_pod_spec in E as [Hs' Ea]; [|done]. split; [done|]. cbn.
    destruct Ea as [[Ea ->]|(ip & p & Ea & [[-> ->]|[He ->]])].
    + rewrite Ea. cbn. by case_bool_decide.
    + rewrite bool_decide_true, Ea by done. cbn [fst option_list app].
      eapply pool_inv_held; [apply Permutation_middle|].
      eapply pool_step_inv; [by apply step_allocate|done].
    + rewrite bool_decide_false by (destruct He as [-> | ->]; done).
      eapply pool_step_inv; [by apply step_release|].
      eapply pool_step_inv; [by apply step_allocate|done].
  - apply detach_pod_pools in E as (_ & Hrel & ?); [|done]. split; [done|]. cbn. rewrite Hrel.
    eapply pool_step_inv; [|exact Hinv]. apply step_release. by rewrite Hp.
Qed.

(** Pods of the main pool never share an address, whatever the kernel answers
    and in whatever order attachments and detachments happen; no address of a
    running pod is free. *)
Theorem pods_have_distinct_ips c k n :
  cidr_ok c →
  rtc net_step
    {| net_mux := {| pool := pool_new c; subnet_pools := ∅; prefix := Pool.prefix c;
                     gateway := derive_gateway c; host := k |};
       net_pods := []; net_leaked := [] |} n →
  NoDup ((net_pods n).*2 ++ net_leaked n ++ free (pool (net_mux n))).
Proof.
  intros Hc Hr.
  assert (net_inv (free (pool_new c)) n) as [_ (_ & Hp & Hnd & _)].
  { remember {| net_mux := _; net_pods := []; net_leaked := [] |} as n0 eqn:E0.
    assert (net_inv (free (pool_new c)) n0) as H0.
    { subst n0. split; [done|]. apply (pool_init_inv c Hc). }
    clear E0. induction Hr; eauto using net_step_inv. }
  cbn in *. rewrite <- Hp in Hnd. by rewrite app_assoc, (Permutation_app_comm _ (free _)).
Qed.
End attach.

(** Registering a subnet again, as re-applying its manifest does, makes every
    address of it free, those of running pods included. *)
Theorem reregister_frees_held `{HashOrder} {K} name cidr_str c ip (s : NetMux K) :
  cidr_parse cidr_str = Some c → ip ∈ free (pool_new c) →
  ∃ p, subnet_pools (register_subnet_cidr name cidr_str s).2 !! name = Some p ∧ ip ∈ free p.
Proof.
  intros Hc Hip. unfold register_subnet_cidr. rewrite Hc. cbn. rewrite lookup_insert_eq. eauto.
Qed.

(** ** Names *)

(** Interface names fit the kernel's limit of 15 characters. *)
Theorem veth_name_length uid : (String.length (veth_name_from_uid uid) ≤ 13)%nat.
Proof.
  unfold veth_name_from_uid. rewrite <- length_as_bytes, as_bytes_app, length_app, !length_as_bytes.
  unfold uid8. assert (∀ l, String.length (of_chars l) = length l) as ->.
  { induction l; cbn; auto. }
  rewrite length_drop. cbn. lia.
Qed.

(** Only hexadecimal digits of the uid count: pods whose names differ in other
    letters get the same interface name. *)
Theorem veth_name_collision :
  veth_name_from_uid "Pod/default/nginx" = veth_name_from_uid "Pod/default/proxy".
Proof. by vm_compute. Qed.

(** ** What a network security group enforces *)

Section nsg.
Context {net : Type}.
Variable parse_net : string → option net.
(** Membership of an address in a network. *)
Variable in_net : net → Ipv4Addr → bool.
Implicit Types s : NftEngine (list (batch net)).

Abbreviation apply_nsg_r := (apply_nsg (KN := list (batch net)) record_send parse_net).

(** The rules of the chain [nsg-rules] after a sequence of accepted batches:
    deleting the chain removes its rules, adding a rule appends it. *)
Definition chain_step (rules : list (rule_expr net)) (x : nft_obj net * msg_kind)
    : list (rule_expr net) :=
  match x with
  | (OChain t c _, MsgDel) =>
      if bool_decide (t = FILTER_TABLE) && bool_decide (c = "nsg-rules") then [] else rules
  | (ORule t c e, MsgAdd) =>
      if bool_decide (t = FILTER_TABLE) && bool_decide (c = "nsg-rules") then rules ++ [e]
      else rules
  | _ => rules
  end.
Definition chain_rules (log : list (batch net)) : list (rule_expr net) :=
  foldl chain_step [] (concat log).

(** The verdict of the first rule that matches. *)
Definition rule_verdict (src dst : Ipv4Addr) (e : rule_expr net) : option bool :=
  match e with
  | SnetDnet s d accept => if in_net s src && in_net d dst then Some accept else None
  | _ => None
  end.
Definition chain_verdict (src dst : Ipv4Addr) (l : list (rule_expr net)) : option bool :=
  find_map (rule_verdict src dst) l.

(** ** Specification *)

Definition cidr_has (c : string) (ip : Ipv4Addr) : bool :=
  match parse_net c with Some n => in_net n ip | None => false end.

Definition rule_matches (src dst : Ipv4Addr) (r : NsgRule) : bool :=
  (bool_decide (nr_action r = "deny") || bool_decide (nr_action r = "allow"))
  && existsb (λ c, cidr_has c src) (nr_src_cidrs r)
  && existsb (λ c, cidr_has c dst) (nr_dst_cidrs r).

(** The matching rule of lowest priority number, the first of these in the list. *)
Fixpoint best_rule (src dst : Ipv4Addr) (l : list NsgRule) : option NsgRule :=
  match l with
  | [] => None
  | r :: l' =>
      if rule_matches src dst r then
        match best_rule src dst l' with
        | Some r' => if nr_priority r <=? nr_priority r' then Some r else Some r'
        | None => Some r
        end
      else best_rule src dst l'
  end.

(** Allowed when that rule allows; denied without one. *)
Definition nsg_allows (src dst : Ipv4Addr) (l : list NsgRule) : bool :=
  match best_rule src dst l with
  | Some r => bool_decide (nr_action r = "allow")
  | None => false
  end.

(** ** Sorting *)

Abbreviation by_priority := (λ a b : NsgRule, nr_priority a ≤ nr_priority b).

Lemma insert_by_priority_elem r x l : x ∈ insert_by_priority r l ↔ x = r ∨ x ∈ l.
Proof.
  induction l as [|y l IH]; cbn; [set_solver|].
  destruct (nr_priority r <=? nr_priority y); set_solver.
Qed.

Lemma insert_by_priority_sorted r l :
  StronglySorted by_priority l → StronglySorted by_priority (insert_by_priority r l).
Proof.
  induction 1 as [|y l Hs IH Hy]; cbn; [repeat constructor|]. rewrite Forall_forall in Hy.
  destruct (Z.leb_spec (nr_priority r) (nr_priority y)).
  - constructor; [by constructor; [|apply Forall_forall]|]. apply Forall_forall.
    intros z [->|Hz]%elem_of_cons; [done|]. specialize (Hy z Hz). lia.
  - constructor; [done|]. apply Forall_forall.
    intros z [->|Hz]%insert_by_priority_elem; [lia|auto].
Qed.

Lemma find_first_insert (p : NsgRule → bool) r l :
  StronglySorted by_priority l →
  find_first p (insert_by_priority r l)
  = if p r then
      match find_first p l with
      | Some r' => if nr_priority r <=? nr_priority r' then Some r else Some r'
      | None => Some r
      end
    else find_first p l.
Proof.
  unfold find_first. induction 1 as [|y l Hs IH Hy]; cbn; [by destruct (p r)|].
  rewrite Forall_forall in Hy.
  destruct (Z.leb_spec (nr_priority r) (nr_priority y)) as [Hle|Hlt]; cbn.
  - destruct (p r); [|done]. destruct (p y).
    + by rewrite (proj2 (Z.leb_le _ _)).
    + destruct (find_map _ l) as [r'|] eqn:E; [|done].
      apply (find_first_Some p l r') in E as [Hin _]. specialize (Hy r' Hin).
      by rewrite (proj2 (Z.leb_le _ _)) by lia.
  - rewrite IH. destruct (p y); [|done]. destruct (p r); [|done].
    by rewrite (proj2 (Z.leb_gt _ _)).
Qed.

Lemma find_first_sorted src dst l :
  find_first (rule_matches src dst) (sort_by_priority l) = best_rule src dst l
  ∧ StronglySorted by_priority (sort_by_priority l).
Proof.
  induction l as [|r l [IH Hs]]; [split; [done|constructor]|].
  cbn [sort_by_priority foldr best_rule]. split; [|by apply insert_by_priority_sorted].
  fold (sort_by_priority l). rewrite find_first_insert, IH by done. done.
Qed.

(** ** Compilation *)

Definition parses (r : NsgRule) : Prop :=
  Forall (λ c, is_Some (parse_net c)) (nr_src_cidrs r ++ nr_dst_cidrs r).

Definition nsg_rule_batch (n1 n2 : net) (accept : bool) : batch net :=
  [(ORule FILTER_TABLE "nsg-rules" (SnetDnet n1 n2 accept), MsgAdd)].

Lemma add_forward_record accept src dst n1 n2 s :
  parse_net src = Some n1 → parse_net dst = Some n2 →
  add_forward record_send parse_net accept src dst s
  = (Ok (), log_app [nsg_rule_batch n1 n2 accept] s).
Proof.
  intros H1 H2. unfold add_forward, parse_cidr_net, lift_result, mbind, stateR_bind.
  by rewrite H1, H2.
Qed.

(** The compiled pairs of a rule, source by source. *)
Definition rule_batches (accept : bool) (srcs dsts : list string) : list (batch net) :=
  s ← srcs; d ← dsts;
  match parse_net s, parse_net d with
  | Some n1, Some n2 => [nsg_rule_batch n1 n2 accept]
  | _, _ => []
  end.

Lemma for_pairs_record accept srcs dsts s :
  Forall (λ c, is_Some (parse_net c)) (srcs ++ dsts) →
  for_pairs (add_forward record_send parse_net accept) srcs dsts s
  = (Ok (), log_app (rule_batches accept srcs dsts) s).
Proof.
  intros [Hs Hd]%Forall_app. unfold for_pairs. revert s.
  induction Hs as [|c srcs [n1 Hn1] Hs IH]; intros s.
  { change (rule_batches accept [] dsts) with ([] : list (batch net)). by rewrite log_app_nil. }
  cbn [for_each]. unfold mbind, stateR_bind.
  assert (∀ ds s, Forall (λ c, is_Some (parse_net c)) ds →
    for_each (λ dst, add_forward record_send parse_net accept c dst) ds s
    = (Ok (), log_app (rule_batches accept [c] ds) s)) as Hrow.
  { clear - Hn1. intros ds s Hds. revert s.
    induction Hds as [|d ds [n2 Hn2] Hds IHd]; intros s.
    { change (rule_batches accept [c] []) with ([] : list (batch net)). by rewrite log_app_nil. }
    cbn [for_each]. unfold mbind, stateR_bind.
    rewrite (add_forward_record _ _ _ n1 n2) by done.
    rewrite IHd, log_app_app. do 2 f_equal. unfold rule_batches. cbn.
    rewrite Hn1, Hn2. cbn. done. }
  rewrite Hrow by done. rewrite IH, log_app_app. do 2 f_equal.
  unfold rule_batches. cbn. by rewrite app_nil_r.
Qed.

Definition nsg_batches (l : list NsgRule) : list (batch net) :=
  r ← l;
  if bool_decide (nr_action r = "deny") then
    rule_batches false (nr_src_cidrs r) (nr_dst_cidrs r)
  else if bool_decide (nr_action r = "allow") then
    rule_batches true (nr_src_cidrs r) (nr_dst_cidrs r)
  else [].

Lemma for_rules_record l s :
  Forall parses l →
  for_each (apply_nsg_rule record_send parse_net) l s = (Ok (), log_app (nsg_batches l) s).
Proof.
  intros Hl. revert s. induction Hl as [|r l Hr Hl IH]; intros s.
  { change (nsg_batches []) with ([] : list (batch net)). by rewrite log_app_nil. }
  cbn [for_each]. unfold mbind, stateR_bind, apply_nsg_rule, nsg_batches. cbn.
  case_bool_decide; [|case_bool_decide].
  - unfold add_forward_deny. rewrite for_pairs_record, IH, log_app_app by done. done.
  - unfold add_forward_allow. rewrite for_pairs_record, IH, log_app_app by done. done.
  - unfold mret, stateR_ret. by rewrite IH.
Qed.

Lemma chain_step_rules acc l :
  Forall (λ b, ∃ n1 n2 a, b = nsg_rule_batch n1 n2 a) l →
  foldl chain_step acc (concat l)
  = acc ++ (b ← l; match b with [(ORule _ _ e, _)] => [e] | _ => [] end).
Proof.
  intros H. revert acc. induction H as [|b l (n1 & n2 & a & ->) H IH]; intros acc.
  - cbn. by rewrite app_nil_r.
  - trans (foldl chain_step (acc ++ [SnetDnet n1 n2 a]) (concat l)); [done|].
    rewrite IH, <- app_assoc. done.
Qed.

Lemma rule_batches_shape accept srcs dsts :
  Forall (λ b, ∃ n1 n2 a, b = nsg_rule_batch n1 n2 a) (rule_batches accept srcs dsts).
Proof.
  apply Forall_forall. intros b Hb. unfold rule_batches in Hb.
  apply list_elem_of_bind in Hb as (s & Hb & _).
  apply list_elem_of_bind in Hb as (d & Hb & _).
  destruct (parse_net s) as [n1|], (parse_net d) as [n2|]; try by apply elem_of_nil in Hb.
  apply list_elem_of_singleton in Hb. eauto.
Qed.

Lemma nsg_batches_shape l :
  Forall (λ b, ∃ n1 n2 a, b = nsg_rule_batch n1 n2 a) (nsg_batches l).
Proof.
  apply Forall_forall. intros b Hb. unfold nsg_batches in Hb.
  apply list_elem_of_bind in Hb as (r & Hb & _). revert Hb.
  case_bool_decide; [|case_bool_decide]; intros Hb.
  3: by apply elem_of_nil in Hb.
  all: pose proof (rule_batches_shape) as H'; eapply Forall_forall in H'; eauto.
Qed.

Definition batch_rules (l : list (batch net)) : list (rule_expr net) :=
  b ← l; match b with [(ORule _ _ e, _)] => [e] | _ => [] end.

Lemma chain_verdict_app src dst l1 l2 :
  chain_verdict src dst (l1 ++ l2)
  = match chain_verdict src dst l1 with Some v => Some v | None => chain_verdict src dst l2 end.
Proof.
  unfold chain_verdict. induction l1 as [|e l1 IH]; cbn; [done|].
  by destruct (rule_verdict src dst e).
Qed.

Lemma batch_rules_app l1 l2 : batch_rules (l1 ++ l2) = batch_rules l1 ++ batch_rules l2.
Proof. unfold batch_rules. by rewrite bind_app. Qed.

(** A compiled rule decides exactly the packets it matches. *)
Lemma rule_batches_verdict accept srcs dsts src dst :
  chain_verdict src dst (batch_rules (rule_batches accept srcs dsts))
  = if existsb (λ c, cidr_has c src) srcs && existsb (λ c, cidr_has c dst) dsts
    then Some accept else None.
Proof.
  induction srcs as [|c srcs IH]; [done|].
  assert (rule_batches accept (c :: srcs) dsts
          = rule_batches accept [c] dsts ++ rule_batches accept srcs dsts) as ->.
  { unfold rule_batches. cbn. by rewrite app_nil_r. }
  rewrite batch_rules_app, chain_verdict_app, IH.
  assert (chain_verdict src dst (batch_rules (rule_batches accept [c] dsts))
    = if cidr_has c src && existsb (λ c, cidr_has c dst) dsts then Some accept else None) as ->.
  { clear IH. induction dsts as [|d dsts IHd]; [by rewrite andb_false_r|].
    assert (rule_batches accept [c] (d :: dsts)
            = rule_batches accept [c] [d] ++ rule_batches accept [c] dsts) as ->.
    { unfold rule_batches. cbn. by rewrite !app_nil_r. }
    rewrite batch_rules_app, chain_verdict_app, IHd.
    cbn [existsb]. unfold rule_batches, cidr_has. cbn.
    destruct (parse_net c) as [n1|]; cbn; [|done].
    destruct (parse_net d) as [n2|]; cbn; [|done].
    by destruct (in_net n1 src), (in_net n2 dst). }
  cbn [existsb]. by destruct (cidr_has c src), (existsb _ srcs), (existsb _ dsts).
Qed.

Lemma nsg_batches_verdict l src dst :
  chain_verdict src dst (batch_rules (nsg_batches l))
  = (λ r, bool_decide (nr_action r = "allow")) <$> find_first (rule_matches src dst) l.
Proof.
  induction l as [|r l IH]; [done|].
  assert (nsg_batches (r :: l) = nsg_batches [r] ++ nsg_batches l) as ->.
  { unfold nsg_batches. cbn. by rewrite app_nil_r. }
  rewrite batch_rules_app, chain_verdict_app, IH. unfold find_first. cbn [find_map].
  assert (nsg_batches [r] = if bool_decide (nr_action r = "deny") then
    rule_batches false (nr_src_cidrs r) (nr_dst_cidrs r)
  else if bool_decide (nr_action r = "allow") then
    rule_batches true (nr_src_cidrs r) (nr_dst_cidrs r)
  else []) as -> by (unfold nsg_batches; cbn [mbind list_bind]; by rewrite app_nil_r).
  destruct (rule_matches src dst r) eqn:Hm; unfold rule_matches in Hm;
    destruct (decide (nr_action r = "deny")) as [Hd|Hd].
  all: rewrite ?(bool_decide_true (nr_action r = "deny")) in * by done.
  all: rewrite ?(bool_decide_false (nr_action r = "deny")) in * by done.
  all: cbn [orb andb] in Hm.
  - rewrite rule_batches_verdict, Hm. cbn. by rewrite bool_decide_false by congruence.
  - case_bool_decide; [|done]. rewrite rule_batches_verdict. cbn [andb] in Hm. rewrite Hm.
    cbn. by rewrite bool_decide_true.
  - by rewrite rule_batches_verdict, Hm.
  - case_bool_decide; [|done]. rewrite rule_batches_verdict. cbn [andb] in Hm. by rewrite Hm.
Qed.


(** The ports and the protocol of a rule have no effect: the rule applies to all
    traffic between its networks. *)
Definition clear_ports (r : NsgRule) : NsgRule :=
  {| nr_name := nr_name r; nr_action := nr_action r; nr_src_cidrs := nr_src_cidrs r;
     nr_dst_cidrs := nr_dst_cidrs r; nr_ports := []; nr_protocol := "";
     nr_priority := nr_priority r |}.

Lemma insert_clear_ports r l :
  insert_by_priority (clear_ports r) (clear_ports <$> l) = clear_ports <$> insert_by_priority r l.
Proof.
  induction l as [|x l IH]; [done|]. cbn [fmap list_fmap insert_by_priority].
  change (nr_priority (clear_ports r)) with (nr_priority r).
  change (nr_priority (clear_ports x)) with (nr_priority x).
  destruct (nr_priority r <=? nr_priority x); cbn [fmap list_fmap]; [done|]. f_equal. apply IH.
Qed.

Lemma sort_clear_ports l : sort_by_priority (clear_ports <$> l) = clear_ports <$> sort_by_priority l.
Proof.
  induction l as [|r l IH]; [done|].
  change (sort_by_priority (clear_ports <$> r :: l))
    with (insert_by_priority (clear_ports r) (sort_by_priority (clear_ports <$> l))).
  rewrite IH. apply insert_clear_ports.
Qed.

Theorem apply_nsg_ignores_ports g s :
  apply_nsg_r g s
  = apply_nsg_r {| nsg_metadata := nsg_metadata g;
                   nsg_spec := {| ns_target_vnets := [];
                                  ns_rules := clear_ports <$> ns_rules (nsg_spec g) |} |} s.
Proof.
  unfold apply_nsg. cbn [nsg_spec ns_rules].
  rewrite sort_clear_ports.
  unfold mbind, stateR_bind. destruct (reset_nsg_rules record_send s) as [[[]|] s1]; [|done].
  assert (∀ l s, for_each (apply_nsg_rule record_send parse_net) (clear_ports <$> l) s
                 = for_each (apply_nsg_rule record_send parse_net) l s) as ->; [|done].
  intros l. induction l as [|r l IH]; intros s2; cbn; [done|].
  unfold mbind, stateR_bind. change (apply_nsg_rule record_send parse_net (clear_ports r))
    with (apply_nsg_rule (KN := list (batch net)) record_send parse_net r).
  destruct (apply_nsg_rule record_send parse_net r s2) as [[]]; [apply IH|done].
Qed.
End nsg.

(** ** Concrete instances *)

(** A host on which every request succeeds and every interface has index 5. *)
Definition sample_host (b : bytes) (k : unit) : result bytes * unit :=
  (Ok ([24; 0; 0; 0; 16; 0; 0; 0; 1; 0; 0; 0; 0; 0; 0; 0; 0; 0; 0; 0; 5; 0; 0; 0]), k).
Definition sample_errno (z : Z) : string := "E".
Definition sample_cidr : Ipv4Cidr := {| network := 0x0A000000; Pool.prefix := 29 |}.
Definition sample_mux : NetMux unit :=
  {| pool := pool_new sample_cidr; subnet_pools := ∅; prefix := 29;
     gateway := derive_gateway sample_cidr; host := () |}.

Lemma pods_have_distinct_ips_witness :
  ∃ n, rtc (net_step sample_errno sample_host)
         {| net_mux := sample_mux; net_pods := []; net_leaked := [] |} n
  ∧ net_pods n = [("b", 0x0A000003); ("a", 0x0A000002)]
  ∧ NoDup ((net_pods n).*2 ++ net_leaked n ++ free (pool (net_mux n))).
Proof.
  assert (cidr_ok sample_cidr) as Hc by (unfold cidr_ok, block_size; cbn; lia).
  eassert (rtc (net_step sample_errno sample_host)
    {| net_mux := sample_mux; net_pods := []; net_leaked := [] |} _) as Hr.
  { eapply rtc_l. { eapply (net_attach _ _ _ _ _ "a" (Some 7)). vm_compute. reflexivity. }
    eapply rtc_l. { eapply (net_attach _ _ _ _ _ "b" (Some 8)). vm_compute. reflexivity. }
    reflexivity. }
  eexists. split; [exact Hr|]. split; [done|].
  apply (pods_have_distinct_ips sample_errno sample_host sample_cidr () _ Hc Hr).
Defined.

Definition sample_subnets : NetMux unit :=
  set_subnet_pools {[ "s" := pool_new sample_cidr ]} sample_mux.

Lemma release_ip_both_pools_witness :
  0x0A000007 ∈ free (pool (release_ip 0x0A000007 sample_subnets))
  ∧ ∃ p', subnet_pools (release_ip 0x0A000007 sample_subnets) !! "s" = Some p'
          ∧ 0x0A000007 ∈ free p'.
Proof.
  apply (release_ip_both_pools 0x0A000007 "s" (pool_new sample_cidr) sample_subnets).
  - done.
  - by vm_compute.
  - intros n' p' H _. unfold sample_subnets in H. cbn in H.
    by apply lookup_singleton_Some in H as [<- _].
Defined.

Lemma reregister_frees_held_witness :
  ∃ p, subnet_pools (register_subnet_cidr "s" "10.0.0.0/29" sample_subnets).2 !! "s" = Some p
       ∧ 0x0A000002 ∈ free p.
Proof.
  apply (reregister_frees_held "s" "10.0.0.0/29" sample_cidr 0x0A000002 sample_subnets).
  - by vm_compute.
  - by left.
Defined.

(** Networks as blocks, [None] being 0.0.0.0/0. *)
Definition sample_parse (s : string) : option (option Ipv4Cidr) :=
  if bool_decide (s = "0.0.0.0/0") then Some None else Some <$> cidr_parse s.
Definition sample_in (n : option Ipv4Cidr) (ip : Ipv4Addr) : bool :=
  match n with None => true | Some c => cidr_contains c ip end.
Definition sample_rule (a src : string) (p : Z) : NsgRule :=
  {| nr_name := "r"; nr_action := a; nr_src_cidrs := [src]; nr_dst_cidrs := ["0.0.0.0/0"];
     nr_ports := []; nr_protocol := ""; nr_priority := p |}.
Definition sample_nsg : Nsg :=
  {| nsg_metadata := meta_default;
     nsg_spec := {| ns_target_vnets := [];
       ns_rules := [sample_rule "deny" "10.0.0.0/8" 200; sample_rule "allow" "10.1.0.0/16" 100] |} |}.
Definition sample_engine : NftEngine (list (batch (option Ipv4Cidr))) :=
  {| kernel := []; jump_track := []; nodeport_jump_track := [] |}.


Lemma add_dnat_jumps_once_witness :
  jumps (net := unit) "prerouting" (chain_name 1 80)
    (kernel (add_all [(1, 80, [(2, 8080)]); (1, 81, []); (1, 80, [(3, 8080)])]
      {| kernel := []; jump_track := []; nodeport_jump_track := [] |}).2) = 1%nat.
Proof.
  apply (add_dnat_jumps_once [(1, 80, [(2, 8080)]); (1, 81, []); (1, 80, [(3, 8080)])] 1 80).
  - repeat constructor; cbn; lia.
  - by left.
  - done.
  - done.
Defined.
