(* ===== verification/Config.v ===== *)
(** * Config: the command line and cluster IP allocation (src/src/config.rs)

    The parser of the command line as a loop over the arguments (help and
    invalid values end the process), the CIDR parser and the allocation of
    cluster addresses from a global counter, whose value is explicit here. [Globals] has
    the cells that hold the configuration while the program runs. *)
From S2P Require Import Prelude Text Utf8.

Record Config := {
  api_port : Z;
  service_cidr_base : bytes;
  service_cidr_prefix : Z;
  cluster_domain : string;
  dns_port : option Z;
  manifests_dir : string;
  data_dir : option string;
  pod_cidr : string;
  vnet_cidr_size : Z;
  node_name : string;
  node_ip : string;
  peers : list (string * string);
  join_token : option string
}.

(** ** Cluster addresses *)

(** [a.saturating_sub(b)] *)
Definition saturating_sub (a b : Z) : Z := Z.max 0 (a - b).

(** The returned counter is the value after [fetch_add(1)]. *)
Definition alloc_cluster_ip (c : Config) (counter : Z) : string * Z :=
  let host_bits := saturating_sub 32 (service_cidr_prefix c) in
  let max_hosts := saturating_sub (shl32 1 host_bits) 2 in
  let idx := counter `mod` Z.max max_hosts 1 in
  let base := from_be32 (at_byte (service_cidr_base c) 0) (at_byte (service_cidr_base c) 1)
                        (at_byte (service_cidr_base c) 2) (at_byte (service_cidr_base c) 3) in
  (display_ipv4 (Z.lor base idx), u32 (counter + 1)).

(** ** CIDRs *)

Definition parse_cidr (s : string) : option (bytes * Z) :=
  '(ip_str, prefix_str) ← split_once "/" s;
  p ← parse_u8 prefix_str;
  if 32 <? p then None
  else
    parts ← mapM parse_u8 (split_on "." ip_str);
    if negb (length parts =? 4)%nat then None else Some (parts, p).

(** ** The node's address *)

Definition is_loopback (ip : Ipv4Addr) : bool := at_byte (octets ip) 0 =? 127.
Definition is_link_local (ip : Ipv4Addr) : bool :=
  (at_byte (octets ip) 0 =? 169) && (at_byte (octets ip) 1 =? 254).
Definition is_multicast (ip : Ipv4Addr) : bool :=
  (224 <=? at_byte (octets ip) 0) && (at_byte (octets ip) 0 <=? 239).

(** [content] is the text of /proc/self/net/fib_trie, if readable. *)
Definition auto_detect_node_ip (content : option string) : option string :=
  content ← content;
  find_map (λ line,
    rest ← strip_prefix "Local:" (trim_start line);
    ip_str ← head (split_on "/" rest);
    ip ← parse_ipv4addr (trim ip_str);
    if negb (is_loopback ip) && negb (is_link_local ip) && negb (is_multicast ip)
    then Some (display_ipv4 ip) else None) (lines content).

(** ** Command line *)

Section args.
(** HOSTNAME and the text of fib_trie. *)
Variables (hostname_env fib_trie : option string).

Definition config_default : Config := {|
  api_port := 6443; service_cidr_base := [10; 96; 0; 0]; service_cidr_prefix := 16;
  cluster_domain := "cluster.local"; dns_port := None;
  manifests_dir := "/etc/z8s/manifests"; data_dir := None; pod_cidr := "10.100.0.0/16";
  vnet_cidr_size := 20; node_name := unwrap_or hostname_env "node-0";
  node_ip := unwrap_or (auto_detect_node_ip fib_trie) "127.0.0.1";
  peers := []; join_token := None |}.
End args.

(** The process goes on with a configuration, or exits with a status. *)
Inductive parsed :=
  | Parsed (c : Config)
  | Exit (code : Z).

Definition set_api_port v c := {| api_port := v; service_cidr_base := service_cidr_base c;
  service_cidr_prefix := service_cidr_prefix c; cluster_domain := cluster_domain c;
  dns_port := dns_port c; manifests_dir := manifests_dir c; data_dir := data_dir c;
  pod_cidr := pod_cidr c; vnet_cidr_size := vnet_cidr_size c; node_name := node_name c;
  node_ip := node_ip c; peers := peers c; join_token := join_token c |}.
Definition set_service_cidr b p c := {| api_port := api_port c; service_cidr_base := b;
  service_cidr_prefix := p; cluster_domain := cluster_domain c;
  dns_port := dns_port c; manifests_dir := manifests_dir c; data_dir := data_dir c;
  pod_cidr := pod_cidr c; vnet_cidr_size := vnet_cidr_size c; node_name := node_name c;
  node_ip := node_ip c; peers := peers c; join_token := join_token c |}.
Definition set_cluster_domain v c := {| api_port := api_port c;
  service_cidr_base := service_cidr_base c;
  service_cidr_prefix := service_cidr_prefix c; cluster_domain := v;
  dns_port := dns_port c; manifests_dir := manifests_dir c; data_dir := data_dir c;
  pod_cidr := pod_cidr c; vnet_cidr_size := vnet_cidr_size c; node_name := node_name c;
  node_ip := node_ip c; peers := peers c; join_token := join_token c |}.
Definition set_dns_port v c := {| api_port := api_port c;
  service_cidr_base := service_cidr_base c;
  service_cidr_prefix := service_cidr_prefix c; cluster_domain := cluster_domain c;
  dns_port := v; manifests_dir := manifests_dir c; data_dir := data_dir c;
  pod_cidr := pod_cidr c; vnet_cidr_size := vnet_cidr_size c; node_name := node_name c;
  node_ip := node_ip c; peers := peers c; join_token := join_token c |}.
Definition set_manifests_dir v c := {| api_port := api_port c;
  service_cidr_base := service_cidr_base c;
  service_cidr_prefix := service_cidr_prefix c; cluster_domain := cluster_domain c;
  dns_port := dns_port c; manifests_dir := v; data_dir := data_dir c;
  pod_cidr := pod_cidr c; vnet_cidr_size := vnet_cidr_size c; node_name := node_name c;
  node_ip := node_ip c; peers := peers c; join_token := join_token c |}.
Definition set_data_dir v c := {| api_port := api_port c;
  service_cidr_base := service_cidr_base c;
  service_cidr_prefix := service_cidr_prefix c; cluster_domain := cluster_domain c;
  dns_port := dns_port c; manifests_dir := manifests_dir c; data_dir := v;
  pod_cidr := pod_cidr c; vnet_cidr_size := vnet_cidr_size c; node_name := node_name c;
  node_ip := node_ip c; peers := peers c; join_token := join_token c |}.
Definition set_pod_cidr v c := {| api_port := api_port c;
  service_cidr_base := service_cidr_base c;
  service_cidr_prefix := service_cidr_prefix c; cluster_domain := cluster_domain c;
  dns_port := dns_port c; manifests_dir := manifests_dir c; data_dir := data_dir c;
  pod_cidr := v; vnet_cidr_size := vnet_cidr_size c; node_name := node_name c;
  node_ip := node_ip c; peers := peers c; join_token := join_token c |}.
Definition set_vnet_cidr_size v c := {| api_port := api_port c;
  service_cidr_base := service_cidr_base c;
  service_cidr_prefix := service_cidr_prefix c; cluster_domain := cluster_domain c;
  dns_port := dns_port c; manifests_dir := manifests_dir c; data_dir := data_dir c;
  pod_cidr := pod_cidr c; vnet_cidr_size := v; node_name := node_name c;
  node_ip := node_ip c; peers := peers c; join_token := join_token c |}.
Definition set_node_name v c := {| api_port := api_port c;
  service_cidr_base := service_cidr_base c;
  service_cidr_prefix := service_cidr_prefix c; cluster_domain := cluster_domain c;
  dns_port := dns_port c; manifests_dir := manifests_dir c; data_dir := data_dir c;
  pod_cidr := pod_cidr c; vnet_cidr_size := vnet_cidr_size c; node_name := v;
  node_ip := node_ip c; peers := peers c; join_token := join_token c |}.
Definition set_node_ip v c := {| api_port := api_port c;
  service_cidr_base := service_cidr_base c;
  service_cidr_prefix := service_cidr_prefix c; cluster_domain := cluster_domain c;
  dns_port := dns_port c; manifests_dir := manifests_dir c; data_dir := data_dir c;
  pod_cidr := pod_cidr c; vnet_cidr_size := vnet_cidr_size c; node_name := node_name c;
  node_ip := v; peers := peers c; join_token := join_token c |}.
Definition set_peers v c := {| api_port := api_port c;
  service_cidr_base := service_cidr_base c;
  service_cidr_prefix := service_cidr_prefix c; cluster_domain := cluster_domain c;
  dns_port := dns_port c; manifests_dir := manifests_dir c; data_dir := data_dir c;
  pod_cidr := pod_cidr c; vnet_cidr_size := vnet_cidr_size c; node_name := node_name c;
  node_ip := node_ip c; peers := v; join_token := join_token c |}.
Definition set_join_token v c := {| api_port := api_port c;
  service_cidr_base := service_cidr_base c;
  service_cidr_prefix := service_cidr_prefix c; cluster_domain := cluster_domain c;
  dns_port := dns_port c; manifests_dir := manifests_dir c; data_dir := data_dir c;
  pod_cidr := pod_cidr c; vnet_cidr_size := vnet_cidr_size c; node_name := node_name c;
  node_ip := node_ip c; peers := peers c; join_token := v |}.

(** The pairs [name=ip] of a comma-separated list; pieces without [=] are
    skipped. *)
Definition parse_peers (v : string) : list (string * string) :=
  omap (split_once "=") (split_on "," v).

(** The effect of one option with its value. *)
Definition apply_option (opt v : string) (cfg : Config) : parsed :=
  if bool_decide (opt = "--port") then
    match parse_u16 v with Some p => Parsed (set_api_port p cfg) | None => Exit 1 end
  else if bool_decide (opt = "--service-cidr") then
    match parse_cidr v with
    | Some (ip, p) => Parsed (set_service_cidr ip p cfg)
    | None => Exit 1
    end
  else if bool_decide (opt = "--cluster-domain") then
    Parsed (set_cluster_domain (trim_start_matches "." v) cfg)
  else if bool_decide (opt = "--dns-port") then
    match parse_u16 v with Some p => Parsed (set_dns_port (Some p) cfg) | None => Exit 1 end
  else if bool_decide (opt = "--manifests-dir") then Parsed (set_manifests_dir v cfg)
  else if bool_decide (opt = "--data-dir") then Parsed (set_data_dir (Some v) cfg)
  else if bool_decide (opt = "--pod-cidr") then
    if is_some (parse_cidr v) then Parsed (set_pod_cidr v cfg) else Exit 1
  else if bool_decide (opt = "--node-name") then Parsed (set_node_name v cfg)
  else if bool_decide (opt = "--node-ip") then Parsed (set_node_ip v cfg)
  else if bool_decide (opt = "--peers") then
    Parsed (set_peers (peers cfg ++ parse_peers v) cfg)
  else if bool_decide (opt = "--join-token") then Parsed (set_join_token (Some v) cfg)
  else (* --vnet-cidr-size *)
    match parse_u8 v with Some p => Parsed (set_vnet_cidr_size p cfg) | None => Exit 1 end.

Definition options : list string :=
  ["--port"; "--service-cidr"; "--cluster-domain"; "--dns-port"; "--manifests-dir";
   "--data-dir"; "--pod-cidr"; "--node-name"; "--node-ip"; "--peers"; "--join-token";
   "--vnet-cidr-size"].

(** The loop over [args[1..]]: an option without a value is ignored at the end
    of the line. *)
Fixpoint parse_args (cfg : Config) (args : list string) : parsed :=
  match args with
  | [] => Parsed cfg
  | a :: rest =>
      if bool_decide (a = "--help") || bool_decide (a = "-h") then Exit 0
      else if bool_decide (a ∈ options) then
        match rest with
        | [] => Parsed cfg
        | v :: rest' =>
            match apply_option a v cfg with
            | Parsed cfg => parse_args cfg rest'
            | Exit c => Exit c
            end
        end
      else Exit 1
  end.

Definition from_args (hostname_env fib_trie : option string) (args : list string) : parsed :=
  parse_args (config_default hostname_env fib_trie) (drop 1 args).

(** ** Properties *)

Definition u8s (l : bytes) : Prop := length l = 4%nat ∧ Forall (λ b, 0 ≤ b < 256) l.

Lemma parse_u8_range s z : parse_u8 s = Some z → 0 ≤ z < 256.
Proof.
  assert (∀ o, in_range 0 (2 ^ 8 - 1) o = Some z → 0 ≤ z < 256) as H.
  { intros [y|]; cbn; [|done]. destruct (_ && _) eqn:E; [|done]. intros [= ->]. to_prop. lia. }
  unfold parse_u8, parse_unsigned. repeat case_match; apply H.
Qed.

Lemma parse_cidr_ok s b p : parse_cidr s = Some (b, p) → u8s b ∧ 0 ≤ p ≤ 32.
Proof.
  unfold parse_cidr. destruct (split_once "/" s) as [[a q]|]; [|done]. cbn.
  destruct (parse_u8 q) as [p'|] eqn:Ep; [|done]. cbn.
  destruct (Z.ltb_spec 32 p'); [done|].
  destruct (mapM parse_u8 _) as [l|] eqn:El; [|done]. cbn.
  destruct (Nat.eqb_spec (length l) 4); [|done]. cbn. intros [= <- <-].
  apply parse_u8_range in Ep. split; [|lia]. split; [done|].
  apply mapM_Some_1 in El. clear -El. induction El; constructor; [by eapply parse_u8_range|done].
Qed.

(** What the command line may leave in the configuration. *)
Definition config_ok (c : Config) : Prop :=
  0 ≤ api_port c < 65536 ∧ u8s (service_cidr_base c) ∧ 0 ≤ service_cidr_prefix c ≤ 32
  ∧ (∀ p, dns_port c = Some p → 0 ≤ p < 65536) ∧ is_Some (parse_cidr (pod_cidr c))
  ∧ 0 ≤ vnet_cidr_size c < 256.

Lemma parse_u16_range s z : parse_u16 s = Some z → 0 ≤ z < 65536.
Proof.
  assert (∀ o, in_range 0 (2 ^ 16 - 1) o = Some z → 0 ≤ z < 65536) as H.
  { intros [y|]; cbn; [|done]. destruct (_ && _) eqn:E; [|done]. intros [= ->]. to_prop. lia. }
  unfold parse_u16, parse_unsigned. repeat case_match; apply H.
Qed.

Ltac config_done := unfold config_ok in *; cbn; tauto.

Lemma apply_option_ok opt v cfg cfg' :
  config_ok cfg → apply_option opt v cfg = Parsed cfg' → config_ok cfg'.
Proof.
  intros Hc. unfold apply_option.
  repeat (case_bool_decide; [|]); try (intros [= <-]; config_done).
  - destruct (parse_u16 v) eqn:E; [|done]. intros [= <-]. apply parse_u16_range in E. config_done.
  - destruct (parse_cidr v) as [[ip p]|] eqn:E; [|done]. intros [= <-].
    apply parse_cidr_ok in E. config_done.
  - destruct (parse_u16 v) as [q|] eqn:E; [|done]. intros [= <-]. apply parse_u16_range in E.
    assert (∀ p, Some q = Some p → 0 ≤ p < 65536) by (by intros ? [= <-]). config_done.
  - destruct (parse_cidr v) eqn:E; [|done]. intros [= <-].
    assert (is_Some (parse_cidr v)) by (rewrite E; by eexists). config_done.
  - destruct (parse_u8 v) eqn:E; [|done]. intros [= <-]. apply parse_u8_range in E. config_done.
Qed.

Lemma config_default_ok env fib : config_ok (config_default env fib).
Proof.
  unfold config_ok, u8s. cbn. split; [lia|]. split; [split; [done|repeat constructor; lia]|].
  split; [lia|]. split; [done|]. split; [by eexists|lia].
Qed.

(** Whatever the command line, a configuration that is accepted has ports,
    prefixes and CIDRs in range. *)
Theorem from_args_ok env fib args cfg : from_args env fib args = Parsed cfg → config_ok cfg.
Proof.
  unfold from_args. set (c0 := config_default env fib).
  assert (config_ok c0) as Hc.
  { apply config_default_ok. }
  generalize (drop 1 args) as l. intros l. revert Hc. generalize c0. clear c0 args.
  assert (∀ n l c, (length l ≤ n)%nat → config_ok c → parse_args c l = Parsed cfg → config_ok cfg)
    as H; [|by intros c0; apply (H (length l))].
  clear l. intros n. induction n as [|n IH]; intros l c Hl Hc.
  - destruct l; [|cbn in Hl; lia]. by intros [= <-].
  - destruct l as [|a l]; [by intros [= <-]|]. cbn [parse_args].
    destruct (_ || _); [done|]. case_bool_decide; [|done].
    destruct l as [|v l]; [by intros [= <-]|].
    destruct (apply_option a v c) eqn:E; [|done]. cbn in Hl.
    apply IH; [lia|]. by eapply apply_option_ok.
Qed.

Lemma from_args_ok_witness :
  ∃ cfg, from_args None None ["z8s"; "--port"; "7443"; "--pod-cidr"; "10.42.0.0/16"] = Parsed cfg
         ∧ api_port cfg = 7443 ∧ config_ok cfg.
Proof.
  destruct (from_args None None ["z8s"; "--port"; "7443"; "--pod-cidr"; "10.42.0.0/16"])
    as [cfg|] eqn:E; [|by vm_compute in E].
  exists cfg. split; [done|]. split; [by vm_compute in E; simplify_eq|].
  by apply (from_args_ok _ _ _ _ E).
Defined.

(** Distinct counter values of one round give distinct cluster addresses inside
    the service block, when the base is aligned. *)
Lemma lor_aligned base idx p :
  0 ≤ p ≤ 32 → 0 ≤ base → base `mod` 2 ^ (32 - p) = 0 → 0 ≤ idx < 2 ^ (32 - p) →
  Z.lor base idx = base + idx.
Proof.
  intros Hp Hb Hm Hi. pose proof (Z.div_mod base (2 ^ (32 - p))) as Hd.
  assert (0 < 2 ^ (32 - p)) by (apply Z.pow_pos_nonneg; lia).
  rewrite Hm, Z.add_0_r in Hd.
  assert (base = Z.shiftl (base / 2 ^ (32 - p)) (32 - p)) as E.
  { rewrite Z.shiftl_mul_pow2 by lia. lia. }
  rewrite Z.lor_comm, E at 1.
  assert (Z.land idx (Z.shiftl (base / 2 ^ (32 - p)) (32 - p)) = 0) as Hl.
  { apply Z.bits_inj'. intros n Hn. rewrite Z.land_spec, Z.bits_0.
    destruct (Z_lt_le_dec n (32 - p)).
    - rewrite Z.shiftl_spec_low by done. apply andb_false_r.
    - rewrite <- (Z.mod_small idx (2 ^ (32 - p))) by done.
      by rewrite Z.mod_pow2_bits_high by lia. }
  pose proof (Z.add_lor_land idx (Z.shiftl (base / 2 ^ (32 - p)) (32 - p))). lia.
Qed.

Definition service_base (c : Config) : Z :=
  from_be32 (at_byte (service_cidr_base c) 0) (at_byte (service_cidr_base c) 1)
            (at_byte (service_cidr_base c) 2) (at_byte (service_cidr_base c) 3).

(** The hosts of the service block: [2 ^ (32 - prefix) - 2]. *)
Definition service_hosts (c : Config) : Z := 2 ^ (32 - service_cidr_prefix c) - 2.

Lemma alloc_cluster_ip_value c n :
  config_ok c → 1 ≤ service_cidr_prefix c ≤ 30 →
  service_base c `mod` 2 ^ (32 - service_cidr_prefix c) = 0 → 0 ≤ n →
  alloc_cluster_ip c n
  = (display_ipv4 (service_base c + n `mod` service_hosts c), u32 (n + 1))
  ∧ ipv4_ok (service_base c + n `mod` service_hosts c) ∧ 2 ≤ service_hosts c.
Proof.
  intros (_ & [Hl Hb] & _) Hp Ha Hn. set (p := service_cidr_prefix c) in *.
  assert (saturating_sub (shl32 1 (saturating_sub 32 p)) 2 = service_hosts c) as Hmax.
  { unfold service_hosts. fold p. clear - Hp. clearbody p.
    assert (forallb (λ p, saturating_sub (shl32 1 (saturating_sub 32 p)) 2 =? 2 ^ (32 - p) - 2)
              (seqZ 1 30) = true) as H by by vm_compute.
    rewrite forallb_forall in H. apply Z.eqb_eq, H, list_elem_of_In, elem_of_seqZ. lia. }
  assert (2 ≤ service_hosts c) as Hh.
  { unfold service_hosts. fold p.
    assert (2 ^ 2 ≤ 2 ^ (32 - p)) by (apply Z.pow_le_mono_r; lia). lia. }
  assert (0 ≤ service_base c < 2 ^ 32) as Hbase.
  { unfold service_base. destruct (service_cidr_base c) as [|a [|b [|c' [|d [|]]]]]; try done.
    rewrite !Forall_cons in Hb. unfold at_byte, from_be32. cbn. lia. }
  pose proof (Z.mod_pos_bound n (service_hosts c) ltac:(lia)) as Hi.
  assert (2 ^ (32 - p) = service_hosts c + 2) as Hpow by (unfold service_hosts; fold p; lia).
  unfold alloc_cluster_ip. fold p. rewrite Hmax, Z.max_l by lia. fold (service_base c).
  rewrite (lor_aligned _ _ p); [|lia|lia|done|rewrite Hpow; lia].
  split; [done|]. split; [|done]. unfold ipv4_ok.
  pose proof (Z.div_mod (service_base c) (2 ^ (32 - p)) ltac:(lia)) as Hd. rewrite Ha in Hd.
  assert (2 ^ 32 = 2 ^ p * 2 ^ (32 - p)) as Hsplit.
  { rewrite <- Z.pow_add_r by lia. f_equal. lia. }
  set (q := service_base c / 2 ^ (32 - p)) in *. rewrite Hsplit in Hbase.
  assert (q < 2 ^ p) by nia. change 4294967296 with (2 ^ 32). nia.
Qed.

(** Two allocations give the same address exactly when their counters agree
    modulo the number of hosts: the first [2 ^ (32 - prefix) - 2] services have
    distinct addresses, then addresses repeat without a check for use. *)
Theorem alloc_cluster_ip_repeats c n m :
  config_ok c → 1 ≤ service_cidr_prefix c ≤ 30 →
  service_base c `mod` 2 ^ (32 - service_cidr_prefix c) = 0 → 0 ≤ n → 0 ≤ m →
  (alloc_cluster_ip c n).1 = (alloc_cluster_ip c m).1 ↔
  n `mod` service_hosts c = m `mod` service_hosts c.
Proof.
  intros Hc Hp Ha Hn Hm.
  destruct (alloc_cluster_ip_value c n Hc Hp Ha Hn) as (-> & Hon & _).
  destruct (alloc_cluster_ip_value c m Hc Hp Ha Hm) as (-> & Hom & _). cbn [fst].
  split; [|by intros ->]. intros E%(f_equal parse_ipv4addr).
  rewrite !parse_display_ipv4 in E by done. injection E as E. lia.
Qed.

Lemma alloc_cluster_ip_repeats_witness :
  (alloc_cluster_ip (config_default None None) 1).1 = "10.96.0.1"
  ∧ (alloc_cluster_ip (config_default None None) 1).1
    = (alloc_cluster_ip (config_default None None) 65535).1.
Proof.
  split; [by vm_compute|].
  apply (alloc_cluster_ip_repeats (config_default None None) 1 65535).
  - apply config_default_ok.
  - cbn. lia.
  - by vm_compute.
  - lia.
  - lia.
  - by vm_compute.
Defined.

(** Each round starts with the network address of the service block. *)
Theorem alloc_cluster_ip_network_address c k :
  config_ok c → 1 ≤ service_cidr_prefix c ≤ 30 →
  service_base c `mod` 2 ^ (32 - service_cidr_prefix c) = 0 → 0 ≤ k →
  (alloc_cluster_ip c (k * service_hosts c)).1 = display_ipv4 (service_base c).
Proof.
  intros Hc Hp Ha Hk.
  destruct (alloc_cluster_ip_value c 0 Hc Hp Ha) as (_ & _ & Hh); [lia|].
  destruct (alloc_cluster_ip_value c (k * service_hosts c) Hc Hp Ha) as (-> & _ & _); [nia|].
  cbn [fst]. rewrite Z.mod_mul by lia. by rewrite Z.add_0_r.
Qed.

(** ** The cells of the process *)

Module Globals.
(** The [OnceLock]s of the file; a cell that is set stays as it is. *)
Record Cells := { CONFIG : option Config; DNS_PORT : option Z; DNS_SERVER : option string }.

Definition no_cells : Cells := {| CONFIG := None; DNS_PORT := None; DNS_SERVER := None |}.

Section cells.
Variables (hostname_env fib_trie : option string).
Implicit Types c : Cells.

Definition get c : Config * Cells :=
  let cfg := unwrap_or (CONFIG c) (config_default hostname_env fib_trie) in
  (cfg, {| CONFIG := Some cfg; DNS_PORT := DNS_PORT c; DNS_SERVER := DNS_SERVER c |}).

(** [None]: the process ends in [from_args]. *)
Definition init (args : list string) c : option Cells :=
  match from_args hostname_env fib_trie args with
  | Parsed cfg => Some {| CONFIG := Some (unwrap_or (CONFIG c) cfg); DNS_PORT := DNS_PORT c; DNS_SERVER := DNS_SERVER c |}
  | Exit _ => None
  end.

Definition publish_dns_port (port : Z) c : Cells :=
  {| CONFIG := CONFIG c; DNS_PORT := Some (unwrap_or (DNS_PORT c) port); DNS_SERVER := DNS_SERVER c |}.
Definition published_dns_port c : option Z := DNS_PORT c.
Definition set_dns_server (ip : string) c : Cells :=
  {| CONFIG := CONFIG c; DNS_PORT := DNS_PORT c; DNS_SERVER := Some (unwrap_or (DNS_SERVER c) ip) |}.
Definition dns_server c : option string := DNS_SERVER c.

Inductive cells_step : Cells → Cells → Prop :=
  | cell_get c : cells_step c (get c).2
  | cell_init args c c' : init args c = Some c' → cells_step c c'
  | cell_port port c : cells_step c (publish_dns_port port c)
  | cell_server ip c : cells_step c (set_dns_server ip c).

(** What was written stays. *)
Definition cells_le c c' : Prop :=
  (∀ x, CONFIG c = Some x → CONFIG c' = Some x) ∧ (∀ x, DNS_PORT c = Some x → DNS_PORT c' = Some x)
  ∧ (∀ x, DNS_SERVER c = Some x → DNS_SERVER c' = Some x).

#[global] Instance cells_le_preorder : PreOrder cells_le.
Proof. unfold cells_le. split; [intros c; by split_and!|]. intros x y z (? & ? & ?) (? & ? & ?). split_and!; auto. Qed.

Lemma cells_steps_le c c' : rtc cells_step c c' → cells_le c c'.
Proof.
  apply (rtc_ind_l (λ c, cells_le c c')); [done|]. intros c1 c2 H _ IH. etrans; [|exact IH].
  destruct H as [c0|args c0 c2 H|port c0|ip c0]; try (unfold cells_le; by split_and!; cbn; intros ? ->).
  unfold init in H. destruct (from_args _ _ _); [|done]. injection H as <-. unfold cells_le. by split_and!; cbn; intros ? ->.
Qed.

(** When [init] was the first to use the cell, every reader of the configuration sees the one
    of the command line, now and later. *)
Theorem configuration_is_stable args c c1 c2 :
  init args no_cells = Some c → rtc cells_step c c1 → rtc cells_step c1 c2 →
  from_args hostname_env fib_trie args = Parsed (get c1).1 ∧ (get c1).1 = (get c2).1.
Proof.
  unfold init. destruct (from_args _ _ args) as [cfg|] eqn:E; [|done]. intros [= <-] H1%cells_steps_le H2%cells_steps_le.
  pose proof (proj1 H1 _ eq_refl) as E1. pose proof (proj1 H2 _ E1) as E2. unfold get. by rewrite E1, E2.
Qed.

(** A configuration that is read too early is the default one for ever. *)
Theorem early_read_keeps_default args c c1 :
  init args (get no_cells).2 = Some c → rtc cells_step c c1 → (get c1).1 = config_default hostname_env fib_trie.
Proof.
  unfold init. destruct (from_args _ _ args) as [cfg|]; [|done]. intros [= <-] H%cells_steps_le.
  unfold get at 1. by rewrite (proj1 H _ eq_refl).
Qed.
End cells.
End Globals.
