(* ===== verification/Cri.v ===== *)
(** * Cri: what the container runtime is made of

    The data of a pod specification (src/src/cri/spec.rs), cgroups
    (src/src/cri/cgroup.rs), saved image configurations (src/src/cri/oci.rs),
    health probes (src/src/cri/health.rs) and the directories of emptyDir volumes
    (src/src/cri/volumes.rs). The operating system is a state [K] behind the
    interface [FileSystem], whose operations are those of [std::fs]; the network
    side of a probe is a parameter. *)
From S2P Require Import Prelude Text Resources.

(** ** The file system *)

Inductive entry_type := EntryFile | EntryDir | EntrySymlink | EntryOther.

(** An entry of a directory: its name and, when its metadata can be read without
    following links, its type and mode bits. *)
Record DirEntry := { de_name : string; de_meta : option (entry_type * Z) }.

(** [std::fs] on the state of the operating system; a boolean is [is_ok()]. *)
Class FileSystem (K : Type) := {
  create_dir_all : string → K → bool * K;
  fs_write : string → string → K → bool * K;
  read_to_string : string → K → option string;
  fs_exists : string → K → bool;
  symlink_metadata_ok : string → K → bool;
  read_dir : string → K → option (list DirEntry);
  remove_dir : string → K → bool * K;
  remove_dir_all : string → K → bool * K;
  set_permissions : string → Z → K → bool * K
}.

(** [Path::new(p).join(q)] *)
Definition path_join (p q : string) : string :=
  if starts_with "/" q then q
  else if bool_decide (p = "") || is_some (strip_suffix "/" p) then p +:+ q
  else p +:+ "/" +:+ q.

(** ** Pod specifications (spec.rs) *)

Record ResolvedVolume := {
  rv_host_path : string; rv_container_path : string; rv_read_only : bool
}.

Inductive ProbeAction :=
  | Exec (command : option (list string))
  | HTTPGet (host : option string) (path : string) (port : Z) (scheme : option string)
            (headers : list (string * string))
  | TCPSocket (host : option string) (port : Z).

Record ProbeConfig := {
  action : ProbeAction;
  initial_delay_seconds : Z;
  period_seconds : Z;
  timeout_seconds : Z
}.

Record ContainerConfig := {
  cc_container_id : string;
  cc_container_name : string;
  cc_image : string;
  cc_rootfs_path : string;
  cc_is_native : bool;
  cc_entrypoint : string;
  cc_args : list string;
  cc_working_dir : option string;
  cc_env : list (string * string);
  cc_volumes : list ResolvedVolume;
  cc_memory_limit_bytes : option Z;
  cc_memory_low_bytes : option Z;
  cc_cpu_quota : option Z;
  cc_cpu_period : option Z;
  cc_run_as_user : option Z;
  cc_run_as_group : option Z;
  cc_privileged : bool;
  cc_extra_capabilities : list string;
  cc_isolated_net : bool;
  cc_published_ports : gmap Z Z;
  cc_probes : list ProbeConfig
}.

Record ContainerSpec := {
  cs_pod_name : string;
  cs_pod_uid : string;
  cs_namespace : string;
  cs_hostname : string;
  cs_containers : list ContainerConfig;
  cs_cgroup_path : string;
  cs_labels : gmap string string;
  cs_subnet : option string
}.

(** ** Cgroups (cgroup.rs) *)

Definition sanitize_cgroup_name (name : string) : string :=
  replace_char ":" "_" (replace_char "." "_" (replace_char "/" "_" name)).

Definition CGROUP_DIR := "/sys/fs/cgroup".

Record CgroupManager := { base_path : string; enabled : bool }.

Section cgroup.
Context {K : Type} `{FS : FileSystem K}.

Definition write_controllers (subtree : string) (k : K) : K :=
  foldl (λ k ctrl, (fs_write subtree ctrl k).2) k ["+pids"; "+memory"; "+cpu"].

(** [CgroupManager::new] never fails. *)
Definition cgroup_new (k : K) : CgroupManager * K :=
  let base := CGROUP_DIR +:+ "/z8s" in
  if negb (fs_exists CGROUP_DIR k) then ({| base_path := base; enabled := false |}, k)
  else
    let '(ok, k) := create_dir_all base k in
    if ok then ({| base_path := base; enabled := true |},
                write_controllers (base +:+ "/cgroup.subtree_control") k)
    else ({| base_path := base; enabled := false |}, k).

Definition cg_file (m : CgroupManager) (pod_uid file : string) : string :=
  base_path m +:+ "/" +:+ sanitize_cgroup_name pod_uid +:+ "/" +:+ file.

Definition create_pod_cgroup (m : CgroupManager) (pod_uid : string) (k : K)
    : result string * K :=
  if negb (enabled m) then (Ok "", k)
  else
    let cg_path := base_path m +:+ "/" +:+ sanitize_cgroup_name pod_uid in
    let '(ok, k) := create_dir_all cg_path k in
    if ok then (Ok cg_path, (fs_write (cg_path +:+ "/pids.max") "max" k).2)
    else (Ok "", k).

(** [fs::write(path, text).context("Failed to set <file> at <path>")?] *)
Definition write_or_fail (file path text : string) (k : K) : result unit * K :=
  let '(ok, k) := fs_write path text k in
  (if ok then Ok () else Err ("Failed to set " +:+ file +:+ " at " +:+ path), k).

Definition set_memory_limit (m : CgroupManager) (pod_uid : string) (limit_bytes : Z) (k : K)
    : result unit * K :=
  if negb (enabled m) then (Ok (), k)
  else if 0 <? limit_bytes then
    write_or_fail "memory.max" (cg_file m pod_uid "memory.max") (display limit_bytes) k
  else (Ok (), k).

Definition set_cpu_limit (m : CgroupManager) (pod_uid : string) (cpu_quota cpu_period : Z)
    (k : K) : result unit * K :=
  if negb (enabled m) then (Ok (), k)
  else if (0 <? cpu_quota) && (0 <? cpu_period) then
    write_or_fail "cpu.max" (cg_file m pod_uid "cpu.max")
      (display cpu_quota +:+ " " +:+ display cpu_period) k
  else (Ok (), k).

Definition add_pid_to_cgroup (m : CgroupManager) (pod_uid : string) (pid : Z) (k : K)
    : result unit * K :=
  if negb (enabled m) then (Ok (), k)
  else (Ok (), (fs_write (cg_file m pod_uid "cgroup.procs") (display pid) k).2).

Definition remove_cgroup (m : CgroupManager) (pod_uid : string) (k : K) : result unit * K :=
  if negb (enabled m) then (Ok (), k)
  else
    let cg_path := base_path m +:+ "/" +:+ sanitize_cgroup_name pod_uid in
    if negb (fs_exists cg_path k) then (Ok (), k)
    else
      let procs_path := cg_path +:+ "/cgroup.kill" in
      let k := if fs_exists procs_path k then (fs_write procs_path "1" k).2 else k in
      let '(ok, k) := remove_dir cg_path k in
      (if ok then Ok () else Err ("Failed to remove cgroup: " +:+ cg_path), k).

Definition set_memory_low (m : CgroupManager) (pod_uid : string) (limit_bytes : Z) (k : K)
    : result unit * K :=
  if negb (enabled m) then (Ok (), k)
  else if 0 <? limit_bytes then
    write_or_fail "memory.low" (cg_file m pod_uid "memory.low") (display limit_bytes) k
  else (Ok (), k).
End cgroup.

(** ** Saved image configurations (oci.rs) *)

Record SavedImageConfig := {
  entrypoint : option (list string);
  cmd : option (list string);
  image_env : option (list string);
  working_dir : option string
}.

Definition image_config_default : SavedImageConfig :=
  {| entrypoint := None; cmd := None; image_env := None; working_dir := None |}.

Definition OCI_CONFIG_FILE := ".z8s-oci-config.json".

(** [serde_json] on [SavedImageConfig] *)
Class ImageConfigJson := {
  encode_image_config : SavedImageConfig → option string;
  decode_image_config : string → option SavedImageConfig
}.

Definition string_le (a b : string) : Prop := String.leb a b = true.
#[export] Instance string_le_dec : RelDecision string_le := λ a b, decide (String.leb a b = true).

Section oci.
Context {K : Type} `{FS : FileSystem K} `{IJ : ImageConfigJson}.

Definition save_image_config (dir : string) (saved : SavedImageConfig) (k : K) : K :=
  match encode_image_config saved with
  | Some json => (fs_write (path_join dir OCI_CONFIG_FILE) json k).2
  | None => k
  end.

(** A file of the image root that can be run: a link, or a file with an
    execute bit (0o111). *)
Definition root_executable (e : DirEntry) : option string :=
  match de_meta e with
  | Some (EntrySymlink, _) => Some ("/" +:+ de_name e)
  | Some (EntryFile, mode) =>
      if Z.land mode 73 =? 0 then None else Some ("/" +:+ de_name e)
  | _ => None
  end.

Definition entrypoint_only (ep : list string) : SavedImageConfig :=
  {| entrypoint := Some ep; cmd := None; image_env := None; working_dir := None |}.

Definition known_entrypoints : list string :=
  ["docker-entrypoint.sh"; "usr/local/bin/docker-entrypoint.sh";
   "usr/bin/docker-entrypoint.sh"; "entrypoint.sh"; "bin/sh"].

Definition guess_image_config (rootfs_path : string) (k : K) : SavedImageConfig :=
  match find_first (λ rel, symlink_metadata_ok (path_join rootfs_path rel) k) known_entrypoints with
  | Some rel => entrypoint_only ["/" +:+ trim_start_matches "/" rel]
  | None =>
      match read_dir rootfs_path k with
      | Some entries =>
          let exes := merge_sort string_le (omap root_executable entries) in
          if (length exes =? 1)%nat then entrypoint_only exes else image_config_default
      | None => image_config_default
      end
  end.

Definition nonempty_list (o : option (list string)) : bool :=
  match o with Some (_ :: _) => true | _ => false end.

Definition read_image_config (rootfs_path : string) (k : K) : SavedImageConfig :=
  match read_to_string (path_join rootfs_path OCI_CONFIG_FILE) k ≫= decode_image_config with
  | Some cfg =>
      if nonempty_list (entrypoint cfg) || nonempty_list (cmd cfg) then cfg
      else guess_image_config rootfs_path k
  | None => guess_image_config rootfs_path k
  end.
End oci.

(** ** Health probes (health.rs) *)

Inductive HealthStatus := Healthy | Unhealthy | Unknown.

(** [Duration::from_secs(self.timeout_seconds as u64)] *)
Definition timeout (c : ProbeConfig) : Z := u64 (timeout_seconds c).

Definition CRLF : string := of_bytes [13; 10].

Section health.
(** A command run to its end within the timeout (did it succeed; a command that
    cannot be started does not), the first line of the answer to a request sent
    to an address, and whether an address accepts a connection. *)
Variable run_command : list string → Z → option bool.
Variable http_exchange : string → string → Z → option string.
Variable tcp_connect : string → Z → bool.

Definition check_exec (command : list string) (t : Z) : HealthStatus :=
  match command with
  | [] => Unknown
  | _ => match run_command command t with Some true => Healthy | _ => Unhealthy end
  end.

Definition http_request (host path : string) (headers : list (string * string)) : string :=
  let extra_headers :=
    foldl (λ acc h, acc +:+ h.1 +:+ ": " +:+ h.2 +:+ CRLF) "" headers in
  "GET " +:+ path +:+ " HTTP/1.0" +:+ CRLF +:+ "Host: " +:+ host +:+ CRLF
  +:+ "Connection: close" +:+ CRLF +:+ extra_headers +:+ CRLF.

Definition status_code (status_line : string) : Z :=
  unwrap_or (split_whitespace status_line !! 1%nat ≫= parse_u16) 0.

Definition check_http (host : option string) (path : string) (port : Z)
    (headers : list (string * string)) (t : Z) : HealthStatus :=
  let host := unwrap_or host "localhost" in
  match http_exchange (host +:+ ":" +:+ display port) (http_request host path headers) t with
  | Some status_line =>
      let code := status_code status_line in
      if (200 <=? code) && (code <? 400) then Healthy else Unhealthy
  | None => Unhealthy
  end.

Definition check_tcp (host : option string) (port t : Z) : HealthStatus :=
  if tcp_connect (unwrap_or host "localhost" +:+ ":" +:+ display port) t
  then Healthy else Unhealthy.
End health.

(** ** emptyDir volumes (volumes.rs) *)

(** [is_root()] and the [HOME] variable decide the data directory. *)
Definition base_dir (is_root : bool) (home : option string) : string :=
  if is_root then "/var/lib/z8s" else unwrap_or home "/tmp" +:+ "/.local/share/z8s".

Definition is_emptydir_host_path (host_path : string) : bool := contains "/emptydir/" host_path.

Section volumes.
Context {K : Type} `{FS : FileSystem K}.

Definition emptydir_prefix (pod_uid : string) : string := replace_char "/" "_" pod_uid +:+ "-".

Definition cleanup_emptydir (base pod_uid : string) (k : K) : K :=
  let emptydir_base := base +:+ "/emptydir" in
  match read_dir emptydir_base k with
  | None => k
  | Some entries =>
      foldl (λ k e,
        if starts_with (emptydir_prefix pod_uid) (de_name e)
        then (remove_dir_all (path_join emptydir_base (de_name e)) k).2 else k) k entries
  end.
End volumes.

(** ** Cgroup names *)

(** The characters the sanitiser leaves alone, and the separator of uids. *)
Definition cgroup_safe (s : string) : Prop :=
  has_char "." s = false ∧ has_char ":" s = false ∧ has_char "_" s = false.

Lemma replace_char_id c r s : has_char c s = false → replace_char c r s = s.
Proof.
  induction s as [|a s IH]; cbn; [done|]. intros H. to_prop.
  destruct (Ascii.eqb a c); [done|]. by rewrite IH.
Qed.

Lemma has_char_replace c d e s :
  has_char c s = false → c ≠ e → has_char c (replace_char d (String e "") s) = false.
Proof.
  intros H Hne. induction s as [|a s IH]; cbn in *; [done|]. to_prop.
  destruct (Ascii.eqb a d); cbn.
  - rewrite IH by done. rewrite orb_false_r. by apply Ascii.eqb_neq.
  - by rewrite IH, orb_false_r.
Qed.

Lemma sanitize_safe s : cgroup_safe s → sanitize_cgroup_name s = replace_char "/" "_" s.
Proof.
  intros (Hd & Hc & Hu). unfold sanitize_cgroup_name.
  rewrite (replace_char_id "."), (replace_char_id ":"); [done|..]; by apply has_char_replace.
Qed.

Lemma replace_char_inj c e s t :
  has_char e s = false → has_char e t = false →
  replace_char c (String e "") s = replace_char c (String e "") t → s = t.
Proof.
  revert t. induction s as [|a s IH]; intros [|b t]; cbn; try done.
  - by destruct (Ascii.eqb b c).
  - by destruct (Ascii.eqb a c).
  - intros Hs Ht. to_prop.
    destruct (Ascii.eqb_spec a c) as [->|Ha], (Ascii.eqb_spec b c) as [->|Hb]; cbn;
      intros E; injection E.
    + intros E'. by rewrite (IH t).
    + intros _ <-. by rewrite Ascii.eqb_refl in *.
    + intros _ ->. by rewrite Ascii.eqb_refl in *.
    + intros E' ->. by rewrite (IH t).
Qed.

(** Pods whose uids have no dot, colon or underscore get cgroups of their own. *)
Theorem sanitize_cgroup_name_inj u1 u2 :
  cgroup_safe u1 → cgroup_safe u2 →
  sanitize_cgroup_name u1 = sanitize_cgroup_name u2 → u1 = u2.
Proof.
  intros H1 H2. rewrite !sanitize_safe by done.
  apply replace_char_inj; [apply H1|apply H2].
Qed.

(** Other uids can share one: the pods [a.b] and [a_b] of a namespace do. *)
Lemma sanitize_cgroup_name_collides :
  sanitize_cgroup_name "Pod/default/a.b" = sanitize_cgroup_name "Pod/default/a_b".
Proof. done. Qed.

Section cgroup_theorems.
Context {K : Type} `{FS : FileSystem K}.

Lemma create_pod_cgroup_ok m u (k : K) : ∃ p k', create_pod_cgroup m u k = (Ok p, k').
Proof.
  unfold create_pod_cgroup. destruct (enabled m); cbn; [|by eauto].
  destruct (create_dir_all _ k) as [[] k1]; eauto.
Qed.

Lemma add_pid_to_cgroup_ok m u pid (k : K) : ∃ k', add_pid_to_cgroup m u pid k = (Ok (), k').
Proof. unfold add_pid_to_cgroup. destruct (enabled m); cbn; eauto. Qed.
End cgroup_theorems.

(** ** A file system of named files and directories *)

(** A path is mapped to its contents, or to nothing for a directory. *)
Abbreviation Tree := (gmap string (option string)).

Definition child_of (dir p : string) : option string :=
  n ← strip_prefix (dir +:+ "/") p;
  if has_char "/" n || bool_decide (n ∈ [""; "."; ".."]) then None else Some n.

#[export] Instance tree_fs : FileSystem Tree := {|
  create_dir_all p k :=
    match k !! p with Some (Some _) => (false, k) | _ => (true, <[p := None]> k) end;
  fs_write p c k :=
    match k !! p with Some None => (false, k) | _ => (true, <[p := Some c]> k) end;
  read_to_string p k := k !! p ≫= id;
  fs_exists p k := is_some (k !! p);
  symlink_metadata_ok p k := is_some (k !! p);
  read_dir d k :=
    match k !! d with
    | Some None => Some (omap (λ pc : string * option string,
        n ← child_of d pc.1;
        Some {| de_name := n;
                de_meta := Some (if pc.2 then EntryFile else EntryDir, 493) |})
        (map_to_list k))
    | _ => None
    end;
  remove_dir p k := match k !! p with Some None => (true, delete p k) | _ => (false, k) end;
  remove_dir_all p k :=
    (is_some (k !! p),
     filter (λ pc : string * option string,
       pc.1 ≠ p ∧ starts_with (p +:+ "/") pc.1 = false) k);
  set_permissions p _ k := (is_some (k !! p), k)
|}.

(** ** Image configurations survive the round trip *)

Class FileSystemLaws (K : Type) `{FileSystem K} := {
  read_write p c k k' : fs_write p c k = (true, k') → read_to_string p k' = Some c
}.

#[export] Instance tree_fs_laws : FileSystemLaws Tree.
Proof.
  constructor. intros p c k k'. cbn.
  destruct (k !! p) as [[|]|]; intros [= <-]; by rewrite lookup_insert_eq.
Qed.

(** What was saved at pull time is read back, when the encoder is inverted by the
    decoder, the write succeeds and the configuration starts something. *)
Theorem read_save_image_config {K} `{FileSystemLaws K} `{ImageConfigJson} dir cfg json (k k' : K) :
  encode_image_config cfg = Some json → decode_image_config json = Some cfg →
  fs_write (path_join dir OCI_CONFIG_FILE) json k = (true, k') →
  nonempty_list (entrypoint cfg) || nonempty_list (cmd cfg) = true →
  read_image_config dir (save_image_config dir cfg k) = cfg.
Proof.
  intros He Hd Hw Hn. unfold save_image_config. rewrite He, Hw. cbn [snd]. unfold read_image_config.
  rewrite (read_write _ _ _ _ Hw). cbn. by rewrite Hd, Hn.
Qed.

(** ** Cleaning emptyDir volumes *)

(** The directories that [cleanup_emptydir] removes. *)
Definition cleanup_targets (pod_uid : string) (names : list string) : list string :=
  List.filter (starts_with (emptydir_prefix pod_uid)) names.

Lemma replace_char_app c r s t :
  replace_char c r (s +:+ t) = replace_char c r s +:+ replace_char c r t.
Proof.
  induction s as [|a s IH]; cbn; [done|].
  destruct (Ascii.eqb a c); cbn; rewrite IH; [by rewrite string_app_assoc|done].
Qed.

(** The cleanup of a pod removes the directories whose names start with the pod's
    uid and a dash: its own volumes, and also those of every pod of the namespace
    whose name continues with a dash. *)
Theorem cleanup_emptydir_removes {K} `{FileSystem K} base u (k : K) entries :
  read_dir (base +:+ "/emptydir") k = Some entries →
  cleanup_emptydir base u k =
    foldl (λ k n, (remove_dir_all (path_join (base +:+ "/emptydir") n) k).2) k
      (cleanup_targets u (de_name <$> entries))
  ∧ ∀ suffix vol, emptydir_prefix (u +:+ "-" +:+ suffix) +:+ vol ∈ de_name <$> entries →
      emptydir_prefix (u +:+ "-" +:+ suffix) +:+ vol ∈ cleanup_targets u (de_name <$> entries).
Proof.
  intros Hr. split.
  - unfold cleanup_emptydir. rewrite Hr. clear Hr. revert k.
    induction entries as [|e l IH]; intros k; cbn; [done|].
    unfold cleanup_targets in *. destruct (starts_with _ (de_name e)) eqn:E; cbn; by rewrite IH.
  - intros suffix vol Hin. unfold cleanup_targets. apply list_elem_of_In, filter_In.
    split; [by apply list_elem_of_In|]. unfold emptydir_prefix. rewrite !replace_char_app.
    apply starts_with_spec. eexists. rewrite !string_app_assoc. f_equal.
Qed.

(** ** Concrete instances *)

Lemma sanitize_cgroup_name_inj_witness :
  cgroup_safe "Pod/default/web" ∧ "Pod/default/web" = "Pod/default/web".
Proof.
  split; [done|].
  by apply (sanitize_cgroup_name_inj "Pod/default/web" "Pod/default/web").
Defined.

Definition sample_image : SavedImageConfig :=
  {| entrypoint := Some ["/bin/nginx"]; cmd := None; image_env := Some ["A=1"]; working_dir := None |}.
Definition sample_image_json : ImageConfigJson :=
  {| encode_image_config _ := Some "nginx";
     decode_image_config s := if bool_decide (s = "nginx") then Some sample_image else None |}.

Lemma read_save_image_config_witness :
  let IJ := sample_image_json in
  read_image_config "/r" (save_image_config "/r" sample_image (∅ : Tree)) = sample_image.
Proof.
  intros IJ.
  by apply (read_save_image_config "/r" sample_image "nginx" (∅ : Tree)
    {[ "/r/.z8s-oci-config.json" := Some "nginx" ]}).
Defined.

Definition sample_tree : Tree :=
  {[ "/b/emptydir" := None; "/b/emptydir/Pod_default_web-2-data" := None ]}.

(** Cleaning up the pod [web] deletes the volume [data] of the pod [web-2]. *)
Lemma cleanup_emptydir_removes_witness :
  cleanup_emptydir "/b" "Pod/default/web" sample_tree = {[ "/b/emptydir" := None ]}.
Proof.
  destruct (cleanup_emptydir_removes "/b" "Pod/default/web" sample_tree
    [{| de_name := "Pod_default_web-2-data"; de_meta := Some (EntryDir, 493) |}])
    as [-> _]; vm_compute; reflexivity.
Defined.
