(* ===== verification/SpecBuilder.v ===== *)
(** * SpecBuilder: from a pod to a runtime specification
    (src/src/components/compute/spec_builder.rs)

    [build_spec] gathers the config maps, secrets, bound volumes and services of
    the store, and turns every container of a pod into a [ContainerConfig]. It
    writes the directories and files of its volumes, so it threads the file
    system. *)
From S2P Require Import Prelude Text Utf8 Resources Quantity Cri.

Section spec_builder.
Context `{HO : HashOrder} `{UC : UnicodeCase} {K : Type} `{FS : FileSystem K}.

(** ** What the store offers *)

Definition fetch_cms (store : ResourceStore) : gmap (string * string) ConfigMap :=
  collect (omap (λ t, match resource t with
    | RConfigMap cm => Some ((unwrap_or (om_namespace (cm_metadata cm)) "",
                              unwrap_or (om_name (cm_metadata cm)) ""), cm)
    | _ => None
    end) (get_by_kind "ConfigMap" store)).

Definition fetch_secrets (store : ResourceStore) : gmap (string * string) Secret :=
  collect (omap (λ t, match resource t with
    | RSecret sec => Some ((unwrap_or (om_namespace (sec_metadata sec)) "",
                            unwrap_or (om_name (sec_metadata sec)) ""), sec)
    | _ => None
    end) (get_by_kind "Secret" store)).

Definition resolve_env_from (c : Container) (pod : Pod)
    (cms : gmap (string * string) ConfigMap) (secrets : gmap (string * string) Secret)
    : list (string * string) :=
  let ns := unwrap_or (om_namespace (pod_metadata pod)) "default" in
  env_from ← unwrap_or (c_env_from c) [];
  let prefix := unwrap_or (ef_prefix env_from) "" in
  (match ef_config_map_ref env_from ≫= λ n, cms !! (ns, n) with
   | Some cm => (λ '(k, v), (prefix +:+ k, v)) <$> btree_iter (unwrap_or (cm_data cm) ∅)
   | None => []
   end) ++
  (match ef_secret_ref env_from ≫= λ n, secrets !! (ns, n) with
   | Some sec =>
       omap (λ '(k, v), s ← from_utf8 v; Some (prefix +:+ k, s))
         (btree_iter (unwrap_or (sec_data sec) ∅))
       ++ ((λ '(k, v), (prefix +:+ k, v)) <$> btree_iter (unwrap_or (sec_string_data sec) ∅))
   | None => []
   end).

Definition env_key (s : string) : string := replace_char "-" "_" (to_uppercase s).

Definition port_env (prefix : string) (port : ServicePort) : list (string * string) :=
  (prefix +:+ "_SERVICE_PORT", display (sp_port port)) ::
  match sp_name port with
  | Some pname => [(prefix +:+ "_SERVICE_PORT_" +:+ env_key pname, display (sp_port port))]
  | None => []
  end.

Definition service_env (svc : Service) (pod_ns : string) : list (string * string) :=
  if negb (bool_decide (unwrap_or (om_namespace (svc_metadata svc)) "default" = pod_ns)) then []
  else
    let cluster_ip := unwrap_or (s ← svc_spec svc; ss_cluster_ip s) "None" in
    if bool_decide (cluster_ip = "None") || bool_decide (cluster_ip = "") then []
    else
      let prefix := env_key (unwrap_or (om_name (svc_metadata svc)) "") in
      (prefix +:+ "_SERVICE_HOST", cluster_ip) ::
      (port ← unwrap_or (s ← svc_spec svc; ss_ports s) []; port_env prefix port).

Definition resolve_service_env (pod : Pod) (store : ResourceStore) : list (string * string) :=
  let pod_ns := unwrap_or (om_namespace (pod_metadata pod)) "default" in
  t ← get_by_kind "Service" store;
  match resource t with RService svc => service_env svc pod_ns | _ => [] end.

Definition pv_host_path (vol_name : string) (t : ResourceTracker) : option string :=
  match resource t with
  | RPersistentVolume pv =>
      if bool_decide (om_name (pv_metadata pv) = Some vol_name) then
        s ← pv_spec pv; pvs_host_path s
      else None
  | _ => None
  end.

Definition fetch_pvc_hostpaths (store : ResourceStore) (k : K)
    : gmap (string * string) string * K :=
  let pvs := get_by_kind "PersistentVolume" store in
  foldl (λ '(m, k) t,
    match resource t with
    | RPersistentVolumeClaim pvc =>
        match s ← pvc_spec pvc; pcs_volume_name s with
        | None => (m, k)
        | Some vol_name =>
            match find_map (pv_host_path vol_name) pvs with
            | Some path =>
                (<[(unwrap_or (om_namespace (pvc_metadata pvc)) "",
                    unwrap_or (om_name (pvc_metadata pvc)) "") := path]> m,
                 (create_dir_all path k).2)
            | None => (m, k)
            end
        end
    | _ => (m, k)
    end) (∅, k) (get_by_kind "PersistentVolumeClaim" store).

(** ** Limits and probes *)

Definition positive_bytes (q : option Quantity) : option Z :=
  mem ← q; let bytes := parse_quantity_bytes mem in if 0 <? bytes then Some (i64 bytes) else None.

Definition resolve_resource_limits (c : Container)
    : option Z * option Z * option Z * option Z :=
  let limits := unwrap_or (r ← c_resources c; rr_limits r) ∅ in
  let requests := unwrap_or (r ← c_resources c; rr_requests r) ∅ in
  let cpu := parse_quantity_cpu <$> limits !! "cpu" in
  (positive_bytes (limits !! "memory"), positive_bytes (requests !! "memory"),
   fst <$> cpu, snd <$> cpu).

Definition probe_port (p : IntOrString) : Z :=
  match p with IoInt i => u16 i | IoString s => unwrap_or (parse_u16 s) 80 end.

Definition convert_probe (p : Probe) : option ProbeConfig :=
  action ←
    match pr_exec p, pr_http_get p, pr_tcp_socket p with
    | Some command, _, _ => Some (Exec command)
    | None, Some h, _ =>
        Some (HTTPGet (hg_host h) (unwrap_or (hg_path h) "/") (probe_port (hg_port h))
                (hg_scheme h) (unwrap_or (hg_headers h) []))
    | None, None, Some t => Some (TCPSocket (ts_host t) (probe_port (ts_port t)))
    | None, None, None => None
    end;
  Some {| action := action;
          initial_delay_seconds := unwrap_or (pr_initial_delay_seconds p) 0;
          period_seconds := unwrap_or (pr_period_seconds p) 10;
          timeout_seconds := unwrap_or (pr_timeout_seconds p) 1 |}.

(** ** Volumes *)

(** Writing the entries of a map as files; the first failure ends the loop. *)
Fixpoint write_files (dir what : string) (mode : option Z) (l : list (string * string)) (k : K)
    : result unit * K :=
  match l with
  | [] => (Ok (), k)
  | (key, value) :: l' =>
      let '(ok, k) := fs_write (path_join dir key) value k in
      if negb ok then (Err ("Failed to write " +:+ what +:+ " '" +:+ key +:+ "'"), k)
      else
        let k := match mode with
                 | Some m => (set_permissions (path_join dir key) m k).2
                 | None => k
                 end in
        write_files dir what mode l' k
  end.

Definition byte_entries (m : option (gmap string (list Z))) : list (string * string) :=
  (λ '(k, v), (k, of_bytes v)) <$> btree_iter (unwrap_or m ∅).

Definition materialize_configmap (cm : ConfigMap) (dir : string) (k : K) : result unit * K :=
  let '(r, k) := write_files dir "configmap key" None (btree_iter (unwrap_or (cm_data cm) ∅)) k in
  match r with
  | Err e => (Err e, k)
  | Ok _ => write_files dir "configmap binary key" None (byte_entries (cm_binary_data cm)) k
  end.

(** Modes 0o400 = 256 and 0o777 = 511. *)
Definition materialize_secret (sec : Secret) (dir : string) (k : K) : result unit * K :=
  let '(r, k) := write_files dir "secret key" (Some 256) (byte_entries (sec_data sec)) k in
  match r with
  | Err e => (Err e, k)
  | Ok _ =>
      write_files dir "secret string key" (Some 256)
        (btree_iter (unwrap_or (sec_string_data sec) ∅)) k
  end.

Section volume_source.
Variable get_configmap : string → string → option ConfigMap.
Variable get_secret : string → string → option Secret.
Variable get_pvc_hostpath : string → string → option string.

(** A directory created with its contents: its path, or the first error. *)
Definition make_dir (dir what : string) (fill : K → result unit * K) (k : K)
    : result (option string) * K :=
  let '(ok, k) := create_dir_all dir k in
  if negb ok then (Err ("Failed to create " +:+ what +:+ " " +:+ dir), k)
  else
    let '(r, k) := fill k in
    (match r with Ok _ => Ok (Some dir) | Err e => Err e end, k).

Definition emptydir_path (base pod_uid vol_name : string) : string :=
  base +:+ "/emptydir/" +:+ replace_char "/" "_" pod_uid +:+ "-" +:+ vol_name.

Definition resolve_volume_source (vol : Volume) (namespace pod_uid base : string) (k : K)
    : result (option string) * K :=
  let claim k :=
    match v_pvc vol with
    | Some claim_name => (Ok (get_pvc_hostpath namespace claim_name), k)
    | None => (Ok None, k)
    end in
  match v_host_path vol with
  | Some path => make_dir path "hostPath dir" (λ k, (Ok (), k)) k
  | None =>
      if v_empty_dir vol then
        let dir := emptydir_path base pod_uid (v_name vol) in
        make_dir dir "emptydir at" (λ k, (Ok (), (set_permissions dir 511 k).2)) k
      else
        match v_config_map vol, v_secret vol with
        | Some cm_name, _ =>
            let dir := base +:+ "/configmaps/" +:+ namespace +:+ "/" +:+ cm_name in
            make_dir dir "configmap dir" (λ k,
              match get_configmap namespace cm_name with
              | Some cm => materialize_configmap cm dir k
              | None => (Ok (), k)
              end) k
        | None, Some (Some sec_name) =>
            let dir := base +:+ "/secrets/" +:+ namespace +:+ "/" +:+ sec_name in
            make_dir dir "secret dir" (λ k,
              match get_secret namespace sec_name with
              | Some sec => materialize_secret sec dir k
              | None => (Ok (), k)
              end) k
        | None, _ => claim k
        end
  end.

Definition mount_volume (volumes : gmap string Volume) (namespace pod_uid base : string)
    (mount : VolumeMount) (k : K) : option ResolvedVolume * K :=
  match volumes !! vm_name mount with
  | None => (None, k)
  | Some vol =>
      match resolve_volume_source vol namespace pod_uid base k with
      | (Ok (Some host_path), k) =>
          (Some {| rv_host_path := match vm_sub_path mount with
                                   | Some sub => path_join host_path sub
                                   | None => host_path
                                   end;
                   rv_container_path := vm_mount_path mount;
                   rv_read_only := unwrap_or (vm_read_only mount) false |}, k)
      | (_, k) => (None, k)
      end
  end.

(** [prepare_volumes] never fails: a volume that cannot be resolved is left out.
    The mounts are those of the first main container of that name. *)
Definition prepare_volumes (pod : Pod) (container_name pod_uid base : string) (k : K)
    : list ResolvedVolume * K :=
  match pod_spec pod with
  | None => ([], k)
  | Some spec =>
      let namespace := unwrap_or (om_namespace (pod_metadata pod)) "default" in
      let volumes := collect ((λ v, (v_name v, v)) <$> unwrap_or (ps_volumes spec) []) in
      match c ← find_first (λ c, bool_decide (c_name c = container_name)) (ps_containers spec);
            c_volume_mounts c with
      | None => ([], k)
      | Some mounts =>
          foldl (λ '(acc, k) mount,
            let '(o, k) := mount_volume volumes namespace pod_uid base mount k in
            (acc ++ option_list o, k)) ([], k) mounts
      end
  end.
End volume_source.

(** ** One container *)

Definition is_native_image (image : string) : bool :=
  bool_decide (image = "") || bool_decide (image = "host") || starts_with "host://" image.

(** [command] gives the program and its first arguments, [args] follows. *)
Definition merge_command (c : Container) : string * list string :=
  match c_command c with
  | Some (prog :: rest) => (prog, rest ++ unwrap_or (c_args c) [])
  | _ => ("", unwrap_or (c_args c) [])
  end.

Definition sc_field {A} (f : SecurityContext → option A) (c : Container) (pod : option Pod)
    : option A :=
  or_opt (sc ← c_security_context c; f sc)
         (p ← pod; s ← pod_spec p; sc ← ps_security_context s; f sc).

(** What [build_spec] fetched from the store before the loop. *)
Record Fetched := {
  f_cms : gmap (string * string) ConfigMap;
  f_secrets : gmap (string * string) Secret;
  f_hostpaths : gmap (string * string) string;
  f_service_env : list (string * string)
}.

Definition container_env (c : Container) (pod : option Pod) (f : Fetched)
    : list (string * string) :=
  ((λ e, (ev_name e, unwrap_or (ev_value e) "")) <$> unwrap_or (c_env c) []) ++
  match pod with
  | Some pod => resolve_env_from c pod (f_cms f) (f_secrets f) ++ f_service_env f
  | None => []
  end.

Definition container_probes (c : Container) : list ProbeConfig :=
  omap convert_probe
    (omap id [c_liveness_probe c; c_readiness_probe c; c_startup_probe c]).

Definition build_config (pod_name pod_uid base : string) (pod : option Pod) (f : Fetched)
    (c : Container) (k : K) : ContainerConfig * K :=
  let image_ref := unwrap_or (c_image c) "" in
  let is_native := is_native_image image_ref in
  let '(volumes, k) :=
    match pod with
    | Some pod =>
        if negb is_native then
          prepare_volumes (λ ns n, f_cms f !! (ns, n)) (λ ns n, f_secrets f !! (ns, n))
            (λ ns n, f_hostpaths f !! (ns, n)) pod (c_name c) pod_uid base k
        else ([], k)
    | None => ([], k)
    end in
  let '(memory_limit, memory_low, cpu_quota, cpu_period) := resolve_resource_limits c in
  let declared_ports := (λ p, u16 (cp_container_port p)) <$> unwrap_or (c_ports c) [] in
  let '(prog, args) := merge_command c in
  ({| cc_container_id := pod_name +:+ "-" +:+ c_name c;
      cc_container_name := c_name c;
      cc_image := image_ref;
      cc_rootfs_path := "";
      cc_is_native := is_native;
      cc_entrypoint := prog;
      cc_args := args;
      cc_working_dir := c_working_dir c;
      cc_env := container_env c pod f;
      cc_volumes := volumes;
      cc_memory_limit_bytes := memory_limit;
      cc_memory_low_bytes := memory_low;
      cc_cpu_quota := cpu_quota;
      cc_cpu_period := cpu_period;
      cc_run_as_user := u32 <$> sc_field sc_run_as_user c pod;
      cc_run_as_group := u32 <$> sc_field sc_run_as_group c pod;
      cc_privileged := unwrap_or (sc ← c_security_context c; sc_privileged sc) false;
      cc_extra_capabilities :=
        unwrap_or (sc ← c_security_context c; sc_capabilities_add sc) [];
      cc_isolated_net := negb (bool_decide (declared_ports = []));
      cc_published_ports := collect ((λ p, (p, p)) <$> declared_ports);
      cc_probes := container_probes c |}, k).

Fixpoint build_configs (pod_name pod_uid base : string) (pod : option Pod) (f : Fetched)
    (cs : list Container) (k : K) : list ContainerConfig * K :=
  match cs with
  | [] => ([], k)
  | c :: cs' =>
      let '(cfg, k) := build_config pod_name pod_uid base pod f c k in
      let '(cfgs, k) := build_configs pod_name pod_uid base pod f cs' k in
      (cfg :: cfgs, k)
  end.

(** ** The specification of a pod *)

Definition build_spec (base : string) (r : AnyResource) (store : ResourceStore) (k : K)
    : ContainerSpec * K :=
  let pod := match r with RPod p => Some p | _ => None end in
  let '(hostpaths, k) := fetch_pvc_hostpaths store k in
  let f := {| f_cms := fetch_cms store; f_secrets := fetch_secrets store;
              f_hostpaths := hostpaths;
              f_service_env := match pod with
                               | Some p => resolve_service_env p store
                               | None => []
                               end |} in
  let '(configs, k) := build_configs (name r) (uid r) base pod f (extract_containers r) k in
  ({| cs_pod_name := name r;
      cs_pod_uid := uid r;
      cs_namespace := namespace r;
      cs_hostname := name r;
      cs_containers := configs;
      cs_cgroup_path := "";
      cs_labels := unwrap_or (p ← pod; om_labels (pod_metadata p)) ∅;
      cs_subnet := p ← pod; a ← om_annotations (pod_metadata p); a !! "z8s.io/subnet" |}, k).
End spec_builder.

Section spec_theorems.
Context `{HO : HashOrder} `{UC : UnicodeCase} {K : Type} `{FS : FileSystem K}.

(** ** Containers *)

(** What a container and its configuration have in common. *)
Definition config_of (r : AnyResource) (c : Container) (cfg : ContainerConfig) : Prop :=
  cc_container_id cfg = name r +:+ "-" +:+ c_name c
  ∧ cc_container_name cfg = c_name c
  ∧ (cc_entrypoint cfg, cc_args cfg) = merge_command c
  ∧ cc_probes cfg = container_probes c
  ∧ (cc_isolated_net cfg = true ↔ unwrap_or (c_ports c) [] ≠ []).

Lemma build_config_of base r pod f c (k : K) :
  config_of r c (build_config (name r) (uid r) base pod f c k).1.
Proof.
  unfold build_config.
  match goal with |- context [let '(volumes, k0) := ?e in _] => destruct e as [vs k1] end.
  destruct (resolve_resource_limits c) as [[[ml mlo] cq] cp].
  destruct (merge_command c) as [prog args] eqn:Em. cbn.
  repeat split; [done..| |].
  - intros H Hn. rewrite Hn in H. done.
  - intros H. destruct (unwrap_or (c_ports c) []); [done|]. by rewrite bool_decide_false.
Qed.

Lemma build_configs_of base r pod f cs (k : K) :
  Forall2 (config_of r) cs (build_configs (name r) (uid r) base pod f cs k).1.
Proof.
  revert k. induction cs as [|c cs IH]; intros k; cbn; [constructor|].
  pose proof (build_config_of base r pod f c k) as Hc.
  destruct (build_config _ _ _ _ _ c k) as [cfg k1]. specialize (IH k1).
  destruct (build_configs _ _ _ _ _ cs k1) as [cfgs k2]. by constructor.
Qed.

Lemma build_spec_config_of base r store (k : K) :
  Forall2 (config_of r) (extract_containers r) (cs_containers (build_spec base r store k).1).
Proof.
  unfold build_spec. destruct (fetch_pvc_hostpaths store k) as [hostpaths k1].
  match goal with |- context [build_configs _ _ _ ?p ?f ?cs k1] =>
    pose proof (build_configs_of base r p f cs k1) as H;
    destruct (build_configs _ _ _ p f cs k1) as [cfgs k2] end.
  exact H.
Qed.


Lemma build_spec_identity base r store (k : K) :
  cs_pod_name (build_spec base r store k).1 = name r
  ∧ cs_pod_uid (build_spec base r store k).1 = uid r.
Proof.
  unfold build_spec. destruct (fetch_pvc_hostpaths store k) as [hostpaths k1].
  by destruct (build_configs _ _ _ _ _ _ k1) as [cfgs k2].
Qed.

(** ** Volumes *)

Lemma mount_volume_path gc gs gp vs ns u base m (k : K) rv k' :
  mount_volume gc gs gp vs ns u base m k = (Some rv, k') →
  rv_container_path rv = vm_mount_path m
  ∧ rv_read_only rv = unwrap_or (vm_read_only m) false
  ∧ is_Some (vs !! vm_name m).
Proof.
  unfold mount_volume. destruct (vs !! vm_name m) as [vol|]; [|done].
  destruct (resolve_volume_source _ _ _ vol ns u base k) as [[[hp|]|] k1]; try done.
  intros [= <- <-]. cbn. eauto.
Qed.

(** The volumes prepared for a container are mounts of that container, in order
    and at most one per mount, at the paths and with the protection the mounts
    ask for. *)
Theorem prepare_volumes_mounts gc gs gp pod spec c mounts u base (k : K) :
  pod_spec pod = Some spec →
  find_first (λ c', bool_decide (c_name c' = c_name c)) (ps_containers spec) = Some c →
  c_volume_mounts c = Some mounts →
  (λ rv, (rv_container_path rv, rv_read_only rv)) <$>
      (prepare_volumes gc gs gp pod (c_name c) u base k).1
    `sublist_of`
  (λ m, (vm_mount_path m, unwrap_or (vm_read_only m) false)) <$> mounts.
Proof.
  intros Hs Hf Hm. unfold prepare_volumes. rewrite Hs. cbn [mbind option_bind].
  rewrite Hf. cbn [mbind option_bind]. rewrite Hm. clear Hf Hm.
  assert (∀ acc done, 
    (λ rv, (rv_container_path rv, rv_read_only rv)) <$> acc `sublist_of`
      (λ m, (vm_mount_path m, unwrap_or (vm_read_only m) false)) <$> done →
    ∀ k, (λ rv, (rv_container_path rv, rv_read_only rv)) <$>
      (foldl (λ '(acc, k) mount,
         let '(o, k) := mount_volume gc gs gp
           (collect ((λ v, (v_name v, v)) <$> unwrap_or (ps_volumes spec) []))
           (unwrap_or (om_namespace (pod_metadata pod)) "default") u base mount k in
         (acc ++ option_list o, k)) (acc, k) mounts).1 `sublist_of`
      (λ m, (vm_mount_path m, unwrap_or (vm_read_only m) false)) <$> (done ++ mounts)) as H.
  { induction mounts as [|m mounts IH]; intros acc done Hacc k0; cbn [foldl].
    { by rewrite app_nil_r. }
    destruct (mount_volume _ _ _ _ _ _ _ m k0) as [o k1] eqn:E.
    rewrite (cons_middle m done mounts), app_assoc. apply IH. rewrite !fmap_app.
    apply sublist_app; [done|]. destruct o as [rv|]; cbn; [|by apply sublist_nil_l].
    apply mount_volume_path in E as (-> & -> & _). done. }
  apply (H [] []). done.
Qed.

(** An init container gets no volumes: its mounts are looked for among the main
    containers. *)
Theorem init_container_no_volumes gc gs gp pod spec n u base (k : K) :
  pod_spec pod = Some spec → n ∉ c_name <$> ps_containers spec →
  prepare_volumes gc gs gp pod n u base k = ([], k).
Proof.
  intros Hs Hn. unfold prepare_volumes. rewrite Hs.
  destruct (find_first _ (ps_containers spec)) as [c|] eqn:E; [|done].
  apply find_first_Some in E as [Hc E]. apply bool_decide_eq_true in E. subst.
  destruct Hn. by apply list_elem_of_fmap_2.
Qed.

(** ** Service variables *)

Definition visible_service (pod : Pod) (svc : Service) (ip : string) : Prop :=
  unwrap_or (om_namespace (svc_metadata svc)) "default"
    = unwrap_or (om_namespace (pod_metadata pod)) "default"
  ∧ (s ← svc_spec svc; ss_cluster_ip s) = Some ip ∧ ip ≠ "None" ∧ ip ≠ "".

Lemma service_env_visible pod svc ip :
  visible_service pod svc ip →
  service_env svc (unwrap_or (om_namespace (pod_metadata pod)) "default") =
    (env_key (unwrap_or (om_name (svc_metadata svc)) "") +:+ "_SERVICE_HOST", ip) ::
    (port ← unwrap_or (s ← svc_spec svc; ss_ports s) [];
     port_env (env_key (unwrap_or (om_name (svc_metadata svc)) "")) port).
Proof.
  intros (Hns & Hip & H1 & H2). unfold service_env. rewrite Hns, bool_decide_true by done.
  rewrite Hip. cbn [unwrap_or negb]. by rewrite !bool_decide_false.
Qed.

Lemma service_env_hidden svc ns :
  service_env svc ns ≠ [] →
  ∃ ip, (s ← svc_spec svc; ss_cluster_ip s) = Some ip ∧ ip ≠ "None" ∧ ip ≠ ""
    ∧ unwrap_or (om_namespace (svc_metadata svc)) "default" = ns.
Proof.
  unfold service_env. case_bool_decide as Hns; cbn [negb]; [|done].
  destruct (_ ≫= _) as [ip|]; cbn [unwrap_or].
  - case_bool_decide; [done|]. case_bool_decide; [done|]. intros _. by exists ip.
  - by rewrite bool_decide_true.
Qed.

(** The service variables of a pod come from the services of its own namespace
    that have a cluster address, and each such service is announced with its
    address. *)
Theorem resolve_service_env_spec pod store :
  store_wf store →
  (∀ kv, kv ∈ resolve_service_env pod store →
     ∃ svc t ip, t ∈ get_all store ∧ resource t = RService svc ∧ visible_service pod svc ip)
  ∧ (∀ t svc ip, t ∈ get_all store → resource t = RService svc → visible_service pod svc ip →
       (env_key (unwrap_or (om_name (svc_metadata svc)) "") +:+ "_SERVICE_HOST", ip)
         ∈ resolve_service_env pod store).
Proof.
  intros Hwf. unfold resolve_service_env. split.
  - intros kv (t & Hkv & Ht)%list_elem_of_bind.
    destruct (resource t) as [| |svc| | | | | | | | | |] eqn:Er; try by apply not_elem_of_nil in Hkv.
    assert (service_env svc (unwrap_or (om_namespace (pod_metadata pod)) "default") ≠ []) as Hn.
    { intros E. rewrite E in Hkv. by apply not_elem_of_nil in Hkv. }
    apply service_env_hidden in Hn as (ip & Hip & H1 & H2 & Hns).
    exists svc, t, ip. split; [|done].
    unfold get_by_kind in Ht. apply list_elem_of_In, filter_In in Ht as [Ht _].
    by apply list_elem_of_In.
  - intros t svc ip Ht Er Hv. apply list_elem_of_bind. exists t. split.
    + rewrite Er, (service_env_visible _ _ _ Hv). left.
    + unfold get_by_kind. apply list_elem_of_In, filter_In.
      split; [by apply list_elem_of_In|]. by rewrite Er.
Qed.

(** ** Limits *)

(** A memory limit is never zero, and one of 2^63 bytes or more turns negative, so
    that no limit is set for it. *)
Theorem memory_limit_sign c q ml mlo cq cp m u (k : K) :
  resolve_resource_limits c = (ml, mlo, cq, cp) →
  (r ← c_resources c; l ← rr_limits r; l !! "memory") = Some q →
  ml ≠ Some 0
  ∧ (2 ^ 63 ≤ parse_quantity_bytes q < 2 ^ 64 →
       ∃ l, ml = Some l ∧ l < 0 ∧ set_memory_limit m u l k = (Ok (), k)).
Proof.
  unfold resolve_resource_limits. intros [= <- _ _ _] Hq.
  assert ((unwrap_or (r ← c_resources c; rr_limits r) ∅) !! "memory" = Some q) as ->.
  { destruct (c_resources c) as [r|]; cbn in *; [|done]. by destruct (rr_limits r). }
  cbn [positive_bytes mbind option_bind]. unfold positive_bytes. cbn [mbind option_bind].
  split.
  - destruct (Z.ltb_spec 0 (parse_quantity_bytes q)); [|done]. intros [= E].
    unfold i64, swrap in E. change (2 ^ (64 - 1)) with 9223372036854775808 in E.
    change (2 ^ 64) with 18446744073709551616 in E.
    assert ((parse_quantity_bytes q + 9223372036854775808) `mod` 18446744073709551616
      = 9223372036854775808) as E' by lia.
    pose proof (parse_quantity_bytes_range q).
    pose proof (Z.div_mod (parse_quantity_bytes q + 9223372036854775808) 18446744073709551616).
    lia.
  - intros Hr. destruct (Z.ltb_spec 0 (parse_quantity_bytes q)); [|lia].
    eexists. split; [done|].
    assert (i64 (parse_quantity_bytes q) = parse_quantity_bytes q - 2 ^ 64) as E.
    { unfold i64, swrap. rewrite <- (Z.mod_unique _ (2 ^ 64) 1 (parse_quantity_bytes q - 2 ^ 63)); lia. }
    rewrite E. split; [lia|]. unfold set_memory_limit. destruct (enabled m); cbn; [|done].
    destruct (Z.ltb_spec 0 (parse_quantity_bytes q - 2 ^ 64)); [lia|done].
Qed.
End spec_theorems.

(** ** Concrete instances *)

#[local] Instance sample_case : UnicodeCase :=
  {| unicode_lower s := s; unicode_upper s := s |}.

Definition sample_container (n : string) (mounts : option (list VolumeMount)) : Container := {|
  c_name := n; c_image := Some "nginx"; c_command := None; c_args := None;
  c_working_dir := None; c_env := Some [{| ev_name := "A"; ev_value := Some "1" |}];
  c_env_from := None; c_ports := None;
  c_resources := Some {| rr_limits := Some {[ "memory" := "9223372036854775808" ]};
                         rr_requests := None |};
  c_volume_mounts := mounts; c_security_context := None; c_liveness_probe := None;
  c_readiness_probe := None; c_startup_probe := None |}.

Definition sample_mount : VolumeMount :=
  {| vm_name := "data"; vm_mount_path := "/data"; vm_sub_path := None; vm_read_only := Some true |}.

Definition sample_spec : PodSpec := {|
  ps_containers := [sample_container "main" (Some [sample_mount])];
  ps_init_containers := Some [sample_container "setup" (Some [sample_mount])];
  ps_restart_policy := None;
  ps_volumes := Some [{| v_name := "data"; v_host_path := None; v_empty_dir := true;
                         v_config_map := None; v_secret := None; v_pvc := None |}];
  ps_security_context := None |}.

Definition full_pod (n ns : string) : Pod :=
  {| pod_metadata := sample_meta n ns; pod_spec := Some sample_spec |}.

Definition nothing {A} (_ _ : string) : option A := None.

Lemma prepare_volumes_mounts_witness :
  (prepare_volumes nothing nothing nothing (full_pod "web" "x") "main" "Pod/x/web" "/b" (∅ : Tree)).1
    = [{| rv_host_path := "/b/emptydir/Pod_x_web-data"; rv_container_path := "/data";
          rv_read_only := true |}]
  ∧ (λ rv, (rv_container_path rv, rv_read_only rv)) <$>
      (prepare_volumes nothing nothing nothing (full_pod "web" "x") "main" "Pod/x/web" "/b" (∅ : Tree)).1
    `sublist_of` [("/data", true)].
Proof.
  split; [vm_compute; reflexivity|].
  by apply (prepare_volumes_mounts nothing nothing nothing (full_pod "web" "x") sample_spec
    (sample_container "main" (Some [sample_mount])) [sample_mount] "Pod/x/web" "/b" (∅ : Tree)).
Defined.

Lemma init_container_no_volumes_witness :
  prepare_volumes nothing nothing nothing (full_pod "web" "x") "setup" "Pod/x/web" "/b" (∅ : Tree)
    = ([], ∅).
Proof.
  apply (init_container_no_volumes nothing nothing nothing (full_pod "web" "x") sample_spec);
    [done|]. by apply not_elem_of_cons; split; [|apply not_elem_of_nil].
Defined.

Definition sample_service (n ns ip : string) : Service := {|
  svc_metadata := sample_meta n ns;
  svc_spec := Some {| ss_type := None; ss_cluster_ip := Some ip; ss_cluster_ips := None;
                      ss_selector := None; ss_ports := None; ss_external_name := None |};
  svc_has_status := false |}.
Definition service_store : ResourceStore := apply 1 (RService (sample_service "my-db" "x" "10.0.0.1")) ∅.

Lemma resolve_service_env_spec_witness :
  resolve_service_env (full_pod "web" "x") service_store = [("MY_DB_SERVICE_HOST", "10.0.0.1")]
  ∧ ∃ svc t ip, t ∈ get_all service_store ∧ resource t = RService svc
      ∧ visible_service (full_pod "web" "x") svc ip.
Proof.
  assert (resolve_service_env (full_pod "web" "x") service_store
    = [("MY_DB_SERVICE_HOST", "10.0.0.1")]) as E by (vm_compute; reflexivity).
  split; [exact E|].
  apply (proj1 (resolve_service_env_spec (full_pod "web" "x") service_store
    (run_op_wf (OpApply 1 (RService (sample_service "my-db" "x" "10.0.0.1"))) ∅ store_new_wf))
    ("MY_DB_SERVICE_HOST", "10.0.0.1")).
  rewrite E. left.
Defined.

Lemma memory_limit_sign_witness :
  Some (- 2 ^ 63) ≠ Some 0
  ∧ (2 ^ 63 ≤ parse_quantity_bytes "9223372036854775808" < 2 ^ 64 →
       ∃ l, Some (- 2 ^ 63) = Some l ∧ l < 0
         ∧ set_memory_limit {| base_path := "/c"; enabled := true |} "u" l (∅ : Tree) = (Ok (), ∅)).
Proof.
  apply (memory_limit_sign (sample_container "main" None) "9223372036854775808" _ None None None);
    vm_compute; reflexivity.
Defined.
