(* ===== verification/Runtime.v ===== *)
(** * Runtime: the process supervisor (src/src/cri/runtime.rs)

    The supervisor starts and stops the containers of a pod and keeps the map of
    running containers. Its state is that map, the restart counts and the network
    engine, whose host state [K] is the whole operating system: the file system of
    Cri.v and the processes behind the interface [ContainerOS]. Forking, image
    unpacking, rootfs preparation and what the child does before it executes the
    program are behind that interface, and everything the parent decides is here; what
    happens behind it is in Image.v, Volumes.v, Rootfs.v, Child.v and Streams.v. *)
From S2P Require Import Prelude Text Utf8 Resources Pool Netlink NetMux Cri.

(** ** Data *)

Record ContainerInstance := {
  container_id : string;
  container_name : string;
  image : string;
  pid : option Z;
  rootfs : string;
  env_vars : list (string * string);
  published_ports : gmap Z Z;
  isolated_net : bool;
  pod_ip : option Ipv4Addr;
  host_veth_ifindex : option Z
}.

Record RunningContainer := {
  instance : ContainerInstance;
  restart_count : Z;
  log_buffer : list string;
  ready : bool;
  healthy : bool
}.

(** What a forked child is told to become. *)
Record ChildSetup := {
  ch_entrypoint : string; ch_args : list string; ch_env : list (string * string);
  ch_rootfs : string; ch_volumes : list ResolvedVolume; ch_isolate_net : bool;
  ch_hostname : string; ch_user : option Z; ch_group : option Z;
  ch_working_dir : option string; ch_privileged : bool; ch_caps : list string
}.

Inductive signal := SIGTERM | SIGKILL.

Class ContainerOS (K : Type) := {
  unpack_image_os : string → string → K → result string * K;
  prepare_rootfs_os : string → K → result unit * K;
  stage_volumes_os : string → list ResolvedVolume → K → K;
  (** [Command::spawn]: not started, or the pid when it could be read. *)
  spawn_os : string → list string → gmap string string → K → option (option Z) * K;
  create_std_pipes : K → result unit * K;
  fork_os : ChildSetup → K → option Z * K;
  (** Did the child report that its namespaces are set up? *)
  child_synced : Z → K → bool;
  write_userns_maps : Z → option Z → option Z → K → result unit * K;
  (** A negative pid addresses the process group. *)
  kill : Z → signal → K → K;
  pid_alive : Z → K → bool
}.

(** ** Command lines and environments *)

(** The program and arguments of a container without a [command]. *)
Definition image_command (oci : SavedImageConfig) (prog : string) (args : list string)
    : string * list string :=
  let oci_ep := entrypoint oci ≫= head in
  let oci_cmd := unwrap_or (cmd oci) [] in
  match oci_ep, oci_cmd, args with
  | Some ep, _, [] => (ep, oci_cmd)
  | Some ep, _, _ => (ep, args)
  | None, prog :: rest, _ => (prog, rest)
  | None, [], prog :: rest => (prog, rest)
  | None, [], [] => (prog, args)
  end.

Definition container_command (cfg : ContainerConfig) (oci : SavedImageConfig)
    : string * list string :=
  if bool_decide (cc_entrypoint cfg = "")
  then image_command oci (cc_entrypoint cfg) (cc_args cfg)
  else (cc_entrypoint cfg, cc_args cfg).

(** The first binding of a name wins: [seen.insert(k)] is false afterwards. *)
Fixpoint dedup_env (seen : gset string) (l : list (string * string))
    : list (string * string) * gset string :=
  match l with
  | [] => ([], seen)
  | (k, v) :: l' =>
      if bool_decide (k ∈ seen) then dedup_env seen l'
      else let '(r, seen) := dedup_env ({[k]} ∪ seen) l' in ((k, v) :: r, seen)
  end.

Definition merge_env (vars : list (string * string)) (oci_env : list string)
    : list (string * string) :=
  let '(own, seen) := dedup_env ∅ vars in
  own ++ (dedup_env seen (omap (split_once "=") oci_env)).1.

(** The host name given to the child. *)
Definition pod_hostname (cid : string) : string :=
  match rsplit_once "-" cid with Some (pod, _) => pod | None => cid end.

(** ** Logs *)

Definition push_log (line : string) (log : list string) : list string :=
  let log := log ++ [line] in
  if bool_decide (1000 < length log)%nat then drop 1 log else log.

(** ** The probe task *)

(** Before the next configuration, or in the loop of one. *)
Inductive ProbeTask :=
  | NextConfig (rest : list ProbeConfig)
  | InLoop (config : ProbeConfig) (rest : list ProbeConfig)
  | ProbesDone.

Record ProbeState := { task : ProbeTask; p_ready : bool; p_healthy : bool }.

Definition spawn_probes (probes : list ProbeConfig) : ProbeState :=
  {| task := if bool_decide (length probes = 0)%nat then ProbesDone else NextConfig probes;
     p_ready := true; p_healthy := true |}.

(** The host port of a probe's port, where one is published. *)
Definition probe_target (port_map : gmap Z Z) (a : ProbeAction) : ProbeAction :=
  match a with
  | Exec c => Exec c
  | HTTPGet h p port s hs => HTTPGet h p (unwrap_or (port_map !! port) port) s hs
  | TCPSocket h port => TCPSocket h (unwrap_or (port_map !! port) port)
  end.

(** One iteration; [check] is the outcome of the check at this moment. *)
Definition probe_step (port_map : gmap Z Z) (check : ProbeAction → Z → HealthStatus)
    (s : ProbeState) : ProbeState :=
  match task s with
  | NextConfig [] => {| task := ProbesDone; p_ready := p_ready s; p_healthy := p_healthy s |}
  | NextConfig (config :: rest) =>
      {| task := InLoop config rest; p_ready := p_ready s; p_healthy := p_healthy s |}
  | InLoop config rest =>
      let ok := match check (probe_target port_map (action config)) (timeout config) with
                | Healthy => true | _ => false end in
      {| task := InLoop config rest; p_ready := ok; p_healthy := ok |}
  | ProbesDone => s
  end.

(** ** The supervisor *)

Section supervisor.
Context `{HO : HashOrder} {K : Type} `{FS : FileSystem K} `{IJ : ImageConfigJson}
        `{OS : ContainerOS K}.
Variable errno_name : Z → string.
Variable transact : bytes → K → result bytes * K.
Variable open_netns : Z → K → bool.
Variable set_netns : Z → K → bool * K.
(** The cgroup manager, the data directory and whether the user is root. *)
Variable cg : CgroupManager.
Variable base : string.
Variable is_root : bool.

Record Supervisor := {
  running : gmap string RunningContainer;
  restart_counts : gmap string Z;
  netmux : NetMux K
}.

Definition set_running (r : gmap string RunningContainer) (s : Supervisor) : Supervisor :=
  {| running := r; restart_counts := restart_counts s; netmux := netmux s |}.
Definition set_restart_counts (c : gmap string Z) (s : Supervisor) : Supervisor :=
  {| running := running s; restart_counts := c; netmux := netmux s |}.
Definition set_netmux (m : NetMux K) (s : Supervisor) : Supervisor :=
  {| running := running s; restart_counts := restart_counts s; netmux := m |}.
Definition os (s : Supervisor) : K := host (netmux s).
Definition set_os (k : K) (s : Supervisor) : Supervisor := set_netmux (set_host k (netmux s)) s.

Abbreviation sup := (execR Supervisor).

Definition on_os {A} (f : K → A * K) : sup A := λ s,
  let '(a, k) := f (os s) in Ret (Ok a, set_os k s).
Definition on_os_r {A} (f : K → result A * K) : sup A := λ s,
  let '(r, k) := f (os s) in Ret (r, set_os k s).
Definition on_mux {A} (f : NetMux K → exec (result A * NetMux K)) : sup A := λ s,
  '(r, m) ← f (netmux s); Ret (r, set_netmux m s).

Definition build_container_instance (cid cname img : string) (p : Z) (rootfs_path : string)
    (env : list (string * string)) (isolate : bool) (ip : option Ipv4Addr)
    (ifindex : option Z) : ContainerInstance :=
  {| container_id := cid; container_name := cname; image := img; pid := Some p;
     rootfs := rootfs_path; env_vars := env; published_ports := ∅;
     isolated_net := isolate; pod_ip := ip; host_veth_ifindex := ifindex |}.

Definition build_running_from_instance (i : ContainerInstance) (log : list string)
    (probes : list ProbeConfig) : RunningContainer :=
  let p := spawn_probes probes in
  {| instance := i; restart_count := 0; log_buffer := log; ready := p_ready p;
     healthy := p_healthy p |}.

(** ** Spawning *)

(** A pod's addresses: [attach_pod], then the pod's side of the pair, whose
    failure is only logged. *)
Definition attach_and_configure (pod_uid : string) (p : Z) (subnet : option string)
    : sup (option Ipv4Addr * option Z) :=
  r ← x_try (on_mux (attach_pod errno_name transact pod_uid (Some p) subnet));
  match r with
  | Ok (ip, host_idx, peer_idx) =>
      _ ← x_try (on_mux (λ m,
            on_host (configure_pod_netns errno_name transact open_netns set_netns
                       (gateway m) pod_uid ip p peer_idx) m));
      mret (Some ip, Some host_idx)
  | Err _ => mret (None, None)
  end.

Definition handle_veth_netns (pod_uid : string) (p : Z) (isolate : bool)
    (subnet : option string) : sup (option Ipv4Addr * option Z) :=
  if negb isolate then mret (None, None)
  else
    s ← x_get;
    if child_synced p (os s) then attach_and_configure pod_uid p subnet
    else mret (None, None).

Definition child_setup (cfg : ContainerConfig) (prog : string) (args : list string)
    (env : list (string * string)) (rootfs_path : string) (wd : option string) : ChildSetup :=
  {| ch_entrypoint := prog; ch_args := args; ch_env := env; ch_rootfs := rootfs_path;
     ch_volumes := cc_volumes cfg; ch_isolate_net := cc_isolated_net cfg;
     ch_hostname := pod_hostname (cc_container_id cfg);
     ch_user := cc_run_as_user cfg; ch_group := cc_run_as_group cfg;
     ch_working_dir := wd; ch_privileged := cc_privileged cfg;
     ch_caps := cc_extra_capabilities cfg |}.

Definition spawn_root_ns_container (cfg : ContainerConfig) (prog : string)
    (args : list string) (wd : option string) (rootfs_path pod_uid : string)
    (subnet : option string) : sup RunningContainer :=
  _ ← on_os_r create_std_pipes;
  s ← x_get;
  let env := merge_env (cc_env cfg)
               (unwrap_or (image_env (read_image_config rootfs_path (os s))) []) in
  o ← on_os (fork_os (child_setup cfg prog args env rootfs_path wd));
  match o with
  | None => x_fail "Failed to fork"
  | Some p =>
      _ ← on_os_r (add_pid_to_cgroup cg pod_uid p);
      '(ip, ifindex) ← handle_veth_netns pod_uid p (cc_isolated_net cfg) subnet;
      mret (build_running_from_instance
        (build_container_instance (cc_container_id cfg) (cc_container_name cfg)
           (cc_image cfg) p rootfs_path env (cc_isolated_net cfg) ip ifindex)
        [] (cc_probes cfg))
  end.

Definition spawn_userns_container (cfg : ContainerConfig) (prog : string)
    (args : list string) (wd : option string) (rootfs_path pod_uid : string)
    (subnet : option string) : sup RunningContainer :=
  _ ← on_os_r create_std_pipes;
  s ← x_get;
  let env := merge_env (cc_env cfg)
               (unwrap_or (image_env (read_image_config rootfs_path (os s))) []) in
  o ← on_os (fork_os (child_setup cfg prog args env rootfs_path wd));
  match o with
  | None => x_fail "Failed to fork"
  | Some p =>
      s ← x_get;
      if negb (child_synced p (os s)) then
        x_fail "Child process died before completing namespace setup"
      else
        _ ← on_os_r (write_userns_maps p (cc_run_as_user cfg) (cc_run_as_group cfg));
        '(ip, ifindex) ←
          (if cc_isolated_net cfg then attach_and_configure pod_uid p subnet
           else mret (None, None));
        _ ← on_os_r (add_pid_to_cgroup cg pod_uid p);
        mret (build_running_from_instance
          (build_container_instance (cc_container_id cfg) (cc_container_name cfg)
             (cc_image cfg) p rootfs_path env (cc_isolated_net cfg) ip ifindex)
          [] (cc_probes cfg))
  end.

(** A native process: [Command::envs] keeps the last binding of a name. *)
Definition spawn_native (cfg : ContainerConfig) (prog : string) (args : list string)
    (rootfs_path pod_uid : string) : sup RunningContainer :=
  o ← on_os (spawn_os prog args (collect (cc_env cfg)));
  match o with
  | None => x_fail "Failed to spawn container process"
  | Some None => x_fail "Child process exited before PID was read"
  | Some (Some p) =>
      _ ← on_os_r (add_pid_to_cgroup cg pod_uid p);
      mret (build_running_from_instance
        (build_container_instance (cc_container_id cfg) (cc_container_name cfg)
           (cc_image cfg) p rootfs_path (cc_env cfg) (cc_isolated_net cfg) None None)
        [] (cc_probes cfg))
  end.

Definition spawn_container_from_config (cfg : ContainerConfig) (rootfs_path pod_uid : string)
    (subnet : option string) : sup RunningContainer :=
  s ← x_get;
  let oci :=
    if bool_decide (cc_entrypoint cfg = "") || negb (is_some (cc_working_dir cfg))
    then read_image_config rootfs_path (os s) else image_config_default in
  let wd := or_opt (cc_working_dir cfg) (working_dir oci) in
  let '(prog, args) := container_command cfg oci in
  if cc_is_native cfg then spawn_native cfg prog args rootfs_path pod_uid
  else
    _ ← (match cc_volumes cfg with
         | [] => mret ()
         | vs => on_os (λ k, ((), stage_volumes_os rootfs_path vs k))
         end);
    _ ← on_os_r (prepare_rootfs_os rootfs_path);
    if is_root then spawn_root_ns_container cfg prog args wd rootfs_path pod_uid subnet
    else spawn_userns_container cfg prog args wd rootfs_path pod_uid subnet.

(** ** Starting a pod *)

Definition check_duplicate_start (pod_name : string) (s : Supervisor) : bool :=
  existsb (starts_with (pod_name +:+ "-")) (hash_keys (running s)).

Definition placeholder (cfg : ContainerConfig) : RunningContainer :=
  {| instance :=
       {| container_id := cc_container_id cfg; container_name := cc_container_name cfg;
          image := cc_image cfg; pid := None; rootfs := ""; env_vars := [];
          published_ports := ∅; isolated_net := false; pod_ip := None;
          host_veth_ifindex := None |};
     restart_count := 0; log_buffer := []; ready := false; healthy := true |}.

Definition insert_placeholders (spec : ContainerSpec) (s : Supervisor) : Supervisor :=
  set_running
    (foldl (λ r cfg,
       if is_some (r !! cc_container_id cfg) then r
       else <[cc_container_id cfg := placeholder cfg]> r)
     (running s) (cs_containers spec)) s.

Definition remove_placeholders (placeholders : list string) (s : Supervisor) : Supervisor :=
  set_running (foldl (λ r cid, delete cid r) (running s) placeholders) s.

Definition apply_container_limits (pod_uid : string) (cfg : ContainerConfig) (k : K) : K :=
  let k := match cc_memory_limit_bytes cfg with
           | Some limit => if 0 <? limit then (set_memory_limit cg pod_uid limit k).2 else k
           | None => k
           end in
  let k := match cc_memory_low_bytes cfg with
           | Some low => if 0 <? low then (set_memory_low cg pod_uid low k).2 else k
           | None => k
           end in
  match cc_cpu_quota cfg, cc_cpu_period cfg with
  | Some quota, Some period =>
      if (0 <? quota) && (0 <? period) then (set_cpu_limit cg pod_uid quota period k).2 else k
  | _, _ => k
  end.

Definition apply_resource_limits (pod_uid : string) (spec : ContainerSpec) (k : K) : K :=
  foldl (λ k cfg, apply_container_limits pod_uid cfg k) k (cs_containers spec).

Definition prepare_rootfs (cfg : ContainerConfig) : sup string :=
  if cc_is_native cfg then mret ""
  else x_context ("Failed to prepare image " +:+ cc_image cfg +:+ " for " +:+ cc_container_name cfg)
         (on_os_r (unpack_image_os (cc_image cfg) (cc_container_id cfg))).

Definition cleanup_orphan_containers (prepared : list (string * RunningContainer)) (k : K) : K :=
  foldl (λ k p, match pid (instance p.2) with Some n => kill (i32 n) SIGTERM k | None => k end)
    k prepared.

Fixpoint spawn_all_loop (spec : ContainerSpec) (placeholders : list string)
    (cfgs : list ContainerConfig) (prepared : list (string * RunningContainer))
    : sup (list (string * RunningContainer)) :=
  match cfgs with
  | [] => mret prepared
  | cfg :: cfgs' =>
      rootfs_path ← prepare_rootfs cfg;
      r ← x_try (spawn_container_from_config cfg rootfs_path (cs_pod_uid spec) (cs_subnet spec));
      match r with
      | Ok rc => spawn_all_loop spec placeholders cfgs' (prepared ++ [(cc_container_id cfg, rc)])
      | Err _ =>
          _ ← x_modify (remove_placeholders placeholders);
          _ ← on_os (λ k, ((), cleanup_orphan_containers prepared k));
          x_fail ("Failed to spawn container " +:+ cs_pod_name spec +:+ "/" +:+ cc_container_name cfg)
      end
  end.

Definition spawn_all_containers (spec : ContainerSpec) (placeholders : list string)
    : sup (list (string * RunningContainer)) :=
  spawn_all_loop spec placeholders (cs_containers spec) [].

Definition start_pod_from_spec (spec : ContainerSpec) : sup unit :=
  _ ← on_os (λ k, ((), cleanup_emptydir base (cs_pod_uid spec) k));
  s ← x_get;
  if check_duplicate_start (cs_pod_name spec) s then mret ()
  else
    let placeholders := cc_container_id <$> cs_containers spec in
    _ ← x_modify (insert_placeholders spec);
    r ← x_try (on_os_r (create_pod_cgroup cg (cs_pod_uid spec)));
    match r with
    | Err e =>
        _ ← x_modify (remove_placeholders placeholders);
        x_fail e
    | Ok _ =>
        _ ← on_os (λ k, ((), apply_resource_limits (cs_pod_uid spec) spec k));
        prepared ← spawn_all_containers spec placeholders;
        x_modify (λ s, set_running (foldl (λ r p, <[p.1 := p.2]> r) (running s) prepared) s)
    end.

(** ** Stopping *)

Definition stop_container (cid : string) (s : Supervisor) : Supervisor :=
  match running s !! cid with
  | None => s
  | Some rc =>
      let s := set_running (delete cid (running s)) s in
      match pid (instance rc) with
      | None => s
      | Some p =>
          set_os (kill (i32 p) SIGKILL (kill (- i32 p) SIGKILL (kill (- i32 p) SIGTERM (os s)))) s
      end
  end.

Definition detach_container (pod_uid : string) (cid : string) : sup unit :=
  s ← x_get;
  match running s !! cid with
  | Some rc =>
      match pod_ip (instance rc), host_veth_ifindex (instance rc) with
      | Some ip, Some ifindex =>
          _ ← x_try (on_mux (detach_pod errno_name transact pod_uid ip ifindex)); mret ()
      | _, _ => mret ()
      end
  | None => mret ()
  end.

Fixpoint stop_containers (pod_uid : string) (cids : list string) : sup unit :=
  match cids with
  | [] => mret ()
  | cid :: cids' =>
      _ ← detach_container pod_uid cid;
      _ ← x_modify (stop_container cid);
      _ ← x_modify (λ s, set_restart_counts (delete cid (restart_counts s)) s);
      stop_containers pod_uid cids'
  end.

Definition stop_pod_from_spec (spec : ContainerSpec) : sup unit :=
  _ ← stop_containers (cs_pod_uid spec) (cc_container_id <$> cs_containers spec);
  _ ← x_try (on_os_r (remove_cgroup cg (cs_pod_uid spec)));
  on_os (λ k, ((), cleanup_emptydir base (cs_pod_uid spec) k)).

(** ** Questions about pods *)

Definition of_pod (pod_name : string) (p : string * RunningContainer) : bool :=
  starts_with (pod_name +:+ "-") p.1.

Definition is_pod_alive (pod_name : string) (s : Supervisor) : bool :=
  existsb (λ p, of_pod pod_name p &&
    match pid (instance p.2) with Some n => pid_alive n (os s) | None => false end)
    (hash_iter (running s)).

Definition is_pod_ready (pod_name : string) (s : Supervisor) : bool :=
  is_pod_alive pod_name s &&
  existsb (λ p, of_pod pod_name p && ready p.2) (hash_iter (running s)).

Definition backend_connect_port (pod_name : string) (container_port : Z) (s : Supervisor) : Z :=
  match find_first (of_pod pod_name) (hash_iter (running s)) with
  | Some (_, rc) =>
      if isolated_net (instance rc)
      then unwrap_or (published_ports (instance rc) !! container_port) container_port
      else container_port
  | None => container_port
  end.

Definition get_container_logs (pod_name cname : string) (s : Supervisor) : list string :=
  match running s !! (pod_name +:+ "-" +:+ cname) with
  | Some rc => log_buffer rc
  | None => []
  end.

Definition pod_restart_counts (pod_name : string) (s : Supervisor) : gmap string Z :=
  let prefix := pod_name +:+ "-" in
  collect ((λ '(k, v), (unwrap_or (strip_prefix prefix k) k, v)) <$>
    List.filter (λ p, starts_with prefix p.1) (hash_iter (restart_counts s))).
End supervisor.

#[global] Arguments Supervisor : clear implicits.

(** ** Environments *)

(** The value a list of bindings gives to a name. *)
Definition env_get (k : string) (l : list (string * string)) : option string :=
  snd <$> find_first (λ p, bool_decide (p.1 = k)) l.
#[global] Arguments env_get : simpl never.

Lemma env_get_cons k p l :
  env_get k (p :: l) = if bool_decide (p.1 = k) then Some p.2 else env_get k l.
Proof. unfold env_get, find_first. cbn. by case_bool_decide. Qed.

Lemma env_get_app k l1 l2 : env_get k (l1 ++ l2) = or_opt (env_get k l1) (env_get k l2).
Proof.
  induction l1 as [|p l1 IH]; [done|]. cbn [app]. rewrite !env_get_cons, IH.
  by case_bool_decide.
Qed.

Lemma env_get_None k l : env_get k l = None ↔ k ∉ l.*1.
Proof.
  induction l as [|p l IH]; [split; [intros _; apply not_elem_of_nil|done]|].
  rewrite env_get_cons, fmap_cons, not_elem_of_cons. case_bool_decide; naive_solver.
Qed.

Lemma dedup_env_spec seen l :
  let '(r, seen') := dedup_env seen l in
  seen' = seen ∪ list_to_set l.*1 ∧ NoDup r.*1 ∧ (∀ k, k ∈ r.*1 → k ∉ seen)
  ∧ ∀ k, env_get k r = if bool_decide (k ∈ seen) then None else env_get k l.
Proof.
  revert seen. induction l as [|[k v] l IH]; intros seen; cbn [dedup_env].
  { cbn. split; [set_solver|]. split; [constructor|]. split; [set_solver|].
    intros k. by case_bool_decide. }
  case_bool_decide as Hk.
  - specialize (IH seen). destruct (dedup_env seen l) as [r seen'].
    destruct IH as (-> & H1 & H2 & H3). cbn. split; [set_solver|]. split; [done|]. split; [done|].
    intros k'. rewrite H3, env_get_cons. cbn. case_bool_decide as Hk'; [done|].
    by rewrite bool_decide_false by congruence.
  - specialize (IH ({[k]} ∪ seen)). destruct (dedup_env ({[k]} ∪ seen) l) as [r seen'].
    destruct IH as (-> & H1 & H2 & H3). cbn. split; [set_solver|].
    split; [apply NoDup_cons; split; [|done]; intros Hin; specialize (H2 k Hin); set_solver|].
    split; [intros k' [->|Hin]%elem_of_cons; [done|]; specialize (H2 k' Hin); set_solver|].
    intros k'. rewrite !env_get_cons. cbn. case_bool_decide as E; subst.
    + by rewrite bool_decide_false.
    + rewrite H3. do 2 case_bool_decide; set_solver.
Qed.

(** The environment of a container binds every name once: to its first value in
    the pod's list, or else to its first value in the image. *)
Theorem merge_env_spec vars oci_env :
  NoDup (merge_env vars oci_env).*1
  ∧ ∀ k, env_get k (merge_env vars oci_env)
         = or_opt (env_get k vars) (env_get k (omap (split_once "=") oci_env)).
Proof.
  unfold merge_env. pose proof (dedup_env_spec ∅ vars) as H1.
  destruct (dedup_env ∅ vars) as [own seen]. destruct H1 as (-> & Hnd & _ & Hget).
  set (oci := omap (split_once "=") oci_env).
  pose proof (dedup_env_spec (∅ ∪ list_to_set vars.*1) oci) as H2.
  destruct (dedup_env _ oci) as [r seen']. destruct H2 as (_ & Hnd2 & Hdisj & Hget2). cbn [fst].
  assert (∀ k, env_get k own = env_get k vars) as Ho.
  { intros k. rewrite Hget. by rewrite bool_decide_false by set_solver. }
  split.
  - rewrite fmap_app. apply NoDup_app. split; [done|]. split; [|done].
    intros k Hk Hr. apply Hdisj in Hr. apply Hr.
    assert (k ∈ vars.*1) as Hin; [|set_solver].
    destruct (decide (k ∈ vars.*1)) as [|Hn]; [done|]. apply env_get_None in Hn.
    rewrite <- Ho in Hn. by apply env_get_None in Hn.
  - intros k. rewrite env_get_app, Ho, Hget2.
    destruct (env_get k vars) eqn:E; [done|]. cbn. apply env_get_None in E.
    rewrite bool_decide_false by set_solver. done.
Qed.

Lemma collect_snoc {A B} `{Countable A} (l : list (A * B)) p :
  collect (l ++ [p]) = <[p.1 := p.2]> (collect l).
Proof. unfold collect. by rewrite foldl_app. Qed.

(** A native process sees the last value of a name instead. *)
Theorem native_env_last vars k :
  (collect vars : gmap string string) !! k = env_get k (reverse vars).
Proof.
  induction vars as [|[k' v] l IH] using rev_ind; [done|].
  rewrite collect_snoc, reverse_snoc, env_get_cons, lookup_insert. cbn.
  case_decide; [by rewrite bool_decide_true|by rewrite bool_decide_false].
Qed.

(** ** Command lines *)

(** What the container starts when its pod gives no [command]: the image's
    entrypoint, followed by the pod's arguments or else the image's. *)
Definition k8s_command (ep cm args : list string) : list string :=
  match args with [] => ep ++ cm | _ => ep ++ args end.

(** The code follows that rule exactly for the images whose entrypoint has at most
    one element and, when it has none but the image has a command, for the pods
    that give no arguments of their own. *)
Theorem image_command_k8s oci args :
  let ep := unwrap_or (entrypoint oci) [] in
  let cm := unwrap_or (cmd oci) [] in
  k8s_command ep cm args ≠ [] →
  (image_command oci "" args).1 :: (image_command oci "" args).2 = k8s_command ep cm args
  ↔ (length ep ≤ 1)%nat ∧ (ep = [] → cm ≠ [] → args = [] ∨ args = cm).
Proof.
  intros ep cm. unfold image_command, k8s_command. fold cm.
  assert (entrypoint oci ≫= head = head ep) as ->.
  { unfold ep. by destruct (entrypoint oci). }
  clearbody ep cm. destruct ep as [|e [|e2 ep]], cm as [|c cm], args as [|a args]; cbn; intros Hne.
  all: split; [intros E|intros [Hl Hc]]; try done; try lia.
  all: try (split; [lia|naive_solver]).
  { symmetry. destruct (Hc eq_refl ltac:(done)) as [|]; done. }
  all: exfalso; apply (f_equal length) in E; revert E; cbn; rewrite ?length_app; cbn; lia.
Qed.

(** An image that starts nothing by entrypoint but has a command ignores the
    arguments of the pod. *)
Lemma image_command_ignores_args c cm args ie wd :
  image_command {| entrypoint := None; cmd := Some (c :: cm); image_env := ie; working_dir := wd |}
    "" args = (c, cm).
Proof. done. Qed.

(** The host name of a container is its pod's name when the container's name has
    no dash. *)
Theorem pod_hostname_spec pod c :
  has_char "-" c = false → pod_hostname (pod +:+ "-" +:+ c) = pod.
Proof.
  intros Hc. unfold pod_hostname. change ("-" +:+ c) with (String "-" c).
  by rewrite (rsplit_once_app "-" pod c Hc).
Qed.

(** ** Logs *)

(** The log buffer holds the last thousand lines. *)
Theorem push_log_last lines :
  foldl (λ log line, push_log line log) [] lines = drop (length lines - 1000) lines.
Proof.
  induction lines as [|x l IH] using rev_ind; [done|].
  rewrite foldl_app. cbn [foldl]. rewrite IH. unfold push_log.
  rewrite !length_app, length_drop. cbn [length].
  case_bool_decide as H.
  - rewrite drop_app_le by (rewrite length_drop; lia). rewrite drop_drop.
    rewrite drop_app_le by lia. f_equal. f_equal. lia.
  - rewrite !(proj2 (Nat.sub_0_le _ _)) by lia. done.
Qed.

(** ** Probes *)

Definition probe_run (port_map : gmap Z Z) (checks : list (ProbeAction → Z → HealthStatus))
    (s : ProbeState) : ProbeState :=
  foldl (λ s check, probe_step port_map check s) s checks.

Definition is_healthy (h : HealthStatus) : bool := match h with Healthy => true | _ => false end.

(** Only the first probe of a container ever runs: after the first step its loop is
    never left, and readiness is the outcome of its last check. *)
Theorem only_first_probe_runs port_map c rest check0 checks :
  let s := probe_run port_map (check0 :: checks) (spawn_probes (c :: rest)) in
  task s = InLoop c rest
  ∧ p_ready s = match last checks with
                | Some check => is_healthy (check (probe_target port_map (action c)) (timeout c))
                | None => true
                end.
Proof.
  cbn zeta. unfold probe_run. cbn [foldl].
  set (s0 := probe_step port_map check0 (spawn_probes (c :: rest))).
  assert (task s0 = InLoop c rest ∧ p_ready s0 = true) as [Ht Hr] by done. clearbody s0.
  induction checks as [|check checks IH] using rev_ind; [by cbn; rewrite Hr|].
  rewrite foldl_app. cbn [foldl]. rewrite last_snoc. destruct IH as [Ht' _].
  unfold probe_step at 1 3. rewrite Ht'. done.
Qed.

(** ** Starting and stopping pods *)

Section supervisor_theorems.
Context `{HO : HashOrder} {K : Type} `{FS : FileSystem K} `{IJ : ImageConfigJson}
        `{OS : ContainerOS K}.
Variable errno_name : Z → string.
Variable transact : bytes → K → result bytes * K.
Variable open_netns : Z → K → bool.
Variable set_netns : Z → K → bool * K.
Variable cg : CgroupManager.
Variable base : string.
Variable is_root : bool.
Implicit Types s : Supervisor K.

Abbreviation start_pod_from_spec :=
  (start_pod_from_spec errno_name transact open_netns set_netns cg base is_root).
Abbreviation spawn_container_from_config :=
  (spawn_container_from_config errno_name transact open_netns set_netns cg is_root).
Abbreviation spawn_all_loop :=
  (spawn_all_loop errno_name transact open_netns set_netns cg is_root).
Abbreviation stop_pod_from_spec := (stop_pod_from_spec errno_name transact cg base).
Abbreviation stop_containers := (stop_containers errno_name transact).

(** The operations on the operating system leave the maps alone. *)
Definition same_maps s s' : Prop :=
  running s' = running s ∧ restart_counts s' = restart_counts s.

#[local] Instance same_maps_preorder : PreOrder same_maps.
Proof.
  split; [by intros s|]. intros s1 s2 s3 [H1 H2] [H3 H4]. split; congruence.
Qed.

Lemma sm_on_os {A} (f : K → A * K) : x_triple same_maps (on_os f) (λ _, True).
Proof. intros s r s'. unfold on_os. destruct (f (os s)). by intros [= <- <-]. Qed.

Lemma sm_on_os_r {A} (f : K → result A * K) : x_triple same_maps (on_os_r f) (λ _, True).
Proof. intros s r s'. unfold on_os_r. destruct (f (os s)). by intros [= <- <-]. Qed.

Lemma sm_on_mux {A} (f : NetMux K → exec (result A * NetMux K)) :
  x_triple same_maps (on_mux f) (λ _, True).
Proof.
  intros s r s'. unfold on_mux. destruct (f (netmux s)) as [[r0 m]|]; [|done].
  by intros [= <- <-].
Qed.

Lemma sm_attach u p sn :
  x_triple same_maps
    (attach_and_configure errno_name transact open_netns set_netns u p sn) (λ _, True).
Proof.
  unfold attach_and_configure. apply xt_seq; [apply _|eapply xt_try; [apply _|apply sm_on_mux]|].
  intros [[[ip h] pi]|]; [|by apply xt_ret; [apply _|]].
  apply xt_seq; [apply _|eapply xt_try; [apply _|apply sm_on_mux]|]. intros _. by apply xt_ret; [apply _|].
Qed.

(** A container that runs: it has a process, and publishes no port. *)
Definition started (cfg : ContainerConfig) (rc : RunningContainer) : Prop :=
  container_id (instance rc) = cc_container_id cfg
  ∧ is_Some (pid (instance rc)) ∧ published_ports (instance rc) = ∅ ∧ ready rc = true.

Lemma started_build cfg p r env i ip h log :
  started cfg (build_running_from_instance
    (build_container_instance (cc_container_id cfg) (cc_container_name cfg) (cc_image cfg)
       p r env i ip h) log (cc_probes cfg)).
Proof. by repeat split. Qed.

Ltac sm_step :=
  lazymatch goal with
  | |- x_triple _ (mret _) _ => apply xt_ret; [apply _|try done; try apply started_build]
  | |- x_triple _ (x_fail _) _ => apply xt_fail; apply _
  | |- x_triple _ x_get _ => apply xt_get; apply _
  | |- x_triple _ (on_os _) _ => apply sm_on_os
  | |- x_triple _ (on_os_r _) _ => apply sm_on_os_r
  | |- x_triple _ (attach_and_configure _ _ _ _ _ _ _) _ => apply sm_attach
  | |- x_triple _ (if ?b then _ else _) _ => destruct b
  | |- x_triple _ (match ?o with _ => _ end) _ => destruct o
  | |- x_triple _ (let '(_, _) := ?p in _) _ => destruct p
  | |- x_triple _ (_ ≫= _) _ => apply xt_seq; [apply _| |intros ?]
  end.

Lemma sm_root cfg prog args wd r u sn :
  x_triple same_maps
    (spawn_root_ns_container errno_name transact open_netns set_netns cg cfg prog args wd r u sn)
    (started cfg).
Proof. unfold spawn_root_ns_container, handle_veth_netns. repeat sm_step. Qed.

Lemma sm_userns cfg prog args wd r u sn :
  x_triple same_maps
    (spawn_userns_container errno_name transact open_netns set_netns cg cfg prog args wd r u sn)
    (started cfg).
Proof. unfold spawn_userns_container. repeat sm_step. Qed.

Lemma sm_native cfg prog args r u :
  x_triple same_maps (spawn_native cg cfg prog args r u) (started cfg).
Proof. unfold spawn_native. repeat sm_step. Qed.

Lemma sm_spawn cfg r u sn :
  x_triple same_maps (spawn_container_from_config cfg r u sn) (started cfg).
Proof.
  unfold Runtime.spawn_container_from_config. sm_step; [sm_step|].
  destruct (container_command cfg _) as [prog args]. sm_step; [apply sm_native|].
  do 2 (sm_step; [repeat sm_step|]). sm_step; [apply sm_root|apply sm_userns].
Qed.

Lemma sm_prepare cfg : x_triple same_maps (prepare_rootfs cfg) (λ _, True).
Proof. unfold prepare_rootfs. sm_step; [sm_step|]. eapply xt_context; [apply _|apply sm_on_os_r]. Qed.

Lemma on_os_unit f s r s' :
  on_os (λ k, ((), f k)) s = Ret (r, s') → r = Ok () ∧ s' = set_os (f (os s)) s.
Proof. unfold on_os. by intros [= <- <-]. Qed.

Lemma check_duplicate_false pod s :
  check_duplicate_start pod s = false ↔
  ∀ cid, is_Some (running s !! cid) → starts_with (pod +:+ "-") cid = false.
Proof.
  unfold check_duplicate_start. rewrite <- not_true_iff_false, existsb_exists. split.
  - intros Hn cid Hc. apply not_true_iff_false. intros Hs. apply Hn. exists cid.
    split; [by apply list_elem_of_In, elem_of_hash_keys|done].
  - intros Hf (cid & Hin & Hs). apply list_elem_of_In, elem_of_hash_keys in Hin.
    by rewrite Hf in Hs.
Qed.

Definition prepare_msg (cfg : ContainerConfig) : string :=
  "Failed to prepare image " +:+ cc_image cfg +:+ " for " +:+ cc_container_name cfg.
Definition spawn_msg (spec : ContainerSpec) (cfg : ContainerConfig) : string :=
  "Failed to spawn container " +:+ cs_pod_name spec +:+ "/" +:+ cc_container_name cfg.

Lemma prepare_rootfs_err cfg s e s' :
  prepare_rootfs cfg s = Ret (Err e, s') → e = prepare_msg cfg.
Proof.
  unfold prepare_rootfs. destruct (cc_is_native cfg); [done|].
  unfold x_context, on_os_r. destruct (unpack_image_os _ _ (os s)) as [[a|] k]; by intros [= <- <-].
Qed.

Lemma spawn_all_loop_spec spec ph cfgs prep s r s' :
  spawn_all_loop spec ph cfgs prep s = Ret (r, s') →
  restart_counts s' = restart_counts s ∧
  match r with
  | Ok prep' => running s' = running s
      ∧ ∃ l, prep' = prep ++ l
          ∧ Forall2 (λ cfg p, p.1 = cc_container_id cfg ∧ started cfg p.2) cfgs l
  | Err e => ∃ cfg, cfg ∈ cfgs ∧
      (e = prepare_msg cfg ∧ running s' = running s
       ∨ e = spawn_msg spec cfg ∧ running s' = running (remove_placeholders ph s))
  end.
Proof.
  revert prep s. induction cfgs as [|cfg cfgs IH]; intros prep s H.
  { injection H as <- <-. split; [done|]. split; [done|]. exists []. by rewrite app_nil_r. }
  cbn [Runtime.spawn_all_loop] in H.
  apply x_bind_Ret in H as [(e & H & ->)|(rp & s1 & H1 & H)].
  { destruct (sm_prepare cfg _ _ _ H) as [[Hr Hc] _]. split; [done|]. exists cfg.
    split; [left|]. left. split; [by eapply prepare_rootfs_err|done]. }
  destruct (sm_prepare cfg _ _ _ H1) as [[Hr1 Hc1] _].
  apply x_bind_Ret in H as [(e & H & _)|(r2 & s2 & H2 & H)].
  { unfold x_try in H. by destruct (spawn_container_from_config _ _ _ _ s1) as [[]|]. }
  unfold x_try in H2.
  destruct (spawn_container_from_config _ _ _ _ s1) as [[r2' s2']|] eqn:E; [|done].
  injection H2 as -> ->. destruct (sm_spawn _ _ _ _ _ _ _ E) as [[Hr2 Hc2] Hst].
  destruct r2 as [rc|e2].
  - apply IH in H as [Hc H]. split; [congruence|]. destruct r as [prep'|e].
    + destruct H as (Hr & l & -> & Hl). split; [congruence|].
      exists ((cc_container_id cfg, rc) :: l). rewrite <- app_assoc. split; [done|].
      constructor; [|done]. split; [done|]. by apply Hst.
    + destruct H as (cfg' & Hin & H). exists cfg'. split; [by right|].
      destruct H as [[-> H]|[-> H]]; [left|right]; (split; [done|]).
      * congruence.
      * rewrite H. unfold remove_placeholders. cbn. by rewrite Hr2, Hr1.
  - apply x_bind_Ret in H as [(e & H & _)|([] & s3 & H3 & H)]; [done|].
    injection H3 as <-.
    apply x_bind_Ret in H as [(e & H & _)|(u & s4 & H4 & H)];
      [by apply on_os_unit in H as [? _]|].
    apply on_os_unit in H4 as [_ ->]. injection H as <- <-. cbn.
    split; [congruence|]. exists cfg. split; [left|]. right. split; [done|].
    by rewrite Hr2, Hr1.
Qed.

Definition container_ids (spec : ContainerSpec) : list string :=
  cc_container_id <$> cs_containers spec.

(** The ids that [build_spec] gives. *)
Definition ids_of_pod (spec : ContainerSpec) : Prop :=
  Forall (λ cid, starts_with (cs_pod_name spec +:+ "-") cid = true) (container_ids spec).

Lemma insert_placeholders_other spec s cid :
  cid ∉ container_ids spec → running (insert_placeholders spec s) !! cid = running s !! cid.
Proof.
  unfold insert_placeholders, container_ids. cbn. generalize (running s).
  induction (cs_containers spec) as [|cfg l IH]; intros m Hn; cbn in *; [done|].
  apply not_elem_of_cons in Hn as [Hc Hn]. rewrite IH by done.
  destruct (is_some (m !! cc_container_id cfg)); [done|]. by rewrite lookup_insert_ne.
Qed.

Lemma insert_placeholders_elem spec s cid :
  running s !! cid = None → cid ∈ container_ids spec →
  ∃ rc, running (insert_placeholders spec s) !! cid = Some rc ∧ pid (instance rc) = None.
Proof.
  unfold insert_placeholders, container_ids. cbn. generalize (running s).
  assert (∀ l (m : gmap string RunningContainer) rc,
    m !! cid = Some rc → pid (instance rc) = None →
    ∃ rc', foldl (λ r cfg,
       if is_some (r !! cc_container_id cfg) then r
       else <[cc_container_id cfg := placeholder cfg]> r) m l !! cid = Some rc'
      ∧ pid (instance rc') = None) as Hkeep.
  { induction l as [|cfg l IH]; intros m rc Hm Hp; cbn; [by eexists|].
    destruct (decide (cc_container_id cfg = cid)) as [->|Hne].
    - rewrite Hm. cbn. by eapply IH.
    - destruct (is_some _); eapply IH; [done|done| |done]. by rewrite lookup_insert_ne. }
  induction (cs_containers spec) as [|cfg l IH]; intros m Hm; cbn; [by intros ?%not_elem_of_nil|].
  destruct (decide (cc_container_id cfg = cid)) as [->|Hne].
  - intros _. rewrite Hm. cbn. eapply Hkeep; [apply lookup_insert_eq|done].
  - intros [->|Hin]%elem_of_cons; [done|]. apply IH; [|done].
    destruct (is_some _); [done|]. by rewrite lookup_insert_ne.
Qed.

(** Removing the placeholders of a pod that had no container restores the map. *)
Lemma placeholders_roundtrip spec s :
  ids_of_pod spec → check_duplicate_start (cs_pod_name spec) s = false →
  running (remove_placeholders (container_ids spec) (insert_placeholders spec s)) = running s.
Proof.
  intros Hids Hc. unfold remove_placeholders. apply map_eq. intros cid.
  change (foldl (λ r cid, delete cid r) (running (insert_placeholders spec s))
    (container_ids spec) !! cid = running s !! cid).
  rewrite fold_delete. case_bool_decide as Hin; [|by apply insert_placeholders_other].
  destruct (running s !! cid) eqn:E; [|done].
  eapply Forall_forall in Hids; [|done]. rewrite (proj1 (check_duplicate_false _ _) Hc cid) in Hids by eauto.
  done.
Qed.

(** What a start leaves behind, when no container of the pod is known yet. *)
Definition start_post (spec : ContainerSpec) s (r : result unit) s' : Prop :=
  match r with
  | Ok _ =>
      (∀ cid, cid ∈ container_ids spec →
         ∃ rc, running s' !! cid = Some rc ∧ container_id (instance rc) = cid
           ∧ is_Some (pid (instance rc)) ∧ ready rc = true
           ∧ published_ports (instance rc) = ∅)
      ∧ ∀ cid, cid ∉ container_ids spec → running s' !! cid = running s !! cid
  | Err e =>
      ∃ cfg, cfg ∈ cs_containers spec ∧
        (e = spawn_msg spec cfg ∧ running s' = running s
         ∨ e = prepare_msg cfg ∧ running s' = running (insert_placeholders spec s))
  end.

Lemma start_pod_post spec s r s' :
  ids_of_pod spec → check_duplicate_start (cs_pod_name spec) s = false →
  start_pod_from_spec spec s = Ret (r, s') → start_post spec s r s'.
Proof.
  intros Hids Hc H. unfold Runtime.start_pod_from_spec in H.
  apply x_bind_Ret in H as [(e & H & _)|([] & s1 & H1 & H)]; [by apply on_os_unit in H as [? _]|].
  apply on_os_unit in H1 as [_ ->].
  set (s1 := set_os _ s) in H. assert (running s1 = running s) as Hr1 by done.
  apply x_bind_Ret in H as [(e & H & _)|(sx & s2 & H2 & H)]; [done|].
  injection H2 as <- <-.
  assert (check_duplicate_start (cs_pod_name spec) s1 = false) as Hc1 by done.
  rewrite Hc1 in H. clearbody s1.
  apply x_bind_Ret in H as [(e & H & _)|([] & s2 & H2 & H)]; [done|]. injection H2 as <-.
  apply x_bind_Ret in H as [(e & H & _)|(r2 & s3 & H3 & H)].
  { unfold x_try in H. by destruct (on_os_r _ _) as [[]|]. }
  unfold x_try, on_os_r in H3.
  destruct (create_pod_cgroup_ok cg (cs_pod_uid spec) (os (insert_placeholders spec s1)))
    as (p & k & Ecg).
  rewrite Ecg in H3. injection H3 as <- <-.
  apply x_bind_Ret in H as [(e & H & _)|([] & s4 & H4 & H)]; [by apply on_os_unit in H as [? _]|].
  apply on_os_unit in H4 as [_ ->].
  set (s4 := set_os _ _) in H.
  assert (running s4 = running (insert_placeholders spec s1)) as Hr4 by done. clearbody s4.
  assert (running (insert_placeholders spec s1) = running (insert_placeholders spec s)) as Hi
    by (unfold insert_placeholders; cbn; by rewrite Hr1).
  apply x_bind_Ret in H as [(e & H & ->)|(prepared & s5 & H5 & H)].
  - apply spawn_all_loop_spec in H as [_ (cfg & Hin & H)]. exists cfg. split; [done|].
    destruct H as [[-> H]|[-> H]]; [right|left]; (split; [done|]); [congruence|].
    rewrite H. unfold remove_placeholders. cbn [set_running running]. rewrite Hr4, Hi.
    by apply (placeholders_roundtrip spec s).
  - apply spawn_all_loop_spec in H5 as [_ (Hr5 & l & -> & Hl)]. injection H as <- <-.
    cbn [set_running running app]. 
    assert (l.*1 = container_ids spec) as Hl1.
    { unfold container_ids. clear -Hl. induction Hl as [|cfg [cid rc] cfgs l [H _] _ IH]; [done|].
      cbn in *. by rewrite H, IH. }
    split.
    + intros cid Hcid. rewrite <- Hl1 in Hcid.
      destruct (fold_insert_elem (running s5) l cid Hcid) as (rc & Hin & Hrc). exists rc.
      split; [done|]. apply list_elem_of_lookup in Hin as [j Hj].
      destruct (Forall2_lookup_r _ _ _ _ _ Hl Hj) as (cfg & _ & [Heq Hst]). cbn in *.
      destruct Hst as (Hid & Hp & Hpp & Hrd). subst. by rewrite Hid.
    + intros cid Hcid. etrans; [apply fold_insert_other; by rewrite Hl1|].
      rewrite Hr5, Hr4, Hi. by apply insert_placeholders_other.
Qed.


Lemma start_duplicate spec s :
  check_duplicate_start (cs_pod_name spec) s = true →
  ∃ s', start_pod_from_spec spec s = Ret (Ok (), s') ∧ running s' = running s
    ∧ restart_counts s' = restart_counts s.
Proof.
  intros Hc. unfold Runtime.start_pod_from_spec. unfold mbind, execR_bind at 1.
  cbn [on_os]. unfold on_os, x_get. cbn.
  change (check_duplicate_start (cs_pod_name spec) (set_os (cleanup_emptydir base (cs_pod_uid spec) (os s)) s))
    with (check_duplicate_start (cs_pod_name spec) s).
  rewrite Hc. by eexists.
Qed.

Lemma ids_fresh spec s cid :
  ids_of_pod spec → check_duplicate_start (cs_pod_name spec) s = false →
  cid ∈ container_ids spec → running s !! cid = None.
Proof.
  intros Hids Hc Hin. destruct (running s !! cid) eqn:E; [|done].
  eapply Forall_forall in Hids; [|done].
  rewrite (proj1 (check_duplicate_false _ _) Hc cid) in Hids by eauto. done.
Qed.

(** After an image could not be prepared, every later start of the pod succeeds
    without starting anything: its containers keep no process. *)
Theorem start_after_image_failure spec s cfg s1 s2 :
  ids_of_pod spec → check_duplicate_start (cs_pod_name spec) s = false →
  start_pod_from_spec spec s = Ret (Err (prepare_msg cfg), s1) → running s2 = running s1 →
  ∃ s3, start_pod_from_spec spec s2 = Ret (Ok (), s3) ∧ running s3 = running s2
    ∧ ∀ cid, cid ∈ container_ids spec →
        ∃ rc, running s3 !! cid = Some rc ∧ pid (instance rc) = None.
Proof.
  intros Hids Hc H Hr. apply start_pod_post in H as (cfg' & Hin & [[E _]|[_ Hr1]]); [done| |done..].
  assert (∀ cid, cid ∈ container_ids spec →
    ∃ rc, running s2 !! cid = Some rc ∧ pid (instance rc) = None) as Hph.
  { intros cid Hcid. rewrite Hr, Hr1. apply insert_placeholders_elem; [|done].
    by apply (ids_fresh spec). }
  destruct (start_duplicate spec s2) as (s3 & Hs3 & Hr3 & _).
  - destruct (check_duplicate_start _ s2) eqn:E; [done|].
    assert (cc_container_id cfg' ∈ container_ids spec) as Hid by (by apply list_elem_of_fmap_2).
    destruct (Hph _ Hid) as (rc & Hrc & _). by rewrite (ids_fresh spec s2) in Hrc.
  - exists s3. split; [done|]. split; [done|]. intros cid Hcid. rewrite Hr3. by apply Hph.
Qed.

(** A pod whose name continues the name of another, with a dash, keeps that other
    pod from being started. *)
Theorem start_shadowed spec s suffix :
  is_Some (running s !! (cs_pod_name spec +:+ "-" +:+ suffix)) →
  ∃ s', start_pod_from_spec spec s = Ret (Ok (), s') ∧ running s' = running s
    ∧ restart_counts s' = restart_counts s.
Proof.
  intros Hs. apply start_duplicate. destruct (check_duplicate_start _ s) eqn:E; [done|].
  rewrite check_duplicate_false in E. specialize (E _ Hs).
  rewrite <- string_app_assoc, starts_with_app in E. done.
Qed.

(** *** Stopping *)

(** The addresses a stopped container gives back, with the main pool in use. *)
Definition gives_back s s' : Prop :=
  subnet_pools (netmux s) = ∅ →
  subnet_pools (netmux s') = ∅
  ∧ ∀ ip, ip ∈ free (pool (netmux s)) → ip ∈ free (pool (netmux s')).

Lemma gives_back_refl s : gives_back s s.
Proof. intros Hs. by split. Qed.

Lemma detach_container_spec u cid s r s' :
  detach_container errno_name transact u cid s = Ret (r, s') →
  r = Ok () ∧ same_maps s s' ∧ gives_back s s'
  ∧ (subnet_pools (netmux s) = ∅ → ∀ rc ip ix, running s !! cid = Some rc →
       pod_ip (instance rc) = Some ip → host_veth_ifindex (instance rc) = Some ix →
       ip ∈ free (pool (netmux s'))).
Proof.
  unfold detach_container. intros [(e & H & _)|(s0 & s1 & H1 & H)]%x_bind_Ret; [done|].
  injection H1 as <- <-.
  assert (∀ P : Prop, P → Ok () = Ok () ∧ same_maps s s ∧ gives_back s s ∧ P) as Hnop.
  { intros P HP. split; [reflexivity|]. split; [reflexivity|]. split; [apply gives_back_refl|done]. }
  destruct (running s !! cid) as [rc|];
    [|injection H as <- <-; apply Hnop; intros; congruence].
  destruct (pod_ip (instance rc)) as [ip|] eqn:Ei;
    [|injection H as <- <-; apply Hnop; intros; congruence].
  destruct (host_veth_ifindex (instance rc)) as [ix|] eqn:Ex;
    [|injection H as <- <-; apply Hnop; intros; congruence].
  apply x_bind_Ret in H as [(e & H & _)|(r1 & s1 & H1 & H)].
  { unfold x_try in H. by destruct (on_mux _ s) as [[]|]. }
  injection H as <- <-. unfold x_try, on_mux in H1.
  destruct (detach_pod errno_name transact u ip ix (netmux s)) as [[r0 m]|] eqn:Ed; [|done].
  cbn in H1. injection H1 as <- <-. split; [done|]. split; [by split; reflexivity|].
  split.
  - intros Hs. apply detach_pod_pools in Ed as (_ & Hp & Hsub); [|done].
    split; [exact Hsub|]. intros ip' Hin. change (ip' ∈ free (pool m)).
    rewrite Hp, elem_of_release. by right.
  - intros Hs rc' ip' ix' [= <-] Hip _.
    rewrite Ei in Hip. injection Hip as <-.
    apply detach_pod_pools in Ed as (_ & Hp & Hsub); [|done].
    change (ip ∈ free (pool m)). rewrite Hp, elem_of_release. by left.
Qed.

Lemma stop_container_spec cid s :
  running (stop_container cid s) = delete cid (running s)
  ∧ restart_counts (stop_container cid s) = restart_counts s
  ∧ pool (netmux (stop_container cid s)) = pool (netmux s)
  ∧ subnet_pools (netmux (stop_container cid s)) = subnet_pools (netmux s).
Proof.
  unfold stop_container. destruct (running s !! cid) as [rc|] eqn:E.
  - by destruct (pid (instance rc)).
  - by rewrite delete_id.
Qed.

Lemma stop_containers_spec u cids s r s' :
  stop_containers u cids s = Ret (r, s') →
  r = Ok () ∧ gives_back s s'
  ∧ (∀ c, running s' !! c = if bool_decide (c ∈ cids) then None else running s !! c)
  ∧ (∀ c, restart_counts s' !! c = if bool_decide (c ∈ cids) then None else restart_counts s !! c)
  ∧ (subnet_pools (netmux s) = ∅ → ∀ c rc ip ix, c ∈ cids → running s !! c = Some rc →
       pod_ip (instance rc) = Some ip → host_veth_ifindex (instance rc) = Some ix →
       ip ∈ free (pool (netmux s'))).
Proof.
  revert s. induction cids as [|c0 cids IH]; intros s H.
  { injection H as <- <-. split; [done|]. split; [apply gives_back_refl|].
    split; [by intros|]. split; [by intros|]. intros _ c ? ? ? Hc. by apply not_elem_of_nil in Hc. }
  cbn [Runtime.stop_containers] in H.
  apply x_bind_Ret in H as [(e & H & ->)|(u1 & s1 & H1 & H)].
  { by apply detach_container_spec in H as [? _]. }
  apply detach_container_spec in H1 as (_ & [Hr1 Hc1] & Hg1 & Hip1).
  apply x_bind_Ret in H as [(e & H & _)|(u2 & s2 & H2 & H)]; [done|]. injection H2 as <- <-.
  apply x_bind_Ret in H as [(e & H & _)|(u3 & s3 & H3 & H)]; [done|]. injection H3 as <- <-.
  destruct (stop_container_spec c0 s1) as (Hr2 & Hc2 & Hp2 & Hs2).
  apply IH in H as (-> & Hg & Hr & Hc & Hip). cbn in Hg, Hr, Hc, Hip.
  unfold gives_back in Hg. cbn in Hg. rewrite Hp2, Hs2 in Hg. rewrite Hs2 in Hip.
  split; [done|]. split; [|split; [|split]].
  - intros Hs. destruct (Hg1 Hs) as [Hs1 Hf1]. destruct (Hg Hs1) as [Hs3 Hf3]. auto.
  - intros c. rewrite Hr, Hr2, Hr1, lookup_delete.
    repeat case_bool_decide; repeat case_decide; set_solver.
  - intros c. rewrite Hc, Hc2, Hc1, lookup_delete.
    repeat case_bool_decide; repeat case_decide; set_solver.
  - intros Hs c rc ip ix Hin Hrc Hi Hx. destruct (Hg1 Hs) as [Hs1 _].
    destruct (decide (c = c0)) as [->|Hne].
    + apply (Hg Hs1). by eapply Hip1.
    + apply elem_of_cons in Hin as [->|Hin]; [done|].
      apply (Hip Hs1 c rc ip ix); [done| |done..]. by rewrite Hr2, Hr1, lookup_delete_ne.
Qed.

Lemma stop_pod_result spec s r s' :
  stop_pod_from_spec spec s = Ret (r, s') →
  (∀ c, running s' !! c = if bool_decide (c ∈ container_ids spec) then None else running s !! c)
  ∧ (∀ c, restart_counts s' !! c =
       if bool_decide (c ∈ container_ids spec) then None else restart_counts s !! c)
  ∧ (subnet_pools (netmux s) = ∅ → ∀ c rc ip ix, c ∈ container_ids spec →
       running s !! c = Some rc → pod_ip (instance rc) = Some ip →
       host_veth_ifindex (instance rc) = Some ix → ip ∈ free (pool (netmux s'))).
Proof.
  unfold Runtime.stop_pod_from_spec.
  intros [(e & H & ->)|(u1 & s1 & H1 & H)]%x_bind_Ret.
  { by apply stop_containers_spec in H as [? _]. }
  apply stop_containers_spec in H1 as (_ & _ & Hr & Hc & Hip).
  apply x_bind_Ret in H as [(e & H & _)|(r2 & s2 & H2 & H)].
  { unfold x_try in H. by destruct (on_os_r _ s1) as [[]|]. }
  apply on_os_unit in H as [_ ->]. unfold x_try, on_os_r in H2.
  destruct (remove_cgroup _ _ (os s1)) as [r3 k3]. injection H2 as <- <-. done.
Qed.


(** *** Published ports *)

Inductive sup_step : Supervisor K → Supervisor K → Prop :=
  | sup_start spec s r s' :
      ids_of_pod spec → start_pod_from_spec spec s = Ret (r, s') → sup_step s s'
  | sup_stop spec s r s' : stop_pod_from_spec spec s = Ret (r, s') → sup_step s s'
  | sup_stop_container cid s : sup_step s (stop_container cid s).

Definition no_published s : Prop :=
  ∀ cid rc, running s !! cid = Some rc → published_ports (instance rc) = ∅.

Lemma insert_placeholders_published spec s :
  no_published s → no_published (insert_placeholders spec s).
Proof.
  unfold no_published, insert_placeholders. cbn. generalize (running s).
  induction (cs_containers spec) as [|cfg l IH]; intros m Hm; cbn; [done|].
  apply IH. intros cid rc. destruct (is_some _); [apply Hm|].
  rewrite lookup_insert. case_decide; [by intros [= <-]|apply Hm].
Qed.

Lemma sup_step_published s s' : sup_step s s' → no_published s → no_published s'.
Proof.
  intros Hstep Hn. destruct Hstep as [spec s r s' Hids H|spec s r s' H|cid s].
  - destruct (check_duplicate_start (cs_pod_name spec) s) eqn:Hc.
    + destruct (start_duplicate spec s Hc) as (s2 & H2 & Hr & _). rewrite H2 in H.
      injection H as <- <-. intros cid rc. rewrite Hr. apply Hn.
    + apply start_pod_post in H; [|done..]. destruct r as [[]|e].
      * destruct H as [Hin Hout]. intros cid rc Hrc.
        destruct (decide (cid ∈ container_ids spec)) as [Hc'|Hc'].
        -- destruct (Hin cid Hc') as (rc' & Hrc' & _ & _ & _ & Hp). congruence.
        -- rewrite (Hout cid Hc') in Hrc. by eapply Hn.
      * destruct H as (cfg & _ & [[_ H]|[_ H]]); intros cid rc; rewrite H; [apply Hn|].
        by apply insert_placeholders_published.
  - apply stop_pod_result in H as (Hr & _ & _). intros cid rc. rewrite Hr.
    case_bool_decide; [done|]. apply Hn.
  - intros cid' rc. rewrite (proj1 (stop_container_spec cid s)).
    intros [_ H]%lookup_delete_Some. by eapply Hn.
Qed.

(** No history of the supervisor publishes a port: the port that the service proxy
    is told to dial is always the container port. *)
Theorem backend_port_is_container_port m s pod port :
  rtc sup_step {| running := ∅; restart_counts := ∅; netmux := m |} s →
  backend_connect_port pod port s = port.
Proof.
  intros Hr. assert (no_published s) as Hn.
  { remember {| running := ∅; restart_counts := ∅; netmux := m |} as s0 eqn:E.
    assert (no_published s0) as H0 by (subst s0; intros c rc; cbn; by rewrite lookup_empty).
    clear E. induction Hr; eauto using sup_step_published. }
  unfold backend_connect_port. destruct (find_first _ _) as [[cid rc]|] eqn:E; [|done].
  apply find_first_Some in E as [Hin _]. apply elem_of_hash_iter in Hin.
  rewrite (Hn _ _ Hin). by destruct (isolated_net _).
Qed.
End supervisor_theorems.

(** ** Concrete instances *)

Lemma image_command_k8s_witness :
  (image_command sample_image "" ["-c"]).1 :: (image_command sample_image "" ["-c"]).2
    = k8s_command ["/bin/nginx"] [] ["-c"]
  ↔ (1 <= 1)%nat ∧ (["/bin/nginx"] = [] → ([] : list string) ≠ [] → ["-c"] = [] ∨ ["-c"] = []).
Proof. by apply (image_command_k8s sample_image ["-c"]). Defined.

Lemma pod_hostname_spec_witness :
  pod_hostname "web-main" = "web" ∧ pod_hostname "web-side-car" = "web-side".
Proof. split; [by apply (pod_hostname_spec "web" "main")|done]. Defined.

#[local] Instance sample_os : ContainerOS Tree := {|
  unpack_image_os img _ k := (if bool_decide (img = "bad") then Err "pull" else Ok "/r", k);
  prepare_rootfs_os _ k := (Ok (), k);
  stage_volumes_os _ _ k := k;
  spawn_os _ _ _ k := (Some (Some 41), k);
  create_std_pipes k := (Ok (), k);
  fork_os _ k := (Some 42, k);
  child_synced _ _ := true;
  write_userns_maps _ _ _ k := (Ok (), k);
  kill _ _ k := k;
  pid_alive _ _ := true
|}.
#[local] Existing Instance sample_image_json.

Definition no_netlink (b : bytes) (k : Tree) : result bytes * Tree := (Err "netlink", k).
Definition sample_cfg (n img : string) : ContainerConfig := {|
  cc_container_id := "web-" +:+ n; cc_container_name := n; cc_image := img;
  cc_rootfs_path := ""; cc_is_native := false; cc_entrypoint := "/bin/x"; cc_args := [];
  cc_working_dir := None; cc_env := [("A", "1")]; cc_volumes := [];
  cc_memory_limit_bytes := None; cc_memory_low_bytes := None; cc_cpu_quota := None;
  cc_cpu_period := None; cc_run_as_user := None; cc_run_as_group := None;
  cc_privileged := false; cc_extra_capabilities := []; cc_isolated_net := false;
  cc_published_ports := ∅; cc_probes := [] |}.
Definition sample_cspec (img : string) : ContainerSpec := {|
  cs_pod_name := "web"; cs_pod_uid := "Pod/x/web"; cs_namespace := "x"; cs_hostname := "web";
  cs_containers := [sample_cfg "main" img]; cs_cgroup_path := ""; cs_labels := ∅;
  cs_subnet := None |}.
Definition sample_cg : CgroupManager := {| base_path := "/sys/fs/cgroup/z8s"; enabled := false |}.
Definition sample_sup : Supervisor Tree := {|
  running := ∅; restart_counts := {[ "web-main" := 3 ]};
  netmux := {| pool := pool_new {| network := 0; Pool.prefix := 30 |}; subnet_pools := ∅;
               NetMux.prefix := 30; gateway := 1; host := ∅ |} |}.

Definition sample_start (spec : ContainerSpec) (s : Supervisor Tree) :=
  start_pod_from_spec (λ _, "E") no_netlink (λ _ _, true) (λ _ k, (true, k)) sample_cg "/b" true
    spec s.
Definition state_of (x : exec (result unit * Supervisor Tree)) : Supervisor Tree :=
  match x with Ret (_, s) => s | Panic => sample_sup end.


Lemma start_after_image_failure_witness :
  ∃ s3, sample_start (sample_cspec "bad") (state_of (sample_start (sample_cspec "bad") sample_sup))
      = Ret (Ok (), s3)
    ∧ running s3 = running (state_of (sample_start (sample_cspec "bad") sample_sup))
    ∧ ∀ cid, cid ∈ ["web-main"] → ∃ rc, running s3 !! cid = Some rc ∧ pid (instance rc) = None.
Proof.
  apply (start_after_image_failure (λ _, "E") no_netlink (λ _ _, true) (λ _ k, (true, k)) sample_cg
    "/b" true (sample_cspec "bad") sample_sup (sample_cfg "main" "bad")
    (state_of (sample_start (sample_cspec "bad") sample_sup)));
    [vm_compute; by repeat constructor|vm_compute; reflexivity..].
Defined.

Definition shadow_sup : Supervisor Tree :=
  set_running {[ "web-2-main" := placeholder (sample_cfg "2-main" "x") ]} sample_sup.

Lemma start_shadowed_witness :
  ∃ s', sample_start (sample_cspec "nginx") shadow_sup = Ret (Ok (), s')
    ∧ running s' = running shadow_sup ∧ restart_counts s' = restart_counts shadow_sup.
Proof.
  apply (start_shadowed (λ _, "E") no_netlink (λ _ _, true) (λ _ k, (true, k)) sample_cg "/b" true
    (sample_cspec "nginx") shadow_sup "2-main").
  vm_compute. by eexists.
Defined.


Lemma backend_port_is_container_port_witness :
  backend_connect_port "web" 80 (stop_container "web-main"
    {| running := ∅; restart_counts := ∅; netmux := netmux sample_sup |}) = 80.
Proof.
  apply (backend_port_is_container_port (λ _, "E") no_netlink (λ _ _, true) (λ _ k, (true, k))
    sample_cg "/b" true (netmux sample_sup)).
  apply rtc_once, sup_stop_container.
Defined.
