(* ===== verification/Process.v ===== *)
(** * Process: the scheduler's view of pods (src/src/scheduler/process.rs)

    [ProcessTracker] joins the resource store and the supervisor: it starts and
    stops pods and records their state, answers questions about them, and handles
    the containers that exited. A delayed restart is a timer that later sets the
    pod to Pending, for the reconciler to start it again. *)
From S2P Require Import Prelude Text Utf8 Resources Pool Netlink NetMux Cri SpecBuilder Runtime.

Section process.
Context `{HO : HashOrder} `{UC : UnicodeCase} {K : Type} `{FS : FileSystem K}
        `{IJ : ImageConfigJson} `{OS : ContainerOS K}.
Variable errno_name : Z → string.
Variable transact : bytes → K → result bytes * K.
Variable open_netns : Z → K → bool.
Variable set_netns : Z → K → bool * K.
Variable cg : CgroupManager.
Variable base : string.
Variable is_root : bool.

(** ** State *)

(** The supervisor, the store and the restarts that wait: seconds and uid. *)
Record Cluster := {
  sup : Supervisor K;
  store : ResourceStore;
  timers : list (Z * string)
}.

Definition set_sup (x : Supervisor K) (c : Cluster) : Cluster :=
  {| sup := x; store := store c; timers := timers c |}.
Definition set_store (x : ResourceStore) (c : Cluster) : Cluster :=
  {| sup := sup c; store := x; timers := timers c |}.
Definition add_timer (x : Z * string) (c : Cluster) : Cluster :=
  {| sup := sup c; store := store c; timers := timers c ++ [x] |}.

Definition on_sup {A} (m : execR (Supervisor K) A) : execR Cluster A := λ c,
  '(r, s) ← m (sup c); Ret (r, set_sup s c).

(** [build_spec] on the store and the file system. *)
Definition make_spec (r : AnyResource) : execR Cluster ContainerSpec := λ c,
  let '(spec, k) := build_spec base r (store c) (os (sup c)) in
  Ret (Ok spec, set_sup (set_os k (sup c)) c).

(** ** Starting and stopping *)

Definition start_pod (now : Z) (r : AnyResource) : execR Cluster unit :=
  spec ← make_spec r;
  _ ← on_sup (start_pod_from_spec errno_name transact open_netns set_netns cg base is_root spec);
  x_modify (λ c, set_store (update_state now (uid r) Running (store c)) c).

Definition stop_pod (now : Z) (r : AnyResource) : execR Cluster unit :=
  spec ← make_spec r;
  _ ← x_try (on_sup (stop_pod_from_spec errno_name transact cg base spec));
  x_modify (λ c, set_store (update_state now (uid r) Terminated (store c)) c).

(** ** Questions about pods *)

Definition is_running (pod_name : string) (s : Supervisor K) : bool :=
  existsb (starts_with (pod_name +:+ "-")) (hash_keys (running s)).

Definition is_ready (pod_name : string) (s : Supervisor K) : bool :=
  if negb (is_running pod_name s) then false
  else existsb (λ p, of_pod pod_name p && ready p.2) (hash_iter (running s)).

Definition get_logs (pod_name cname : string) (s : Supervisor K) : list string :=
  match running s !! (pod_name +:+ "-" +:+ cname) with
  | Some rc => log_buffer rc
  | None => []
  end.

Definition pod_ips (s : Supervisor K) : list (string * Ipv4Addr) :=
  omap (λ '(cid, rc), ip ← pod_ip (instance rc); Some (pod_hostname cid, ip))
    (hash_iter (running s)).

Definition process_pod_ip (pod_name : string) (s : Supervisor K) : option Ipv4Addr :=
  find_map (λ p, if of_pod pod_name p then pod_ip (instance p.2) else None)
    (hash_iter (running s)).

Definition is_container_ready (cid : string) (s : Supervisor K) : bool :=
  match running s !! cid with Some rc => ready rc | None => false end.

(** ** Reaping *)

Inductive WaitStatus :=
  | Exited (pid status : Z)
  | Signaled (pid sig : Z)
  | StillAlive
  | WaitOther
  | WaitErr.

(** The answers of successive [waitpid] calls; the loop ends at the first that is
    neither an exit nor a signal. *)
Fixpoint reap_zombies (answers : list WaitStatus) : list (Z * Z) :=
  match answers with
  | Exited p status :: l => (u32 p, status) :: reap_zombies l
  | Signaled p sig :: l => (u32 p, - sig) :: reap_zombies l
  | _ => []
  end.

(** ** Exited containers *)

(** [10u64 << (n - 2).min(5)], at most 300; the first restart is immediate. *)
Definition backoff_delay (restart_count : Z) : Z :=
  if restart_count <=? 1 then 0
  else Z.min (Z.shiftl 10 (Z.min (restart_count - 2) 5)) 300.

Definition should_restart (policy : string) (exit_code : Z) : bool :=
  if bool_decide (policy = "Always") then true
  else if bool_decide (policy = "OnFailure") then negb (exit_code =? 0)
  else if bool_decide (policy = "Never") then false
  else true.

Definition pod_of_container (cid : string) (t : ResourceTracker) : bool :=
  match resource t with
  | RPod _ => starts_with (name (resource t) +:+ "-") cid
  | _ => false
  end.

Definition restart_policy_of (t : option ResourceTracker) : string :=
  unwrap_or
    (t ← t; match resource t with
            | RPod pod => s ← pod_spec pod; ps_restart_policy s
            | _ => None
            end) "Always".

Definition dead_containers (reaped : gmap Z Z) (s : Supervisor K) : list (string * Z * Z) :=
  omap (λ rc, p ← pid (instance rc); code ← reaped !! p;
              Some (container_id (instance rc), p, code)) (hash_values (running s)).

Definition handle_dead (now : Z) (c : Cluster) (d : string * Z * Z) : Cluster :=
  let '(cid, p, exit_code) := d in
  let tracker := find_first (pod_of_container cid) (get_all (store c)) in
  let policy := restart_policy_of tracker in
  let pod_uid := unwrap_or (uid ∘ resource <$> tracker) "" in
  let c := set_sup (set_os (kill (- i32 p) SIGKILL (os (sup c))) (sup c)) c in
  let c := set_sup (set_running (delete cid (running (sup c))) (sup c)) c in
  if should_restart policy exit_code then
    let restart_count := u32 (unwrap_or (restart_counts (sup c) !! cid) 0 + 1) in
    let c := set_sup (set_restart_counts (<[cid := restart_count]> (restart_counts (sup c)))
                        (sup c)) c in
    if bool_decide (pod_uid = "") then c
    else add_timer (backoff_delay restart_count, pod_uid) c
  else if bool_decide (pod_uid = "") then c
  else if exit_code =? 0 then set_store (update_state now pod_uid Succeeded (store c)) c
  else set_store (update_state now pod_uid (Failed ("exit code " +:+ display exit_code))
                    (store c)) c.

Definition handle_exited_containers (now : Z) (reaped : list (Z * Z)) (c : Cluster) : Cluster :=
  foldl (handle_dead now) c (dead_containers (collect reaped) (sup c)).

(** A timer that has run out. *)
Definition fire_timer (now : Z) (i : nat) (c : Cluster) : Cluster :=
  match timers c !! i with
  | Some (_, u) =>
      {| sup := sup c; store := update_state now u Pending (store c);
         timers := delete i (timers c) |}
  | None => c
  end.
End process.

#[global] Arguments Cluster : clear implicits.

(** ** Back-off *)

(** Restarts wait 0, 10, 20, 40, 80, 160 and then 300 seconds: ten seconds doubled at
    every restart, and never more than five minutes. *)
Theorem backoff_delay_spec n :
  backoff_delay n = if n <=? 1 then 0 else Z.min (10 * 2 ^ (n - 2)) 300.
Proof.
  unfold backoff_delay. destruct (Z.leb_spec n 1); [done|].
  rewrite Z.shiftl_mul_pow2 by lia. destruct (Z.le_gt_cases (n - 2) 5).
  - by rewrite (Z.min_l (n - 2)) by lia.
  - rewrite (Z.min_r (n - 2)) by lia. rewrite !Z.min_r; [done| |by cbn].
    assert (2 ^ 5 ≤ 2 ^ (n - 2)) by (apply Z.pow_le_mono_r; lia). lia.
Qed.

(** ** Reaping *)

(** The loop ends after the last child that was reaped, and misses none before
    it. *)
Theorem reap_zombies_app statuses rest :
  Forall (λ w, match w with Exited _ _ | Signaled _ _ => True | _ => False end) statuses →
  match rest with Exited _ _ :: _ | Signaled _ _ :: _ => False | _ => True end →
  reap_zombies (statuses ++ rest) =
    (λ w, match w with
          | Exited p st => (u32 p, st)
          | Signaled p sig => (u32 p, - sig)
          | _ => (0, 0)
          end) <$> statuses.
Proof.
  intros Hs Hr. induction Hs as [|w l Hw _ IH]; cbn.
  - by destruct rest as [|[]].
  - destruct w; try done; cbn; by rewrite IH.
Qed.

Section process_theorems.
Context `{HO : HashOrder} `{UC : UnicodeCase} {K : Type} `{FS : FileSystem K}
        `{IJ : ImageConfigJson} `{OS : ContainerOS K}.
Variable errno_name : Z → string.
Variable transact : bytes → K → result bytes * K.
Variable open_netns : Z → K → bool.
Variable set_netns : Z → K → bool * K.
Variable cg : CgroupManager.
Variable base : string.
Variable is_root : bool.
Implicit Types c : Cluster K.

Abbreviation start_pod := (start_pod errno_name transact open_netns set_netns cg base is_root).

(** ** Starting pods *)

Definition ids_of (r : AnyResource) : list string :=
  (λ x, name r +:+ "-" +:+ c_name x) <$> extract_containers r.

Lemma make_spec_spec r c :
  ∃ spec c1, make_spec base r c = Ret (Ok spec, c1)
    ∧ running (sup c1) = running (sup c) ∧ restart_counts (sup c1) = restart_counts (sup c)
    ∧ store c1 = store c ∧ timers c1 = timers c
    ∧ cs_pod_name spec = name r ∧ container_ids spec = ids_of r.
Proof.
  unfold make_spec.
  pose proof (build_spec_config_of base r (store c) (os (sup c))) as Hcs.
  pose proof (build_spec_identity base r (store c) (os (sup c))) as [Hn _].
  destruct (build_spec base r (store c) (os (sup c))) as [spec k]. cbn [fst] in *.
  exists spec. eexists. split; [done|]. do 4 (split; [done|]). split; [done|].
  unfold container_ids, ids_of.
  induction Hcs as [|x cfg xs cfgs (Hid & _) _ IH]; [done|]. cbn. by rewrite Hid, IH.
Qed.

Lemma ids_of_pod_of r spec :
  cs_pod_name spec = name r → container_ids spec = ids_of r → ids_of_pod spec.
Proof.
  intros Hn Hi. unfold ids_of_pod. rewrite Hn, Hi. apply Forall_fmap, Forall_forall.
  intros x _. apply starts_with_app_3.
Qed.

Lemma check_duplicate_running pod (s s' : Supervisor K) :
  running s = running s' → check_duplicate_start pod s = check_duplicate_start pod s'.
Proof. unfold check_duplicate_start. by intros ->. Qed.

(** Whatever the supervisor does, the store records the outcome. *)
Lemma start_pod_store now r c x c' :
  start_pod now r c = Ret (x, c') →
  store c' = match x with
             | Ok _ => update_state now (uid r) Running (store c)
             | Err _ => store c
             end ∧ timers c' = timers c.
Proof.
  unfold Process.start_pod. destruct (make_spec_spec r c) as (spec & c1 & Hm & _ & _ & Hs & Ht & _).
  intros [(e & H & ->)|(spec' & c2 & H2 & H)]%x_bind_Ret; [congruence|].
  rewrite Hm in H2. injection H2 as <- <-.
  apply x_bind_Ret in H as [(e & H & ->)|([] & c3 & H3 & H)].
  - unfold on_sup in H. destruct (start_pod_from_spec _ _ _ _ _ _ _ _ _) as [[r0 s0]|]; [|done].
    cbn in H. by injection H as -> <-.
  - unfold on_sup in H3. destruct (start_pod_from_spec _ _ _ _ _ _ _ _ _) as [[r0 s0]|]; [|done].
    cbn in H3. injection H3 as -> <-. injection H as <- <-. cbn. by rewrite Hs.
Qed.

Lemma stop_pod_store now r c x c' :
  stop_pod errno_name transact cg base now r c = Ret (x, c') →
  x = Ok () ∧ store c' = update_state now (uid r) Terminated (store c) ∧ timers c' = timers c.
Proof.
  unfold stop_pod. destruct (make_spec_spec r c) as (spec & c1 & Hm & _ & _ & Hs & Ht & _).
  intros [(e & H & ->)|(spec' & c2 & H2 & H)]%x_bind_Ret; [congruence|].
  rewrite Hm in H2. injection H2 as <- <-.
  apply x_bind_Ret in H as [(e & H & ->)|(u & c3 & H3 & H)].
  - unfold x_try in H. by destruct (on_sup _ c1) as [[]|].
  - unfold x_try, on_sup in H3. destruct (stop_pod_from_spec _ _ _ _ _ _) as [[r0 s0]|]; [|done].
    cbn in H3. injection H3 as _ <-. injection H as <- <-. cbn. by rewrite Hs.
Qed.

Lemma start_pod_duplicate now r c :
  check_duplicate_start (name r) (sup c) = true →
  ∃ c', start_pod now r c = Ret (Ok (), c') ∧ running (sup c') = running (sup c)
    ∧ store c' = update_state now (uid r) Running (store c).
Proof.
  intros Hd. destruct (make_spec_spec r c) as (spec & c1 & Hm & Hr & _ & Hs & _ & Hn & _).
  destruct (start_duplicate errno_name transact open_netns set_netns cg base is_root spec (sup c1))
    as (s2 & H2 & Hr2 & _).
  { rewrite Hn, <- Hd. by apply check_duplicate_running. }
  unfold Process.start_pod. unfold mbind, execR_bind. rewrite Hm. unfold on_sup. rewrite H2. cbn.
  eexists. split; [done|]. cbn. by rewrite Hr2, Hr, Hs.
Qed.

(** A pod of which the supervisor knows some container, or that is shadowed by a
    pod whose name continues its own with a dash, is recorded as Running although
    nothing is started. *)
Theorem start_pod_shadowed now r c suffix t :
  is_Some (running (sup c) !! (name r +:+ "-" +:+ suffix)) → store c !! uid r = Some t →
  ∃ c', start_pod now r c = Ret (Ok (), c') ∧ running (sup c') = running (sup c)
    ∧ state <$> store c' !! uid r = Some Running.
Proof.
  intros Hs Ht. destruct (start_pod_duplicate now r c) as (c' & H & Hr & Hst).
  - destruct (check_duplicate_start _ _) eqn:E; [done|]. rewrite check_duplicate_false in E.
    specialize (E _ Hs). by rewrite starts_with_app_3 in E.
  - exists c'. split; [done|]. split; [done|]. rewrite Hst. unfold update_state.
    by rewrite Ht, lookup_insert_eq.
Qed.

Lemma start_pod_inv now r c x c' :
  check_duplicate_start (name r) (sup c) = false →
  start_pod now r c = Ret (x, c') →
  ∃ spec s s', cs_pod_name spec = name r ∧ container_ids spec = ids_of r
    ∧ running s = running (sup c) ∧ sup c' = s' ∧ start_post spec s x s'
    ∧ store c' = match x with
                 | Ok _ => update_state now (uid r) Running (store c)
                 | Err _ => store c
                 end.
Proof.
  intros Hd H. unfold Process.start_pod in H.
  destruct (make_spec_spec r c) as (spec & c1 & Hm & Hr & _ & Hs & _ & Hn & Hi).
  apply x_bind_Ret in H as [(e & H & _)|(spec' & c2 & H2 & H)]; [congruence|].
  rewrite Hm in H2. injection H2 as <- <-.
  assert (check_duplicate_start (cs_pod_name spec) (sup c1) = false) as Hd1.
  { rewrite Hn, <- Hd. by apply check_duplicate_running. }
  assert (ids_of_pod spec) as Hok by (by eapply ids_of_pod_of).
  exists spec, (sup c1).
  apply x_bind_Ret in H as [(e & H & ->)|([] & c3 & H3 & H)].
  - unfold on_sup in H. destruct (start_pod_from_spec _ _ _ _ _ _ _ _ _) as [[r0 s0]|] eqn:E; [|done].
    cbn in H. injection H as -> <-. apply start_pod_post in E; [|done..].
    exists s0. by rewrite <- Hs.
  - unfold on_sup in H3. destruct (start_pod_from_spec _ _ _ _ _ _ _ _ _) as [[r0 s0]|] eqn:E; [|done].
    cbn in H3. injection H3 as -> <-. apply start_pod_post in E; [|done..].
    injection H as <- <-. exists s0. cbn. by rewrite <- Hs.
Qed.

(** A pod whose image could not be prepared is recorded as Running by the next
    attempt, though none of its containers has a process. *)
Theorem image_failure_then_running now now' r c cfg c1 t :
  check_duplicate_start (name r) (sup c) = false →
  start_pod now r c = Ret (Err (prepare_msg cfg), c1) → store c !! uid r = Some t →
  ∃ c2, start_pod now' r c1 = Ret (Ok (), c2)
    ∧ state <$> store c2 !! uid r = Some Running
    ∧ ∀ cid, cid ∈ ids_of r → ∃ rc, running (sup c2) !! cid = Some rc ∧ pid (instance rc) = None.
Proof.
  intros Hd H Ht.
  destruct (start_pod_inv _ _ _ _ _ Hd H) as (spec & s & s' & Hn & Hi & Hr & <- & Hp & Hst).
  destruct Hp as (cfg' & Hin & [[E _]|[_ Hr1]]); [done|].
  assert (ids_of_pod spec) as Hok by (by eapply ids_of_pod_of).
  assert (check_duplicate_start (cs_pod_name spec) s = false) as Hd1.
  { rewrite Hn, <- Hd. by apply check_duplicate_running. }
  assert (∀ cid, cid ∈ ids_of r →
    ∃ rc, running (sup c1) !! cid = Some rc ∧ pid (instance rc) = None) as Hph.
  { intros cid Hcid. rewrite <- Hi in Hcid. rewrite Hr1.
    apply insert_placeholders_elem; [|done]. by apply (ids_fresh spec). }
  destruct (start_pod_duplicate now' r c1) as (c2 & H2 & Hr2 & Hs2).
  - destruct (check_duplicate_start (name r) (sup c1)) eqn:E; [done|]. rewrite check_duplicate_false in E.
    assert (cc_container_id cfg' ∈ container_ids spec) as Hid by (by apply list_elem_of_fmap_2).
    destruct (Hph (cc_container_id cfg')) as (rc & Hrc & _); [by rewrite <- Hi|].
    specialize (E _ (mk_is_Some _ _ Hrc)).
    eapply Forall_forall in Hok; [|done]. rewrite Hn in Hok. congruence.
  - exists c2. split; [done|]. split.
    + rewrite Hs2, Hst. unfold update_state. by rewrite Ht, lookup_insert_eq.
    + intros cid Hcid. rewrite Hr2. by apply Hph.
Qed.

Lemma start_pod_runs_helper now r c c' :
  check_duplicate_start (name r) (sup c) = false →
  start_pod now r c = Ret (Ok (), c') →
  store c' = update_state now (uid r) Running (store c)
  ∧ ∀ cid, cid ∈ ids_of r →
      ∃ rc, running (sup c') !! cid = Some rc ∧ is_Some (pid (instance rc)).
Proof.
  intros Hd H.
  destruct (start_pod_inv _ _ _ _ _ Hd H) as (spec & s & s' & Hn & Hi & Hr & <- & Hp & Hst).
  split; [done|]. intros cid Hcid. rewrite <- Hi in Hcid.
  destruct Hp as [Hp _]. destruct (Hp cid Hcid) as (rc & Hrc & _ & Hpid & _). eauto.
Qed.

(** A pod that starts is Running and each of its containers has a process. *)
Theorem start_pod_runs now r c c' :
  check_duplicate_start (name r) (sup c) = false →
  start_pod now r c = Ret (Ok (), c') →
  store c' = update_state now (uid r) Running (store c)
  ∧ ∀ cid, cid ∈ ids_of r →
      ∃ rc, running (sup c') !! cid = Some rc ∧ is_Some (pid (instance rc)).
Proof. apply start_pod_runs_helper. Qed.

(** ** Exited containers *)

Definition exited (reaped : list (Z * Z)) (s : Supervisor K) (cid : string) : bool :=
  is_some (rc ← running s !! cid; p ← pid (instance rc); (collect reaped : gmap Z Z) !! p).

(** The map of running containers is keyed by container id. *)
Definition running_wf (s : Supervisor K) : Prop :=
  ∀ cid rc, running s !! cid = Some rc → container_id (instance rc) = cid.

Lemma handle_dead_running now c d :
  running (sup (handle_dead now c d)) = delete d.1.1 (running (sup c)).
Proof.
  destruct d as [[cid p] code]. unfold handle_dead. cbn [fst].
  destruct (should_restart _ _); [by case_bool_decide|].
  case_bool_decide; [done|]. by destruct (code =? 0).
Qed.

Lemma handle_all_running now l c :
  running (sup (foldl (handle_dead now) c l)) = foldl (λ r cid, delete cid r) (running (sup c)) l.*1.*1.
Proof.
  revert c. induction l as [|d l IH]; intros c; cbn [foldl fmap list_fmap]; [done|].
  by rewrite IH, handle_dead_running.
Qed.

Lemma elem_of_dead_containers reaped (s : Supervisor K) cid :
  running_wf s → (cid ∈ (dead_containers (collect reaped) s).*1.*1 ↔ exited reaped s cid = true).
Proof.
  intros Hwf. unfold exited. rewrite is_some_true. unfold dead_containers.
  rewrite list_elem_of_fmap. setoid_rewrite list_elem_of_fmap.
  setoid_rewrite list_elem_of_omap. setoid_rewrite elem_of_hash_values. split.
  - intros ([cid' p] & -> & ([[? ?] code] & [= -> ->] & (rc & [cid0 Hrc] & Hd))).
    destruct (pid (instance rc)) as [p'|] eqn:Hp; [|done]. cbn in Hd.
    destruct ((collect reaped : gmap Z Z) !! p') as [code'|] eqn:Hc; [|done]. cbn in Hd.
    injection Hd as <- <- <-. exists code'. cbn [fst].
    rewrite (Hwf _ _ Hrc), Hrc. cbn. by rewrite Hp.
  - intros [code Hcode]. destruct (running s !! cid) as [rc|] eqn:Hrc; [|done]. cbn in Hcode.
    destruct (pid (instance rc)) as [p|] eqn:Hp; [|done]. cbn in Hcode.
    exists (cid, p). split; [done|]. exists (cid, p, code). split; [done|].
    exists rc. split; [by eexists|]. rewrite Hp. cbn. rewrite Hcode. cbn.
    by rewrite (Hwf _ _ Hrc).
Qed.

(** Exactly the containers whose process was reaped leave the map. *)
Theorem handle_exited_removes now reaped c cid :
  running_wf (sup c) →
  running (sup (handle_exited_containers now reaped c)) !! cid =
    if exited reaped (sup c) cid then None else running (sup c) !! cid.
Proof.
  intros Hwf. unfold handle_exited_containers. rewrite handle_all_running, fold_delete.
  pose proof (elem_of_dead_containers reaped (sup c) cid Hwf) as Hiff.
  case_bool_decide as Hin.
  - by rewrite (proj1 Hiff Hin).
  - destruct (exited reaped (sup c) cid); [|done]. by destruct Hin; apply Hiff.
Qed.

Lemma handle_dead_helper now c cid p code t :
  store_wf (store c) → t ∈ get_all (store c) → pod_of_container cid t = true →
  (∀ t', t' ∈ get_all (store c) → pod_of_container cid t' = true → t' = t) →
  let c' := handle_dead now c (cid, p, code) in
  let n := u32 (unwrap_or (restart_counts (sup c) !! cid) 0 + 1) in
  if should_restart (restart_policy_of (Some t)) code then
    restart_counts (sup c') = <[cid := n]> (restart_counts (sup c))
    ∧ timers c' = timers c ++ [(backoff_delay n, uid (resource t))] ∧ store c' = store c
  else
    restart_counts (sup c') = restart_counts (sup c) ∧ timers c' = timers c
    ∧ state <$> store c' !! uid (resource t) =
        Some (if code =? 0 then Succeeded else Failed ("exit code " +:+ display code)).
Proof.
  intros Hwf Ht Hp Huniq. cbn zeta.
  assert (find_first (pod_of_container cid) (get_all (store c)) = Some t) as Hf.
  { destruct (find_first_is_Some _ _ _ Ht Hp) as [t' Hf]. rewrite Hf.
    apply find_first_Some in Hf as [Ht' Hp']. f_equal. by apply Huniq. }
  assert (store c !! uid (resource t) = Some t) as Hs.
  { unfold get_all in Ht. apply elem_of_hash_values in Ht as [u Hu].
    by rewrite (Hwf _ _ Hu). }
  assert (uid (resource t) ≠ "") as Hne by by destruct (resource t).
  unfold handle_dead. rewrite Hf. cbn [fmap option_fmap option_map unwrap_or compose].
  destruct (should_restart _ _).
  - rewrite bool_decide_false by done. done.
  - rewrite bool_decide_false by done.
    destruct (code =? 0); cbn [set_store store timers sup restart_counts];
      (split; [done|]; split; [done|]); unfold update_state; cbn;
      by rewrite Hs, lookup_insert_eq.
Qed.

(** The exit of a container that belongs, by its name, to one pod of the store:
    under a policy that restarts it, its count grows and a timer with the back-off
    of that count is set; otherwise the pod becomes Succeeded on exit code 0 and
    Failed on any other. *)
Theorem handle_dead_outcome now c cid p code t :
  store_wf (store c) → t ∈ get_all (store c) → pod_of_container cid t = true →
  (∀ t', t' ∈ get_all (store c) → pod_of_container cid t' = true → t' = t) →
  let c' := handle_dead now c (cid, p, code) in
  let n := u32 (unwrap_or (restart_counts (sup c) !! cid) 0 + 1) in
  if should_restart (restart_policy_of (Some t)) code then
    restart_counts (sup c') = <[cid := n]> (restart_counts (sup c))
    ∧ timers c' = timers c ++ [(backoff_delay n, uid (resource t))] ∧ store c' = store c
  else
    restart_counts (sup c') = restart_counts (sup c) ∧ timers c' = timers c
    ∧ state <$> store c' !! uid (resource t) =
        Some (if code =? 0 then Succeeded else Failed ("exit code " +:+ display code)).
Proof. apply handle_dead_helper. Qed.

(** ** Restarts *)

Lemma fire_last_timer now c d u :
  let c' := {| sup := sup c; store := store c; timers := timers c ++ [(d, u)] |} in
  fire_timer now (length (timers c)) c'
  = {| sup := sup c; store := update_state now u Pending (store c); timers := timers c |}.
Proof.
  intros c'. unfold fire_timer, c'. cbn [timers sup store].
  rewrite list_lookup_middle by done. f_equal.
  by rewrite delete_middle, app_nil_r.
Qed.

(** The cluster after a container was found dead and its restart timer fired. *)
Definition after_restart_timer (now : Z) (c : Cluster K) (cid : string) (p code : Z) : Cluster K :=
  fire_timer now (length (timers c)) (handle_dead now c (cid, p, code)).

(** [cid] belongs to the pod of tracker [t] and to no other pod of the store, and the
    policy of the pod restarts it. *)
Definition restarts (c : Cluster K) (cid : string) (code : Z) (t : ResourceTracker) : Prop :=
  store_wf (store c) ∧ t ∈ get_all (store c) ∧ pod_of_container cid t = true
  ∧ (∀ t', t' ∈ get_all (store c) → pod_of_container cid t' = true → t' = t)
  ∧ should_restart (restart_policy_of (Some t)) code = true.

Lemma restart_timer_spec now c cid p code t :
  restarts c cid code t →
  let c2 := after_restart_timer now c cid p code in
  running (sup c2) = delete cid (running (sup c))
  ∧ store c2 = update_state now (uid (resource t)) Pending (store c) ∧ timers c2 = timers c.
Proof.
  intros (Hwf & Ht & Hp & Hu & Hr).
  pose proof (handle_dead_helper now c cid p code t Hwf Ht Hp Hu) as H. cbn zeta in H.
  rewrite Hr in H. destruct H as (_ & Htm & Hst).
  pose proof (handle_dead_running now c (cid, p, code)) as Hrun. cbn [fst] in Hrun.
  unfold after_restart_timer. set (c1 := handle_dead now c (cid, p, code)) in *.
  assert (c1 = {| sup := sup c1; store := store c1;
                  timers := timers c ++ [(backoff_delay (u32 (unwrap_or (restart_counts (sup c) !! cid) 0 + 1)),
                                          uid (resource t))] |}) as ->.
  { rewrite <- Htm. by destruct c1. }
  pose proof (fire_last_timer now {| sup := sup c1; store := store c1; timers := timers c |}
    (backoff_delay (u32 (unwrap_or (restart_counts (sup c) !! cid) 0 + 1))) (uid (resource t))) as E.
  cbn [sup store timers] in E. cbn zeta. rewrite E. cbn [sup store timers].
  by rewrite Hst.
Qed.


(** A container of a pod with another live container dies and its policy restarts it:
    the start that the timer causes succeeds, the pod is Running, and the container is
    not there. *)
Theorem dead_sidecar_stays_dead now now' c cid p code t suffix :
  restarts c cid code t →
  let other := name (resource t) +:+ "-" +:+ suffix in
  other ≠ cid → is_Some (running (sup c) !! other) →
  let c2 := after_restart_timer now c cid p code in
  ∃ c3, start_pod now' (resource t) c2 = Ret (Ok (), c3)
    ∧ state <$> store c3 !! uid (resource t) = Some Running
    ∧ running (sup c3) !! cid = None.
Proof.
  intros Hrs other Hne Ho c2. pose proof Hrs as (Hwf & Ht & _).
  destruct (restart_timer_spec now c cid p code t Hrs) as (Hrun & Hst & _). fold c2 in Hrun, Hst.
  apply elem_of_hash_values in Ht as [u Hu]. rewrite <- (Hwf _ _ Hu) in Hu.
  destruct (start_pod_duplicate now' (resource t) c2) as (c3 & E & Hr3 & Hs3).
  - destruct (check_duplicate_start _ _) eqn:E; [done|]. rewrite check_duplicate_false in E.
    specialize (E other). subst other. rewrite starts_with_app_3 in E. discriminate E.
    rewrite Hrun. by apply lookup_delete_is_Some.
  - exists c3. split; [done|]. split.
    + rewrite Hs3, Hst. unfold update_state. rewrite Hu. by rewrite !lookup_insert_eq.
    + rewrite Hr3, Hrun. apply lookup_delete_eq.
Qed.
End process_theorems.

(** ** Concrete instances *)

#[local] Existing Instance sample_os.
#[local] Existing Instance sample_case.
#[local] Existing Instance sample_image_json.

Lemma reap_zombies_app_witness :
  reap_zombies ([Exited 7 1; Signaled 8 9] ++ [StillAlive; Exited 9 0]) = [(7, 1); (8, -9)].
Proof. rewrite (reap_zombies_app [Exited 7 1; Signaled 8 9]); [done|by repeat constructor|done]. Defined.

Definition pod_with (n img : string) : AnyResource :=
  RPod {| pod_metadata := sample_meta n "x";
          pod_spec := Some {| ps_containers :=
              [{| c_name := "main"; c_image := Some img; c_command := Some ["/bin/x"]; c_args := None;
                  c_working_dir := None; c_env := None; c_env_from := None; c_ports := None;
                  c_resources := None; c_volume_mounts := None; c_security_context := None;
                  c_liveness_probe := None; c_readiness_probe := None; c_startup_probe := None |}];
            ps_init_containers := None; ps_restart_policy := Some "OnFailure";
            ps_volumes := None; ps_security_context := None |} |}.

Definition sample_cluster (img : string) : Cluster Tree :=
  {| sup := sample_sup; store := apply 1 (pod_with "web" img) store_new; timers := [] |}.
Definition sample_start_pod (img : string) (c : Cluster Tree) :=
  start_pod (λ _, "E") no_netlink (λ _ _, true) (λ _ k, (true, k)) sample_cg "/b" true 5
    (pod_with "web" img) c.
Definition cluster_of (d : Cluster Tree) (x : exec (result unit * Cluster Tree)) : Cluster Tree :=
  match x with Ret (_, c) => c | Panic => d end.

Lemma start_pod_runs_witness :
  ∃ rc, running (sup (cluster_of (sample_cluster "i") (sample_start_pod "i" (sample_cluster "i"))))
    !! "web-main" = Some rc ∧ is_Some (pid (instance rc)).
Proof.
  apply (start_pod_runs (λ _, "E") no_netlink (λ _ _, true) (λ _ k, (true, k)) sample_cg "/b" true
    5 (pod_with "web" "i") (sample_cluster "i")); [vm_compute; reflexivity..|].
  by apply list_elem_of_here.
Defined.

Lemma image_failure_then_running_witness :
  let c1 := cluster_of (sample_cluster "bad") (sample_start_pod "bad" (sample_cluster "bad")) in
  ∃ c2, sample_start_pod "bad" c1 = Ret (Ok (), c2)
    ∧ state <$> store c2 !! "Pod/x/web" = Some Running
    ∧ ∀ cid, cid ∈ ["web-main"] → ∃ rc, running (sup c2) !! cid = Some rc ∧ pid (instance rc) = None.
Proof.
  intros c1.
  apply (image_failure_then_running (λ _, "E") no_netlink (λ _ _, true) (λ _ k, (true, k)) sample_cg
    "/b" true 5 5 (pod_with "web" "bad") (sample_cluster "bad") (sample_cfg "main" "bad") c1
    (tracker_new 1 (pod_with "web" "bad"))); vm_compute; reflexivity.
Defined.

Lemma start_pod_shadowed_witness :
  let c := set_sup shadow_sup (sample_cluster "i") in
  ∃ c', sample_start_pod "i" c = Ret (Ok (), c') ∧ running (sup c') = running shadow_sup
    ∧ state <$> store c' !! "Pod/x/web" = Some Running.
Proof.
  intros c.
  apply (start_pod_shadowed (λ _, "E") no_netlink (λ _ _, true) (λ _ k, (true, k)) sample_cg "/b" true
    5 (pod_with "web" "i") c "2-main" (tracker_new 1 (pod_with "web" "i"))); [|vm_compute; reflexivity].
  vm_compute. by eexists.
Defined.

Definition dying : Cluster Tree :=
  cluster_of (sample_cluster "i") (sample_start_pod "i" (sample_cluster "i")).

Lemma dying_wf : running_wf (sup dying).
Proof.
  intros cid rc.
  assert (∃ rc0, map_to_list (running (sup dying)) = [("web-main", rc0)]
    ∧ container_id (instance rc0) = "web-main") as (rc0 & E & H0)
    by (eexists; split; vm_compute; reflexivity).
  rewrite <- elem_of_map_to_list, E.
  intros H. apply list_elem_of_singleton in H. by injection H as -> ->.
Qed.

Lemma handle_exited_removes_witness :
  running (sup (handle_exited_containers 9 [(42, 1)] dying)) !! "web-main" = None.
Proof.
  rewrite (handle_exited_removes 9 [(42, 1)] dying "web-main" dying_wf). vm_compute. reflexivity.
Defined.

Lemma handle_dead_outcome_witness :
  let c' := handle_dead 9 dying ("web-main", 42, 1) in
  timers c' = [(30 + 10, "Pod/x/web")] ∧ restart_counts (sup c') !! "web-main" = Some 4.
Proof.
  assert (get_all (store dying) = [{| resource := pod_with "web" "i"; state := Running;
            last_updated := 5 |}]) as E by (vm_compute; reflexivity).
  destruct (handle_dead_outcome 9 dying "web-main" 42 1
    {| resource := pod_with "web" "i"; state := Running; last_updated := 5 |}) as (Hc & Ht & _).
  - assert (store dying = run_op (OpUpdate 5 (pod_with "web" "i") Running)
      (run_op (OpApply 1 (pod_with "web" "i")) store_new)) as -> by (vm_compute; reflexivity).
    apply run_op_wf, run_op_wf, store_new_wf.
  - rewrite E. left.
  - vm_compute. reflexivity.
  - rewrite E. intros t' H _. apply list_elem_of_singleton in H. exact H.
  - cbn zeta. rewrite Hc, Ht. split; vm_compute; reflexivity.
Defined.

Definition dying_tracker : ResourceTracker :=
  {| resource := pod_with "web" "i"; state := Running; last_updated := 5 |}.

Lemma dying_restarts (k : Cluster Tree) :
  store k = store dying → restarts k "web-main" 1 dying_tracker.
Proof.
  assert (get_all (store dying) = [dying_tracker]) as E by (vm_compute; reflexivity).
  intros Hk. unfold restarts. rewrite Hk, E. split; [|split; [|split; [|split]]].
  - assert (store dying = run_op (OpUpdate 5 (pod_with "web" "i") Running)
      (run_op (OpApply 1 (pod_with "web" "i")) store_new)) as -> by (vm_compute; reflexivity).
    apply run_op_wf, run_op_wf, store_new_wf.
  - apply list_elem_of_here.
  - vm_compute. reflexivity.
  - intros t' H _. apply list_elem_of_singleton in H. exact H.
  - vm_compute. reflexivity.
Qed.


(** The same pod with a second container. *)
Definition dying_with_sidecar : Cluster Tree :=
  set_sup (set_running (match running (sup dying) !! "web-main" with
                        | Some rc => <["web-side" := rc]> (running (sup dying))
                        | None => running (sup dying)
                        end) (sup dying)) dying.

Lemma dead_sidecar_stays_dead_witness :
  let c2 := after_restart_timer 9 dying_with_sidecar "web-main" 42 1 in
  ∃ c3, sample_start_pod "i" c2 = Ret (Ok (), c3)
    ∧ state <$> store c3 !! "Pod/x/web" = Some Running ∧ running (sup c3) !! "web-main" = None.
Proof.
  apply (dead_sidecar_stays_dead (λ _, "E") no_netlink (λ _ _, true) (λ _ k, (true, k)) sample_cg
    "/b" true 9 5 dying_with_sidecar "web-main" 42 1 dying_tracker "side").
  - apply dying_restarts. reflexivity.
  - discriminate.
  - vm_compute. eexists. reflexivity.
Defined.
