(* ===== verification/Deployment.v ===== *)
(** * Deployment: the deployment controller
    (src/src/components/compute/deployment.rs)

    A deployment owns the pods of its namespace that carry its selector's labels
    and that it controls, by an owner reference or by their names. Reconciling it
    creates pods from the template until there are as many as it asks for, and
    removes the excess. Pods start and stop through the process tracker. *)
From S2P Require Import Prelude Text Utf8 Resources Pool Netlink NetMux Cri SpecBuilder Runtime Process.

(** ** Ownership *)

Definition labels_match (selector lbls : gmap string string) : bool := has_labels selector lbls.

Definition owner_is (deploy_name : string) (r : OwnerReference) : bool :=
  bool_decide (or_controller r = Some true) && bool_decide (or_kind r = "Deployment")
  && bool_decide (or_name r = deploy_name).

Definition pod_owned_by_deployment (pod : Pod) (deploy_name : string) : bool :=
  existsb (owner_is deploy_name) (unwrap_or (om_owner_references (pod_metadata pod)) [])
  || match om_name (pod_metadata pod) with
     | Some n => starts_with (deploy_name +:+ "-pod-") n
     | None => false
     end.

(** ** Pods from the template *)

(** [labels.extend(more)] *)
Definition extend (m more : gmap string string) : gmap string string := more ∪ m.

Definition create_pod_from_template (deploy : Deployment) (n : string) : result Pod :=
  match dep_spec deploy with
  | None => Err "Deployment has no spec"
  | Some spec =>
      let meta := set_name (Some n) (unwrap_or (ds_template_metadata spec) meta_default) in
      let deploy_name := unwrap_or (om_name (dep_metadata deploy)) "deployment" in
      let owner := {| or_kind := "Deployment"; or_name := deploy_name;
                      or_controller := Some true;
                      or_uid := unwrap_or (om_uid (dep_metadata deploy)) "" |} in
      let meta := set_owner_references (Some [owner]) meta in
      let lbls := extend (unwrap_or (om_labels meta) ∅) (unwrap_or (ds_match_labels spec) ∅) in
      Ok {| pod_metadata := set_labels (Some lbls) meta; pod_spec := ds_template_spec spec |}
  end.

Definition pod_set_namespace (ns : string) (p : Pod) : Pod :=
  {| pod_metadata := set_namespace (Some ns) (pod_metadata p); pod_spec := pod_spec p |}.

Section deployment.
Context `{HO : HashOrder} `{UC : UnicodeCase} {K : Type} `{FS : FileSystem K}
        `{IJ : ImageConfigJson} `{OS : ContainerOS K}.
Variable errno_name : Z → string.
Variable transact : bytes → K → result bytes * K.
Variable open_netns : Z → K → bool.
Variable set_netns : Z → K → bool * K.
Variable cg : CgroupManager.
Variable base : string.
Variable is_root : bool.
(** The text of a fresh UUID. *)
Variable new_uuid : K → string * K.

Abbreviation start_pod := (start_pod errno_name transact open_netns set_netns cg base is_root).
Abbreviation stop_pod := (stop_pod errno_name transact cg base).

(** ** Reconciliation *)

Record Target := {
  t_deploy : Deployment; t_name : string; t_namespace : string;
  t_labels : gmap string string; t_replicas : Z
}.

(** [spec.replicas.unwrap_or(1) as usize] sign-extends the [i32]. *)
Definition replicas_of (spec : DeploymentSpec) : Z := usize (unwrap_or (ds_replicas spec) 1).

Definition target_of (deploy : Deployment) : option Target :=
  spec ← dep_spec deploy;
  Some {| t_deploy := deploy;
          t_name := unwrap_or (om_name (dep_metadata deploy)) "unknown";
          t_namespace := unwrap_or (om_namespace (dep_metadata deploy)) "default";
          t_labels := unwrap_or (ds_match_labels spec) ∅;
          t_replicas := replicas_of spec |}.

Definition pod_matches (t : Target) (tr : ResourceTracker) : bool :=
  match resource tr with
  | RPod pod =>
      pod_owned_by_deployment pod (t_name t)
      && labels_match (t_labels t) (unwrap_or (om_labels (pod_metadata pod)) ∅)
      && bool_decide (om_namespace (pod_metadata pod) = Some (t_namespace t))
  | _ => false
  end.

Definition matching_pods (t : Target) (s : ResourceStore) : list string :=
  (λ tr, name (resource tr)) <$> List.filter (pod_matches t) (get_by_kind "Pod" s).

(** [<name>-pod-<first group of a UUID>] *)
Definition fresh_pod_name (t : Target) : execR (Cluster K) string := λ c,
  let '(u, k) := new_uuid (os (sup c)) in
  Ret (Ok (t_name t +:+ "-pod-" +:+ unwrap_or (head (split_on "-" u)) "x"),
       set_sup (set_os k (sup c)) c).

(** The loop that creates pods; [fuel] is the number of pods that are missing. *)
Fixpoint scale_up (now : Z) (t : Target) (fuel : nat) (have : Z) (created : list string)
    : execR (Cluster K) (list string) :=
  match fuel with
  | O => mret created
  | S fuel' =>
      if negb (have + Z.of_nat (length created) <? t_replicas t) then mret created
      else
        pod_name ← fresh_pod_name t;
        match create_pod_from_template (t_deploy t) pod_name with
        | Err e => x_fail e
        | Ok pod =>
            let r := RPod (pod_set_namespace (t_namespace t) pod) in
            _ ← x_modify (λ c, set_store (apply now r (store c)) c);
            o ← x_try (start_pod now r);
            match o with
            | Err e =>
                _ ← x_modify (λ c, set_store (update_state now (uid r) (Failed e) (store c)) c);
                mret created
            | Ok _ => scale_up now t fuel' have (created ++ [pod_name])
            end
        end
  end.

(** Removing a pod that is too many: the first of that name, in any namespace. *)
Definition remove_excess (now : Z) (excess_name : string) : execR (Cluster K) unit :=
  c ← x_get;
  match find_first (λ tr, bool_decide (name (resource tr) = excess_name))
          (get_by_kind "Pod" (store c)) with
  | Some remove =>
      _ ← x_try (stop_pod now (resource remove));
      x_modify (λ c, set_store (store_delete (resource remove) (store c)) c)
  | None => mret ()
  end.

(** [matching_pods.pop()], [n] times. *)
Fixpoint scale_down (now : Z) (n : nat) (pods : list string) : execR (Cluster K) unit :=
  match n with
  | O => mret ()
  | S n' =>
      match reverse pods with
      | [] => scale_down now n' []
      | last :: rest =>
          _ ← remove_excess now last;
          scale_down now n' (reverse rest)
      end
  end.

Definition reconcile_impl (now : Z) (r : AnyResource) : execR (Cluster K) unit :=
  match r with
  | RDeployment deploy =>
      match target_of deploy with
      | None => x_fail "Deployment has no spec"
      | Some t =>
          c ← x_get;
          let matching := matching_pods t (store c) in
          let have := Z.of_nat (length matching) in
          created ← scale_up now t (Z.to_nat (t_replicas t - have)) have [];
          let pods := matching ++ created in
          scale_down now (Z.to_nat (Z.of_nat (length pods) - t_replicas t)) pods
      end
  | _ => mret ()
  end.

(** [Component::on_apply] reconciles the tracker the store holds. *)
Definition deployment_on_apply (now : Z) (r : AnyResource) : execR (Cluster K) unit :=
  c ← x_get;
  match get (uid r) (store c) with
  | Some tr => reconcile_impl now (resource tr)
  | None => mret ()
  end.
End deployment.

(** ** Ownership of the created pods *)

(** The pod the controller creates under a name. *)
Definition pod_of (t : Target) (n : string) : AnyResource :=
  match create_pod_from_template (t_deploy t) n with
  | Ok pod => RPod (pod_set_namespace (t_namespace t) pod)
  | Err _ => RDeployment (t_deploy t)
  end.

Lemma create_pod_target deploy t n :
  target_of deploy = Some t →
  ∃ pod, create_pod_from_template (t_deploy t) n = Ok pod
    ∧ pod_of t n = RPod (pod_set_namespace (t_namespace t) pod).
Proof.
  unfold target_of. destruct (dep_spec deploy) as [spec|] eqn:E; cbn; [|done]. intros [= <-].
  unfold pod_of, create_pod_from_template. cbn. rewrite E. eauto.
Qed.

Lemma pod_of_identity deploy t n :
  target_of deploy = Some t → uid (pod_of t n) = key "Pod" (t_namespace t) n ∧ name (pod_of t n) = n.
Proof.
  unfold target_of. destruct (dep_spec deploy) as [spec|] eqn:E; cbn; [|done]. intros [= <-].
  unfold pod_of, create_pod_from_template. cbn. by rewrite E.
Qed.

Lemma pod_matches_created deploy t n st now :
  target_of deploy = Some t → om_name (dep_metadata deploy) = Some (t_name t) →
  pod_matches t {| resource := pod_of t n; state := st; last_updated := now |} = true.
Proof.
  intros Ht Hn. revert Ht. unfold target_of.
  destruct (dep_spec deploy) as [spec|] eqn:E; cbn; [|done]. intros [= <-]. cbn in Hn.
  unfold pod_of, create_pod_from_template, pod_matches. cbn. rewrite E, Hn. cbn.
  apply andb_true_iff. split; [|by apply bool_decide_eq_true].
  apply andb_true_iff. split.
  - unfold pod_owned_by_deployment, owner_is. cbn. by rewrite !bool_decide_true.
  - apply has_labels_spec. apply map_union_subseteq_l.
Qed.

(** A deployment counts the pods it creates: they are its own, carry its selector's
    labels and are in its namespace. *)
Theorem created_pod_matches deploy t n st now :
  target_of deploy = Some t → om_name (dep_metadata deploy) = Some (t_name t) →
  pod_matches t {| resource := pod_of t n; state := st; last_updated := now |} = true.
Proof. apply pod_matches_created. Qed.

(** ** Counting *)

Definition count (t : Target) (s : ResourceStore) : nat :=
  length (List.filter (pod_matches t) (map_to_list s).*2).

Lemma filter_perm {A} (p : A → bool) l1 l2 :
  l1 ≡ₚ l2 → List.filter p l1 ≡ₚ List.filter p l2.
Proof.
  induction 1 as [|x l1 l2 _ IH|x y l|l1 l2 l3 _ IH1 _ IH2]; cbn.
  - done.
  - destruct (p x); [by constructor|done].
  - destruct (p x), (p y); try done; constructor.
  - by etrans.
Qed.

Lemma matching_count `{HashOrder} t s : length (matching_pods t s) = count t s.
Proof.
  unfold matching_pods, count, get_by_kind. rewrite length_fmap.
  assert (List.filter (pod_matches t)
      (List.filter (λ x, bool_decide (kind (resource x) = "Pod")) (hash_values s))
    = List.filter (pod_matches t) (hash_values s)) as ->.
  { induction (hash_values s) as [|x l IH]; cbn; [done|].
    case_bool_decide as Hk; cbn; [by rewrite IH|]. rewrite IH.
    unfold pod_matches at 2. by destruct (resource x). }
  apply Permutation_length, filter_perm. unfold hash_values. by rewrite hash_iter_perm.
Qed.

Lemma count_insert t s u tr :
  s !! u = None → count t (<[u := tr]> s) = ((if pod_matches t tr then 1 else 0) + count t s)%nat.
Proof.
  intros Hu. unfold count.
  assert (map_to_list (<[u := tr]> s) ≡ₚ (u, tr) :: map_to_list s) as Hp
    by (by apply map_to_list_insert).
  rewrite (Permutation_length (filter_perm (pod_matches t) _ _ (fmap_Permutation snd _ _ Hp))).
  cbn. by destruct (pod_matches t tr).
Qed.

Lemma count_delete t s u tr :
  s !! u = Some tr → count t s = ((if pod_matches t tr then 1 else 0) + count t (delete u s))%nat.
Proof.
  intros Hu. rewrite <- (insert_delete_id s u tr Hu) at 1. apply count_insert, lookup_delete_eq.
Qed.

(** Matching does not depend on the state of a pod. *)
Lemma count_update t s u tr tr' :
  s !! u = Some tr → resource tr' = resource tr → count t (<[u := tr']> s) = count t s.
Proof.
  intros Hu Hr. rewrite (count_delete t s u tr Hu).
  rewrite (count_delete t (<[u := tr']> s) u tr' (lookup_insert_eq _ _ _)).
  rewrite delete_insert_eq. unfold pod_matches. by rewrite Hr.
Qed.

Section reconcile.
Context `{HO : HashOrder} `{UC : UnicodeCase} {K : Type} `{FS : FileSystem K}
        `{IJ : ImageConfigJson} `{OS : ContainerOS K}.
Variable errno_name : Z → string.
Variable transact : bytes → K → result bytes * K.
Variable open_netns : Z → K → bool.
Variable set_netns : Z → K → bool * K.
Variable cg : CgroupManager.
Variable base : string.
Variable is_root : bool.
Variable new_uuid : K → string * K.
Implicit Types c : Cluster K.

Abbreviation scale_up :=
  (scale_up errno_name transact open_netns set_netns cg base is_root new_uuid).
Abbreviation reconcile_impl :=
  (reconcile_impl errno_name transact open_netns set_netns cg base is_root new_uuid).
Abbreviation scale_down := (scale_down errno_name transact cg base).
Abbreviation remove_excess := (remove_excess errno_name transact cg base).

(** ** Scaling up *)

(** A pod that the controller created and started, or failed to start. *)
Definition created_pod (now : Z) (t : Target) (s : ResourceStore) (n : string) : ResourceStore :=
  update_state now (uid (pod_of t n)) Running (apply now (pod_of t n) s).
Definition failed_pod (now : Z) (t : Target) (s : ResourceStore) (ne : string * string)
    : ResourceStore :=
  update_state now (uid (pod_of t ne.1)) (Failed ne.2) (apply now (pod_of t ne.1) s).

(** The store after the loop: the pods started, then perhaps one that failed. *)
Definition scaled_up (now : Z) (t : Target) (new : list string) (fail : option (string * string))
    (s : ResourceStore) : ResourceStore :=
  foldl (failed_pod now t) (foldl (created_pod now t) s new) (option_list fail).

Lemma scale_up_spec deploy now t fuel have created c r c' :
  target_of deploy = Some t →
  scale_up now t fuel have created c = Ret (r, c') →
  ∃ new fail, r = Ok (created ++ new) ∧ store c' = scaled_up now t new fail (store c)
    ∧ (length new ≤ fuel)%nat
    ∧ (fail = None → length new = fuel ∨ t_replicas t ≤ have + Z.of_nat (length (created ++ new))).
Proof.
  intros Ht. revert created c. induction fuel as [|fuel IH]; intros created c H;
    cbn [Deployment.scale_up] in H.
  { injection H as <- <-. exists [], None. rewrite app_nil_r. repeat split; auto. }
  destruct (Z.ltb_spec (have + Z.of_nat (length created)) (t_replicas t)) as [Hlt|Hge]; cbn [negb] in H.
  2: { injection H as <- <-. exists [], None. rewrite app_nil_r. cbn.
       split; [done|]. split; [done|]. split; [lia|]. by right. }
  apply x_bind_Ret in H as [(e & H & _)|(n & c1 & H1 & H)].
  { unfold fresh_pod_name in H. by destruct (new_uuid _). }
  assert (store c1 = store c) as Hs1.
  { unfold fresh_pod_name in H1. destruct (new_uuid _). by injection H1 as _ <-. }
  destruct (create_pod_target deploy t n Ht) as (pod & Hpod & Hr). rewrite Hpod in H. rewrite <- Hr in H.
  apply x_bind_Ret in H as [(e & H & _)|([] & c2 & H2 & H)]; [done|]. injection H2 as <-.
  apply x_bind_Ret in H as [(e & H & _)|(o & c3 & H3 & H)].
  { unfold x_try in H. by destruct (Process.start_pod _ _ _ _ _ _ _ _ _ _) as [[]|]. }
  unfold x_try in H3.
  destruct (Process.start_pod _ _ _ _ _ _ _ now (pod_of t n) _) as [[o' c3']|] eqn:Es; [|done].
  injection H3 as -> ->. apply start_pod_store in Es as [Hs3 _].
  change (store (set_store (apply now (pod_of t n) (store c1)) c1))
    with (apply now (pod_of t n) (store c1)) in Hs3.
  rewrite Hs1 in Hs3. destruct o as [[]|e].
  - apply IH in H as (new & fail & -> & Hst & Hle & Hdone).
    exists (n :: new), fail. rewrite <- app_assoc in *. split; [done|].
    split; [by rewrite Hst, Hs3|]. split; [cbn; lia|].
    intros Hf. destruct (Hdone Hf) as [Hl|Hl]; [left; cbn; lia|right; exact Hl].
  - apply x_bind_Ret in H as [(e' & H & _)|([] & c4 & H4 & H)]; [done|]. injection H4 as <-.
    injection H as <- <-. exists [], (Some (n, e)). rewrite app_nil_r.
    split; [done|]. split; [|split; [cbn; lia|done]].
    change (update_state now (uid (pod_of t n)) (Failed e) (store c3)
      = update_state now (uid (pod_of t n)) (Failed e) (apply now (pod_of t n) (store c))).
    by rewrite Hs3.
Qed.

(** ** Scaling down *)

Lemma remove_excess_spec now n c r c' :
  remove_excess now n c = Ret (r, c') →
  r = Ok () ∧ store c' =
    match find_first (λ tr, bool_decide (name (resource tr) = n)) (get_by_kind "Pod" (store c)) with
    | Some tr => delete (uid (resource tr)) (store c)
    | None => store c
    end.
Proof.
  unfold Deployment.remove_excess.
  intros [(e & H & _)|(c0 & c1 & H1 & H)]%x_bind_Ret; [done|]. injection H1 as <- <-.
  destruct (find_first _ _) as [tr|]; [|by injection H as <- <-].
  apply x_bind_Ret in H as [(e & H & _)|(o & c2 & H2 & H)].
  { unfold x_try in H. by destruct (Process.stop_pod _ _ _ _ _ _ _) as [[]|]. }
  injection H as <- <-. split; [done|]. unfold x_try in H2.
  destruct (Process.stop_pod _ _ _ _ now (resource tr) c) as [[o' c2']|] eqn:Es; [|done].
  injection H2 as _ ->. apply stop_pod_store in Es as (_ & Hs & _).
  cbn. unfold store_delete. rewrite Hs. unfold update_state.
  destruct (store c !! uid (resource tr)); [by rewrite delete_insert_eq|done].
Qed.

(** No two pods of the store share a name. *)
Definition pod_names_unique (s : ResourceStore) : Prop :=
  ∀ u1 u2 t1 t2, s !! u1 = Some t1 → s !! u2 = Some t2 →
    kind (resource t1) = "Pod" → kind (resource t2) = "Pod" →
    name (resource t1) = name (resource t2) → u1 = u2.

Lemma pod_matches_kind t tr : pod_matches t tr = true → kind (resource tr) = "Pod".
Proof. unfold pod_matches. by destruct (resource tr). Qed.

Lemma find_pod_unique (s : ResourceStore) u tr :
  store_wf s → pod_names_unique s → s !! u = Some tr → kind (resource tr) = "Pod" →
  find_first (λ x, bool_decide (name (resource x) = name (resource tr))) (get_by_kind "Pod" s)
    = Some tr.
Proof.
  intros Hwf Hu Htr Hk.
  assert (tr ∈ get_by_kind "Pod" s) as Hin.
  { unfold get_by_kind. apply list_elem_of_In, filter_In. rewrite <- list_elem_of_In.
    split; [apply elem_of_hash_values; eauto|by apply bool_decide_eq_true]. }
  destruct (find_first_is_Some (λ x, bool_decide (name (resource x) = name (resource tr))) _ _ Hin)
    as [x Hx]; [by apply bool_decide_eq_true|].
  rewrite Hx. f_equal. apply find_first_Some in Hx as [Hx Hn].
  apply bool_decide_eq_true in Hn. unfold get_by_kind in Hx.
  apply list_elem_of_In, filter_In in Hx as [Hx Hxk]. apply bool_decide_eq_true in Hxk.
  apply list_elem_of_In, elem_of_hash_values in Hx as [u' Hu'].
  assert (u' = u) as -> by (by eapply Hu). congruence.
Qed.

Lemma scale_down_spec now t n pods c r c' :
  store_wf (store c) → pod_names_unique (store c) → NoDup pods → (n ≤ length pods)%nat →
  (∀ p, p ∈ pods → ∃ u tr, store c !! u = Some tr ∧ pod_matches t tr = true ∧ name (resource tr) = p) →
  scale_down now n pods c = Ret (r, c') →
  r = Ok () ∧ count t (store c) = (n + count t (store c'))%nat ∧ store c' ⊆ store c.
Proof.
  revert pods c. induction n as [|n IH]; intros pods c Hwf Hu Hnd Hle Hm H;
    cbn [Deployment.scale_down] in H.
  { injection H as <- <-. done. }
  destruct (reverse pods) as [|p rest] eqn:Er.
  { apply (f_equal length) in Er. rewrite length_reverse in Er. cbn in Er. lia. }
  assert (pods = reverse rest ++ [p]) as ->.
  { rewrite <- (reverse_involutive pods), Er. by rewrite reverse_cons. }
  apply NoDup_app in Hnd as (Hnd & Hdisj & _). rewrite length_app in Hle. cbn in Hle.
  apply x_bind_Ret in H as [(e & H & ->)|([] & c1 & H1 & H)].
  { by apply remove_excess_spec in H as [? _]. }
  apply remove_excess_spec in H1 as [_ Hs1].
  destruct (Hm p) as (u & tr & Htr & Hmt & Hp); [apply elem_of_app; right; left|].
  pose proof (pod_matches_kind t tr Hmt) as Hk. subst p.
  rewrite (find_pod_unique _ u tr) in Hs1 by done. rewrite (Hwf u tr Htr) in Hs1.
  apply IH in H as (-> & Hc & Hsub).
  - split; [done|]. rewrite (count_delete t _ u tr Htr), Hmt. rewrite Hs1 in Hc.
    split; [cbn; lia|]. etrans; [exact Hsub|]. rewrite Hs1. apply delete_subseteq.
  - rewrite Hs1. intros u' t' [_ H']%lookup_delete_Some. by apply Hwf.
  - rewrite Hs1. intros u1 u2 t1 t2 [_ H1']%lookup_delete_Some [_ H2']%lookup_delete_Some. by apply Hu.
  - done.
  - lia.
  - intros p Hp. destruct (Hm p) as (u' & tr' & Htr' & Hmt' & Hn'); [apply elem_of_app; by left|].
    exists u', tr'. split; [|done]. rewrite Hs1. rewrite lookup_delete_ne; [done|].
    intros ->. rewrite Htr in Htr'. injection Htr' as <-. apply (Hdisj p Hp). rewrite <- Hn'. left.
Qed.

(** ** What reconciliation achieves *)

Lemma count_created f deploy now t n s :
  target_of deploy = Some t → om_name (dep_metadata deploy) = Some (t_name t) →
  s !! uid (pod_of t n) = None →
  count t (update_state now (uid (pod_of t n)) f (apply now (pod_of t n) s)) = S (count t s).
Proof.
  intros Ht Hn Hs. unfold apply. rewrite Hs. cbn [fmap option_fmap option_map].
  unfold update_state. rewrite lookup_insert_eq.
  rewrite (count_update _ _ _ (tracker_new now (pod_of t n))); [|apply lookup_insert_eq|done].
  rewrite count_insert by done. unfold tracker_new. by rewrite (pod_matches_created deploy).
Qed.

Lemma scaled_up_count deploy now t new fail s :
  target_of deploy = Some t → om_name (dep_metadata deploy) = Some (t_name t) →
  NoDup (new ++ (option_list fail).*1) →
  (∀ n, n ∈ new ++ (option_list fail).*1 → s !! uid (pod_of t n) = None) →
  count t (scaled_up now t new fail s) = (count t s + length (new ++ (option_list fail).*1))%nat.
Proof.
  intros Ht Hn. unfold scaled_up. revert s. induction new as [|n new IH]; intros s Hnd Hf.
  - destruct fail as [[n e]|]; cbn; [|lia]. unfold failed_pod. cbn [fst snd].
    rewrite (count_created _ deploy); [lia|done..|]. apply Hf. left.
  - cbn [app] in Hnd. apply NoDup_cons in Hnd as [Hnin Hnd]. cbn [foldl app length].
    rewrite IH; [|done|].
    + unfold created_pod. rewrite (count_created _ deploy); [lia|done..|]. apply Hf. left.
    + intros n' Hn'. unfold created_pod, update_state, apply.
      assert (uid (pod_of t n) ≠ uid (pod_of t n')) as Hne.
      { rewrite !(proj1 (pod_of_identity deploy t _ Ht)). intros E.
        apply string_app_inj_l, string_app_inj_l, string_app_inj_l, string_app_inj_l in E. by subst. }
      rewrite lookup_insert_eq. rewrite !lookup_insert_ne by done. apply Hf. by right.
Qed.

(** C13. When a deployment has too few pods, reconciling it creates pods from the
    template until it has as many as it asks for, or until one fails to start; with
    fresh names, each of them, the failed one included, counts from then on. *)
Theorem reconcile_scales_up now deploy t c r c' :
  target_of deploy = Some t → om_name (dep_metadata deploy) = Some (t_name t) →
  Z.of_nat (length (matching_pods t (store c))) ≤ t_replicas t →
  reconcile_impl now (RDeployment deploy) c = Ret (r, c') →
  r = Ok () ∧ ∃ new fail, store c' = scaled_up now t new fail (store c)
    ∧ (fail = None →
         Z.of_nat (length (matching_pods t (store c)) + length new) = t_replicas t)
    ∧ (NoDup (new ++ (option_list fail).*1) →
       (∀ n, n ∈ new ++ (option_list fail).*1 → store c !! uid (pod_of t n) = None) →
       length (matching_pods t (store c')) =
         (length (matching_pods t (store c)) + length (new ++ (option_list fail).*1))%nat).
Proof.
  intros Ht Hn Hle H. unfold Deployment.reconcile_impl in H. rewrite Ht in H.
  apply x_bind_Ret in H as [(e & H & _)|(c0 & c1 & H1 & H)]; [done|]. injection H1 as <- <-.
  set (have := Z.of_nat (length (matching_pods t (store c)))) in *.
  apply x_bind_Ret in H as [(e & H & ->)|(created & c1 & H1 & H)].
  { by apply (scale_up_spec deploy) in H as (new & fail & [=] & _). }
  apply (scale_up_spec deploy) in H1 as (new & fail & [= ->] & Hst & Hlen & Hdone); [|done].
  cbn [app] in H. rewrite length_app in H.
  assert (Z.to_nat (Z.of_nat (length (matching_pods t (store c)) + length new) - t_replicas t)
    = 0%nat) as E by lia.
  rewrite E in H.
  injection H as <- <-. split; [done|]. exists new, fail. split; [done|]. split.
  - intros Hf. specialize (Hdone Hf). cbn in Hdone. lia.
  - intros Hnd Hfresh. rewrite Hst, !matching_count. by apply (scaled_up_count deploy).
Qed.

Lemma matching_tracker t s p :
  p ∈ matching_pods t s →
  ∃ u tr, s !! u = Some tr ∧ pod_matches t tr = true ∧ name (resource tr) = p.
Proof.
  unfold matching_pods. intros (tr & -> & Hin)%list_elem_of_fmap.
  apply list_elem_of_In, filter_In in Hin as [Hin Hm].
  unfold get_by_kind in Hin. apply filter_In in Hin as [Hin _].
  apply list_elem_of_In, elem_of_hash_values in Hin as [u Hu]. eauto.
Qed.

Lemma matching_NoDup t s : store_wf s → pod_names_unique s → NoDup (matching_pods t s).
Proof.
  intros Hwf Hu. unfold matching_pods.
  assert (∀ tr, tr ∈ List.filter (pod_matches t) (get_by_kind "Pod" s) →
    kind (resource tr) = "Pod" ∧ s !! uid (resource tr) = Some tr) as Hin.
  { intros tr Hin. apply list_elem_of_In, filter_In in Hin as [Hin _].
    apply list_elem_of_In in Hin. by apply (get_by_kind_spec "Pod" s tr Hwf). }
  apply NoDup_fmap_2_strong.
  - intros x y Hx Hy Hxy. apply Hin in Hx as [Hkx Hx], Hy as [Hky Hy].
    pose proof (Hu _ _ _ _ Hx Hy Hkx Hky Hxy) as E. rewrite E in Hx. congruence.
  - apply NoDup_ListNoDup, List.NoDup_filter, NoDup_ListNoDup.
    destruct (get_by_kind "Pod" s) as [|tr l] eqn:E; [constructor|]. rewrite <- E.
    by apply (get_by_kind_spec "Pod" s tr Hwf).
Qed.


(** A deployment that has as many pods as it asks for is left alone. *)
Theorem reconcile_stable now deploy t c :
  target_of deploy = Some t → Z.of_nat (length (matching_pods t (store c))) = t_replicas t →
  reconcile_impl now (RDeployment deploy) c = Ret (Ok (), c).
Proof.
  intros Ht E. unfold Deployment.reconcile_impl. rewrite Ht.
  unfold mbind, execR_bind at 1. unfold x_get. rewrite E, Z.sub_diag. unfold execR_bind.
  assert (scale_up now t (Z.to_nat 0) (t_replicas t) [] c = Ret (Ok [], c)) as -> by reflexivity.
  by rewrite app_nil_r, E, Z.sub_diag.
Qed.

(** A negative number of replicas asks for nearly 2^64 pods. *)
Theorem negative_replicas deploy t n spec :
  target_of deploy = Some t → dep_spec deploy = Some spec →
  ds_replicas spec = Some (- n) → 0 < n ≤ 2 ^ 31 → t_replicas t = 2 ^ 64 - n.
Proof.
  unfold target_of. intros Ht Hs Hr Hn. rewrite Hs in Ht. cbn in Ht. injection Ht as <-.
  cbn. unfold replicas_of. rewrite Hr. cbn. unfold usize, wrap.
  symmetry. apply (Z.mod_unique_pos _ _ (-1)); lia.
Qed.
End reconcile.

(** ** Concrete instances *)

#[local] Existing Instance sample_os.
#[local] Existing Instance sample_case.
#[local] Existing Instance sample_image_json.

Definition sample_deploy (n : Z) : Deployment := {|
  dep_metadata := sample_meta "web" "x";
  dep_spec := Some {| ds_replicas := Some n; ds_match_labels := Some {[ "app" := "web" ]};
                      ds_template_metadata := None; ds_template_spec := None |} |}.
Definition sample_target (n : Z) : Target :=
  {| t_deploy := sample_deploy n; t_name := "web"; t_namespace := "x";
     t_labels := {[ "app" := "web" ]}; t_replicas := n |}.
Definition sample_uuid (k : Tree) : string * Tree :=
  let n := hex_pad 8 (Z.of_nat (size k)) in (n +:+ "-0000", <[n := None]> k).
Definition sample_reconcile (n : Z) (c : Cluster Tree) :=
  reconcile_impl (λ _, "E") no_netlink (λ _ _, true) (λ _ k, (true, k)) sample_cg "/b" true
    sample_uuid 7 (RDeployment (sample_deploy n)) c.
Definition empty_cluster : Cluster Tree := {| sup := sample_sup; store := ∅; timers := [] |}.
Definition two_pods : Cluster Tree := cluster_of empty_cluster (sample_reconcile 2 empty_cluster).

Lemma created_pod_matches_witness :
  pod_matches (sample_target 2)
    {| resource := pod_of (sample_target 2) "web-pod-1"; state := Pending; last_updated := 0 |} = true.
Proof. by apply (created_pod_matches (sample_deploy 2)). Defined.

Lemma reconcile_scales_up_witness :
  matching_pods (sample_target 2) (store two_pods) = ["web-pod-00000001"; "web-pod-00000000"]
  ∧ ∃ new fail, store two_pods = scaled_up 7 (sample_target 2) new fail ∅
    ∧ (fail = None → Z.of_nat (0 + length new) = 2).
Proof.
  split; [vm_compute; reflexivity|].
  destruct (reconcile_scales_up (λ _, "E") no_netlink (λ _ _, true) (λ _ k, (true, k)) sample_cg "/b"
    true sample_uuid 7 (sample_deploy 2) (sample_target 2) empty_cluster (Ok ()) two_pods)
    as (_ & new & fail & Hst & Hf & _); [done|done|vm_compute; discriminate|vm_compute; reflexivity|].
  exists new, fail. split; [exact Hst|exact Hf].
Defined.

Definition scaled_to_one : Cluster Tree := cluster_of empty_cluster (sample_reconcile 1 two_pods).

Lemma two_pods_wf : store_wf (store two_pods) ∧ pod_names_unique (store two_pods).
Proof.
  assert (∃ a b, map_to_list (store two_pods) = [("Pod/x/web-pod-00000001", b); ("Pod/x/web-pod-00000000", a)]
    ∧ uid (resource a) = "Pod/x/web-pod-00000000" ∧ uid (resource b) = "Pod/x/web-pod-00000001"
    ∧ name (resource a) = "web-pod-00000000" ∧ name (resource b) = "web-pod-00000001")
    as (a & b & E & Hua & Hub & Hna & Hnb) by (do 2 eexists; split; [|split_and!]; vm_compute; reflexivity).
  assert (∀ u t, store two_pods !! u = Some t →
    (u = "Pod/x/web-pod-00000000" ∧ t = a) ∨ (u = "Pod/x/web-pod-00000001" ∧ t = b)) as Hin.
  { intros u t Hu. apply elem_of_map_to_list in Hu. rewrite E in Hu.
    apply list_elem_of_In in Hu as [Hu|[Hu|[]]]; injection Hu as <- <-; auto. }
  split.
  - intros u t Hu. destruct (Hin u t Hu) as [[-> ->]|[-> ->]]; done.
  - intros u1 u2 t1 t2 H1 H2 _ _ Hn.
    destruct (Hin _ _ H1) as [[-> ->]|[-> ->]], (Hin _ _ H2) as [[-> ->]|[-> ->]]; congruence.
Qed.


Lemma reconcile_stable_witness : sample_reconcile 2 two_pods = Ret (Ok (), two_pods).
Proof.
  apply (reconcile_stable (λ _, "E") no_netlink (λ _ _, true) (λ _ k, (true, k)) sample_cg "/b"
    true sample_uuid 7 (sample_deploy 2) (sample_target 2) two_pods); [done|vm_compute; reflexivity].
Defined.

Lemma negative_replicas_witness :
  t_replicas (unwrap_or (target_of (sample_deploy (-1))) (sample_target 0)) = 2 ^ 64 - 1.
Proof.
  by apply (negative_replicas (sample_deploy (-1)) _ 1
    (unwrap_or (dep_spec (sample_deploy (-1))) {| ds_replicas := None; ds_match_labels := None;
       ds_template_metadata := None; ds_template_spec := None |})).
Defined.

(** Two pods of one name in two namespaces: scaling down can remove the wrong one. *)
Definition twin (ns : string) : AnyResource :=
  RPod {| pod_metadata := sample_meta "web-pod-1" ns; pod_spec := None |}.
Definition twins : Cluster Tree :=
  {| sup := sample_sup; store := apply 1 (twin "x") (apply 1 (twin "y") ∅); timers := [] |}.

Lemma remove_excess_other_namespace :
  ∃ ns c', ns ∈ ["x"; "y"]
    ∧ remove_excess (λ _, "E") no_netlink sample_cg "/b" 7 "web-pod-1" twins = Ret (Ok (), c')
    ∧ store c' !! uid (twin ns) = None
    ∧ ∀ ns', ns' ∈ ["x"; "y"] → ns' ≠ ns → is_Some (store c' !! uid (twin ns')).
Proof.
  exists "y". eexists. split; [by right; left|]. split; [vm_compute; reflexivity|].
  split; [vm_compute; reflexivity|].
  intros ns [<-|[<-|[]]]%list_elem_of_In; intros H;
    [apply is_some_true; vm_compute; reflexivity|done].
Qed.
