(* ===== verification/Service.v ===== *)
(** * Service: cluster and node ports (src/src/components/network/service.rs)

    The network manager turns a service into DNAT rules: for every port, one chain
    with a rule for each running pod that the selector chooses. It remembers the
    ports it serves by textual keys. The store and the running containers are read
    only; errors of the nftables engine are logged and forgotten. *)
From S2P Require Import Prelude Text Utf8 Resources Pool Netlink Nft NetMux Cri SpecBuilder Runtime Process.

Section service.
Context `{HO : HashOrder} {K net KN : Type}.
Variable batch_send : batch net → KN → send_outcome * KN.

(** The set of keys is iterated as a map. *)
Record NetworkManager := {
  proxies : gmap string unit;
  engine : NftEngine KN
}.

Definition set_proxies (p : gmap string unit) (m : NetworkManager) : NetworkManager :=
  {| proxies := p; engine := engine m |}.

(** [if let Err(e) = nft.f().await { log }] *)
Definition run_nft {A} (f : stateR (NftEngine KN) A) (m : NetworkManager) : NetworkManager :=
  {| proxies := proxies m; engine := (f (engine m)).2 |}.

(** ** Back ends *)

Definition backend_of (s : Supervisor K) (selector : gmap string string) (ns : string) (port : Z)
    (t : ResourceTracker) : option (Ipv4Addr * Z) :=
  match resource t with
  | RPod pod =>
      if negb (bool_decide (unwrap_or (om_namespace (pod_metadata pod)) "default" = ns)) then None
      else if negb (has_labels selector (unwrap_or (om_labels (pod_metadata pod)) ∅)) then None
      else ip ← process_pod_ip (unwrap_or (om_name (pod_metadata pod)) "") s; Some (ip, port)
  | _ => None
  end.

Definition resolve_backend_pods (store : ResourceStore) (s : Supervisor K)
    (selector : gmap string string) (ns : string) (port : Z) : list (Ipv4Addr * Z) :=
  omap (backend_of s selector ns port) (get_by_kind "Pod" store).

(** The first container port of that name of any pod of the namespace, or else the
    name read as a number. *)
Definition resolve_named_port (store : ResourceStore) (ns n : string) : option Z :=
  let port_of (c : Container) :=
    find_map (λ p, if bool_decide (cp_name p = Some n) then Some (u16 (cp_container_port p)) else None)
      (unwrap_or (c_ports c) []) in
  match find_map (λ t, if bool_decide (namespace (resource t) = ns)
                       then find_map port_of (extract_containers (resource t)) else None)
          (get_by_kind "Pod" store) with
  | Some p => Some p
  | None => parse_u16 n
  end.

(** ** Synchronising a service *)

Definition target_container_port (store : ResourceStore) (ns : string) (sp : ServicePort) : Z :=
  match unwrap_or (sp_target_port sp) (IoInt (sp_port sp)) with
  | IoInt n => u16 n
  | IoString n => unwrap_or (resolve_named_port store ns n) (u16 (sp_port sp))
  end.

Definition cluster_addr (cluster_ip : string) : Ipv4Addr :=
  unwrap_or (parse_ipv4addr cluster_ip) (ipv4_new 10 96 0 1).

Definition clusterip_key (key : string) (port : Z) : string :=
  key +:+ ":clusterip:" +:+ display port.
Definition nodeport_key (key : string) (node_port : Z) : string :=
  key +:+ ":nodeport:" +:+ display node_port.

Definition sync_port (store : ResourceStore) (s : Supervisor K) (key ns svc_type cluster_ip : string)
    (selector : gmap string string) (m : NetworkManager) (sp : ServicePort) : NetworkManager :=
  let backends := resolve_backend_pods store s selector ns (target_container_port store ns sp) in
  let m :=
    if negb (bool_decide (cluster_ip = "")) && negb (bool_decide (cluster_ip = "None")) then
      let m := set_proxies (delete (clusterip_key key (sp_port sp)) (proxies m)) m in
      let m := run_nft (add_dnat batch_send (cluster_addr cluster_ip) (u16 (sp_port sp)) backends) m in
      set_proxies (<[clusterip_key key (sp_port sp) := ()]> (proxies m)) m
    else m in
  if bool_decide (svc_type = "NodePort") || bool_decide (svc_type = "LoadBalancer") then
    match sp_node_port sp with
    | Some p =>
        let node_port := u16 p in
        let m := set_proxies (delete (nodeport_key key node_port) (proxies m)) m in
        let m := run_nft (add_dnat batch_send (cluster_addr cluster_ip) (u16 (sp_port sp)) backends) m in
        let m := run_nft (add_nodeport_dnat batch_send node_port backends) m in
        set_proxies (<[nodeport_key key node_port := ()]> (proxies m)) m
    | None => m
    end
  else m.

Definition service_key (svc : Service) : string :=
  unwrap_or (om_namespace (svc_metadata svc)) "default" +:+ "/"
  +:+ unwrap_or (om_name (svc_metadata svc)) "".

Definition sync_service_proxies (store : ResourceStore) (s : Supervisor K) (svc : Service)
    (m : NetworkManager) : NetworkManager :=
  match svc_spec svc with
  | None => m
  | Some spec =>
      let selector := unwrap_or (ss_selector spec) ∅ in
      if bool_decide (selector = ∅) then m
      else
        foldl (sync_port store s (service_key svc)
                 (unwrap_or (om_namespace (svc_metadata svc)) "default")
                 (unwrap_or (ss_type spec) "ClusterIP") (unwrap_or (ss_cluster_ip spec) "") selector)
          m (unwrap_or (ss_ports spec) [])
  end.

Definition sync_services_for_labels (store : ResourceStore) (s : Supervisor K) (ns : string)
    (pod_labels : gmap string string) (m : NetworkManager) : NetworkManager :=
  foldl (λ m t,
    match resource t with
    | RService svc =>
        if negb (bool_decide (unwrap_or (om_namespace (svc_metadata svc)) "default" = ns)) then m
        else
          let selector := unwrap_or (x ← svc_spec svc; ss_selector x) ∅ in
          if bool_decide (selector = ∅) then m
          else if has_labels selector pod_labels then sync_service_proxies store s svc m
          else m
    | _ => m
    end) m (get_by_kind "Service" store).

(** ** Removing a service *)

(** [key.rsplit(':').next()] *)
Definition last_part (key : string) : string := unwrap_or (last (split_on ":" key)) key.

(** The rule removed for a key: the address of the service of that name that the
    store holds, and the port at the end of the key. *)
Definition remove_rule (ns n key : string) (m : NetworkManager) (t : ResourceTracker)
    : NetworkManager :=
  if bool_decide (namespace (resource t) = ns) && bool_decide (name (resource t) = n) then
    match resource t with
    | RService svc =>
        match x ← svc_spec svc; cip ← ss_cluster_ip x; parse_ipv4addr cip with
        | Some ip =>
            match parse_u16 (last_part key) with
            | Some port => run_nft (remove_dnat batch_send ip port) m
            | None => m
            end
        | None => m
        end
    | _ => m
    end
  else m.

Definition remove_service (store : ResourceStore) (ns n : string) (m : NetworkManager)
    : NetworkManager :=
  let prefix := ns +:+ "/" +:+ n in
  foldl (λ m key,
    let m := set_proxies (delete key (proxies m)) m in
    foldl (remove_rule ns n key) m (get_by_kind "Service" store))
    m (List.filter (starts_with prefix) (hash_keys (proxies m))).
End service.

#[global] Arguments NetworkManager : clear implicits.

(** ** Rules in a log *)

Section rules.
Context {net : Type}.

(** The DNAT rule that a batch adds: its chain and the address and port it rewrites
    to. *)
Definition dnat_rule (b : batch net) : option (string * bytes * bytes) :=
  match b with
  | [(ORule t c (Dnat _ ip port), MsgAdd)] =>
      if bool_decide (t = NAT_TABLE) then Some (c, ip, port) else None
  | _ => None
  end.

Definition rules_to (c : string) (backends : list (Ipv4Addr * Z)) : list (string * bytes * bytes) :=
  (λ be, (c, octets be.1, be16 be.2)) <$> backends.

Lemma chain_batches_rules c ms bs : omap dnat_rule (chain_batches (net := net) c ms bs) = rules_to c bs.
Proof.
  unfold chain_batches. cbn. induction bs as [|b bs IH]; [done|]. cbn. by rewrite IH.
Qed.

Lemma jump_batches_rules c t : omap dnat_rule (jump_batches (net := net) c t) = [].
Proof. by destruct t. Qed.

Lemma add_dnat_rules ip port bs (s : NftEngine (list (batch net))) :
  ∃ l, kernel (add_dnat record_send ip port bs s).2 = kernel s ++ l
    ∧ omap dnat_rule l = rules_to (chain_name ip port) bs.
Proof.
  rewrite add_dnat_log. eexists. split; [done|].
  by rewrite omap_app, chain_batches_rules, jump_batches_rules, app_nil_r.
Qed.

Lemma add_nodeport_rules p bs (s : NftEngine (list (batch net))) :
  ∃ l, kernel (add_nodeport_dnat record_send p bs s).2 = kernel s ++ l
    ∧ omap dnat_rule l = rules_to (nodeport_chain_name p) bs.
Proof.
  unfold add_nodeport_dnat. destruct bs as [|b bs]; [exists []; by rewrite app_nil_r|].
  unfold update_dnat_chain. unfold mbind, stateR_bind. rewrite send_record, for_each_send_record, log_app_app.
  unfold sr_get. destruct (existsb _ _); cbn [negb].
  - eexists. split; [done|]. apply chain_batches_rules.
  - unfold sr_put, add_jump_rules. rewrite for_each_send_record.
    set (c := nodeport_chain_name p).
    exists (chain_batches c [MatchTcpDport (be16 p)] (b :: bs) ++ jump_batches c false).
    split; [cbn; by rewrite <- app_assoc|].
    by rewrite omap_app, chain_batches_rules, jump_batches_rules, app_nil_r.
Qed.
End rules.

(** ** Where the traffic of a service goes *)

Section routing.
Context `{HO : HashOrder} {K net : Type}.
Implicit Types (s : Supervisor K) (m : NetworkManager (list (batch net))).

(** A pod of the store that the selector chooses, and its address. *)
Definition selected (store : ResourceStore) s (selector : gmap string string) (ns : string)
    (ip : Ipv4Addr) : Prop :=
  ∃ t pod, t ∈ get_all store ∧ resource t = RPod pod
    ∧ unwrap_or (om_namespace (pod_metadata pod)) "default" = ns
    ∧ selector ⊆ unwrap_or (om_labels (pod_metadata pod)) ∅
    ∧ process_pod_ip (unwrap_or (om_name (pod_metadata pod)) "") s = Some ip.

Lemma elem_of_backends store s selector ns port ip p :
  (ip, p) ∈ resolve_backend_pods store s selector ns port
  ↔ p = port ∧ selected store s selector ns ip.
Proof.
  unfold resolve_backend_pods, selected. rewrite list_elem_of_omap. split.
  - intros (t & Ht & Hb). unfold backend_of in Hb.
    destruct (resource t) as [pod| | | | | | | | | | | |] eqn:Er; try done.
    case_bool_decide as Hns; [|done]. cbn [negb] in Hb.
    destruct (has_labels _ _) eqn:Hl; [|done]. cbn [negb] in Hb.
    destruct (process_pod_ip _ s) as [ip'|] eqn:Hip; [|done]. cbn in Hb. injection Hb as -> ->.
    split; [done|]. exists t, pod. unfold get_by_kind in Ht.
    apply list_elem_of_In, filter_In in Ht as [Ht _]. apply list_elem_of_In in Ht.
    by rewrite has_labels_spec in Hl.
  - intros (-> & t & pod & Ht & Er & Hns & Hl & Hip). exists t. split.
    + unfold get_by_kind. apply list_elem_of_In, filter_In. split; [by apply list_elem_of_In|].
      by rewrite Er.
    + unfold backend_of. rewrite Er, bool_decide_true by done. cbn [negb].
      rewrite (proj2 (has_labels_spec _ _) Hl). cbn [negb]. by rewrite Hip.
Qed.

(** The chains that serve a port of a service. *)
Definition port_chains (svc_type cluster_ip : string) (sp : ServicePort) : list string :=
  let c := chain_name (cluster_addr cluster_ip) (u16 (sp_port sp)) in
  (if negb (bool_decide (cluster_ip = "")) && negb (bool_decide (cluster_ip = "None")) then [c] else [])
  ++ if bool_decide (svc_type = "NodePort") || bool_decide (svc_type = "LoadBalancer")
     then match sp_node_port sp with
          | Some p => [c; nodeport_chain_name (u16 p)]
          | None => []
          end
     else [].

Lemma sync_port_rules store s key ns ty cip sel m sp :
  ∃ l, kernel (engine (sync_port record_send store s key ns ty cip sel m sp)) = kernel (engine m) ++ l
    ∧ omap dnat_rule l =
        (port_chains ty cip sp ≫= λ c, rules_to c
          (resolve_backend_pods store s sel ns (target_container_port store ns sp))).
Proof.
  unfold sync_port, port_chains.
  set (bs := resolve_backend_pods _ _ _ _ _).
  set (m1 := if negb _ && negb _ then _ else m).
  assert (∃ l, kernel (engine m1) = kernel (engine m) ++ l ∧ omap dnat_rule l =
    ((if negb (bool_decide (cip = "")) && negb (bool_decide (cip = "None"))
      then [chain_name (cluster_addr cip) (u16 (sp_port sp))] else []) ≫= λ c, rules_to c bs)) as (l1 & H1 & Hl1).
  { unfold m1. destruct (negb _ && negb _); [|exists []; by rewrite app_nil_r].
    destruct (add_dnat_rules (cluster_addr cip) (u16 (sp_port sp)) bs (engine m)) as (l & Hk & Hl).
    exists l. split; [exact Hk|]. cbn. by rewrite app_nil_r. }
  rewrite bind_app. rewrite <- Hl1. clearbody m1.
  destruct (bool_decide (ty = "NodePort") || bool_decide (ty = "LoadBalancer")).
  2: { exists l1. split; [done|]. cbn. by rewrite app_nil_r. }
  destruct (sp_node_port sp) as [p|].
  2: { exists l1. split; [done|]. cbn. by rewrite app_nil_r. }
  destruct (add_dnat_rules (cluster_addr cip) (u16 (sp_port sp)) bs (engine m1)) as (l2 & Hk2 & Hl2).
  destruct (add_nodeport_rules (u16 p) bs (add_dnat record_send (cluster_addr cip) (u16 (sp_port sp)) bs (engine m1)).2)
    as (l3 & Hk3 & Hl3).
  exists (l1 ++ l2 ++ l3). split.
  - cbn [engine set_proxies run_nft]. etrans; [exact Hk3|]. by rewrite Hk2, H1, !app_assoc.
  - rewrite !omap_app, Hl2, Hl3. cbn. by rewrite app_nil_r.
Qed.

(** After a service is synchronised, the rules that were sent lead from the chains
    of its ports exactly to the pods of its namespace that its selector chooses and
    that run, each on the port the service targets. *)
Theorem sync_service_routes store s svc spec sel m :
  svc_spec svc = Some spec → ss_selector spec = Some sel → sel ≠ ∅ →
  let ns := unwrap_or (om_namespace (svc_metadata svc)) "default" in
  ∃ l, kernel (engine (sync_service_proxies record_send store s svc m)) = kernel (engine m) ++ l
    ∧ ∀ c ip port, (c, ip, port) ∈ omap dnat_rule l ↔
        ∃ sp a, sp ∈ unwrap_or (ss_ports spec) []
          ∧ c ∈ port_chains (unwrap_or (ss_type spec) "ClusterIP")
                  (unwrap_or (ss_cluster_ip spec) "") sp
          ∧ selected store s sel ns a
          ∧ ip = octets a ∧ port = be16 (target_container_port store ns sp).
Proof.
  intros Hspec Hsel Hne ns. unfold sync_service_proxies. rewrite Hspec, Hsel. cbn [unwrap_or].
  rewrite bool_decide_false by done. fold ns.
  generalize (unwrap_or (ss_ports spec) []). intros ports. revert m.
  induction ports as [|sp ports IH]; intros m; cbn [foldl].
  { exists []. rewrite app_nil_r. split; [done|]. set_solver. }
  set (m1 := sync_port _ _ _ _ _ _ _ _ m sp).
  destruct (sync_port_rules store s (service_key svc) ns (unwrap_or (ss_type spec) "ClusterIP")
    (unwrap_or (ss_cluster_ip spec) "") sel m sp) as (l1 & Hk1 & Hl1).
  destruct (IH m1) as (l2 & Hk2 & Hl2). exists (l1 ++ l2). split.
  { rewrite Hk2. unfold m1. by rewrite Hk1, app_assoc. }
  intros c ip port. rewrite omap_app, elem_of_app, Hl1, Hl2, list_elem_of_bind.
  unfold rules_to. setoid_rewrite list_elem_of_fmap. split.
  - intros [(c' & ([a p] & [= -> -> ->] & Hb) & Hc)|(sp' & a & Hsp & Hrest)].
    + apply elem_of_backends in Hb as [-> Hs]. exists sp, a. split; [left|done].
    + exists sp', a. split; [by right|done].
  - intros (sp' & a & [->|Hsp]%elem_of_cons & Hc & Hs & -> & ->).
    + left. exists c. split; [|done]. exists (a, target_container_port store ns sp).
      split; [done|]. by apply elem_of_backends.
    + right. exists sp', a. done.
Qed.

(** ** Removing services *)

Lemma remove_dnat_record ip port (e : NftEngine (list (batch net))) :
  (remove_dnat record_send ip port e).2 =
    set_jump_track (List.filter (λ '(i, p), negb (i =? ip) || negb (p =? port)) (jump_track e))
      (log_app [[(OChain NAT_TABLE (chain_name ip port) None, MsgDel)]] e).
Proof. done. Qed.

(** What removing a key changes: chains of cluster addresses are deleted, and the
    ports they serve are forgotten. *)
Definition only_deletes (e e' : NftEngine (list (batch net))) : Prop :=
  (∃ l, kernel e' = kernel e ++ l
     ∧ Forall (λ b, ∃ ip port, b = [(OChain NAT_TABLE (chain_name ip port) None, MsgDel)]) l)
  ∧ nodeport_jump_track e' = nodeport_jump_track e
  ∧ jump_track e' ⊆ jump_track e.

#[local] Instance only_deletes_preorder : PreOrder only_deletes.
Proof.
  split.
  - intros e. split; [exists []; by rewrite app_nil_r|done].
  - intros e1 e2 e3 [(l1 & H1 & F1) [Hn1 Hj1]] [(l2 & H2 & F2) [Hn2 Hj2]].
    split; [|split; [congruence|set_solver]].
    exists (l1 ++ l2). split; [by rewrite H2, H1, app_assoc|by apply Forall_app].
Qed.

Lemma remove_rule_spec ns n key m t :
  proxies (remove_rule record_send ns n key m t) = proxies m
  ∧ only_deletes (engine m) (engine (remove_rule record_send ns n key m t)).
Proof.
  unfold remove_rule. destruct (bool_decide _ && bool_decide _); [|done].
  destruct (resource t) as [| |svc| | | | | | | | | |]; try done.
  destruct (_ ≫= _) as [ip|]; [|done]. destruct (parse_u16 _) as [port|]; [|done].
  split; [done|]. cbn [engine run_nft]. rewrite remove_dnat_record.
  split; [eexists; split; [done|]; constructor; [eauto|constructor]|]. split; [done|].
  cbn. intros x Hx. apply list_elem_of_In, filter_In in Hx as [Hx _]. by apply list_elem_of_In.
Qed.

Lemma remove_rules_spec ns n key m ts :
  proxies (foldl (remove_rule record_send ns n key) m ts) = proxies m
  ∧ only_deletes (engine m) (engine (foldl (remove_rule record_send ns n key) m ts)).
Proof.
  revert m. induction ts as [|t ts IH]; intros m; cbn [foldl]; [done|].
  destruct (remove_rule_spec ns n key m t) as [Hp He]. destruct (IH (remove_rule record_send ns n key m t)) as [Hp' He'].
  split; [congruence|by etrans].
Qed.

Definition remove_key (store : ResourceStore) (ns n : string) m (key : string)
    : NetworkManager (list (batch net)) :=
  foldl (remove_rule record_send ns n key) (set_proxies (delete key (proxies m)) m)
    (get_by_kind "Service" store).

Lemma remove_keys_spec store ns n m keys :
  (∀ k, proxies (foldl (remove_key store ns n) m keys) !! k =
     if bool_decide (k ∈ keys) then None else proxies m !! k)
  ∧ only_deletes (engine m) (engine (foldl (remove_key store ns n) m keys)).
Proof.
  revert m. induction keys as [|key keys IH]; intros m; cbn [foldl]; [done|].
  destruct (remove_rules_spec ns n key (set_proxies (delete key (proxies m)) m)
    (get_by_kind "Service" store)) as [Hp He].
  destruct (IH (remove_key store ns n m key)) as [Hp' He']. split.
  - intros k. rewrite Hp'. unfold remove_key at 1. rewrite Hp. cbn. rewrite lookup_delete.
    repeat case_bool_decide; repeat case_decide; set_solver.
  - etrans; [exact He|exact He'].
Qed.

Lemma remove_service_spec store ns n m :
  (∀ k, proxies (remove_service record_send store ns n m) !! k =
     if starts_with (ns +:+ "/" +:+ n) k then None else proxies m !! k)
  ∧ only_deletes (engine m) (engine (remove_service record_send store ns n m)).
Proof.
  unfold remove_service. fold (remove_key store ns n).
  destruct (remove_keys_spec store ns n m
    (List.filter (starts_with (ns +:+ "/" +:+ n)) (hash_keys (proxies m)))) as [Hp He].
  split; [|exact He]. intros k. etrans; [apply Hp|].
  assert (k ∈ List.filter (starts_with (ns +:+ "/" +:+ n)) (hash_keys (proxies m)) ↔
    starts_with (ns +:+ "/" +:+ n) k = true ∧ is_Some (proxies m !! k)) as Hiff.
  { rewrite list_elem_of_In, filter_In, <- list_elem_of_In, elem_of_hash_keys. tauto. }
  case_bool_decide as Hk.
  - by rewrite (proj1 (proj1 Hiff Hk)).
  - destruct (starts_with _ k) eqn:E; [|done]. destruct (proxies m !! k) eqn:Ek; [|done].
    destruct Hk. apply Hiff. eauto.
Qed.

(** Removing a service forgets the keys that start with its namespace and name, and
    no others, and only ever deletes chains of cluster addresses: what was set up
    for node ports stays. *)
Theorem remove_service_effect store ns n m :
  (∀ k, proxies (remove_service record_send store ns n m) !! k =
     if starts_with (ns +:+ "/" +:+ n) k then None else proxies m !! k)
  ∧ only_deletes (engine m) (engine (remove_service record_send store ns n m)).
Proof. apply remove_service_spec. Qed.

Lemma last_part_clusterip k p :
  0 ≤ p → last_part (clusterip_key k p) = display p.
Proof.
  intros Hp. unfold last_part, clusterip_key.
  change (":clusterip:" +:+ display p) with (String ":" ("clusterip" +:+ String ":" (display p))).
  assert (∀ a b, last (split_on ":" (a +:+ String ":" b)) = last (split_on ":" b)) as Hl.
  { intros a b. induction a as [|c a IH]; cbn.
    - pose proof (split_on_ne ":" b). by destruct (split_on ":" b).
    - destruct (Ascii.eqb c ":").
      + pose proof (split_on_ne ":" (a +:+ String ":" b)). rewrite <- IH.
        by destruct (split_on ":" (a +:+ String ":" b)).
      + rewrite <- IH. assert (∃ x y l, split_on ":" (a +:+ String ":" b) = x :: y :: l) as (x & y & l & ->).
        { clear. induction a as [|c a (x & y & l & IH)]; cbn.
          - pose proof (split_on_ne ":" b). destruct (split_on ":" b) as [|y l]; [done|]. eauto.
          - destruct (Ascii.eqb c ":"); rewrite IH; eauto. }
        done. }
  rewrite !Hl, split_on_no_char; [done|].
  pose proof (display_graphic p Hp) as Hg.
  destruct (has_char ":" (display p)) eqn:E; [|done].
  pose proof (display_digits p Hp) as Hd. exfalso. revert E Hd. clear. generalize (display p).
  induction s as [|a s IH]; [done|]. cbn. intros E Hd. to_prop.
  destruct (Ascii.eqb_spec a ":") as [->|Hne]; [|by apply IH]. done.
Qed.

(** Removing a service that the store still holds gives up the traffic of each of
    its cluster ports. *)
Theorem remove_service_untracks store ns n svc spec cip ip p t m :
  t ∈ get_all store → resource t = RService svc → namespace (resource t) = ns →
  name (resource t) = n → svc_spec svc = Some spec → ss_cluster_ip spec = Some cip →
  parse_ipv4addr cip = Some ip → 0 ≤ p < 65536 →
  is_Some (proxies m !! clusterip_key (ns +:+ "/" +:+ n) p) →
  (ip, p) ∉ jump_track (engine (remove_service record_send store ns n m)).
Proof.
  intros Ht Er Hns Hn Hspec Hcip Hip Hp Hk.
  set (key := clusterip_key (ns +:+ "/" +:+ n) p) in *.
  unfold remove_service. fold (remove_key store ns n).
  assert (key ∈ List.filter (starts_with (ns +:+ "/" +:+ n)) (hash_keys (proxies m))) as Hin.
  { apply list_elem_of_In, filter_In. rewrite <- list_elem_of_In, elem_of_hash_keys.
    split; [done|]. apply starts_with_app. }
  apply list_elem_of_split in Hin as (k1 & k2 & Hkeys).
  change (foldl _ m _) with (foldl (remove_key store ns n) m
    (List.filter (starts_with (ns +:+ "/" +:+ n)) (hash_keys (proxies m)))).
  rewrite Hkeys, foldl_app. cbn [foldl].
  set (m1 := foldl (remove_key store ns n) m k1).
  intros Hj. apply (proj2 (proj2 (proj2 (remove_keys_spec store ns n (remove_key store ns n m1 key) k2)))) in Hj.
  revert Hj. unfold remove_key.
  assert (t ∈ get_by_kind "Service" store) as Hts.
  { unfold get_by_kind. apply list_elem_of_In, filter_In. split; [by apply list_elem_of_In|]. by rewrite Er. }
  apply list_elem_of_split in Hts as (t1 & t2 & ->). rewrite foldl_app. cbn [foldl].
  set (m2 := foldl _ (set_proxies _ m1) t1). intros Hj.
  apply (proj2 (proj2 (proj2 (remove_rules_spec ns n key (remove_rule record_send ns n key m2 t) t2)))) in Hj.
  revert Hj. unfold remove_rule. rewrite !bool_decide_true by done. cbn [andb].
  rewrite Er, Hspec. cbn [mbind option_bind]. rewrite Hcip. cbn [mbind option_bind]. rewrite Hip.
  unfold key. rewrite last_part_clusterip by lia. rewrite (parse_unsigned_display 16) by lia.
  cbn [engine run_nft]. rewrite remove_dnat_record. cbn [jump_track set_jump_track].
  rewrite list_elem_of_In, filter_In, !Z.eqb_refl. by intros [_ ?].
Qed.
End routing.

(** ** Concrete instances *)

Definition web_pod : AnyResource :=
  RPod {| pod_metadata := set_labels (Some {[ "app" := "web" ]}) (sample_meta "web-1" "x");
          pod_spec := None |}.
Definition web_service : Service := {|
  svc_metadata := sample_meta "web" "x";
  svc_spec := Some {| ss_type := Some "NodePort"; ss_cluster_ip := Some "10.96.0.7";
    ss_cluster_ips := None; ss_selector := Some {[ "app" := "web" ]};
    ss_ports := Some [{| sp_name := None; sp_port := 80; sp_target_port := Some (IoInt 8080);
                         sp_node_port := Some 30080 |}];
    ss_external_name := None |};
  svc_has_status := false |}.
Definition web_store : ResourceStore := apply 1 (RService web_service) (apply 1 web_pod ∅).
Definition with_ip (rc : RunningContainer) (ip : Ipv4Addr) : RunningContainer :=
  {| instance := {| container_id := container_id (instance rc); container_name := container_name (instance rc);
       image := image (instance rc); pid := Some 7; rootfs := ""; env_vars := []; published_ports := ∅;
       isolated_net := true; pod_ip := Some ip; host_veth_ifindex := Some 3 |};
     restart_count := 0; log_buffer := []; ready := true; healthy := true |}.
Definition web_sup : Supervisor Tree :=
  set_running {[ "web-1-main" := with_ip (placeholder (sample_cfg "1-main" "i")) 0x0A640002 ]} sample_sup.
Definition no_rules : NetworkManager (list (batch unit)) :=
  {| proxies := ∅; engine := {| kernel := []; jump_track := []; nodeport_jump_track := [] |} |}.
Definition synced : NetworkManager (list (batch unit)) :=
  sync_service_proxies record_send web_store web_sup web_service no_rules.

Lemma sync_service_routes_witness :
  omap dnat_rule (kernel (engine synced)) =
    [("svc-0a600007-0050", [10; 100; 0; 2], [31; 144]); ("svc-0a600007-0050", [10; 100; 0; 2], [31; 144]);
     ("np-7580", [10; 100; 0; 2], [31; 144])]
  ∧ ∃ sp a, sp ∈ unwrap_or (x ← svc_spec web_service; ss_ports x) []
      ∧ selected web_store web_sup {[ "app" := "web" ]} "x" a ∧ [10; 100; 0; 2] = octets a.
Proof.
  assert (omap dnat_rule (kernel (engine synced)) =
    [("svc-0a600007-0050", [10; 100; 0; 2], [31; 144]); ("svc-0a600007-0050", [10; 100; 0; 2], [31; 144]);
     ("np-7580", [10; 100; 0; 2], [31; 144])]) as E by (vm_compute; reflexivity).
  split; [exact E|].
  destruct (sync_service_routes web_store web_sup web_service
    (unwrap_or (svc_spec web_service) {| ss_type := None; ss_cluster_ip := None;
       ss_cluster_ips := None; ss_selector := None; ss_ports := None; ss_external_name := None |})
    {[ "app" := "web" ]} no_rules eq_refl eq_refl ltac:(discriminate)) as (l & Hk & Hr).
  change (kernel (engine synced) = [] ++ l) in Hk. rewrite app_nil_l in Hk.
  destruct (proj1 (Hr "np-7580" [10; 100; 0; 2] [31; 144])) as (sp & a & Hsp & _ & Hs & Ha & _).
  { rewrite <- Hk, E. apply list_elem_of_further, list_elem_of_further, list_elem_of_here. }
  exists sp, a. split; [exact Hsp|split; [exact Hs|exact Ha]].
Defined.

Lemma remove_service_untracks_witness :
  (0x0A600007, 80) ∉ jump_track (engine (remove_service record_send web_store "x" "web" synced))
  ∧ nodeport_jump_track (engine (remove_service record_send web_store "x" "web" synced)) = [30080].
Proof.
  split; [|vm_compute; reflexivity].
  apply (remove_service_untracks web_store "x" "web" web_service
    (unwrap_or (svc_spec web_service) {| ss_type := None; ss_cluster_ip := None;
       ss_cluster_ips := None; ss_selector := None; ss_ports := None; ss_external_name := None |})
    "10.96.0.7" 0x0A600007 80 (tracker_new 1 (RService web_service)) synced); try done.
  apply elem_of_hash_values. exists "Service/x/web". vm_compute. reflexivity.
Defined.
