(* ===== verification/Panics.v ===== *)
(** * Panics: which operations can abort the process

    The release profile aborts on a panic, so a slice out of range anywhere takes
    the whole node down. The message builders never panic, and the only panic in
    reading a response is [get_ifindex]'s ([Netlink.ifindex_of_response_panic]).
    As long as the kernel gives no answer of 20 to 23 bytes, every operation of the
    supervisor and of the controllers above it returns. *)
From S2P Require Import Prelude Text Utf8 Resources Pool Netlink NetMux Cri SpecBuilder Runtime Process Deployment.

(** A computation that returns from every state. *)
Definition total {S A} (m : S → exec A) : Prop := ∀ s, m s ≠ Panic.

Lemma exec_bind_total {A B} (x : exec A) (f : A → exec B) :
  x ≠ Panic → (∀ a, f a ≠ Panic) → (x ≫= f) ≠ Panic.
Proof. destruct x; cbn; [auto|by intros []]. Qed.

Lemma total_returns {S A} (m : S → exec A) s : total m → ∃ a, m s = Ret a.
Proof. intros H. specialize (H s). destruct (m s); [eauto|done]. Qed.

(** ** The monads *)

Section monads.
Context {S : Type}.

Lemma total_bind {A B} (m : execR S A) (f : A → execR S B) :
  total m → (∀ a, total (f a)) → total (m ≫= f).
Proof.
  intros Hm Hf s. unfold mbind, execR_bind. specialize (Hm s).
  destruct (m s) as [[[a|e] s1]|]; [apply Hf|done..].
Qed.
Lemma total_ret {A} (a : A) : total (mret a : execR S A).
Proof. done. Qed.
Lemma total_fail {A} e : total (x_fail e : execR S A).
Proof. done. Qed.
Lemma total_get : total (x_get (S := S)).
Proof. done. Qed.
Lemma total_modify (f : S → S) : total (x_modify f).
Proof. done. Qed.
Lemma total_try {A} (m : execR S A) : total m → total (x_try m).
Proof. intros H s. unfold x_try. specialize (H s). by destruct (m s) as [[]|]. Qed.
Lemma total_context {A} e (m : execR S A) : total m → total (x_context e m).
Proof. intros H s. unfold x_context. specialize (H s). by destruct (m s) as [[[] ?]|]. Qed.
End monads.

Create HintDb total discriminated.
#[export] Hint Resolve total_ret total_fail total_get total_modify total_try total_context
  : total.

(** Walks through a computation: binds and case distinctions. *)
Ltac totality :=
  repeat first
    [ progress intros
    | solve [eauto 3 with total]
    | apply total_bind
    | match goal with
      | |- total (match ?x with _ => _ end) => destruct x
      end ].

(** ** Netlink *)

Section netlink.
Context {K : Type}.
Variable errno_name : Z → string.
Variable transact : bytes → K → result bytes * K.

(** No answer of the kernel has 20 to 23 bytes: an acknowledgement is longer and so
    is the description of an interface. *)
Definition answers_in_full : Prop :=
  ∀ b k resp k', transact b k = (Ok resp, k') → (length resp < 20 ∨ 24 ≤ length resp)%nat.

Lemma total_nl_ret {A} (a : A) : total (nl_ret a : nl (K := K) A).
Proof. done. Qed.
Lemma total_nl_bind {A B} (m : nl (K := K) A) (f : A → nl B) :
  total m → (∀ a, total (f a)) → total (nl_bind m f).
Proof.
  intros Hm Hf k. unfold nl_bind. apply exec_bind_total; [apply Hm|].
  intros [[a|e] k']; [apply Hf|done].
Qed.
Lemma total_nl_context {A} e (m : nl (K := K) A) : total m → total (nl_context e m).
Proof. intros H k. unfold nl_context. apply exec_bind_total; [apply H|]. by intros []. Qed.

Lemma builds_total e : builds e → e ≠ Panic.
Proof. by intros (m & -> & _). Qed.

Lemma u8_shiftr_u32 z n : 0 ≤ n ≤ 24 → u8 (Z.shiftr (u32 z) n) = u8 (Z.shiftr z n).
Proof.
  intros Hn. unfold u8, u32, wrap. apply Z.bits_inj'. intros i Hi.
  rewrite !Z.testbit_mod_pow2 by lia. destruct (Z.ltb_spec i 8); [|done]. cbn [andb].
  rewrite !Z.shiftr_spec by lia. rewrite Z.testbit_mod_pow2 by lia.
  destruct (Z.ltb_spec (i + n) 32); [done|lia].
Qed.

Lemma octets_u32 ip : octets (u32 ip) = octets ip.
Proof.
  unfold octets, be32. rewrite !u8_shiftr_u32 by lia.
  by rewrite <- (Z.shiftr_0_r (u32 ip)), u8_shiftr_u32, Z.shiftr_0_r by lia.
Qed.

Lemma octets_attr_u32 ty ip : octets_attr ty (u32 ip) = octets_attr ty ip.
Proof. unfold octets_attr. by rewrite octets_u32. Qed.

Lemma u32_ok ip : ipv4_ok (u32 ip).
Proof. apply Z.mod_pos_bound. lia. Qed.

(** The bounds on addresses do not matter for totality: only their low 32 bits are
    looked at. *)
Lemma route_attrs_total dest pfx gw oif : route_attrs dest pfx gw oif ≠ Panic.
Proof.
  assert (route_attrs dest pfx gw oif = route_attrs (u32 dest) pfx (u32 <$> gw) oif) as ->.
  { unfold route_attrs. rewrite octets_attr_u32. destruct gw; cbn [fmap option_fmap option_map]; [by rewrite octets_attr_u32|done]. }
  rewrite route_attrs_spec; [done|apply u32_ok|]. destruct gw; cbn; [apply u32_ok|done].
Qed.

Lemma add_addr_message_total index ip pfx : add_addr_message index ip pfx ≠ Panic.
Proof.
  assert (add_addr_message index ip pfx = add_addr_message index (u32 ip) pfx) as ->.
  { unfold add_addr_message. by rewrite !octets_attr_u32. }
  rewrite add_addr_message_spec by apply u32_ok. done.
Qed.

Lemma check_nl_response_returns resp ctx : check_nl_response errno_name resp ctx ≠ Panic.
Proof.
  unfold check_nl_response. destruct (Nat.leb_spec 16 (length resp)); [|done].
  assert (∃ t, msg_type resp = Ret t) as [t ->].
  { unfold msg_type. do 2 index_step. by eexists. }
  cbn [mbind exec_bind]. destruct (Nat.leb_spec 20 (length resp)); [|by rewrite andb_false_r].
  rewrite andb_true_r. destruct (t =? NLMSG_ERROR); [|done].
  unfold err_code. do 4 index_step. done.
Qed.

Lemma ifindex_of_response_total nm resp :
  (length resp < 20 ∨ 24 ≤ length resp)%nat → ifindex_of_response nm resp ≠ Panic.
Proof.
  intros Hl. unfold ifindex_of_response. destruct (Nat.leb_spec 20 (length resp)); [|done].
  assert (∃ t, msg_type resp = Ret t) as [t ->].
  { unfold msg_type. do 2 index_step. by eexists. }
  cbn [mbind exec_bind]. destruct (negb _); [|done]. do 4 index_step. done.
Qed.

Lemma total_request {A} msg (read : bytes → exec (result A)) :
  msg ≠ Panic →
  (∀ k b k' resp, transact b k = (Ok resp, k') → read resp ≠ Panic) →
  total (request transact msg read).
Proof.
  intros Hm Hr k. unfold request. apply exec_bind_total; [done|]. intros b.
  destruct (transact b k) as [[resp|e] k'] eqn:E; [|done].
  apply exec_bind_total; [by eapply Hr|done].
Qed.
End netlink.

(** ** Pod networking *)

Section networking.
#[local] Set Default Proof Using "Type*".
Context `{HO : HashOrder} {K : Type}.
Variable errno_name : Z → string.
Variable transact : bytes → K → result bytes * K.
Variable open_netns : Z → K → bool.
Variable set_netns : Z → K → bool * K.
Hypothesis HA : answers_in_full transact.

Lemma total_checked msg ctx :
  msg ≠ Panic → total (request transact msg (λ resp, check_nl_response errno_name resp ctx)).
Proof. intros Hm. apply total_request; [done|]. intros. apply check_nl_response_returns. Qed.

Lemma total_get_ifindex nm :
  Z.of_nat (String.length nm) < 2 ^ 63 → total (get_ifindex transact nm).
Proof.
  intros Hn. apply total_request; [by rewrite get_ifindex_message_spec|].
  intros k b k' resp E. apply ifindex_of_response_total. by eapply HA.
Qed.

Lemma total_set_link_up i : total (set_link_up errno_name transact i).
Proof. apply total_checked. by rewrite link_message_spec. Qed.
Lemma total_del_link i : total (del_link errno_name transact i).
Proof. apply total_checked. by rewrite link_message_spec. Qed.
Lemma total_add_addr i ip p : total (add_addr errno_name transact i ip p).
Proof. apply total_checked, add_addr_message_total. Qed.
Lemma total_add_route d p g o : total (add_route errno_name transact d p g o).
Proof.
  apply total_checked. unfold add_route_message.
  apply exec_bind_total; [apply route_attrs_total|]. intros a. by rewrite route_message_spec.
Qed.
Lemma total_del_route d p g o : total (del_route errno_name transact d p g o).
Proof.
  apply total_checked. unfold del_route_message.
  apply exec_bind_total; [apply route_attrs_total|]. intros a. by rewrite route_message_spec.
Qed.

Lemma total_move_peer i p : total (move_peer_to_netns transact i p).
Proof.
  apply total_request; [by rewrite move_peer_message_spec|]. intros _ _ _ resp _.
  destruct (Nat.leb_spec 16 (length resp)); [|done].
  assert (∃ t, msg_type resp = Ret t) as [t ->].
  { unfold msg_type. do 2 index_step. by eexists. }
  cbn [mbind exec_bind]. destruct (_ =? _); [|done].
  destruct (Nat.leb_spec 20 (length resp)); [|done].
  unfold err_code. do 4 index_step. done.
Qed.

Lemma names_short uid :
  Z.of_nat (String.length (veth_name_from_uid uid)) < 2 ^ 63
  ∧ Z.of_nat (String.length (peer_name_from_uid uid)) < 2 ^ 63.
Proof.
  assert (∀ p, String.length (p +:+ uid8 uid) ≤ String.length p + 8)%nat as H.
  { intros p. rewrite <- length_as_bytes, as_bytes_app, length_app, !length_as_bytes.
    unfold uid8. assert (∀ l, String.length (of_chars l) = length l) as -> by (induction l; cbn; auto).
    rewrite length_drop. lia. }
  unfold veth_name_from_uid, peer_name_from_uid.
  pose proof (H "veth-") as H1. pose proof (H "zeth-") as H2. cbn [String.length] in H1, H2. lia.
Qed.

Lemma total_create_veth uid p : total (create_pod_veth errno_name transact uid p).
Proof.
  destruct (names_short uid) as [Hv Hp]. unfold create_pod_veth, create_veth_pair.
  apply total_nl_bind; [apply total_nl_context|by intros []].
  apply total_nl_bind.
  { apply total_checked. by rewrite veth_message_spec. }
  intros _. apply total_nl_bind; [by apply total_get_ifindex|]. intros host_idx.
  apply total_nl_bind; [|done]. destruct (is_some p); [done|by apply total_get_ifindex].
Qed.

Lemma total_delete_veth uid : total (delete_veth errno_name transact (veth_name_from_uid uid)).
Proof.
  intros k. unfold delete_veth. apply exec_bind_total.
  { apply total_get_ifindex, names_short. }
  intros [[i|e] k']; [|done]. apply total_nl_context, total_del_link.
Qed.

Lemma total_on_host {A} (m : nl (K := K) A) : total m → total (on_host m).
Proof using Type. intros H s. unfold on_host. apply exec_bind_total; [apply H|by intros []]. Qed.

Lemma total_rollback uid ip i : total (rollback_veth errno_name transact uid ip i).
Proof.
  intros s. unfold rollback_veth.
  apply exec_bind_total; [apply total_on_host, total_nl_context, total_del_route|]. intros [? t1].
  apply exec_bind_total; [apply total_on_host, total_delete_veth|]. by intros [].
Qed.

Lemma total_attach_pod uid p subnet : total (attach_pod errno_name transact uid p subnet).
Proof.
  intros s. unfold attach_pod. destruct (take_pod_ip subnet s) as [[ip|e] s0]; [|done].
  apply exec_bind_total; [apply total_on_host, total_create_veth|].
  intros [[[[[??]host_idx]peer_idx]|] t1]; [|done].
  apply exec_bind_total; [apply total_on_host, total_nl_context, total_set_link_up|].
  intros [[|] t2]; [|apply exec_bind_total; [apply total_rollback|done]].
  apply exec_bind_total; [apply total_on_host, total_nl_context, total_add_route|].
  intros [[|] t3]; [|apply exec_bind_total; [apply total_rollback|done]].
  apply exec_bind_total; [apply total_on_host, total_nl_context, total_add_addr|]. by intros [].
Qed.

Lemma total_detach_pod uid ip i : total (detach_pod errno_name transact uid ip i).
Proof.
  intros s. unfold detach_pod.
  apply exec_bind_total; [apply total_on_host, total_nl_context, total_del_route|]. intros [? t1].
  apply exec_bind_total; [apply total_on_host, total_delete_veth|]. by intros [].
Qed.

Lemma total_enter p m1 m2 : total (enter_netns open_netns set_netns p m1 m2).
Proof. intros k. unfold enter_netns. destruct (negb _); [done|]. by destruct (set_netns p k). Qed.

Lemma total_guard {A} (m : nl (K := K) A) :
  total m → total (with_netns_guard open_netns set_netns m).
Proof.
  intros H k. unfold with_netns_guard. destruct (negb _); [done|].
  apply exec_bind_total; [apply H|]. intros [r k']. by destruct (set_netns 1 k').
Qed.

Lemma total_configure gw uid ip p i :
  total (configure_pod_netns errno_name transact open_netns set_netns gw uid ip p i).
Proof.
  unfold configure_pod_netns. apply total_nl_bind.
  { destruct (negb _); [apply total_nl_context, total_move_peer|done]. }
  intros _. apply total_guard, total_nl_bind.
  { destruct (_ =? _); [|done]. apply total_nl_bind; [apply total_enter|]. intros _.
    apply total_nl_bind; [apply total_nl_context, total_get_ifindex, names_short|]. intros idx.
    apply total_nl_bind; [apply total_enter|done]. }
  intros idx. apply total_nl_bind; [apply total_enter|]. intros _.
  apply total_nl_bind; [apply total_nl_context, total_nl_context, total_add_addr|]. intros _.
  apply total_nl_bind; [apply total_nl_context, total_set_link_up|]. intros _.
  apply total_nl_context, total_nl_context, total_add_route.
Qed.
End networking.

(** ** The supervisor and the controllers above it *)

Section supervising.
Context `{HO : HashOrder} `{UC : UnicodeCase} {K : Type} `{FS : FileSystem K}
        `{IJ : ImageConfigJson} `{OS : ContainerOS K}.
Variable errno_name : Z → string.
Variable transact : bytes → K → result bytes * K.
Variable open_netns : Z → K → bool.
Variable set_netns : Z → K → bool * K.
Variable cg : CgroupManager.
Variable base : string.
Variable is_root : bool.
Variable new_uuid : K → string * K.
Hypothesis HA : answers_in_full transact.
#[local] Set Default Proof Using "Type*".

Abbreviation start_pod_from_spec :=
  (start_pod_from_spec errno_name transact open_netns set_netns cg base is_root).
Abbreviation stop_pod_from_spec := (stop_pod_from_spec errno_name transact cg base).
Abbreviation start_pod := (start_pod errno_name transact open_netns set_netns cg base is_root).
Abbreviation stop_pod := (stop_pod errno_name transact cg base).
Abbreviation reconcile_impl :=
  (reconcile_impl errno_name transact open_netns set_netns cg base is_root new_uuid).

Lemma total_on_os {A} (f : K → A * K) : total (on_os (K := K) f).
Proof. intros s. unfold on_os. by destruct (f (os s)). Qed.
Lemma total_on_os_r {A} (f : K → result A * K) : total (on_os_r (K := K) f).
Proof. intros s. unfold on_os_r. by destruct (f (os s)). Qed.
Lemma total_on_mux {A} (f : NetMux K → exec (result A * NetMux K)) : total f → total (on_mux f).
Proof. intros H s. unfold on_mux. apply exec_bind_total; [apply H|by intros []]. Qed.
#[local] Hint Resolve total_on_os total_on_os_r : total.

Lemma total_attach uid p subnet :
  total (attach_and_configure errno_name transact open_netns set_netns uid p subnet).
Proof.
  apply total_bind; [by apply total_try, total_on_mux, total_attach_pod|].
  intros [[[ip host_idx] peer_idx]|e]; [|apply total_ret].
  apply total_bind; [|intros; apply total_ret].
  apply total_try, total_on_mux. intros m.
  refine (total_on_host _ _ m). by apply total_configure.
Qed.
#[local] Hint Resolve total_attach : total.

Lemma total_spawn cfg rootfs_path uid subnet :
  total (spawn_container_from_config errno_name transact open_netns set_netns cg is_root
           cfg rootfs_path uid subnet).
Proof.
  unfold spawn_container_from_config, spawn_native, spawn_root_ns_container,
    spawn_userns_container, handle_veth_netns.
  totality.
Qed.
#[local] Hint Resolve total_spawn : total.

Lemma total_spawn_all spec ph cfgs : ∀ prepared,
  total (spawn_all_loop errno_name transact open_netns set_netns cg is_root spec ph cfgs prepared).
Proof.
  induction cfgs as [|cfg cfgs IH]; intros prepared; cbn [spawn_all_loop]; [apply total_ret|].
  apply total_bind; [unfold prepare_rootfs; totality|]. intros rootfs_path.
  apply total_bind; [totality|]. intros [rc|e]; [apply IH|]. totality.
Qed.

Lemma total_start spec : total (start_pod_from_spec spec).
Proof.
  unfold Runtime.start_pod_from_spec, spawn_all_containers. pose proof total_spawn_all. totality.
Qed.

Lemma total_stop spec : total (stop_pod_from_spec spec).
Proof.
  unfold Runtime.stop_pod_from_spec. apply total_bind.
  - generalize (cc_container_id <$> cs_containers spec). intros cids.
    induction cids as [|cid cids IH]; cbn [stop_containers]; [apply total_ret|].
    apply total_bind; [|intros; apply total_bind; [|intros; apply total_bind]; auto with total].
    unfold detach_container. apply total_bind; [apply total_get|]. intros s.
    destruct (running s !! cid) as [rc|]; [|apply total_ret].
    destruct (pod_ip (instance rc)), (host_veth_ifindex (instance rc)); try apply total_ret.
    apply total_bind; [by apply total_try, total_on_mux, total_detach_pod|].
    intros; apply total_ret.
  - totality.
Qed.

Lemma total_on_sup {A} (m : execR (Supervisor K) A) : total m → total (on_sup m).
Proof. intros H c. unfold on_sup. apply exec_bind_total; [apply H|by intros []]. Qed.
Lemma total_make_spec r : total (make_spec base r).
Proof. intros c. unfold make_spec. by destruct (build_spec _ _ _ _). Qed.
#[local] Hint Resolve total_on_sup total_make_spec total_start total_stop : total.

Lemma total_start_pod now r : total (start_pod now r).
Proof. unfold Process.start_pod. totality. Qed.
Lemma total_stop_pod now r : total (stop_pod now r).
Proof. unfold Process.stop_pod. totality. Qed.
#[local] Hint Resolve total_start_pod total_stop_pod : total.

Lemma total_scale_up now t fuel : ∀ have created,
  total (scale_up errno_name transact open_netns set_netns cg base is_root new_uuid now t
           fuel have created).
Proof.
  induction fuel as [|fuel IH]; intros have created; cbn [scale_up]; [apply total_ret|].
  destruct (negb _); [apply total_ret|]. apply total_bind.
  { intros c. unfold fresh_pod_name. by destruct (new_uuid _). }
  intros pn. destruct (create_pod_from_template _ _); [|apply total_fail].
  apply total_bind; [apply total_modify|]. intros _.
  apply total_bind; [totality|]. intros [[]|e]; [apply IH|totality].
Qed.

Lemma total_scale_down now n : ∀ pods,
  total (scale_down errno_name transact cg base now n pods).
Proof.
  induction n as [|n IH]; intros pods; cbn [scale_down]; [apply total_ret|].
  destruct (reverse pods); [apply IH|]. apply total_bind; [unfold remove_excess; totality|].
  intros _. apply IH.
Qed.
#[local] Hint Resolve total_scale_up total_scale_down : total.

Lemma total_reconcile now r : total (reconcile_impl now r).
Proof. unfold Deployment.reconcile_impl. totality. Qed.

(** C36. As long as no answer of the kernel has 20 to 23 bytes, starting, stopping and
    reconciling return from every state: no slice, no loop and no missing object
    stops the process. *)
Theorem operations_return :
  (∀ spec s, ∃ r s', Runtime.start_pod_from_spec errno_name transact open_netns set_netns cg base
                          is_root spec s = Ret (r, s'))
  ∧ (∀ spec s, ∃ r s', Runtime.stop_pod_from_spec errno_name transact cg base spec s = Ret (r, s'))
  ∧ (∀ now r c, ∃ x c', Process.start_pod errno_name transact open_netns set_netns cg base is_root
                           now r c = Ret (x, c'))
  ∧ (∀ now r c, ∃ x c', Process.stop_pod errno_name transact cg base now r c = Ret (x, c'))
  ∧ (∀ now r c, ∃ x c', Deployment.reconcile_impl errno_name transact open_netns set_netns cg base is_root
                           new_uuid now r c = Ret (x, c')).
Proof.
  assert (∀ (S A : Type) (m : S → exec (result A * S)), total m → ∀ s, ∃ r s', m s = Ret (r, s')) as H.
  { intros S A m Hm s. destruct (total_returns m s Hm) as [[r s'] E]. eauto. }
  split_and!; intros; apply H; auto with total. apply total_reconcile.
Qed.
End supervising.

(** ** Concrete instances *)

#[local] Existing Instance sample_os.
#[local] Existing Instance sample_case.
#[local] Existing Instance sample_image_json.

(** A kernel whose answers all have the given length. *)
Definition answers (n : nat) (b : bytes) (k : Tree) : result bytes * Tree := (Ok (zeros n), k).

Lemma operations_return_witness :
  answers_in_full (answers 36)
  ∧ ∃ x c', reconcile_impl (λ _, "E") (answers 36) (λ _ _, true) (λ _ k, (true, k)) sample_cg "/b"
              true sample_uuid 7 (RDeployment (sample_deploy 2)) empty_cluster = Ret (x, c').
Proof.
  assert (answers_in_full (answers 36)) as H by (intros b k resp k' [= <- <-]; right; cbn; lia).
  split; [exact H|].
  apply (operations_return (λ _, "E") (answers 36) (λ _ _, true) (λ _ k, (true, k)) sample_cg "/b"
    true sample_uuid H).
Defined.

(** With an answer of 20 bytes, attaching a pod aborts the process. *)
Lemma short_answer_panics :
  attach_pod (λ _, "E") (answers 20) "pod" (Some 7) None (netmux sample_sup) = Panic.
Proof. vm_compute. reflexivity. Qed.
