(* ===== verification/Policy.v ===== *)
(** * Policy: network policies (src/src/netmux/np_controller.rs,
    src/src/components/network/networkpolicy.rs)

    [NetworkPolicyController] compiles the ingress rules of a policy to nftables sets
    and forwarding rules, and keeps for every set the addresses it should hold. The
    state is the map of sets and the nftables engine. The component and the pod
    reconciler create a controller for every call. *)
From S2P Require Import Prelude Text Utf8 Resources Pool Nft NetMux.

(** ** Label selectors *)

Definition expression_matches (pod_labels : gmap string string) (expr : LabelSelectorRequirement)
    : bool :=
  let pod_val := pod_labels !! lsr_key expr in
  if bool_decide (lsr_operator expr = "In") then
    match lsr_values expr with
    | Some values => match pod_val with Some v => bool_decide (v ∈ values) | None => false end
    | None => false
    end
  else if bool_decide (lsr_operator expr = "NotIn") then
    match lsr_values expr with
    | Some values => match pod_val with Some v => negb (bool_decide (v ∈ values)) | None => true end
    | None => true
    end
  else if bool_decide (lsr_operator expr = "Exists") then is_some pod_val
  else if bool_decide (lsr_operator expr = "DoesNotExist") then negb (is_some pod_val)
  else false.

Definition labels_match_selector (pod_labels : gmap string string) (sel : LabelSelector) : bool :=
  match ls_match_labels sel with
  | Some match_labels => has_labels match_labels pod_labels
  | None => true
  end
  && match ls_match_expressions sel with
     | Some exprs => forallb (expression_matches pod_labels) exprs
     | None => true
     end.

(** ** The controller *)

Record PolicySet := {
  ip_addrs : list Ipv4Addr;
  pod_selector : option LabelSelector;
  namespace_selector : option LabelSelector
}.

Section policy.
Context `{HO : HashOrder} {net KN : Type}.
Variable batch_send : batch net → KN → send_outcome * KN.
Variable parse_net : string → option net.

Record NetworkPolicyController := { sets : gmap string PolicySet; np_nft : NftEngine KN }.

Definition npc_new (e : NftEngine KN) : NetworkPolicyController := {| sets := ∅; np_nft := e |}.

Abbreviation npc := (stateR NetworkPolicyController).

Definition on_nft {A} (f : stateR (NftEngine KN) A) : npc A := λ s,
  let '(r, e) := f (np_nft s) in (r, {| sets := sets s; np_nft := e |}).

(** [sets.entry(name).or_insert_with(|| ps)] *)
Definition or_insert (name : string) (ps : PolicySet) : npc unit :=
  sr_modify (λ s, {| sets := if is_some (sets s !! name) then sets s else <[name := ps]> (sets s);
                     np_nft := np_nft s |}).

Definition ALL := "0.0.0.0/0".

(** A set without elements, the rule that accepts from it, and its entry. *)
Definition add_policy_set (set_name : string) (ps : PolicySet) : npc unit :=
  _ ← on_nft (create_set batch_send set_name []);
  _ ← on_nft (add_forward_allow_set_src batch_send parse_net set_name ALL);
  or_insert set_name ps.

Definition apply_ip_block (b : IPBlock) : npc unit :=
  _ ← on_nft (add_forward_allow batch_send parse_net (ib_cidr b) ALL);
  for_each (λ except, on_nft (add_forward_deny batch_send parse_net except ALL))
    (unwrap_or (ib_except b) []).

Definition apply_peer (ns name : string) (idx : nat) (peer : NetworkPolicyPeer) : npc unit :=
  let suffix := ns +:+ ":" +:+ name +:+ ":" +:+ display (Z.of_nat idx) in
  _ ← match npp_pod_selector peer with
      | Some ps => add_policy_set ("np:" +:+ suffix)
                     {| ip_addrs := []; pod_selector := Some ps; namespace_selector := None |}
      | None => mret ()
      end;
  _ ← match npp_namespace_selector peer with
      | Some sel => add_policy_set ("np:ns:" +:+ suffix)
                      {| ip_addrs := []; pod_selector := None; namespace_selector := Some sel |}
      | None => mret ()
      end;
  match npp_ip_block peer with
  | Some b => apply_ip_block b
  | None => mret ()
  end.

Definition apply_network_policy (np : NetworkPolicy) : npc unit :=
  let ns := unwrap_or (om_namespace (np_metadata np)) "default" in
  let name := unwrap_or (om_name (np_metadata np)) "unknown" in
  match np_spec np with
  | None | Some None => mret ()
  | Some (Some ingress_rules) =>
      for_each (λ '(idx, from), for_each (apply_peer ns name idx) (unwrap_or from []))
        (imap pair ingress_rules)
  end.

(** ** Pods *)

(** The entry of a set after a pod came, if it changes. *)
Definition with_pod (pod_ip : Ipv4Addr) (lbls : gmap string string) (ps : PolicySet)
    : option PolicySet :=
  let matches := match pod_selector ps with
                 | Some sel => labels_match_selector lbls sel
                 | None => true
                 end in
  if matches && negb (bool_decide (pod_ip ∈ ip_addrs ps)) then
    Some {| ip_addrs := ip_addrs ps ++ [pod_ip]; pod_selector := pod_selector ps;
            namespace_selector := namespace_selector ps |}
  else None.

(** [ip_addrs.remove(position of pod_ip)] *)
Fixpoint remove_first (x : Ipv4Addr) (l : list Ipv4Addr) : list Ipv4Addr :=
  match l with
  | [] => []
  | y :: l' => if y =? x then l' else y :: remove_first x l'
  end.
Definition without_pod (pod_ip : Ipv4Addr) (ps : PolicySet) : option PolicySet :=
  if bool_decide (pod_ip ∈ ip_addrs ps) then
    Some {| ip_addrs := remove_first pod_ip (ip_addrs ps); pod_selector := pod_selector ps;
            namespace_selector := namespace_selector ps |}
  else None.

(** Change the entries by [f] and send the sets that changed, in the order of the
    map; a set that cannot be sent is logged. *)
Definition update_sets (f : PolicySet → option PolicySet) : npc unit := λ s,
  let to_update := omap (λ '(n, ps), if is_some (f ps) then Some n else None)
                     (hash_iter (sets s)) in
  let s := {| sets := (λ ps, unwrap_or (f ps) ps) <$> sets s; np_nft := np_nft s |} in
  for_each (λ name, λ s,
    let ips := unwrap_or (ip_addrs <$> sets s !! name) [] in
    let '(_, s) := on_nft (replace_set batch_send name ips) s in (Ok (), s)) to_update s.

Definition update_pod (pod_ip : Ipv4Addr) (lbls : gmap string string) (ns : string) : npc unit :=
  update_sets (with_pod pod_ip lbls).

Definition remove_pod (pod_ip : Ipv4Addr) : npc unit := update_sets (without_pod pod_ip).

(** ** The component *)

(** A call on a controller of its own. *)
Definition fresh_npc (f : npc unit) (e : NftEngine KN) : result unit * NftEngine KN :=
  let '(r, s) := f (npc_new e) in (r, np_nft s).

Definition np_on_apply (np : NetworkPolicy) : NftEngine KN → result unit * NftEngine KN :=
  fresh_npc (apply_network_policy np).
End policy.

#[global] Arguments NetworkPolicyController : clear implicits.

(** ** Selectors *)

(** What a requirement says, after the Kubernetes documentation. *)
Definition requirement_holds (lbls : gmap string string) (e : LabelSelectorRequirement) : Prop :=
  let values := unwrap_or (lsr_values e) [] in
  (lsr_operator e = "In" ∧ ∃ v, lbls !! lsr_key e = Some v ∧ v ∈ values)
  ∨ (lsr_operator e = "NotIn" ∧ ∀ v, lbls !! lsr_key e = Some v → v ∉ values)
  ∨ (lsr_operator e = "Exists" ∧ is_Some (lbls !! lsr_key e))
  ∨ (lsr_operator e = "DoesNotExist" ∧ lbls !! lsr_key e = None).

Lemma expression_matches_spec lbls e :
  expression_matches lbls e = true ↔ requirement_holds lbls e.
Proof.
  unfold expression_matches, requirement_holds.
  generalize (lsr_operator e) as op, (lsr_values e) as vs, (lbls !! lsr_key e) as o.
  intros op vs o. cbn zeta.
  case_bool_decide as H1; [subst|case_bool_decide as H2; [subst|
    case_bool_decide as H3; [subst|case_bool_decide as H4; [subst|]]]];
    (split; [intros Hm|intros [[Ho Hm]|[[Ho Hm]|[[Ho Hm]|[Ho Hm]]]]; try congruence]).
  - left. split; [done|]. destruct vs, o; try done. apply bool_decide_eq_true in Hm. eauto.
  - destruct Hm as (v & -> & Hv). destruct vs; [by apply bool_decide_eq_true|by apply elem_of_nil in Hv].
  - right; left. split; [done|]. intros v ->. destruct vs; [|by intros ?%elem_of_nil].
    by apply negb_true_iff, bool_decide_eq_false in Hm.
  - destruct vs, o; try done. by apply negb_true_iff, bool_decide_eq_false, Hm.
  - do 2 right; left. destruct o; [by eexists|done].
  - by destruct Hm as [v ->].
  - do 3 right. by destruct o.
  - by subst.
  - done.
Qed.

Lemma labels_match_selector_helper lbls sel :
  labels_match_selector lbls sel = true ↔
  unwrap_or (ls_match_labels sel) ∅ ⊆ lbls
  ∧ Forall (requirement_holds lbls) (unwrap_or (ls_match_expressions sel) []).
Proof.
  unfold labels_match_selector. rewrite andb_true_iff. f_equiv.
  - destruct (ls_match_labels sel); cbn [unwrap_or]; [apply has_labels_spec|].
    split; [intros _; apply map_empty_subseteq|done].
  - destruct (ls_match_expressions sel) as [l|]; cbn [unwrap_or]; [|by split].
    rewrite forallb_forall, Forall_forall. setoid_rewrite list_elem_of_In.
    by setoid_rewrite expression_matches_spec.
Qed.

(** A pod matches a selector exactly when it carries all its labels and meets all
    its requirements. *)
Theorem labels_match_selector_spec lbls sel :
  labels_match_selector lbls sel = true ↔
  unwrap_or (ls_match_labels sel) ∅ ⊆ lbls
  ∧ Forall (requirement_holds lbls) (unwrap_or (ls_match_expressions sel) []).
Proof. apply labels_match_selector_helper. Qed.

(** ** What a policy compiles to *)

Section compile.
Context `{HO : HashOrder} {net : Type}.
Variable parse_net : string → option net.
Variable in_net : net → Ipv4Addr → bool.
Abbreviation log := (list (batch net)).
Abbreviation npc := (stateR (NetworkPolicyController log)).
Implicit Types e : NftEngine log.

(** On a kernel that accepts everything the call succeeds and sends [l]. *)
Definition logs (f : npc unit) (l : log) : Prop :=
  ∀ s, ∃ m, f s = (Ok (), {| sets := m; np_nft := log_app l (np_nft s) |}).

Lemma logs_ret : logs (mret ()) [].
Proof. intros s. exists (sets s). rewrite log_app_nil. by destruct s. Qed.

Lemma logs_bind (f g : npc unit) l1 l2 :
  logs f l1 → logs g l2 → logs (_ ← f; g) (l1 ++ l2).
Proof.
  intros Hf Hg s. destruct (Hf s) as [m1 E1]. unfold mbind, stateR_bind. rewrite E1.
  destruct (Hg {| sets := m1; np_nft := log_app l1 (np_nft s) |}) as [m2 E2].
  exists m2. rewrite E2. cbn [np_nft]. by rewrite log_app_app.
Qed.

Lemma logs_for_each {A} (f : A → npc unit) (g : A → log) l :
  Forall (λ x, logs (f x) (g x)) l → logs (for_each f l) (l ≫= g).
Proof.
  induction 1 as [|x l Hx _ IH]; [apply logs_ret|]. cbn [for_each]. by apply logs_bind.
Qed.

Lemma logs_on_nft (f : stateR (NftEngine log) unit) l :
  (∀ e, f e = (Ok (), log_app l e)) → logs (on_nft f) l.
Proof. intros H s. unfold on_nft. rewrite H. by eexists. Qed.

Lemma logs_modify (f : gmap string PolicySet → gmap string PolicySet) :
  logs (sr_modify (λ s, {| sets := f (sets s); np_nft := np_nft s |})) [].
Proof. intros s. eexists. rewrite log_app_nil. done. Qed.

Variable n0 : net.
Hypothesis parse_all : parse_net ALL = Some n0.
#[local] Set Default Proof Using "Type*".

Definition set_batches (set_name : string) : log :=
  [[(OSet FILTER_TABLE set_name, MsgAdd); (OSetElems FILTER_TABLE set_name [], MsgAdd)];
   [(ORule FILTER_TABLE "nsg-rules" (SetDnetAccept set_name n0), MsgAdd)]].

Definition cidr_batches (accept : bool) (c : string) : log :=
  match parse_net c with Some n => [nsg_rule_batch n n0 accept] | None => [] end.
Definition block_batches (b : IPBlock) : log :=
  cidr_batches true (ib_cidr b) ++ (unwrap_or (ib_except b) [] ≫= cidr_batches false).

Definition peer_batches (suffix : string) (p : NetworkPolicyPeer) : log :=
  (if is_some (npp_pod_selector p) then set_batches ("np:" +:+ suffix) else [])
  ++ (if is_some (npp_namespace_selector p) then set_batches ("np:ns:" +:+ suffix) else [])
  ++ match npp_ip_block p with Some b => block_batches b | None => [] end.

Definition policy_rules (np : NetworkPolicy) : list (nat * option (list NetworkPolicyPeer)) :=
  match np_spec np with Some (Some l) => imap pair l | _ => [] end.
Definition policy_suffix (np : NetworkPolicy) (idx : nat) : string :=
  unwrap_or (om_namespace (np_metadata np)) "default" +:+ ":"
  +:+ unwrap_or (om_name (np_metadata np)) "unknown" +:+ ":" +:+ display (Z.of_nat idx).
Definition policy_batches (np : NetworkPolicy) : log :=
  policy_rules np ≫= λ r, unwrap_or r.2 [] ≫= peer_batches (policy_suffix np r.1).

Definition policy_blocks (np : NetworkPolicy) : list IPBlock :=
  policy_rules np ≫= λ r, omap npp_ip_block (unwrap_or r.2 []).
Definition block_parses (b : IPBlock) : Prop :=
  Forall (λ c, is_Some (parse_net c)) (ib_cidr b :: unwrap_or (ib_except b) []).

Lemma logs_cidr accept c :
  is_Some (parse_net c) →
  logs (on_nft (add_forward record_send parse_net accept c ALL)) (cidr_batches accept c).
Proof.
  intros [n Hn]. apply logs_on_nft. intros e. unfold cidr_batches. rewrite Hn.
  by apply add_forward_record.
Qed.

Lemma logs_block b : block_parses b → logs (apply_ip_block record_send parse_net b) (block_batches b).
Proof.
  intros [Hc He]%Forall_cons. unfold apply_ip_block, add_forward_allow, add_forward_deny.
  apply logs_bind; [by apply logs_cidr|]. apply logs_for_each.
  eapply Forall_impl; [exact He|]. intros c Hp. by apply logs_cidr.
Qed.

Lemma logs_set n ps : logs (add_policy_set record_send parse_net n ps) (set_batches n).
Proof.
  unfold add_policy_set. apply (logs_bind _ _ [_] [_]); [by apply logs_on_nft|].
  rewrite <- (app_nil_r [_]). apply logs_bind.
  - apply logs_on_nft. intros e.
    unfold add_forward_allow_set_src, parse_cidr_net, lift_result, mbind, stateR_bind.
    by rewrite parse_all.
  - apply (logs_modify (λ m, if is_some (m !! n) then m else <[n := ps]> m)).
Qed.

Lemma logs_peer ns n idx p :
  Forall block_parses (option_list (npp_ip_block p)) →
  logs (apply_peer record_send parse_net ns n idx p)
    (peer_batches (ns +:+ ":" +:+ n +:+ ":" +:+ display (Z.of_nat idx)) p).
Proof.
  intros Hb. unfold apply_peer, peer_batches.
  apply logs_bind; [destruct (npp_pod_selector p); [apply logs_set|apply logs_ret]|].
  apply logs_bind; [destruct (npp_namespace_selector p); [apply logs_set|apply logs_ret]|].
  destruct (npp_ip_block p); cbn in Hb; [|apply logs_ret].
  apply Forall_cons in Hb as [Hb _]. by apply logs_block.
Qed.

Lemma logs_policy np :
  Forall block_parses (policy_blocks np) →
  logs (apply_network_policy record_send parse_net np) (policy_batches np).
Proof.
  unfold apply_network_policy, policy_batches, policy_blocks, policy_rules.
  destruct (np_spec np) as [[rules|]|]; intros Hb; [|apply logs_ret..].
  apply logs_for_each, Forall_forall. intros [idx from] Hin. cbn [fst snd].
  apply logs_for_each, Forall_forall. intros p Hp. apply logs_peer, Forall_forall.
  intros b Hbp. rewrite Forall_forall in Hb. apply Hb, list_elem_of_bind.
  exists (idx, from). split; [|done]. cbn [snd]. apply list_elem_of_omap. exists p. split; [done|].
  destruct (npp_ip_block p); [|by apply elem_of_nil in Hbp].
  apply list_elem_of_singleton in Hbp. by subst.
Qed.

(** ** The verdict of a policy *)

(** The elements the kernel has in a set. *)
Definition set_elems (l : log) (n : string) : list Ipv4Addr :=
  concat l ≫= λ x, match x with
                   | (OSetElems t n' ips, MsgAdd) =>
                       if bool_decide (t = FILTER_TABLE) && bool_decide (n' = n) then ips else []
                   | _ => []
                   end.

Definition policy_rule_verdict (elems : string → list Ipv4Addr) (src dst : Ipv4Addr)
    (r : rule_expr net) : option bool :=
  match r with
  | SetDnetAccept n d => if bool_decide (src ∈ elems n) && in_net d dst then Some true else None
  | _ => rule_verdict in_net src dst r
  end.

Definition forward_verdict (src dst : Ipv4Addr) e : option bool :=
  find_map (policy_rule_verdict (set_elems (kernel e)) src dst) (chain_rules (kernel e)).

(** Every element list ever sent is empty. *)
Definition no_elems (l : log) : Prop :=
  Forall (λ x, match x with (OSetElems _ _ ips, _) => ips = [] | _ => True end) (concat l).

Lemma no_elems_app l1 l2 : no_elems (l1 ++ l2) ↔ no_elems l1 ∧ no_elems l2.
Proof using Type. unfold no_elems. by rewrite concat_app, Forall_app. Qed.

Lemma no_elems_set l n : no_elems l → set_elems l n = [].
Proof using Type.
  unfold no_elems, set_elems. induction 1 as [|[o k] l' Hx _ IH]; [done|]. cbn [mbind list_bind].
  rewrite IH. destruct o, k; try done. subst. by destruct (_ && _).
Qed.

Definition added_rule (x : nft_obj net * msg_kind) : option (rule_expr net) :=
  match x with
  | (ORule t c r, MsgAdd) =>
      if bool_decide (t = FILTER_TABLE) && bool_decide (c = "nsg-rules") then Some r else None
  | _ => None
  end.
Definition keeps_chain (x : nft_obj net * msg_kind) : Prop :=
  match x with (OChain _ _ _, MsgDel) => False | _ => True end.

Lemma chain_step_added acc l :
  Forall keeps_chain l → foldl chain_step acc l = acc ++ omap added_rule l.
Proof using Type.
  intros H. revert acc. induction H as [|[o k] l Hx _ IH]; intros acc; [by rewrite app_nil_r|].
  cbn [foldl]. rewrite IH.
  destruct o, k; try done; cbn; destruct (_ && _); cbn; by rewrite <- ?app_assoc.
Qed.

Lemma find_map_app {A B} (f : A → option B) l1 l2 :
  find_map f (l1 ++ l2) = match find_map f l1 with Some y => Some y | None => find_map f l2 end.
Proof using Type. induction l1 as [|x l1 IH]; cbn; [done|]. by destruct (f x). Qed.

(** The verdict of the rules that batches add, when all sets are empty. *)
Definition added_verdict (src dst : Ipv4Addr) (l : log) : option bool :=
  find_map (policy_rule_verdict (λ _, []) src dst) (omap added_rule (concat l)).

Lemma added_verdict_app src dst l1 l2 :
  added_verdict src dst (l1 ++ l2)
  = match added_verdict src dst l1 with Some v => Some v | None => added_verdict src dst l2 end.
Proof using Type. unfold added_verdict. by rewrite concat_app, omap_app, find_map_app. Qed.

Lemma added_verdict_bind {A} src dst (f : A → log) l :
  added_verdict src dst (l ≫= f) = find_map (λ x, added_verdict src dst (f x)) l.
Proof using Type.
  induction l as [|x l IH]; [done|]. cbn [mbind list_bind find_map].
  by rewrite added_verdict_app, IH.
Qed.

Hypothesis in_all : ∀ ip, in_net n0 ip = true.

Lemma cidr_verdict src dst a c :
  added_verdict src dst (cidr_batches a c) = if cidr_has parse_net in_net c src then Some a else None.
Proof.
  unfold cidr_batches, cidr_has. destruct (parse_net c) as [n|]; [|done].
  unfold added_verdict. cbn. rewrite !bool_decide_true by done. cbn. by rewrite in_all, andb_true_r; case_match.
Qed.

(** The exceptions of a block lie in the block. *)
Definition excepts_within (b : IPBlock) : Prop :=
  ∀ c ip, c ∈ unwrap_or (ib_except b) [] → cidr_has parse_net in_net c ip = true →
    cidr_has parse_net in_net (ib_cidr b) ip = true.

Lemma block_verdict src dst b :
  excepts_within b →
  added_verdict src dst (block_batches b)
  = if cidr_has parse_net in_net (ib_cidr b) src then Some true else None.
Proof.
  intros Hw. unfold block_batches. rewrite added_verdict_app, cidr_verdict.
  destruct (cidr_has _ _ (ib_cidr b) src) eqn:E; [done|]. rewrite added_verdict_bind.
  apply find_map_None. intros c Hc. rewrite cidr_verdict.
  destruct (cidr_has _ _ c src) eqn:Ec; [|done]. rewrite (Hw c src Hc Ec) in E. done.
Qed.

Lemma peer_verdict src dst suffix p :
  Forall excepts_within (option_list (npp_ip_block p)) →
  added_verdict src dst (peer_batches suffix p)
  = match npp_ip_block p with
    | Some b => if cidr_has parse_net in_net (ib_cidr b) src then Some true else None
    | None => None
    end.
Proof.
  intros Hw. unfold peer_batches. rewrite !added_verdict_app.
  assert (∀ n, added_verdict src dst (set_batches n) = None) as Hs.
  { intros n. unfold added_verdict. cbn. rewrite !bool_decide_true by done. cbn.
    by rewrite bool_decide_false by set_solver. }
  destruct (is_some (npp_pod_selector p)); rewrite ?Hs;
    destruct (is_some (npp_namespace_selector p)); rewrite ?Hs;
    change (added_verdict src dst []) with (@None bool); cbn [option_list] in Hw;
    (destruct (npp_ip_block p) as [b|]; [|done]); apply Forall_cons in Hw as [Hw _];
    by apply block_verdict.
Qed.

(** What a policy adds: no element and no deletion. *)
Definition plain_obj (x : nft_obj net * msg_kind) : Prop :=
  keeps_chain x ∧ match x with (OSetElems _ _ ips, _) => ips = [] | _ => True end.

Lemma policy_batches_plain np : Forall (Forall plain_obj) (policy_batches np).
Proof.
  assert (∀ a c, Forall (Forall plain_obj) (cidr_batches a c)) as Hc.
  { intros a c. unfold cidr_batches. destruct (parse_net c); repeat constructor. }
  unfold policy_batches. apply Forall_bind, Forall_forall. intros [idx from] _.
  apply Forall_bind, Forall_forall. intros p _. unfold peer_batches, set_batches, block_batches.
  repeat apply Forall_app_2; try (case_match; repeat constructor).
  apply Forall_app_2; [apply Hc|]. apply Forall_bind, Forall_forall. intros c _. apply Hc.
Qed.

Lemma find_map_if {A} (p : A → bool) l :
  find_map (λ x, if p x then Some true else None) l = if existsb p l then Some true else None.
Proof using Type. induction l as [|x l IH]; [done|]. cbn. by destruct (p x). Qed.

Lemma policy_verdict src dst np :
  Forall excepts_within (policy_blocks np) →
  added_verdict src dst (policy_batches np)
  = if existsb (λ b, cidr_has parse_net in_net (ib_cidr b) src) (policy_blocks np)
    then Some true else None.
Proof.
  rewrite <- find_map_if. unfold policy_batches, policy_blocks. generalize (policy_rules np).
  intros l. induction l as [|[idx from] l IH]; [done|]. cbn [mbind list_bind fst snd].
  intros [Hw Hws]%Forall_app. rewrite added_verdict_app, find_map_app, (IH Hws). f_equal.
  clear IH. revert Hw. generalize (unwrap_or from []). intros ps.
  induction ps as [|p ps IH]; [done|]. cbn [mbind list_bind omap list_omap].
  intros Hw. rewrite added_verdict_app.
  destruct (npp_ip_block p) as [b|] eqn:Eb.
  - apply Forall_cons in Hw as [Hb Hw]. rewrite peer_verdict by (rewrite Eb; by repeat constructor).
    rewrite Eb. cbn [find_map]. destruct (cidr_has _ _ _ _); [done|]. by apply IH.
  - rewrite peer_verdict by (rewrite Eb; constructor). rewrite Eb. by apply IH.
Qed.

Lemma policy_batches_no_elems np : no_elems (policy_batches np).
Proof.
  apply Forall_concat. eapply Forall_impl; [apply policy_batches_plain|]. intros b Hb.
  eapply Forall_impl; [exact Hb|]. by intros x [].
Qed.

Lemma verdict_no_elems src dst k l :
  no_elems k →
  find_map (policy_rule_verdict (set_elems k) src dst) l
  = find_map (policy_rule_verdict (λ _, []) src dst) l.
Proof using Type.
  intros Hk. induction l as [|r l IH]; [done|]. cbn [find_map]. rewrite IH.
  destruct r; try done. cbn [policy_rule_verdict]. by rewrite (no_elems_set _ _ Hk).
Qed.

End compile.

(** ** No pod ever enters a set *)

Section fresh.
Context `{HO : HashOrder} {net KN : Type}.
Variable batch_send : batch net → KN → send_outcome * KN.
Variable parse_net : string → option net.
#[local] Set Default Proof Using "Type".

Lemma update_sets_fresh f (e : NftEngine KN) :
  fresh_npc (update_sets batch_send f) e = (Ok (), e).
Proof.
  unfold fresh_npc, update_sets, npc_new. cbn [sets np_nft].
  assert (hash_iter (∅ : gmap string PolicySet) = []) as ->.
  { apply Permutation_nil. rewrite hash_iter_perm, map_to_list_empty. done. }
  by destruct e.
Qed.

Lemma fresh_update_pod ip lbls ns (e : NftEngine KN) :
  fresh_npc (update_pod batch_send ip lbls ns) e = (Ok (), e).
Proof. apply update_sets_fresh. Qed.
Lemma fresh_remove_pod ip (e : NftEngine KN) : fresh_npc (remove_pod batch_send ip) e = (Ok (), e).
Proof. apply update_sets_fresh. Qed.

(** Pods come and go without any effect on the policies: the controller that is told
    of them is a new one, which knows no set. *)
Theorem policy_ignores_pods ip lbls ns (e : NftEngine KN) :
  fresh_npc (update_pod batch_send ip lbls ns) e = (Ok (), e)
  ∧ fresh_npc (remove_pod batch_send ip) e = (Ok (), e).
Proof. split; [apply fresh_update_pod|apply fresh_remove_pod]. Qed.
End fresh.

Section empty.
Context `{HO : HashOrder} {net : Type}.
Variable parse_net : string → option net.
Abbreviation log := (list (batch net)).
Abbreviation npc := (stateR (NetworkPolicyController log)).
Implicit Types e : NftEngine log.
#[local] Set Default Proof Using "Type".

(** [f] sends no element, whether it succeeds or not. *)
Definition sends_none {S A} (eng : S → NftEngine log) (f : stateR S A) : Prop :=
  sr_keeps (λ s, no_elems (kernel (eng s))) f.

Lemma sends_none_send (b : batch net) :
  Forall (λ x, match x with (OSetElems _ _ ips, _) => ips = [] | _ => True end) b →
  sends_none id (send (K := log) record_send b).
Proof.
  intros Hb s Hs. cbn. apply no_elems_app. split; [done|]. unfold no_elems. cbn.
  by rewrite app_nil_r.
Qed.

Lemma sends_none_on_nft {A} (f : stateR (NftEngine log) A) :
  sends_none id f → sends_none (np_nft (KN := log)) (on_nft f).
Proof.
  intros Hf s Hs. unfold on_nft. specialize (Hf (np_nft s) Hs). by destruct (f (np_nft s)).
Qed.

Lemma sends_none_forward a c d : sends_none id (add_forward (K := log) record_send parse_net a c d).
Proof.
  unfold add_forward, parse_cidr_net.
  apply sr_keeps_bind; [apply sr_keeps_lift|]. intros n1.
  apply sr_keeps_bind; [apply sr_keeps_lift|]. intros n2.
  apply sends_none_send. repeat constructor.
Qed.

Lemma sends_none_set n ps :
  sends_none (np_nft (KN := log)) (add_policy_set record_send parse_net n ps).
Proof.
  unfold add_policy_set. apply sr_keeps_bind.
  { apply sends_none_on_nft, sends_none_send. repeat constructor. }
  intros _. apply sr_keeps_bind; [|by intros _ s].
  apply sends_none_on_nft. unfold add_forward_allow_set_src, parse_cidr_net.
  apply sr_keeps_bind; [apply sr_keeps_lift|]. intros d.
  apply sends_none_send. repeat constructor.
Qed.

Lemma sends_none_peer ns n idx p :
  sends_none (np_nft (KN := log)) (apply_peer record_send parse_net ns n idx p).
Proof.
  unfold apply_peer. apply sr_keeps_bind.
  { destruct (npp_pod_selector p); [apply sends_none_set|apply sr_keeps_ret]. }
  intros _. apply sr_keeps_bind.
  { destruct (npp_namespace_selector p); [apply sends_none_set|apply sr_keeps_ret]. }
  intros _. destruct (npp_ip_block p) as [b|]; [|apply sr_keeps_ret].
  apply sr_keeps_bind; [apply sends_none_on_nft, sends_none_forward|].
  intros _. apply sr_keeps_for_each. intros c. apply sends_none_on_nft, sends_none_forward.
Qed.

Lemma sends_none_policy np :
  sends_none (np_nft (KN := log)) (apply_network_policy record_send parse_net np).
Proof.
  unfold apply_network_policy. destruct (np_spec np) as [[rules|]|]; try apply sr_keeps_ret.
  apply sr_keeps_for_each. intros [idx from]. apply sr_keeps_for_each. intros p.
  apply sends_none_peer.
Qed.

(** What the program does with policies: applying one, and telling of a pod that
    came or went. *)
Inductive np_step : NftEngine log → NftEngine log → Prop :=
  | np_step_apply np e : np_step e (np_on_apply record_send parse_net np e).2
  | np_step_update ip lbls ns e : np_step e (fresh_npc (update_pod record_send ip lbls ns) e).2
  | np_step_remove ip e : np_step e (fresh_npc (remove_pod record_send ip) e).2.

(** Every set of every policy stays empty, whatever pods run: a rule that accepts from
    a set never matches. *)
Theorem policy_sets_stay_empty e e' n :
  rtc np_step e e' → no_elems (kernel e) → set_elems (kernel e') n = [].
Proof.
  intros Hs He. apply no_elems_set. induction Hs as [|e e1 e2 H _ IH]; [done|].
  apply IH. destruct H as [np e|ip lbls ns e|ip e].
  - unfold np_on_apply, fresh_npc. pose proof (sends_none_policy np (npc_new e) He) as H.
    by destruct (apply_network_policy _ _ _ _).
  - by rewrite fresh_update_pod.
  - by rewrite fresh_remove_pod.
Qed.
End empty.

(** ** Witnesses *)

Definition sample_block : IPBlock :=
  {| ib_cidr := "10.0.0.0/8"; ib_except := Some ["10.0.0.0/8"] |}.
Definition sample_selector : LabelSelector :=
  {| ls_match_labels := Some {[ "app" := "web" ]}; ls_match_expressions := None |}.
Definition sample_policy : NetworkPolicy :=
  {| np_metadata := meta_default;
     np_spec := Some (Some [Some
       [{| npp_pod_selector := Some sample_selector; npp_namespace_selector := None;
           npp_ip_block := Some sample_block |}]]) |}.


Lemma policy_sets_stay_empty_witness :
  set_elems (net := option Ipv4Cidr) (kernel
    (fresh_npc (update_pod record_send 0x0A010001 {[ "app" := "web" ]} "default")
      (np_on_apply record_send sample_parse sample_policy sample_engine).2).2)
    "np:default:unknown:0" = [].
Proof.
  apply (policy_sets_stay_empty sample_parse sample_engine).
  - eapply rtc_l; [apply (np_step_apply sample_parse sample_policy)|].
    apply rtc_once, np_step_update.
  - constructor.
Defined.
