(* ===== verification/Ingress.v ===== *)
(** * Ingress: HTTP routes by host (src/src/netmux/ingress.rs,
    src/src/components/network/ingress.rs)

    The ingress proxy keeps for every ingress the routes of its hosts, reads the Host
    header of a connection, and connects it to the cluster address of the service that
    the host leads to. The component also enters the hosts in the DNS records. The state
    is the map of routes and the map of records; the store is read only. The socket
    calls themselves (peek, connect, copy) are not modelled: [connection_target] is the
    address a connection is joined to. *)
From S2P Require Import Prelude Text Utf8 Resources.

(** ** Routes *)

(** A service and its port. *)
Definition Route : Type := string * Z.

Definition IngressState : Type := gmap string (gmap string Route).

Definition ingress_state_new : IngressState := ∅.

Definition path_route (path : IngressPath) : Route :=
  let port := u16 (unwrap_or (svc ← ip_backend_service path; p ← ibs_port_number svc; p) 80) in
  (unwrap_or (ibs_name <$> ip_backend_service path) "", port).

Definition add_rule (routes_by_host : gmap string Route) (rule : IngressRule) : gmap string Route :=
  let host := unwrap_or (ir_host rule) "*" in
  match ir_http rule with
  | Some paths => foldl (λ m path, <[host := path_route path]> m) routes_by_host paths
  | None => routes_by_host
  end.

Definition ing_uid (ing : Ingress) : string := unwrap_or (om_uid (ing_metadata ing)) "".

Definition apply_ingress (ing : Ingress) : stateR IngressState unit := λ routes,
  match ing_spec ing with
  | None => (Ok (), routes)
  | Some rules => (Ok (), <[ing_uid ing := foldl add_rule ∅ (unwrap_or rules [])]> routes)
  end.

Definition remove_ingress (ing : Ingress) : stateR IngressState unit := λ routes,
  (Ok (), delete (ing_uid ing) routes).

(** ** Connections *)

(** [&s[n..]] and [s.rfind(c).map(|i| &s[..i]).unwrap_or(s)] *)
Definition str_from (n : nat) (s : string) : string := of_bytes (drop n (as_bytes s)).
Definition before_last (c : ascii) (s : string) : string :=
  match rsplit_once c s with Some (l, _) => l | None => s end.

Definition host_line (line : string) : option string :=
  if starts_with "host:" (to_ascii_lowercase line) then
    Some (before_last ":" (trim (str_from 5 line)))
  else None.

Definition extract_host (buf : bytes) : option string :=
  s ← from_utf8 buf; find_map host_line (lines s).

Section connection.
Context `{HO : HashOrder}.

(** The first table of the map that knows the host or has a wildcard. *)
Definition find_backend (host : string) (routes : IngressState) : option Route :=
  find_map (λ m : gmap string Route, match m !! host with Some r => Some r | None => m !! "*" end)
    (hash_values routes).

Definition endpoint_of (service_name : string) (t : ResourceTracker) : option string :=
  match resource t with
  | RService svc =>
      if bool_decide (om_name (svc_metadata svc) = Some service_name) then
        ip ← (s ← svc_spec svc; ss_cluster_ip s);
        if bool_decide (ip ≠ "") && bool_decide (ip ≠ "None") then Some ip else None
      else None
  | _ => None
  end.

Definition resolve_endpoint (store : ResourceStore) (service_name : string) (port : Z)
    : string * Z :=
  match find_map (endpoint_of service_name) (get_by_kind "Service" store) with
  | Some ip => (ip, port)
  | None => ("127.0.0.1", port)
  end.

(** Where [handle_connection] connects a client whose first bytes are [buf]. *)
Definition connection_target (routes : IngressState) (store : ResourceStore) (buf : bytes)
    : option (string * Z) :=
  match buf with
  | [] => None
  | _ =>
      let host := unwrap_or (extract_host buf) "" in
      '(svc, p) ← find_backend host routes;
      Some (resolve_endpoint store svc p)
  end.
End connection.

(** ** The component *)

(** The fields of [NetMux] that the component uses. *)
Record IngressNet := {
  ingress_state : IngressState;
  dns_records : gmap string Ipv4Addr;
  ing_gateway : Ipv4Addr
}.

Definition set_routes (r : IngressState) (s : IngressNet) : IngressNet :=
  {| ingress_state := r; dns_records := dns_records s; ing_gateway := ing_gateway s |}.
Definition set_records (d : gmap string Ipv4Addr) (s : IngressNet) : IngressNet :=
  {| ingress_state := ingress_state s; dns_records := d; ing_gateway := ing_gateway s |}.

Definition on_routes {A} (f : stateR IngressState A) : stateR IngressNet A := λ s,
  let '(r, routes) := f (ingress_state s) in (r, set_routes routes s).

Definition rule_hosts (ing : Ingress) : list string :=
  omap ir_host (unwrap_or (unwrap_or (ing_spec ing) None) []).

Definition ingress_on_apply (r : AnyResource) : stateR IngressNet unit :=
  match r with
  | RIngress ing =>
      _ ← on_routes (apply_ingress ing);
      sr_modify (λ s, set_records
        (foldl (λ d host, if bool_decide (host = "") then d else <[host := ing_gateway s]> d)
           (dns_records s) (rule_hosts ing)) s)
  | _ => mret ()
  end.

Definition ingress_on_delete (r : AnyResource) : stateR IngressNet unit :=
  match r with
  | RIngress ing =>
      _ ← on_routes (remove_ingress ing);
      sr_modify (λ s, set_records
        (foldl (λ d host, delete host d) (dns_records s) (rule_hosts ing)) s)
  | _ => mret ()
  end.

(** ** Reading the host of a request *)

Definition crlf : string := of_bytes [13; 10].
Definition header_lines (l : list string) : string := foldr (λ s t, s +:+ crlf +:+ t) "" l.
Definition host_header (name host port : string) : string := name +:+ ": " +:+ host +:+ port.

Lemma lines_cons l t : has_char newline l = false → lines (l +:+ crlf +:+ t) = l :: lines t.
Proof.
  intros Hl. unfold lines.
  change (l +:+ crlf +:+ t) with (l +:+ (of_bytes [13] +:+ String newline t)).
  rewrite <- string_app_assoc, split_on_app by (by rewrite has_char_app, Hl).
  cbn [finish_lines]. destruct (split_on newline t) eqn:E; [by apply split_on_ne in E|].
  unfold strip_cr. by rewrite strip_suffix_app.
Qed.

Lemma trim_space s : forallb graphic (chars s) = true → trim (" " +:+ s) = s.
Proof.
  intros Hs. rewrite <- (all_graphic_trim s Hs) at 2. done.
Qed.

Lemma to_ascii_lowercase_app s t :
  to_ascii_lowercase (s +:+ t) = to_ascii_lowercase s +:+ to_ascii_lowercase t.
Proof.
  unfold to_ascii_lowercase. rewrite as_bytes_app, fmap_app.
  generalize (lower_byte <$> as_bytes s), (lower_byte <$> as_bytes t). intros l1 l2.
  induction l1 as [|b l1 IH]; [done|]. cbn. by rewrite IH.
Qed.

Lemma str_from_app s t : str_from (String.length s) (s +:+ t) = t.
Proof.
  unfold str_from. rewrite as_bytes_app, <- length_as_bytes, drop_app_length. apply of_as_bytes.
Qed.

Lemma before_last_port host port :
  has_char ":" host = false → port = "" ∨ (∃ n, 0 ≤ n ∧ port = ":" +:+ display n) →
  before_last ":" (host +:+ port) = host.
Proof.
  intros Hh [->|(n & Hn & ->)]; unfold before_last.
  - rewrite string_app_nil_r. unfold rsplit_once.
    by rewrite split_once_None by (by rewrite has_char_srev).
  - change (host +:+ ":" +:+ display n) with (host +:+ String ":" (display n)).
    rewrite rsplit_once_app; [done|].
    apply not_true_iff_false. intros Hc. pose proof (display_digits n Hn) as Hd. revert Hc Hd.
    generalize (display n). intros s. induction s as [|a s IH]; [done|]. cbn.
    intros [E|E]%orb_true_iff Hd; apply andb_true_iff in Hd as [Ha Hd]; [|auto].
    apply Ascii.eqb_eq in E as ->. done.
Qed.

Lemma host_line_header name host port :
  to_ascii_lowercase name = "host" → has_char ":" host = false →
  forallb graphic (chars (host +:+ port)) = true →
  port = "" ∨ (∃ n, 0 ≤ n ∧ port = ":" +:+ display n) →
  host_line (host_header name host port) = Some host.
Proof.
  intros Hn Hh Hg Hp. unfold host_line, host_header.
  rewrite to_ascii_lowercase_app, Hn.
  change (": " +:+ host +:+ port) with (":" +:+ (" " +:+ (host +:+ port))).
  rewrite to_ascii_lowercase_app. change (to_ascii_lowercase ":") with ":".
  change ("host" +:+ ":" +:+ to_ascii_lowercase (" " +:+ (host +:+ port)))
    with ("host:" +:+ to_ascii_lowercase (" " +:+ (host +:+ port))).
  rewrite starts_with_app. f_equal.
  assert (String.length name = 4%nat) as Hl.
  { apply (f_equal String.length) in Hn. revert Hn. unfold to_ascii_lowercase.
    rewrite <- !length_as_bytes. intros Hn. rewrite <- (length_fmap lower_byte).
    revert Hn. generalize (lower_byte <$> as_bytes name). intros l Hl.
    assert (∀ l, length (as_bytes (of_bytes l)) = length l) as E
      by (intros k; induction k; cbn; auto). by rewrite E in Hl. }
  assert (str_from 5 (name +:+ ":" +:+ (" " +:+ (host +:+ port))) = " " +:+ (host +:+ port)) as ->.
  { rewrite <- string_app_assoc. replace 5%nat with (String.length (name +:+ ":")).
    - apply str_from_app.
    - rewrite <- length_as_bytes, as_bytes_app, length_app, !length_as_bytes, Hl. done. }
  rewrite trim_space by done. by apply before_last_port.
Qed.

(** The host of a request is found whatever the headers around it: the name of the
    header in any case, a port dropped. *)
Theorem extract_host_request before name host port rest :
  let text := header_lines before +:+ host_header name host port +:+ crlf +:+ rest in
  Forall (λ l, has_char newline l = false ∧ starts_with "host:" (to_ascii_lowercase l) = false)
    before →
  to_ascii_lowercase name = "host" → has_char newline name = false →
  has_char ":" host = false → forallb graphic (chars (host +:+ port)) = true →
  port = "" ∨ (∃ n, 0 ≤ n ∧ port = ":" +:+ display n) →
  utf8_valid (as_bytes text) = true →
  extract_host (as_bytes text) = Some host.
Proof.
  intros text Hb Hn Hnl Hh Hg Hp Hu. unfold extract_host, from_utf8. rewrite Hu, of_as_bytes.
  cbn [mbind option_bind]. subst text. clear Hu.
  induction Hb as [|l before [Hl Hs] Hb IH]; cbn [header_lines foldr].
  - assert (has_char newline (host +:+ port) = false) as Hg'.
    { revert Hg. generalize (host +:+ port). intros s. induction s as [|a s IH]; [done|].
      cbn [has_char chars forallb].
      intros [Ha Hs]%andb_true_iff. rewrite IH by done. rewrite orb_false_r.
      apply Ascii.eqb_neq. intros ->. done. }
    change ("" +:+ host_header name host port +:+ crlf +:+ rest)
      with (host_header name host port +:+ crlf +:+ rest).
    rewrite lines_cons; [cbn [find_map]; by rewrite host_line_header|].
    unfold host_header. rewrite !has_char_app, Hnl. rewrite has_char_app in Hg'. by rewrite Hg'.
  - rewrite !string_app_assoc. fold (header_lines before). rewrite lines_cons by done.
    cbn [find_map]. unfold host_line at 1. by rewrite Hs.
Qed.

(** ** The routes of an ingress *)

(** The backends an ingress lists for a host, in order. *)
Definition host_backends (host : string) (rules : list IngressRule) : list Route :=
  r ← rules;
  if bool_decide (unwrap_or (ir_host r) "*" = host) then path_route <$> unwrap_or (ir_http r) []
  else [].

Lemma add_rule_lookup m r h :
  add_rule m r !! h = match last (host_backends h [r]) with Some x => Some x | None => m !! h end.
Proof.
  unfold add_rule, host_backends. cbn [mbind list_bind]. rewrite app_nil_r.
  generalize (unwrap_or (ir_host r) "*"). intros host.
  destruct (ir_http r) as [ps|]; cbn [unwrap_or]; [|by case_bool_decide].
  revert m. induction ps as [|p ps IH]; intros m; cbn [foldl]; [by case_bool_decide|].
  rewrite IH. case_bool_decide as E.
  - cbn [fmap list_fmap]. rewrite last_cons. rewrite E, lookup_insert_eq. by destruct (last _).
  - cbn. by rewrite lookup_insert_ne.
Qed.

Lemma routes_lookup rules m h :
  foldl add_rule m rules !! h
  = match last (host_backends h rules) with Some x => Some x | None => m !! h end.
Proof.
  revert m. induction rules as [|r rules IH]; intros m; [done|]. cbn [foldl]. rewrite IH.
  rewrite add_rule_lookup. change (r :: rules) with ([r] ++ rules). unfold host_backends at 3.
  rewrite bind_app. fold (host_backends h rules). fold (host_backends h [r]).
  rewrite last_app. by destruct (last (host_backends h rules)).
Qed.

Section routing.
Context `{HO : HashOrder}.

Lemma find_backend_insert uid m routes h r :
  m !! h = Some r →
  (∀ u m', u ≠ uid → routes !! u = Some m' → m' !! h = None ∧ m' !! "*" = None) →
  find_backend h (<[uid := m]> routes) = Some r.
Proof.
  intros Hm Ho. unfold find_backend. set (f := λ m : gmap string Route, _).
  assert (∀ m', m' ∈ hash_values (<[uid := m]> routes) → m' = m ∨ f m' = None) as Hf.
  { intros m' (u & Hu)%elem_of_hash_values.
    apply lookup_insert_Some in Hu as [[_ ->]|[Hne Hu]]; [by left|right].
    destruct (Ho u m') as [E1 E2]; [done..|]. subst f. cbn. by rewrite E1. }
  destruct (find_map f (hash_values (<[uid := m]> routes))) as [y|] eqn:E.
  - apply find_map_Some in E as (m' & Hin & E). destruct (Hf m' Hin) as [->|E']; [|congruence].
    subst f. cbn in E. rewrite Hm in E. congruence.
  - rewrite find_map_None in E. specialize (E m). subst f. cbn in E. rewrite Hm in E.
    discriminate E. apply elem_of_hash_values. exists uid. apply lookup_insert_eq.
Qed.

Lemma resolve_endpoint_found store svc p ip :
  (∃ t, t ∈ get_by_kind "Service" store ∧ endpoint_of svc t = Some ip) →
  (∀ t ip', t ∈ get_by_kind "Service" store → endpoint_of svc t = Some ip' → ip' = ip) →
  resolve_endpoint store svc p = (ip, p).
Proof.
  intros (t & Ht & Hip) Hu. unfold resolve_endpoint.
  destruct (find_map _ _) as [ip'|] eqn:E.
  - apply find_map_Some in E as (t' & Ht' & E). by rewrite (Hu t' ip' Ht' E).
  - rewrite find_map_None in E. rewrite (E t Ht) in Hip. done.
Qed.

End routing.

(** ** Applying and deleting *)

Lemma insert_hosts_lookup (gw : Ipv4Addr) hosts (d : gmap string Ipv4Addr) k :
  k ∉ hosts →
  foldl (λ d host, if bool_decide (host = "") then d else <[host := gw]> d) d hosts !! k = d !! k.
Proof.
  revert d. induction hosts as [|h hosts IH]; intros d Hk; [done|]. cbn [foldl].
  rewrite IH by set_solver. case_bool_decide; [done|]. apply lookup_insert_ne. set_solver.
Qed.

Lemma delete_hosts_lookup (hosts : list string) (d : gmap string Ipv4Addr) k :
  foldl (λ d host, delete host d) d hosts !! k = if bool_decide (k ∈ hosts) then None else d !! k.
Proof.
  revert d. induction hosts as [|h hosts IH]; intros d; [done|]. cbn [foldl]. rewrite IH.
  destruct (decide (k = h)) as [->|Hne].
  - rewrite (bool_decide_true (h ∈ h :: hosts)) by set_solver. rewrite lookup_delete_eq.
    by case_bool_decide.
  - rewrite lookup_delete_ne by done. do 2 case_bool_decide; set_solver.
Qed.

Lemma on_apply_eq ing s :
  ingress_on_apply (RIngress ing) s
  = (Ok (), set_records
       (foldl (λ d host, if bool_decide (host = "") then d else <[host := ing_gateway s]> d)
          (dns_records s) (rule_hosts ing))
       (set_routes (apply_ingress ing (ingress_state s)).2 s)).
Proof.
  unfold ingress_on_apply, on_routes, apply_ingress, mbind, stateR_bind. by destruct (ing_spec ing).
Qed.

Lemma on_delete_eq ing s :
  ingress_on_delete (RIngress ing) s
  = (Ok (), set_records (foldl (λ d host, delete host d) (dns_records s) (rule_hosts ing))
       (set_routes (delete (ing_uid ing) (ingress_state s)) s)).
Proof. done. Qed.

(** Deleting an ingress undoes its application, when the ingress and its hosts were
    unknown before. *)
Theorem ingress_delete_undoes_apply ing s :
  ingress_state s !! ing_uid ing = None →
  Forall (λ h, dns_records s !! h = None) (rule_hosts ing) →
  ingress_on_delete (RIngress ing) (ingress_on_apply (RIngress ing) s).2 = (Ok (), s).
Proof.
  intros Hr Hd. rewrite on_apply_eq, on_delete_eq. cbn. f_equal.
  destruct s as [routes d gw]; cbn in *. unfold set_records, set_routes; cbn. f_equal.
  - unfold apply_ingress. destruct (ing_spec ing); cbn; [apply delete_insert_id|apply delete_id]; done.
  - apply map_eq. intros k. rewrite delete_hosts_lookup. case_bool_decide as Hk.
    + rewrite Forall_forall in Hd. by rewrite Hd.
    + by apply insert_hosts_lookup.
Qed.

(** When two ingresses share a host, deleting one removes the DNS record of the host
    although the routes of the other still serve it. *)
Theorem shared_host_loses_record a b s h :
  ing_uid a ≠ ing_uid b → ing_spec a ≠ None → h ∈ rule_hosts b →
  let s1 := (ingress_on_apply (RIngress b) (ingress_on_apply (RIngress a) s).2).2 in
  let s2 := (ingress_on_delete (RIngress b) s1).2 in
  dns_records s2 !! h = None
  ∧ ingress_state s2 !! ing_uid a = Some (foldl add_rule ∅ (unwrap_or (unwrap_or (ing_spec a) None) [])).
Proof.
  intros Hu Ha Hh s1 s2. subst s1 s2. rewrite !on_apply_eq, on_delete_eq.
  cbn [snd ingress_state dns_records set_records set_routes]. split.
  - rewrite delete_hosts_lookup. by rewrite bool_decide_true.
  - unfold remove_ingress, IngressState. cbn [snd]. rewrite lookup_delete_ne by done. unfold apply_ingress.
    destruct (ing_spec a) as [ra|]; [|done]. cbn [snd unwrap_or].
    unfold IngressState. destruct (ing_spec b); cbn [snd]; [rewrite lookup_insert_ne by done|]; apply lookup_insert_eq.
Qed.

(** ** Witnesses *)

Definition sample_ingress (u host : string) : Ingress :=
  {| ing_metadata := {| om_name := Some "web"; om_namespace := None; om_uid := Some u;
       om_labels := None; om_annotations := None; om_owner_references := None;
       om_creation_timestamp := None; om_resource_version := None |};
     ing_spec := Some (Some [{| ir_host := Some host;
       ir_http := Some [{| ip_backend_service :=
         Some {| ibs_name := "svc"; ibs_port_number := Some (Some 8080) |} |}] |}]) |}.

Definition sample_service : AnyResource := RService {|
  svc_metadata := set_name (Some "svc") meta_default;
  svc_spec := Some {| ss_type := None; ss_cluster_ip := Some "10.96.0.9"; ss_cluster_ips := None;
                      ss_selector := None; ss_ports := None; ss_external_name := None |};
  svc_has_status := false |}.

Definition sample_request : string :=
  header_lines ["GET / HTTP/1.1"] +:+ host_header "Host" "a.example" ":80" +:+ crlf +:+ crlf.

Definition sample_net : IngressNet :=
  {| ingress_state := ingress_state_new; dns_records := ∅; ing_gateway := 0x0A000001 |}.

Lemma extract_host_request_witness : extract_host (as_bytes sample_request) = Some "a.example".
Proof.
  apply (extract_host_request ["GET / HTTP/1.1"] "Host" "a.example" ":80" crlf); try done.
  - by repeat constructor.
  - right. by exists 80.
Defined.


Lemma ingress_delete_undoes_apply_witness :
  ingress_on_delete (RIngress (sample_ingress "u" "a.example"))
    (ingress_on_apply (RIngress (sample_ingress "u" "a.example")) sample_net).2
  = (Ok (), sample_net).
Proof.
  apply (ingress_delete_undoes_apply (sample_ingress "u" "a.example") sample_net); [done|].
  by repeat constructor.
Defined.

Lemma shared_host_loses_record_witness :
  let a := sample_ingress "u" "a.example" in
  let b := sample_ingress "v" "a.example" in
  dns_records (ingress_on_delete (RIngress b)
    (ingress_on_apply (RIngress b) (ingress_on_apply (RIngress a) sample_net).2).2).2
  !! "a.example" = None.
Proof.
  apply (shared_host_loses_record (sample_ingress "u" "a.example") (sample_ingress "v" "a.example")
    sample_net "a.example"); [done..|]. apply list_elem_of_here.
Defined.
