(* ===== verification/Storage.v ===== *)
(** * Storage: volumes, claims and their provisioning (src/src/components/storage/pv.rs,
    src/src/components/storage/pvc.rs, src/src/storage/mod.rs,
    src/src/storage/hostpath.rs, src/src/storage/loop_prov.rs)

    A claim is bound to a volume that is large enough and offers its access modes, or
    a volume is made for it by the provisioner of its storage class. The state is the
    resource store, the set of claims being provisioned and the operating system, which
    is an interface: files and commands. The clock and the UUID generator, which draws from
    the operating system, are arguments. *)
From S2P Require Import Prelude Text Utf8 Resources Quantity.

(** ** The operating system *)

(** Files by path, and commands: [None] when the command cannot be started, else
    whether it succeeded, its exit status as text and its output. *)
Class StorageOS (OS : Type) := {
  so_exists : string → OS → bool;
  so_create_dir_all : string → OS → bool * OS;
  so_remove_dir_all : string → OS → OS;
  so_remove_file : string → OS → OS;
  so_command : string → list string → OS → option (bool * string * bytes) * OS;
  (** The text of the error of bytes that are not UTF-8. *)
  so_utf8_error : bytes → string
}.

Section backends.
Context {OS : Type} `{SO : StorageOS OS}.

Definition create_dir_all (p msg : string) : stateR OS unit := λ o,
  let '(ok, o) := so_create_dir_all p o in (if ok then Ok () else Err msg, o).

Definition run_with_output (cmd : string) (args : list string) : stateR OS bytes := λ o,
  match so_command cmd args o with
  | (None, o) => (Err ("failed to execute " +:+ cmd), o)
  | (Some (success, status, out), o) =>
      (if success : bool then Ok out else Err (cmd +:+ " exited with " +:+ status), o)
  end.

Definition run (cmd : string) (args : list string) : stateR OS unit :=
  _ ← run_with_output cmd args; mret ().

Definition cleanup_file (path : string) : stateR OS unit := sr_modify (so_remove_file path).

Definition is_mounted (path : string) : stateR OS bool := λ o,
  match so_command "mountpoint" ["-q"; path] o with
  | (Some (success, _, _), o) => (Ok success, o)
  | (None, o) => (Ok false, o)
  end.

(** ** Host paths *)

Definition pv_host_path (pv : PersistentVolume) : option string :=
  s ← pv_spec pv; pvs_host_path s.

Definition hostpath_provision (pv : PersistentVolume) : stateR OS PersistentVolume :=
  host_path ← lift_result (ok_or (pv_host_path pv) "PV has no hostPath");
  o ← sr_get;
  _ ← if so_exists host_path o then mret ()
      else create_dir_all host_path ("create dir " +:+ host_path);
  mret pv.

Definition hostpath_deprovision (pv : PersistentVolume) : stateR OS unit :=
  match pv_host_path pv with
  | None => mret ()
  | Some host_path =>
      o ← sr_get;
      if so_exists host_path o then sr_modify (so_remove_dir_all host_path) else mret ()
  end.

(** ** Loop devices *)

Definition storage_of (m : option (gmap string Quantity)) : Z :=
  unwrap_or (parse_quantity_bytes <$> (m ← m; m !! "storage")) 0.

Definition pv_capacity (pv : PersistentVolume) : Z :=
  storage_of (s ← pv_spec pv; pvs_capacity s).

Definition insert_annotation (k v : string) (m : ObjectMeta) : ObjectMeta := {|
  om_name := om_name m; om_namespace := om_namespace m; om_uid := om_uid m;
  om_labels := om_labels m;
  om_annotations := Some (<[k := v]> (unwrap_or (om_annotations m) ∅));
  om_owner_references := om_owner_references m;
  om_creation_timestamp := om_creation_timestamp m;
  om_resource_version := om_resource_version m |}.

Definition set_pv_meta (f : ObjectMeta → ObjectMeta) (pv : PersistentVolume) : PersistentVolume :=
  {| pv_metadata := f (pv_metadata pv); pv_spec := pv_spec pv; pv_phase := pv_phase pv |}.

Definition loop_provision (pv : PersistentVolume) : stateR OS PersistentVolume :=
  match pv_host_path pv with
  | None => lift_result (Err "PV has no hostPath")
  | Some host_path =>
      let img_path := host_path +:+ ".img" in
      o ← sr_get;
      mounted ← if so_exists host_path o then
                  m ← is_mounted host_path;
                  if m : bool then mret true
                  else _ ← sr_modify (so_remove_dir_all host_path); mret false
                else mret false;
      if mounted : bool then mret pv
      else
        let capacity := pv_capacity pv in
        if capacity =? 0 then lift_result (Err "loop provisioner requires non-zero capacity")
        else
          parent ← lift_result (ok_or (path_parent img_path) "image path has no parent directory");
          _ ← create_dir_all parent ("create " +:+ parent);
          _ ← create_dir_all host_path ("create mount dir " +:+ host_path);
          _ ← run "truncate" ["-s"; display capacity; img_path];
          _ ← run "mkfs.ext4" ["-F"; img_path];
          out ← run_with_output "losetup" ["-f"; "--show"; img_path];
          text ← lift_result (ok_or (from_utf8 out) ("invalid losetup output: " +:+ so_utf8_error out));
          let loop_dev := trim text in
          if bool_decide (loop_dev = "") then
            _ ← cleanup_file img_path;
            lift_result (Err "losetup returned empty device")
          else
            r ← sr_try (run "mount" [loop_dev; host_path]);
            match r with
            | Err e =>
                _ ← sr_try (run "losetup" ["-d"; loop_dev]);
                _ ← cleanup_file img_path;
                lift_result (Err ("mount failed: " +:+ e))
            | Ok _ =>
                let pv := set_pv_meta (insert_annotation "z8s.io/image-path" img_path)
                            (set_pv_meta (insert_annotation "z8s.io/loop-device" loop_dev) pv) in
                _ ← sr_try (run "chmod" ["0777"; host_path]);
                mret pv
            end
  end.

Definition loop_deprovision (pv : PersistentVolume) : stateR OS unit :=
  match om_annotations (pv_metadata pv), pv_host_path pv with
  | None, _ | _, None => mret ()
  | Some annotations, Some host_path =>
      if bool_decide (host_path = "") then mret ()
      else
        let img_path := unwrap_or (annotations !! "z8s.io/image-path") "" in
        _ ← match annotations !! "z8s.io/loop-device" with
            | None => mret ()
            | Some loop_dev =>
                m ← is_mounted host_path;
                _ ← (if m : bool then
                       r ← sr_try (run "umount" [host_path]);
                       match r with
                       | Err _ => _ ← sr_try (run "umount" ["-l"; host_path]); mret ()
                       | Ok _ => mret ()
                       end
                     else mret ());
                _ ← sr_try (run "losetup" ["-d"; loop_dev]);
                mret ()
            end;
        o ← sr_get;
        if negb (bool_decide (img_path = "")) && so_exists img_path o then cleanup_file img_path
        else mret ()
  end.
End backends.

(** ** Storage classes *)

Record StorageClass := { sc_name : string; sc_provisioner : string }.

Definition builtin : list StorageClass :=
  [{| sc_name := "standard"; sc_provisioner := "z8s.io/loop" |};
   {| sc_name := "hostpath"; sc_provisioner := "z8s.io/hostpath" |}].

Definition by_name (n : string) : option StorageClass :=
  find_first (λ c, bool_decide (sc_name c = n)) builtin.

(** The implementations of [StorageProvisionerBackend]. *)
Inductive Backend := LoopProvisioner | HostPathProvisioner.

Definition backend_named (p : string) : option Backend :=
  if bool_decide (p = "z8s.io/loop") then Some LoopProvisioner
  else if bool_decide (p = "z8s.io/hostpath") then Some HostPathProvisioner
  else None.

Definition select (class : StorageClass) : result Backend :=
  ok_or (backend_named (sc_provisioner class))
    ("unknown provisioner '" +:+ sc_provisioner class +:+ "'").

(** ** The dispatcher *)

Definition set_pv_phase (p : string) (pv : PersistentVolume) : PersistentVolume :=
  {| pv_metadata := pv_metadata pv; pv_spec := pv_spec pv; pv_phase := Some (Some p) |}.

Definition bound_status (pv : PersistentVolume) : PersistentVolumeClaimStatus :=
  {| pct_phase := Some "Bound";
     pct_capacity := (s ← pv_spec pv; pvs_capacity s);
     pct_access_modes := (s ← pv_spec pv; pvs_access_modes s) |}.

(** The claim with a volume, as every binding leaves it. *)
Definition bind_claim (pv_name : string) (pv : PersistentVolume) (pvc : PersistentVolumeClaim)
    (spec : PersistentVolumeClaimSpec) : PersistentVolumeClaim :=
  {| pvc_metadata := pvc_metadata pvc;
     pvc_spec := Some {| pcs_access_modes := pcs_access_modes spec;
                         pcs_requests := pcs_requests spec;
                         pcs_volume_name := Some pv_name;
                         pcs_storage_class_name := pcs_storage_class_name spec |};
     pvc_status := Some (bound_status pv) |}.

(** The volume that is made for a claim of a class. *)
Definition claimed_pv (uuid : string) (class : StorageClass) (pvc : PersistentVolumeClaim)
    (spec : PersistentVolumeClaimSpec) : PersistentVolume :=
  let pvc_ns := unwrap_or (om_namespace (pvc_metadata pvc)) "default" in
  let pvc_name := unwrap_or (om_name (pvc_metadata pvc)) "unknown" in
  let pv_name := "pvc-" +:+ pvc_ns +:+ "--" +:+ pvc_name in
  {| pv_metadata := {|
       om_name := Some pv_name; om_namespace := None; om_uid := Some uuid; om_labels := None;
       om_annotations := Some {[ "z8s.io/provisioner" := sc_provisioner class ]};
       om_owner_references := None; om_creation_timestamp := None;
       om_resource_version := None |};
     pv_spec := Some {|
       pvs_capacity := unwrap_or (pcs_requests spec) None;
       pvs_access_modes := pcs_access_modes spec;
       pvs_claim_ref := Some {| ref_kind := Some "PersistentVolumeClaim";
                                ref_name := om_name (pvc_metadata pvc);
                                ref_namespace := om_namespace (pvc_metadata pvc) |};
       pvs_reclaim_policy := Some "Delete";
       pvs_host_path := Some ("/var/lib/z8s/pv/" +:+ pv_name) |};
     pv_phase := Some (Some "Available") |}.

Section storage.
Context `{HO : HashOrder} {OS : Type} `{SO : StorageOS OS}.
Variable now : Z.
Variable new_uuid : OS → string * OS.

Record ProvisionerDispatcher := {
  sto_store : ResourceStore;
  inflight : gmap string unit;
  sto_os : OS
}.
Abbreviation sto := (stateR ProvisionerDispatcher).

Definition on_os {A} (f : stateR OS A) : sto A := λ s,
  let '(r, o) := f (sto_os s) in
  (r, {| sto_store := sto_store s; inflight := inflight s; sto_os := o |}).
Definition on_store (f : ResourceStore → ResourceStore) : sto unit :=
  sr_modify (λ s, {| sto_store := f (sto_store s); inflight := inflight s; sto_os := sto_os s |}).
Definition on_inflight (f : gmap string unit → gmap string unit) : sto unit :=
  sr_modify (λ s, {| sto_store := sto_store s; inflight := f (inflight s); sto_os := sto_os s |}).

Definition backend_provision (b : Backend) : PersistentVolume → stateR OS PersistentVolume :=
  match b with LoopProvisioner => loop_provision | HostPathProvisioner => hostpath_provision end.
Definition backend_deprovision (b : Backend) : PersistentVolume → stateR OS unit :=
  match b with LoopProvisioner => loop_deprovision | HostPathProvisioner => hostpath_deprovision end.

Definition do_provision (pvc : PersistentVolumeClaim) (class_name : string) : sto unit :=
  spec ← lift_result (ok_or (pvc_spec pvc) "PVC has no spec");
  class ← lift_result (ok_or (by_name class_name) ("unknown storage class '" +:+ class_name +:+ "'"));
  uuid ← on_os (λ o, let '(u, o) := new_uuid o in (Ok u, o));
  let pv := claimed_pv uuid class pvc spec in
  let pv_name := unwrap_or (om_name (pv_metadata pv)) "" in
  b ← lift_result (select class);
  pv ← on_os (backend_provision b pv);
  let pv := set_pv_phase "Bound" pv in
  let updated_pvc := bind_claim pv_name pv pvc spec in
  _ ← on_store (apply now (RPersistentVolume pv));
  on_store (apply now (RPersistentVolumeClaim updated_pvc)).

(** Whether the store holds the claim with a volume. *)
Definition already_bound (pvc : PersistentVolumeClaim) (store : ResourceStore) : bool :=
  let pvc_uid := "PersistentVolumeClaim/" +:+ unwrap_or (om_namespace (pvc_metadata pvc)) "default"
                 +:+ "/" +:+ unwrap_or (om_name (pvc_metadata pvc)) "unknown" in
  match get pvc_uid store with
  | Some t => match resource t with
              | RPersistentVolumeClaim p => is_some (s ← pvc_spec p; pcs_volume_name s)
              | _ => false
              end
  | None => false
  end.

(** The part of [provision_for_pvc] before the claim is marked: the claim's uid and
    class if there is work to do. *)
Definition to_provision (pvc : PersistentVolumeClaim) : result (option (string * string)) :=
  spec ← ok_or (pvc_spec pvc) "PVC has no spec";
  match pcs_storage_class_name spec with
  | None => Ok None
  | Some class_name =>
      if is_some (pcs_volume_name spec) then Ok None
      else u ← ok_or (om_uid (pvc_metadata pvc)) "PVC has no uid"; Ok (Some (u, class_name))
  end.

(** Mark a claim, atomically; [false] when it is marked already. *)
Definition enter (u : string) : sto bool := λ s,
  if is_some (inflight s !! u) then (Ok false, s) else (_ ← on_inflight (insert u ()); mret true) s.
Definition leave (u : string) : sto unit := on_inflight (delete u).

Definition provision_for_pvc (pvc : PersistentVolumeClaim) : sto unit :=
  w ← lift_result (to_provision pvc);
  match w with
  | None => mret ()
  | Some (u, class_name) =>
      fresh ← enter u;
      if fresh : bool then
        s ← sr_get;
        if already_bound pvc (sto_store s) then leave u
        else
          r ← sr_try (do_provision pvc class_name);
          _ ← leave u;
          lift_result r
      else mret ()
  end.

Definition deprovision_pv (pv : PersistentVolume) : sto unit :=
  let prov := unwrap_or (a ← om_annotations (pv_metadata pv); a !! "z8s.io/provisioner") "" in
  match backend_named prov with
  | Some b => on_os (backend_deprovision b pv)
  | None => mret ()
  end.

(** ** Claims *)

Definition modes_ok (pvc_modes pv_modes : option (list string)) : bool :=
  let pvc_modes := unwrap_or pvc_modes [] in
  let pv_modes := unwrap_or pv_modes [] in
  bool_decide (pvc_modes = []) || forallb (λ m, bool_decide (m ∈ pv_modes)) pvc_modes.

Definition req_storage (spec : PersistentVolumeClaimSpec) : Z :=
  storage_of (unwrap_or (pcs_requests spec) None).

Definition pv_claim_ref (pv : PersistentVolume) : option ObjectReference :=
  s ← pv_spec pv; pvs_claim_ref s.

Definition matching_pv (spec : PersistentVolumeClaimSpec) (t : ResourceTracker)
    : option PersistentVolume :=
  match resource t with
  | RPersistentVolume pv =>
      if is_some (pv_claim_ref pv) then None
      else if bool_decide (pv_phase pv = Some (Some "Bound")) then None
      else if pv_capacity pv <? req_storage spec then None
      else if negb (modes_ok (pcs_access_modes spec) (s ← pv_spec pv; pvs_access_modes s)) then None
      else Some pv
  | _ => None
  end.

Definition find_matching_pv (pvc : PersistentVolumeClaim) (pvs : list ResourceTracker)
    : option PersistentVolume :=
  spec ← pvc_spec pvc; find_map (matching_pv spec) pvs.

Definition claim_pv (claim_name claim_ns : option string) (pv : PersistentVolume)
    (spec : PersistentVolumeSpec) : PersistentVolume :=
  {| pv_metadata := pv_metadata pv;
     pv_spec := Some {| pvs_capacity := pvs_capacity spec; pvs_access_modes := pvs_access_modes spec;
       pvs_claim_ref := Some {| ref_kind := Some "PersistentVolumeClaim"; ref_name := claim_name;
                                ref_namespace := claim_ns |};
       pvs_reclaim_policy := pvs_reclaim_policy spec; pvs_host_path := pvs_host_path spec |};
     pv_phase := Some (Some "Bound") |}.

(** The writes of a claim that found a volume. *)
Definition bind_to (pvc : PersistentVolumeClaim) (pv : PersistentVolume) : sto unit :=
  match om_name (pv_metadata pv), pv_spec pv, pvc_spec pvc with
  | Some pv_name, Some pv_spec, Some pvc_spec =>
      let pvc_namespace := unwrap_or (om_namespace (pvc_metadata pvc)) "default" in
      let pvc_name := unwrap_or (om_name (pvc_metadata pvc)) "" in
      let updated_pv := claim_pv (Some pvc_name) (Some pvc_namespace) pv pv_spec in
      let updated_pvc := bind_claim pv_name updated_pv pvc pvc_spec in
      _ ← on_store (apply now (RPersistentVolume updated_pv));
      on_store (apply now (RPersistentVolumeClaim updated_pvc))
  | _, _, _ => mret ()
  end.

Definition pvc_on_apply (r : AnyResource) : sto unit :=
  match r with
  | RPersistentVolumeClaim pvc =>
      if is_some (s ← pvc_spec pvc; pcs_volume_name s) then mret ()
      else if is_some (s ← pvc_spec pvc; pcs_storage_class_name s) then provision_for_pvc pvc
      else
        s ← sr_get;
        match find_matching_pv pvc (get_by_kind "PersistentVolume" (sto_store s)) with
        | None => mret ()
        | Some pv => bind_to pvc pv
        end
  | _ => mret ()
  end.

Definition pvc_volume (pvc : PersistentVolumeClaim) (store : ResourceStore) : option string :=
  match get (uid (RPersistentVolumeClaim pvc)) store with
  | Some t => match resource t with
              | RPersistentVolumeClaim p => s ← pvc_spec p; pcs_volume_name s
              | _ => None
              end
  | None => s ← pvc_spec pvc; pcs_volume_name s
  end.

Definition pvc_on_delete (r : AnyResource) : sto unit :=
  match r with
  | RPersistentVolumeClaim pvc =>
      s ← sr_get;
      match pvc_volume pvc (sto_store s) with
      | None => mret ()
      | Some vol_name =>
          match find_first (λ t, bool_decide (name (resource t) = vol_name))
                  (get_by_kind "PersistentVolume" (sto_store s)) with
          | None => mret ()
          | Some t =>
              _ ← match resource t with
                  | RPersistentVolume pv => _ ← sr_try (deprovision_pv pv); mret ()
                  | _ => mret ()
                  end;
              on_store (store_delete (resource t))
          end
      end
  | _ => mret ()
  end.

(** ** Volumes *)

Definition try_bind_pvc (pv : PersistentVolume) (pvc : PersistentVolumeClaim)
    : option PersistentVolumeClaim :=
  pv_spec ← pv_spec pv;
  pvc_spec ← pvc_spec pvc;
  if storage_of (pvs_capacity pv_spec) <? req_storage pvc_spec then None
  else if negb (modes_ok (pcs_access_modes pvc_spec) (pvs_access_modes pv_spec)) then None
  else pv_name ← om_name (pv_metadata pv); Some (bind_claim pv_name pv pvc pvc_spec).

(** The first claim of the list that the volume can be bound to, before and after. *)
Definition claim_for (pv : PersistentVolume) (t : ResourceTracker)
    : option (PersistentVolumeClaim * PersistentVolumeClaim) :=
  match resource t with
  | RPersistentVolumeClaim pvc =>
      spec ← pvc_spec pvc;
      if is_some (pcs_volume_name spec) then None
      else updated_pvc ← try_bind_pvc pv pvc; Some (pvc, updated_pvc)
  | _ => None
  end.

Definition pv_on_apply (r : AnyResource) : sto unit :=
  match r with
  | RPersistentVolume pv =>
      if is_some (pv_claim_ref pv) then mret ()
      else match om_name (pv_metadata pv) with
      | None => mret ()
      | Some _ =>
          s ← sr_get;
          match find_map (claim_for pv) (get_by_kind "PersistentVolumeClaim" (sto_store s)) with
          | None => mret ()
          | Some (pvc, updated_pvc) =>
              let updated_pv :=
                match pv_spec pv with
                | Some spec => claim_pv (om_name (pvc_metadata pvc)) (om_namespace (pvc_metadata pvc))
                                 pv spec
                | None => set_pv_phase "Bound" pv
                end in
              _ ← on_store (apply now (RPersistentVolume updated_pv));
              on_store (apply now (RPersistentVolumeClaim updated_pvc))
          end
      end
  | _ => mret ()
  end.

Definition pv_on_delete (r : AnyResource) : sto unit :=
  match r with
  | RPersistentVolume pv => _ ← sr_try (deprovision_pv pv); mret ()
  | _ => mret ()
  end.
End storage.

#[global] Arguments ProvisionerDispatcher : clear implicits.

(** ** Which volume a claim gets *)

(** A free volume that is large enough and offers every access mode of the claim. *)
Definition pv_fits (spec : PersistentVolumeClaimSpec) (pv : PersistentVolume) : Prop :=
  pv_claim_ref pv = None
  ∧ pv_phase pv ≠ Some (Some "Bound")
  ∧ req_storage spec ≤ pv_capacity pv
  ∧ ∀ m, m ∈ unwrap_or (pcs_access_modes spec) [] →
         m ∈ unwrap_or (s ← pv_spec pv; pvs_access_modes s) [].

Lemma modes_ok_spec o1 o2 :
  modes_ok o1 o2 = true ↔ ∀ m, m ∈ unwrap_or o1 [] → m ∈ unwrap_or o2 [].
Proof.
  unfold modes_ok. rewrite orb_true_iff, bool_decide_eq_true, forallb_forall.
  setoid_rewrite <- list_elem_of_In. setoid_rewrite bool_decide_eq_true. split.
  - intros [-> | H]; [by intros m ?%elem_of_nil|done].
  - by right.
Qed.

Lemma matching_pv_spec spec t pv :
  matching_pv spec t = Some pv ↔ resource t = RPersistentVolume pv ∧ pv_fits spec pv.
Proof.
  unfold matching_pv, pv_fits. destruct (resource t); try (split; [done|by intros [? _]]).
  destruct (pv_claim_ref r) eqn:Ec; cbn [is_some].
  { split; [done|]. intros [[= <-] [? _]]. congruence. }
  case_bool_decide as Eb.
  { split; [done|]. intros [[= <-] (_ & ? & _)]. done. }
  destruct (Z.ltb_spec (pv_capacity r) (req_storage spec)) as [El|El].
  { split; [done|]. intros [[= <-] (_ & _ & ? & _)]. lia. }
  destruct (modes_ok _ _) eqn:Em; cbn [negb].
  - rewrite modes_ok_spec in Em. split; [by intros [= <-]|by intros [[= <-] _]].
  - split; [done|]. intros [[= <-] (_ & _ & _ & H)]. apply modes_ok_spec in H. congruence.
Qed.

Lemma find_matching_pv_helper pvc pvs :
  match find_matching_pv pvc pvs with
  | Some pv => ∃ spec t, pvc_spec pvc = Some spec ∧ t ∈ pvs
                         ∧ resource t = RPersistentVolume pv ∧ pv_fits spec pv
  | None => ∀ spec t pv, pvc_spec pvc = Some spec → t ∈ pvs →
                         resource t = RPersistentVolume pv → ¬ pv_fits spec pv
  end.
Proof.
  unfold find_matching_pv. destruct (pvc_spec pvc) as [spec|]; cbn; [|done].
  destruct (find_map (matching_pv spec) pvs) as [pv|] eqn:E.
  - apply find_map_Some in E as (t & Ht & [Hr Hf]%matching_pv_spec). by exists spec, t.
  - rewrite find_map_None in E. intros ? t pv [= <-] Ht Hr Hf.
    specialize (E t Ht). by rewrite (proj2 (matching_pv_spec spec t pv)) in E.
Qed.

(** The volume a claim gets is free, large enough and offers its access modes; a
    claim gets none only when no volume does. *)
Theorem find_matching_pv_spec pvc pvs :
  match find_matching_pv pvc pvs with
  | Some pv => ∃ spec t, pvc_spec pvc = Some spec ∧ t ∈ pvs
                         ∧ resource t = RPersistentVolume pv ∧ pv_fits spec pv
  | None => ∀ spec t pv, pvc_spec pvc = Some spec → t ∈ pvs →
                         resource t = RPersistentVolume pv → ¬ pv_fits spec pv
  end.
Proof. apply find_matching_pv_helper. Qed.

(** ** Binding *)

(** The store holds the claim with the volume and the volume with the claim. *)
Definition bound_in (store : ResourceStore) (pvc : PersistentVolumeClaim) (pv : PersistentVolume)
    : Prop :=
  (∃ t c, store !! uid (RPersistentVolumeClaim pvc) = Some t ∧ resource t = RPersistentVolumeClaim c
          ∧ (s ← pvc_spec c; pcs_volume_name s) = om_name (pv_metadata pv))
  ∧ ∃ t v ref, store !! uid (RPersistentVolume pv) = Some t ∧ resource t = RPersistentVolume v
               ∧ pv_claim_ref v = Some ref
               ∧ unwrap_or (ref_name ref) "" = unwrap_or (om_name (pvc_metadata pvc)) ""
               ∧ unwrap_or (ref_namespace ref) "default"
                 = unwrap_or (om_namespace (pvc_metadata pvc)) "default".

Lemma uid_pv_pvc pv pvc : uid (RPersistentVolume pv) ≠ uid (RPersistentVolumeClaim pvc).
Proof. done. Qed.

Lemma apply_lookup now r s : ∃ st, apply now r s !! uid r
  = Some {| resource := r; state := st; last_updated := now |}.
Proof.
  unfold apply. destruct (state <$> s !! uid r) as [st|] eqn:E; rewrite lookup_insert_eq; by eexists.
Qed.

Lemma apply_lookup_ne now r s u : u ≠ uid r → apply now r s !! u = s !! u.
Proof. intros H. unfold apply. destruct (state <$> s !! uid r); by rewrite lookup_insert_ne. Qed.

Lemma apply2_bound now pv v pvc c store :
  uid (RPersistentVolume v) = uid (RPersistentVolume pv) →
  uid (RPersistentVolumeClaim c) = uid (RPersistentVolumeClaim pvc) →
  (s ← pvc_spec c; pcs_volume_name s) = om_name (pv_metadata pv) →
  (∃ ref, pv_claim_ref v = Some ref
     ∧ unwrap_or (ref_name ref) "" = unwrap_or (om_name (pvc_metadata pvc)) ""
     ∧ unwrap_or (ref_namespace ref) "default" = unwrap_or (om_namespace (pvc_metadata pvc)) "default") →
  let store' := apply now (RPersistentVolumeClaim c) (apply now (RPersistentVolume v) store) in
  bound_in store' pvc pv
  ∧ ∀ u, u ≠ uid (RPersistentVolume pv) → u ≠ uid (RPersistentVolumeClaim pvc) →
         store' !! u = store !! u.
Proof.
  intros Hv Hc Hn (ref & Hr). cbn zeta. split; [split|].
  - destruct (apply_lookup now (RPersistentVolumeClaim c) (apply now (RPersistentVolume v) store))
      as [st E]. rewrite Hc in E. by eexists _, _.
  - rewrite apply_lookup_ne by (rewrite Hc; apply uid_pv_pvc).
    destruct (apply_lookup now (RPersistentVolume v) store) as [st E]. rewrite Hv in E.
    by eexists _, _, ref.
  - intros u H1 H2. rewrite !apply_lookup_ne; congruence.
Qed.

Section binding.
Context `{HO : HashOrder} {OS : Type} `{SO : StorageOS OS}.
Variable now : Z.
Variable new_uuid : OS → string * OS.
Implicit Types s : ProvisionerDispatcher OS.
#[local] Set Default Proof Using "Type".

Lemma bind_to_bound pvc pv n ps cs s :
  om_name (pv_metadata pv) = Some n → pv_spec pv = Some ps → pvc_spec pvc = Some cs →
  ∃ s', bind_to now pvc pv s = (Ok (), s')
  ∧ bound_in (sto_store s') pvc pv
  ∧ (∀ u, u ≠ uid (RPersistentVolume pv) → u ≠ uid (RPersistentVolumeClaim pvc) →
          sto_store s' !! u = sto_store s !! u)
  ∧ inflight s' = inflight s ∧ sto_os s' = sto_os s.
Proof.
  intros Hn Hp Hc. unfold bind_to. rewrite Hn, Hp, Hc.
  set (v := claim_pv _ _ pv ps). set (c := bind_claim n v pvc cs).
  destruct (apply2_bound now pv v pvc c (sto_store s)) as [H1 H2]; [done..|by rewrite Hn|by eexists|].
  eexists. split; [done|]. by split; [|split].
Qed.

(** C25. Applying a claim without class and volume binds it to a free volume that fits, and
    the volume to the claim, and changes nothing else in the store; when no volume
    fits, it changes nothing. *)
Theorem pvc_on_apply_binds pvc spec s :
  pvc_spec pvc = Some spec → pcs_volume_name spec = None → pcs_storage_class_name spec = None →
  (∀ t pv, t ∈ get_by_kind "PersistentVolume" (sto_store s) → resource t = RPersistentVolume pv →
     is_Some (om_name (pv_metadata pv)) ∧ is_Some (pv_spec pv)) →
  let fits pv := ∃ t, t ∈ get_by_kind "PersistentVolume" (sto_store s)
                      ∧ resource t = RPersistentVolume pv ∧ pv_fits spec pv in
  ∃ s', pvc_on_apply now new_uuid (RPersistentVolumeClaim pvc) s = (Ok (), s')
  ∧ ((∃ pv, fits pv ∧ bound_in (sto_store s') pvc pv
        ∧ ∀ u, u ≠ uid (RPersistentVolume pv) → u ≠ uid (RPersistentVolumeClaim pvc) →
               sto_store s' !! u = sto_store s !! u)
     ∨ (∀ pv, ¬ fits pv) ∧ s' = s).
Proof.
  intros Hs Hv Hc Hall fits. unfold pvc_on_apply. rewrite Hs. cbn. rewrite Hv, Hc. cbn.
  unfold mbind, stateR_bind, sr_get.
  pose proof (find_matching_pv_helper pvc (get_by_kind "PersistentVolume" (sto_store s))) as H.
  destruct (find_matching_pv _ _) as [pv|].
  - destruct H as (spec' & t & Hs' & Ht & Hr & Hf). rewrite Hs in Hs'. injection Hs' as <-.
    destruct (Hall t pv Ht Hr) as [[n Hn] [ps Hps]].
    destruct (bind_to_bound pvc pv n ps spec s Hn Hps Hs) as (s' & E & Hb & Ho & _).
    exists s'. split; [done|]. left. exists pv. split; [by exists t|done].
  - exists s. split; [done|]. right. split; [|done]. intros pv (t & Ht & Hr & Hf).
    by apply (H spec t pv).
Qed.

(** Two claims that look for a volume before either has bound one can bind the same:
    both name it, and it names the second only. *)
Theorem claims_share_volume a b pv n ps sa sb s :
  om_name (pv_metadata pv) = Some n → pv_spec pv = Some ps →
  pvc_spec a = Some sa → pvc_spec b = Some sb →
  uid (RPersistentVolumeClaim a) ≠ uid (RPersistentVolumeClaim b) →
  let pvs := get_by_kind "PersistentVolume" (sto_store s) in
  find_matching_pv a pvs = Some pv → find_matching_pv b pvs = Some pv →
  let s1 := (bind_to now a pv s).2 in
  let s2 := (bind_to now b pv s1).2 in
  bound_in (sto_store s2) b pv
  ∧ ∃ t c, sto_store s2 !! uid (RPersistentVolumeClaim a) = Some t
           ∧ resource t = RPersistentVolumeClaim c ∧ (s ← pvc_spec c; pcs_volume_name s) = Some n.
Proof.
  intros Hn Hp Ha Hb Hne pvs _ _ s1 s2. subst s1 s2.
  destruct (bind_to_bound a pv n ps sa s Hn Hp Ha) as (s1 & E1 & [(t & c & Ht & Hr & Hc) _] & _).
  rewrite E1. cbn [snd].
  destruct (bind_to_bound b pv n ps sb s1 Hn Hp Hb) as (s2 & E2 & Hb2 & Ho & _).
  rewrite E2. cbn [snd]. split; [done|].
  exists t, c. rewrite Ho, Hc, Hn; [done|intros E; by apply (uid_pv_pvc pv a)|done].
Qed.
End binding.

(** ** Provisioning *)

Section provisioning.
Context `{HO : HashOrder} {OS : Type} `{SO : StorageOS OS}.
Variable now : Z.
Variable new_uuid : OS → string * OS.
Implicit Types s : ProvisionerDispatcher OS.
#[local] Set Default Proof Using "Type".

Lemma do_provision_eq pvc spec class_name class b s :
  pvc_spec pvc = Some spec → by_name class_name = Some class → select class = Ok b →
  do_provision now new_uuid pvc class_name s
  = let '(uuid, o) := new_uuid (sto_os s) in
    let pv := claimed_pv uuid class pvc spec in
    match backend_provision b pv o with
    | (Err e, o) => (Err e, {| sto_store := sto_store s; inflight := inflight s; sto_os := o |})
    | (Ok pv', o) =>
        let v := set_pv_phase "Bound" pv' in
        let c := bind_claim (unwrap_or (om_name (pv_metadata pv)) "") v pvc spec in
        (Ok (), {| sto_store := apply now (RPersistentVolumeClaim c)
                                  (apply now (RPersistentVolume v) (sto_store s));
                   inflight := inflight s; sto_os := o |})
    end.
Proof.
  intros Hs Hc Hb. unfold do_provision, lift_result, mbind, stateR_bind. rewrite Hs, Hc. cbn [ok_or].
  rewrite Hb. unfold on_os. destruct (new_uuid (sto_os s)) as [u o]. cbn [sto_os].
  by destruct (backend_provision b _ o) as [[pv'|e] o'].
Qed.

(** A failed provisioning keeps the store; every provisioning keeps the marks. *)
Lemma do_provision_keeps pvc class_name s r s' :
  do_provision now new_uuid pvc class_name s = (r, s') →
  inflight s' = inflight s ∧ (is_ok r = false → sto_store s' = sto_store s).
Proof.
  destruct (pvc_spec pvc) as [spec|] eqn:Hs; [|unfold do_provision; rewrite Hs; by intros [= <- <-]].
  destruct (by_name class_name) as [class|] eqn:Hc.
  2: { unfold do_provision. rewrite Hs, Hc. by intros [= <- <-]. }
  destruct (select class) as [b|e] eqn:Hb.
  - rewrite (do_provision_eq _ _ _ _ _ _ Hs Hc Hb). destruct (new_uuid _) as [u o0]. cbn zeta.
    destruct (backend_provision b _ _) as [[pv'|e] o]; intros [= <- <-]; done.
  - unfold do_provision, lift_result, mbind, stateR_bind, on_os. rewrite Hs, Hc. cbn [ok_or].
    destruct (new_uuid _). rewrite Hb. by intros [= <- <-].
Qed.

Lemma enter_spec u s :
  enter u s = if is_some (inflight s !! u) then (Ok false, s)
              else (Ok true, {| sto_store := sto_store s; inflight := <[u := ()]> (inflight s);
                                sto_os := sto_os s |}).
Proof. unfold enter. by destruct (inflight s !! u). Qed.

(** The outcome of [provision_for_pvc] on a claim that is to be provisioned. *)
Lemma provision_for_pvc_eq pvc u class_name s :
  to_provision pvc = Ok (Some (u, class_name)) → inflight s !! u = None →
  provision_for_pvc now new_uuid pvc s
  = if already_bound pvc (sto_store s) then (Ok (), s)
    else let '(r, s') := do_provision now new_uuid pvc class_name
                 {| sto_store := sto_store s; inflight := <[u := ()]> (inflight s); sto_os := sto_os s |} in
         (r, {| sto_store := sto_store s'; inflight := inflight s; sto_os := sto_os s' |}).
Proof.
  intros Hw Hu. unfold provision_for_pvc, lift_result, mbind, stateR_bind. rewrite Hw, enter_spec, Hu.
  cbn [is_some]. unfold sr_get. cbn [sto_store].
  destruct (already_bound pvc (sto_store s)).
  - unfold leave, on_inflight, sr_modify. cbn. rewrite delete_insert_id by done. by destruct s.
  - unfold sr_try. destruct (do_provision _ _ _ _ _) as [r s'] eqn:E.
    apply do_provision_keeps in E as [E _]. cbn in *. unfold leave, on_inflight, sr_modify.
    rewrite E, delete_insert_id by done. by destruct r.
Qed.

(** C26. Whatever the claim and the operating system do, provisioning gives back the mark
    of the claim, and a provisioning that fails leaves the store as it was. *)
Theorem failed_provisioning_keeps_store pvc s r s' :
  provision_for_pvc now new_uuid pvc s = (r, s') →
  inflight s' = inflight s ∧ (is_ok r = false → sto_store s' = sto_store s).
Proof.
  destruct (to_provision pvc) as [[[u class_name]|]|e] eqn:Hw.
  - destruct (inflight s !! u) eqn:Hu.
    + unfold provision_for_pvc, lift_result, mbind, stateR_bind. rewrite Hw, enter_spec, Hu.
      by intros [= <- <-].
    + rewrite (provision_for_pvc_eq _ _ _ _ Hw Hu).
      destruct (already_bound _ _); [by intros [= <- <-]|].
      destruct (do_provision _ _ _ _ _) as [r0 s0] eqn:E.
      apply do_provision_keeps in E as [_ E]. by intros [= <- <-].
  - unfold provision_for_pvc. rewrite Hw. by intros [= <- <-].
  - unfold provision_for_pvc. rewrite Hw. by intros [= <- <-].
Qed.

(** What a provisioner leaves of the volume: it may add annotations. *)
Definition same_volume (pv pv' : PersistentVolume) : Prop :=
  uid (RPersistentVolume pv') = uid (RPersistentVolume pv)
  ∧ om_name (pv_metadata pv') = om_name (pv_metadata pv) ∧ pv_spec pv' = pv_spec pv.

Lemma sr_bind_Ok {S A B} (m : stateR S A) (f : A → stateR S B) st b st' :
  (m ≫= f) st = (Ok b, st') → ∃ a st1, m st = (Ok a, st1) ∧ f a st1 = (Ok b, st').
Proof. unfold mbind, stateR_bind. destruct (m st) as [[a|e] st1]; [eauto|done]. Qed.

Lemma loop_provision_same pv (o : OS) pv' o' :
  loop_provision pv o = (Ok pv', o') → same_volume pv pv'.
Proof.
  unfold loop_provision. destruct (pv_host_path pv) as [hp|]; [|done]. cbn zeta.
  intros (o0 & o1 & _ & H)%sr_bind_Ok. apply sr_bind_Ok in H as ([|] & o2 & _ & H);
    [by injection H as <- <-|].
  destruct (_ =? 0); [done|].
  do 6 (apply sr_bind_Ok in H as (? & ? & _ & H)).
  apply sr_bind_Ok in H as (text & o3 & _ & H).
  case_bool_decide; [by apply sr_bind_Ok in H as (? & ? & _ & ?)|].
  apply sr_bind_Ok in H as ([[]|e] & o4 & _ & H).
  - apply sr_bind_Ok in H as (? & ? & _ & H). by injection H as <- <-.
  - do 2 apply sr_bind_Ok in H as (? & ? & _ & H). done.
Qed.

Lemma backend_provision_same b pv (o : OS) pv' o' :
  backend_provision b pv o = (Ok pv', o') → same_volume pv pv'.
Proof.
  destruct b; [apply loop_provision_same|].
  cbn [backend_provision]. unfold hostpath_provision.
  intros (hp & ? & _ & H)%sr_bind_Ok. do 2 apply sr_bind_Ok in H as (? & ? & _ & H).
  by injection H as <- <-.
Qed.

Lemma to_provision_spec pvc u class_name :
  to_provision pvc = Ok (Some (u, class_name)) →
  ∃ spec, pvc_spec pvc = Some spec ∧ pcs_storage_class_name spec = Some class_name
          ∧ pcs_volume_name spec = None ∧ om_uid (pvc_metadata pvc) = Some u.
Proof.
  unfold to_provision. destruct (pvc_spec pvc) as [spec|]; [|done]. cbn.
  destruct (pcs_storage_class_name spec) as [n|] eqn:En; [|done].
  destruct (pcs_volume_name spec) eqn:Ev; [done|]. cbn.
  destruct (om_uid (pvc_metadata pvc)); [|done]. cbn. intros [= <- <-]. by exists spec.
Qed.

(** A claim of a storage class whose provisioning succeeds is bound to a volume made
    for it, and the volume to it; nothing else in the store changes. *)
Theorem provision_binds pvc u class_name s s' :
  to_provision pvc = Ok (Some (u, class_name)) → inflight s !! u = None →
  already_bound pvc (sto_store s) = false →
  provision_for_pvc now new_uuid pvc s = (Ok (), s') →
  ∃ spec class uuid, pvc_spec pvc = Some spec ∧ by_name class_name = Some class
  ∧ let pv := claimed_pv uuid class pvc spec in
    bound_in (sto_store s') pvc pv
    ∧ ∀ k, k ≠ uid (RPersistentVolume pv) → k ≠ uid (RPersistentVolumeClaim pvc) →
           sto_store s' !! k = sto_store s !! k.
Proof.
  intros Hw Hu Hb. rewrite (provision_for_pvc_eq _ _ _ _ Hw Hu), Hb.
  destruct (to_provision_spec _ _ _ Hw) as (spec & Hs & _).
  destruct (by_name class_name) as [class|] eqn:Hc.
  2: { unfold do_provision. rewrite Hs, Hc. done. }
  destruct (select class) as [b|e] eqn:He.
  2: { unfold do_provision, lift_result, mbind, stateR_bind, on_os. rewrite Hs, Hc. cbn [ok_or].
       destruct (new_uuid _). by rewrite He. }
  rewrite (do_provision_eq _ _ _ _ _ _ Hs Hc He). destruct (new_uuid _) as [uuid o0]. cbn zeta.
  set (pv := claimed_pv uuid class pvc spec).
  destruct (backend_provision b pv _) as [[pv'|e] o] eqn:Ep; [|done]. intros [= <-].
  exists spec, class, uuid. split; [done|]. split; [done|]. cbn [sto_store].
  apply backend_provision_same in Ep as (E1 & E2 & E3).
  apply apply2_bound; [done|done|done|].
  unfold pv_claim_ref, set_pv_phase. cbn [pv_spec]. rewrite E3. by eexists.
Qed.

(** The name of a provisioned volume does not determine its claim. *)
Definition claim_named (ns n : string) (spec : PersistentVolumeClaimSpec) : PersistentVolumeClaim :=
  {| pvc_metadata := {| om_name := Some n; om_namespace := Some ns; om_uid := Some (ns +:+ n);
       om_labels := None; om_annotations := None; om_owner_references := None;
       om_creation_timestamp := None; om_resource_version := None |};
     pvc_spec := Some spec; pvc_status := None |}.

Theorem provisioned_names_collide uuid class spec :
  let a := claim_named "a--b" "c" spec in
  let b := claim_named "a" "b--c" spec in
  uid (RPersistentVolumeClaim a) ≠ uid (RPersistentVolumeClaim b)
  ∧ uid (RPersistentVolume (claimed_pv uuid class a spec))
    = uid (RPersistentVolume (claimed_pv uuid class b spec)).
Proof. by split. Qed.

(** ** Concurrent provisioning *)

(** The tasks that provision claims, by the uids of their claims. A task enters,
    works while others come and go, and leaves. *)
Inductive task_step : ProvisionerDispatcher OS * list string → ProvisionerDispatcher OS * list string → Prop :=
  | task_enter pvc u class_name s s' active :
      to_provision pvc = Ok (Some (u, class_name)) → enter u s = (Ok true, s') →
      task_step (s, active) (s', u :: active)
  | task_work pvc class_name s r s' active :
      do_provision now new_uuid pvc class_name s = (r, s') → task_step (s, active) (s', active)
  | task_leave u s l1 l2 :
      task_step (s, l1 ++ u :: l2) ((leave u s).2, l1 ++ l2).

Definition marked (x : ProvisionerDispatcher OS * list string) : Prop :=
  NoDup x.2 ∧ ∀ u, u ∈ x.2 ↔ is_Some (inflight x.1 !! u).

Lemma task_step_marked x y : task_step x y → marked x → marked y.
Proof.
  intros [pvc u cn s s' active Hw He|pvc cn s r s' active Hd|u s l1 l2] [Hn Hm]; cbn in *.
  - rewrite enter_spec in He. destruct (inflight s !! u) eqn:Hu; cbn in He; [done|].
    injection He as <-. cbn. split.
    + constructor; [|done]. cbn. rewrite Hm, Hu. by intros [? ?].
    + intros v. cbn. rewrite elem_of_cons, lookup_insert_is_Some. rewrite Hm.
      destruct (decide (v = u)); naive_solver.
  - apply do_provision_keeps in Hd as [Hd _]. split; [done|]. cbn. by rewrite Hd.
  - apply NoDup_app in Hn as (H1 & H2 & H3). apply NoDup_cons in H3 as [H4 H5]. cbn. split.
    + apply NoDup_app. split; [done|]. split; [|done]. intros v Hv. specialize (H2 v Hv). set_solver.
    + intros v. specialize (Hm v). unfold leave, on_inflight, sr_modify; cbn.
      destruct (decide (v = u)) as [->|Hne].
      * rewrite lookup_delete_eq. split; [|by intros [? ?]]. intros Hv. exfalso.
        specialize (H2 u). set_solver.
      * rewrite lookup_delete_ne by done. rewrite <- Hm. set_solver.
Qed.

(** No claim is ever provisioned by two tasks at once, in any interleaving. *)
Theorem one_task_per_claim s s' active :
  inflight s = ∅ → rtc task_step (s, []) (s', active) → NoDup active.
Proof.
  intros H0 Hr. assert (marked (s, [])) as Hm.
  { split; [constructor|]. intros u. cbn. rewrite H0, lookup_empty. split; [|by intros [? ?]].
    by intros ?%elem_of_nil. }
  remember (s, @nil string) as x eqn:Ex. remember (s', active) as y eqn:Ey.
  assert (marked y) as [Hn _]; [|by subst].
  clear Ex Ey. induction Hr as [|x z y Hs _ IH]; [done|]. by apply IH, (task_step_marked x).
Qed.
End provisioning.

(** ** Deleting a claim *)

Section deleting.
Context `{HO : HashOrder} {OS : Type} `{SO : StorageOS OS}.
Implicit Types s : ProvisionerDispatcher OS.
#[local] Set Default Proof Using "Type".

Lemma deprovision_keeps pv s r s' :
  deprovision_pv pv s = (r, s') → sto_store s' = sto_store s ∧ inflight s' = inflight s.
Proof.
  unfold deprovision_pv, on_os. destruct (backend_named _) as [b|]; [|by intros [= <- <-]].
  destruct (backend_deprovision b pv (sto_os s)). by intros [= <- <-].
Qed.

(** Deleting a claim that has a volume deletes the volume of that name, whoever made
    it and whatever its reclaim policy says, and nothing else. *)
Theorem pvc_on_delete_spec pvc v t s :
  store_wf (sto_store s) → pvc_volume pvc (sto_store s) = Some v →
  sto_store s !! ("PersistentVolume//" +:+ v) = Some t →
  ∃ s', pvc_on_delete (RPersistentVolumeClaim pvc) s = (Ok (), s')
  ∧ sto_store s' = delete ("PersistentVolume//" +:+ v) (sto_store s) ∧ inflight s' = inflight s.
Proof.
  intros Hwf Hv Ht. pose proof (Hwf _ _ Ht) as Hu.
  assert (∃ pv, resource t = RPersistentVolume pv ∧ name (resource t) = v) as (pv & Hr & Hn).
  { destruct (resource t) as [| | | | |pv| | | | | | |]; try done. exists pv. split; [done|].
    unfold uid in Hu. cbn in Hu. by injection Hu. }
  unfold pvc_on_delete, sr_get. unfold mbind at 1, stateR_bind at 1. rewrite Hv.
  destruct (find_first _ _) as [t'|] eqn:Ef.
  - apply find_first_Some in Ef as [Hin Hnt]. apply bool_decide_eq_true in Hnt.
    apply (proj1 (get_by_kind_spec _ _ _ Hwf)) in Hin as [Hk Hl].
    destruct (resource t') as [| | | | |pv'| | | | | | |] eqn:Hr'; try done.
    assert (uid (RPersistentVolume pv') = "PersistentVolume//" +:+ v) as Hu' by (by rewrite <- Hnt).
    unfold mbind, stateR_bind, sr_try.
    destruct (deprovision_pv pv' s) as [r s1] eqn:E. apply deprovision_keeps in E as [E1 E2].
    eexists. split; [done|]. cbn [sto_store inflight]. rewrite E1, E2. split; [|done].
    unfold store_delete. by rewrite Hu'.
  - exfalso. rewrite find_first_None in Ef. specialize (Ef t).
    rewrite bool_decide_true in Ef by done. discriminate Ef.
    apply (proj1 (get_by_kind_spec _ _ _ Hwf)). split; [by rewrite Hr|]. by rewrite Hu.
Qed.
End deleting.

(** ** Witnesses *)

(** A file system with every command at hand. *)
#[local] Instance sample_storage_os : StorageOS (gset string) := {
  so_exists p o := bool_decide (p ∈ o);
  so_create_dir_all p o := (true, {[p]} ∪ o);
  so_remove_dir_all p o := o ∖ {[p]};
  so_remove_file p o := o ∖ {[p]};
  so_command c args o :=
    (Some (negb (bool_decide (c = "mountpoint")), "exit status: 1",
       if bool_decide (c = "losetup") then as_bytes "/dev/loop0" else []), o);
  so_utf8_error _ := ""
}.

Definition fixed_uuid (o : gset string) : string * gset string := ("u", o).
Definition gigabyte : option (option (gmap string Quantity)) := Some (Some {[ "storage" := "1Gi" ]}).
Definition sample_claim_spec (class : option string) : PersistentVolumeClaimSpec :=
  {| pcs_access_modes := Some ["ReadWriteOnce"]; pcs_requests := gigabyte; pcs_volume_name := None;
     pcs_storage_class_name := class |}.
Definition sample_claim (n : string) (class : option string) : PersistentVolumeClaim :=
  claim_named "default" n (sample_claim_spec class).
Definition sample_pv : PersistentVolume :=
  {| pv_metadata := set_name (Some "disk") meta_default;
     pv_spec := Some {| pvs_capacity := Some {[ "storage" := "2Gi" ]};
       pvs_access_modes := Some ["ReadWriteOnce"]; pvs_claim_ref := None;
       pvs_reclaim_policy := None; pvs_host_path := Some "/data" |};
     pv_phase := None |}.
Definition sample_storage : ProvisionerDispatcher (gset string) :=
  {| sto_store := apply 1 (RPersistentVolume sample_pv) ∅; inflight := ∅; sto_os := ∅ |}.

Lemma sample_volumes : get_by_kind "PersistentVolume" (sto_store sample_storage)
  = [tracker_new 1 (RPersistentVolume sample_pv)].
Proof. by vm_compute. Qed.

Lemma pvc_on_apply_binds_witness :
  ∃ s', pvc_on_apply 2 fixed_uuid (RPersistentVolumeClaim (sample_claim "c" None)) sample_storage
        = (Ok (), s').
Proof.
  destruct (pvc_on_apply_binds 2 fixed_uuid (sample_claim "c" None) (sample_claim_spec None) sample_storage)
    as (s' & E & _); [done..| |by exists s'].
  rewrite sample_volumes. intros t pv ->%list_elem_of_singleton [= <-]. by split; eexists.
Defined.

Lemma claims_share_volume_witness :
  let s2 := (bind_to 2 (sample_claim "b" None) sample_pv
              (bind_to 2 (sample_claim "a" None) sample_pv sample_storage).2).2 in
  bound_in (sto_store s2) (sample_claim "b" None) sample_pv.
Proof.
  destruct (claims_share_volume 2 (sample_claim "a" None) (sample_claim "b" None) sample_pv
    "disk" (unwrap_or (pv_spec sample_pv) {| pvs_capacity := None; pvs_access_modes := None;
      pvs_claim_ref := None; pvs_reclaim_policy := None; pvs_host_path := None |})
    (sample_claim_spec None) (sample_claim_spec None) sample_storage) as [H _];
    [done..|by vm_compute|by vm_compute|exact H].
Defined.

Lemma failed_provisioning_keeps_store_witness :
  let s' := (provision_for_pvc 2 fixed_uuid (sample_claim "c" (Some "fast")) sample_storage).2 in
  (provision_for_pvc 2 fixed_uuid (sample_claim "c" (Some "fast")) sample_storage).1
    = Err "unknown storage class 'fast'"
  ∧ inflight s' = ∅ ∧ sto_store s' = sto_store sample_storage.
Proof.
  split; [by vm_compute|].
  destruct (failed_provisioning_keeps_store 2 fixed_uuid (sample_claim "c" (Some "fast")) sample_storage
    (provision_for_pvc 2 fixed_uuid (sample_claim "c" (Some "fast")) sample_storage).1
    (provision_for_pvc 2 fixed_uuid (sample_claim "c" (Some "fast")) sample_storage).2 eq_refl) as [H1 H2].
  split; [exact H1|]. apply H2. by vm_compute.
Defined.

Lemma provision_binds_witness :
  let claim := sample_claim "c" (Some "standard") in
  let s' := (provision_for_pvc 2 fixed_uuid claim sample_storage).2 in
  ∃ spec class uuid, bound_in (sto_store s') claim (claimed_pv uuid class claim spec).
Proof.
  destruct (provision_binds 2 fixed_uuid (sample_claim "c" (Some "standard")) "defaultc" "standard"
    sample_storage (provision_for_pvc 2 fixed_uuid (sample_claim "c" (Some "standard")) sample_storage).2)
    as (spec & class & uuid & _ & _ & H & _); [vm_compute; reflexivity..|].
  by exists spec, class, uuid.
Defined.

Lemma one_task_per_claim_witness : NoDup ["defaultc"].
Proof.
  apply (one_task_per_claim 2 fixed_uuid sample_storage
    (enter "defaultc" sample_storage).2); [done|].
  apply rtc_once, (task_enter 2 fixed_uuid (sample_claim "c" (Some "standard")) "defaultc" "standard");
    vm_compute; reflexivity.
Defined.

Lemma pvc_on_delete_spec_witness :
  let c := bind_claim "disk" sample_pv (sample_claim "c" None) (sample_claim_spec None) in
  ∃ s', pvc_on_delete (RPersistentVolumeClaim c) sample_storage = (Ok (), s')
        ∧ sto_store s' = delete "PersistentVolume//disk" (sto_store sample_storage).
Proof.
  destruct (pvc_on_delete_spec
    (bind_claim "disk" sample_pv (sample_claim "c" None) (sample_claim_spec None))
    "disk" (tracker_new 1 (RPersistentVolume sample_pv)) sample_storage) as (s' & E & H & _).
  - apply (run_op_wf (OpApply 1 (RPersistentVolume sample_pv))), store_new_wf.
  - vm_compute; reflexivity.
  - vm_compute; reflexivity.
  - exact (ex_intro _ s' (conj E H)).
Defined.
