(* ===== verification/Registry.v ===== *)
(** * Registry: dispatch to components (src/src/components/mod.rs)

    A component handles the resources of one kind: it reconciles their trackers and is
    told when one is applied or deleted. The registry keeps one component per kind,
    dispatches to it and goes on after its errors, and then runs the stages of the
    pipeline. The components share a world [W], of which only the store is known here;
    [World] instantiates it. *)
From S2P Require Import Prelude Resources.

Inductive ResourceCategory := Compute | Network | Storage.

#[export] Instance ResourceCategory_eq_dec : EqDecision ResourceCategory.
Proof. solve_decision. Defined.

Section registry.
Context `{HO : HashOrder} {W : Type}.
(** The store of a world. *)
Variable world_store : W → ResourceStore.

(** The trait [Component]. *)
Record Component := {
  c_kind : string;
  c_category : ResourceCategory;
  c_reconcile : ResourceTracker → execR W unit;
  c_on_apply : AnyResource → execR W unit;
  c_on_delete : AnyResource → execR W unit
}.

(** The trait [PipelineStage]. *)
Record PipelineStage := {
  ps_name : string;
  ps_interests : list string;
  ps_on_created : AnyResource → execR W unit;
  ps_on_deleted : string → string → execR W unit
}.

Abbreviation ComponentRegistry := (gmap string Component).
Abbreviation ReconciliationPipeline := (list PipelineStage).

Definition registry_new : ComponentRegistry := ∅.

Definition register (c : Component) (reg : ComponentRegistry) : ComponentRegistry :=
  <[c_kind c := c]> reg.

(** A component that only reacts to resources that are applied. *)
Definition register_handler (k : string) (cat : ResourceCategory) (f : AnyResource → execR W unit)
    (reg : ComponentRegistry) : ComponentRegistry :=
  <[k := {| c_kind := k; c_category := cat; c_reconcile := λ _, mret ();
            c_on_apply := λ r, _ ← f r; mret (); c_on_delete := λ _, mret () |}]> reg.

Definition get_component (k : string) (reg : ComponentRegistry) : option Component := reg !! k.

Definition by_category (cat : ResourceCategory) (reg : ComponentRegistry) : list Component :=
  List.filter (λ c, bool_decide (c_category c = cat)) (hash_values reg).

(** [PipelineBuilder::stage] and [build] *)
Definition add_stage (s : PipelineStage) (p : ReconciliationPipeline) : ReconciliationPipeline :=
  p ++ [s].

(** [if let Err(e) = m { log }] *)
Definition logged (m : execR W unit) : execR W unit := _ ← x_try m; mret ().

(** [for x in l { f(x); }] for calls that have no error. *)
Fixpoint x_each {A} (f : A → execR W unit) (l : list A) : execR W unit :=
  match l with
  | [] => mret ()
  | x :: l' => _ ← f x; x_each f l'
  end.

Definition reconcile_one (reg : ComponentRegistry) (t : ResourceTracker) : execR W unit :=
  match get_component (kind (resource t)) reg with
  | Some c => logged (c_reconcile c t)
  | None => mret ()
  end.

(** Every tracker the store holds at the start. *)
Definition reconcile_all (reg : ComponentRegistry) : execR W unit :=
  w ← x_get; x_each (reconcile_one reg) (get_all (world_store w)).

Definition dispatch_created (p : ReconciliationPipeline) (r : AnyResource) : execR W unit :=
  x_each (λ s, if bool_decide (kind r ∈ ps_interests s) then logged (ps_on_created s r) else mret ()) p.

Definition dispatch_deleted (p : ReconciliationPipeline) (k u : string) : execR W unit :=
  x_each (λ s, if bool_decide (k ∈ ps_interests s) then logged (ps_on_deleted s k u) else mret ()) p.

Definition registry_on_apply (reg : ComponentRegistry) (p : ReconciliationPipeline) (r : AnyResource)
    : execR W unit :=
  _ ← match get_component (kind r) reg with
      | Some c => logged (c_on_apply c r)
      | None => mret ()
      end;
  dispatch_created p r.

Definition registry_on_delete (reg : ComponentRegistry) (p : ReconciliationPipeline) (r : AnyResource)
    : execR W unit :=
  _ ← match get_component (kind r) reg with
      | Some c => logged (c_on_delete c r)
      | None => mret ()
      end;
  dispatch_deleted p (kind r) (uid r).

(** ** Errors stay with their component *)

#[local] Set Default Proof Using "Type".

Lemma logged_ok m w r w' : logged m w = Ret (r, w') → r = Ok ().
Proof. unfold logged, mbind, execR_bind, x_try. destruct (m w) as [[r0 w0]|]; [|done]. by intros [= <- _]. Qed.

Lemma x_each_ok {A} (f : A → execR W unit) l w r w' :
  (∀ x w r w', f x w = Ret (r, w') → r = Ok ()) → x_each f l w = Ret (r, w') → r = Ok ().
Proof.
  intros Hf. revert w. induction l as [|x l IH]; intros w; cbn [x_each]; [by intros [= <- _]|].
  intros [(e & H & ->)|([] & w1 & _ & H)]%x_bind_Ret; [by apply Hf in H|by eapply IH].
Qed.

Lemma reconcile_one_ok reg t w r w' : reconcile_one reg t w = Ret (r, w') → r = Ok ().
Proof. unfold reconcile_one. destruct (get_component _ _); [apply logged_ok|by intros [= <- _]]. Qed.

(** A computation leads from one state to another, with some result. *)
Definition leads (m : execR W unit) (w w' : W) : Prop := ∃ r, m w = Ret (r, w').

(** [x_each] runs its body on every element, in order, each from where the one before
    ended. *)
Lemma x_each_visits {A} (f : A → execR W unit) l w w' x :
  (∀ x w r w', f x w = Ret (r, w') → r = Ok ()) → x_each f l w = Ret (Ok (), w') → x ∈ l →
  ∃ l1 l2 w1 w2, l = l1 ++ x :: l2 ∧ x_each f l1 w = Ret (Ok (), w1)
    ∧ f x w1 = Ret (Ok (), w2) ∧ x_each f l2 w2 = Ret (Ok (), w').
Proof.
  intros Hf H Hx. revert w H. induction Hx as [x l|x y l _ IH]; intros w; cbn [x_each].
  - intros [(e & _ & ?)|([] & w1 & H1 & H2)]%x_bind_Ret; [done|].
    by exists [], l, w, w1.
  - intros [(e & _ & ?)|([] & w1 & H1 & H2)]%x_bind_Ret; [done|].
    destruct (IH w1 H2) as (l1 & l2 & w2 & w3 & -> & E1 & E2 & E3).
    exists (y :: l1), l2, w2, w3. split; [done|]. split; [|done].
    cbn [x_each]. unfold mbind, execR_bind. by rewrite H1.
Qed.

(** A round of reconciliation succeeds whatever the components answer, and hands every
    tracker of the store to the component of its kind, once the trackers before it have
    been dealt with, errors or not. *)
Theorem reconcile_all_visits reg w r w' t c :
  reconcile_all reg w = Ret (r, w') →
  t ∈ get_all (world_store w) → get_component (kind (resource t)) reg = Some c →
  r = Ok ()
  ∧ ∃ l1 l2 w1 w2, get_all (world_store w) = l1 ++ t :: l2
    ∧ x_each (reconcile_one reg) l1 w = Ret (Ok (), w1)
    ∧ leads (c_reconcile c t) w1 w2
    ∧ x_each (reconcile_one reg) l2 w2 = Ret (Ok (), w').
Proof.
  unfold reconcile_all. intros [(e & ? & _)|(w0 & w1 & [= <- <-] & H)]%x_bind_Ret Ht Hc; [done|].
  pose proof (x_each_ok _ _ _ _ _ (reconcile_one_ok reg) H) as ->. split; [done|].
  destruct (x_each_visits _ _ _ _ t (reconcile_one_ok reg) H Ht) as (l1 & l2 & w1 & w2 & E & E1 & E2 & E3).
  exists l1, l2, w1, w2. split; [done|]. split; [done|]. split; [|done].
  unfold reconcile_one, logged in E2. rewrite Hc in E2.
  unfold mbind, execR_bind, x_try in E2. unfold leads.
  destruct (c_reconcile c t w1) as [[r0 w0]|]; [|done]. injection E2 as ->. by exists r0.
Qed.

(** ** The registry as a map *)

Lemma get_register k c reg :
  get_component k (register c reg) = if bool_decide (c_kind c = k) then Some c else get_component k reg.
Proof.
  unfold get_component, register. case_bool_decide as E; [by rewrite E, lookup_insert_eq|].
  by apply lookup_insert_ne.
Qed.

(** Registering components one by one: the last of a kind handles it. *)
Theorem register_all_get cs k :
  get_component k (foldl (λ reg c, register c reg) registry_new cs)
  = last (List.filter (λ c, bool_decide (c_kind c = k)) cs).
Proof.
  induction cs as [|c cs IH] using rev_ind; [apply lookup_empty|].
  rewrite foldl_snoc, get_register, IH, List.filter_app. cbn.
  case_bool_decide; [by rewrite last_snoc|by rewrite app_nil_r].
Qed.

(** Applying a resource never fails, and with an empty pipeline it does what the
    component of its kind does, or nothing. *)
Lemma registry_on_apply_leads reg r w w' :
  leads (registry_on_apply reg [] r) w w' ↔
  match get_component (kind r) reg with Some c => leads (c_on_apply c r) w w' | None => w' = w end.
Proof.
  unfold registry_on_apply, leads. destruct (get_component (kind r) reg) as [c|].
  - unfold mbind, execR_bind, logged, x_try, mbind, execR_bind. cbn.
    destruct (c_on_apply c r w) as [[r0 w0]|]; cbn.
    + split; intros [? [= <- <-]]; by eexists.
    + by split; intros [? ?].
  - cbn. split; [by intros [? [= _ <-]]|intros ->; by eexists].
Qed.
End registry.

#[global] Arguments Component : clear implicits.
#[global] Arguments PipelineStage : clear implicits.

(** ** A witness: a world that counts, whose component of pods fails *)

Definition counting_component : Component (ResourceStore * nat) := {|
  c_kind := "Pod"; c_category := Compute;
  c_reconcile := λ _ w, Ret (Err "no", (w.1, S w.2));
  c_on_apply := λ _, mret (); c_on_delete := λ _, mret () |}.

Lemma reconcile_all_visits_witness :
  ∃ w', reconcile_all fst (register counting_component registry_new) (sample_store, 0%nat)
        = Ret (Ok (), w')
        ∧ ∃ w1 w2, leads (c_reconcile counting_component (tracker_new 1 (sample_pod "a" "x"))) w1 w2.
Proof.
  exists (sample_store, 1%nat). split; [vm_compute; reflexivity|].
  destruct (reconcile_all_visits fst (register counting_component registry_new) (sample_store, 0%nat)
    (Ok ()) (sample_store, 1%nat) (tracker_new 1 (sample_pod "a" "x")) counting_component)
    as (_ & l1 & l2 & w1 & w2 & _ & _ & H & _).
  - vm_compute. reflexivity.
  - assert (get_all sample_store = [tracker_new 1 (sample_pod "a" "x")]) as E by (vm_compute; reflexivity).
    cbn [fst]. rewrite E. apply list_elem_of_here.
  - vm_compute. reflexivity.
  - exists w1, w2. exact H.
Defined.
