(* ===== verification/World.v ===== *)
(** * World: the components of the program and the reconciler
    (src/src/components/compute, src/src/components/network, src/src/components/storage,
    src/src/scheduler/reconciler.rs, src/src/main.rs)

    The components that the program registers, over the state they share: the cluster
    (store, supervisor, timers), the service proxies with the nftables engine, the
    ingress routes, the claims being provisioned, and the pod starts that were spawned
    and have not run yet. Starts run one at a time; at most ten wait, and whoever needs
    a permit beyond that waits for one of them to end. *)
From S2P Require Import Prelude Text Utf8 Resources Pool Netlink Nft NetMux Cri SpecBuilder Runtime Process Deployment Service Panics Policy Ingress Storage Registry.

(** ** The shared state *)

Record World (K KN : Type) := {
  cluster : Cluster K;
  network : NetworkManager KN;
  w_routes : IngressState;
  w_records : gmap string Ipv4Addr;
  w_inflight : gmap string unit;
  tasks : list AnyResource
}.
#[global] Arguments cluster {K KN} w : rename.
#[global] Arguments network {K KN} w : rename.
#[global] Arguments w_routes {K KN} w : rename.
#[global] Arguments w_records {K KN} w : rename.
#[global] Arguments w_inflight {K KN} w : rename.
#[global] Arguments tasks {K KN} w : rename.

Section world.
Context `{HO : HashOrder} `{UC : UnicodeCase} {K KN net : Type} `{FS : FileSystem K}
        `{IJ : ImageConfigJson} `{OS : ContainerOS K} `{SO : StorageOS K}.
Variable errno_name : Z → string.
Variable transact : bytes → K → result bytes * K.
Variable open_netns : Z → K → bool.
Variable set_netns : Z → K → bool * K.
Variable cg : CgroupManager.
Variable base : string.
Variable is_root : bool.
Variable new_uuid : K → string * K.
Variable batch_send : batch net → KN → send_outcome * KN.
Variable parse_net : string → option net.
(** Which of the waiting starts ends first. *)
Variable pick : World K KN → nat.
Variable now : Z.

Abbreviation world := (World K KN).
Abbreviation act := (execR world unit).

Definition set_cluster (c : Cluster K) (w : world) : world :=
  {| cluster := c; network := network w; w_routes := w_routes w; w_records := w_records w;
     w_inflight := w_inflight w; tasks := tasks w |}.
Definition set_network (m : NetworkManager KN) (w : world) : world :=
  {| cluster := cluster w; network := m; w_routes := w_routes w; w_records := w_records w;
     w_inflight := w_inflight w; tasks := tasks w |}.
Definition set_tasks (l : list AnyResource) (w : world) : world :=
  {| cluster := cluster w; network := network w; w_routes := w_routes w; w_records := w_records w;
     w_inflight := w_inflight w; tasks := l |}.

Definition on_cluster {A} (m : execR (Cluster K) A) : execR world A := λ w,
  '(r, c) ← m (cluster w); Ret (r, set_cluster c w).

Definition on_engine {A} (f : stateR (NftEngine KN) A) : execR world A := λ w,
  let '(r, e) := f (engine (network w)) in
  Ret (r, set_network {| proxies := proxies (network w); engine := e |} w).

Definition on_netmux {A} (f : NetMux K → result A * NetMux K) : execR world A := λ w,
  let '(r, m) := f (netmux (sup (cluster w))) in
  Ret (r, set_cluster (set_sup (set_netmux m (sup (cluster w))) (cluster w)) w).

Definition on_ingress {A} (f : stateR IngressNet A) : execR world A := λ w,
  let '(r, s) := f {| ingress_state := w_routes w; dns_records := w_records w;
                      ing_gateway := gateway (netmux (sup (cluster w))) |} in
  Ret (r, {| cluster := cluster w; network := network w; w_routes := ingress_state s;
             w_records := dns_records s; w_inflight := w_inflight w; tasks := tasks w |}).

Definition on_storage {A} (f : stateR (ProvisionerDispatcher K) A) : execR world A := λ w,
  let c := cluster w in
  let '(r, s) := f {| sto_store := store c; inflight := w_inflight w; sto_os := os (sup c) |} in
  Ret (r, {| cluster := set_store (sto_store s) (set_sup (set_os (sto_os s) (sup c)) c);
             network := network w; w_routes := w_routes w; w_records := w_records w;
             w_inflight := inflight s; tasks := tasks w |}).

(** ** Starting pods in the background *)

Abbreviation start_pod := (start_pod errno_name transact open_netns set_netns cg base is_root now).
Abbreviation stop_pod := (stop_pod errno_name transact cg base now).

(** A start that was spawned runs to its end; its outcome goes to the log. *)
Definition run_task (i : nat) : execR world (option (AnyResource * result unit)) := λ w,
  match tasks w !! i with
  | Some r =>
      '(x, c) ← start_pod r (cluster w);
      Ret (Ok (Some (r, x)), set_cluster c (set_tasks (delete i (tasks w)) w))
  | None => Ret (Ok None, w)
  end.

Definition pod_start_semaphore : nat := 10%nat.

(** [pod_start_semaphore().acquire()] *)
Definition acquire : act := λ w,
  if (length (tasks w) <? pod_start_semaphore)%nat then Ret (Ok (), w)
  else (_ ← run_task (pick w `mod` length (tasks w)); mret ()) w.

Definition spawn_start (r : AnyResource) : act := x_modify (λ w, set_tasks (tasks w ++ [r]) w).

(** ** Pods *)

Definition pod_labels (pod : Pod) : gmap string string :=
  unwrap_or (om_labels (pod_metadata pod)) ∅.
Definition pod_ns (pod : Pod) : string := unwrap_or (om_namespace (pod_metadata pod)) "default".

Definition sync_labels (pod : Pod) : act := x_modify (λ w,
  set_network (sync_services_for_labels batch_send (store (cluster w)) (sup (cluster w))
                 (pod_ns pod) (pod_labels pod) (network w)) w).

Definition pod_start_if_pending (t : ResourceTracker) : act :=
  if bool_decide (state t = Pending) then _ ← acquire; spawn_start (resource t) else mret ().

Definition pod_sync_if_ready (t : ResourceTracker) : act :=
  w ← x_get;
  if bool_decide (state t = Running) && is_ready (name (resource t)) (sup (cluster w)) then
    match resource t with
    | RPod pod =>
        _ ← sync_labels pod;
        match process_pod_ip (name (resource t)) (sup (cluster w)) with
        | Some ip =>
            logged (on_engine (fresh_npc (update_pod batch_send ip (pod_labels pod) (pod_ns pod))))
        | None => mret ()
        end
    | _ => mret ()
    end
  else mret ().

Definition pod_reconcile (t : ResourceTracker) : act :=
  _ ← pod_start_if_pending t; pod_sync_if_ready t.

Definition pod_on_apply (r : AnyResource) : act :=
  _ ← acquire;
  _ ← on_cluster (start_pod r);
  match r with RPod pod => sync_labels pod | _ => mret () end.

Definition pod_on_delete (r : AnyResource) : act :=
  w ← x_get;
  _ ← match r with
      | RPod pod =>
          match process_pod_ip (unwrap_or (om_name (pod_metadata pod)) "") (sup (cluster w)) with
          | Some ip => logged (on_engine (fresh_npc (remove_pod batch_send ip)))
          | None => mret ()
          end
      | _ => mret ()
      end;
  logged (on_cluster (stop_pod r)).

Definition PodResource : Component world := {|
  c_kind := "Pod"; c_category := Compute; c_reconcile := pod_reconcile;
  c_on_apply := pod_on_apply; c_on_delete := pod_on_delete |}.

(** ** The other components *)

Definition no_reconcile (t : ResourceTracker) : act := mret ().
Definition no_action (r : AnyResource) : act := mret ().

Definition DeploymentResource : Component world := {|
  c_kind := "Deployment"; c_category := Compute;
  c_reconcile t := on_cluster (reconcile_impl errno_name transact open_netns set_netns cg base
                                 is_root new_uuid now (resource t));
  c_on_apply r := on_cluster (deployment_on_apply errno_name transact open_netns set_netns cg base
                                is_root new_uuid now r);
  c_on_delete := no_action |}.

Definition service_on_apply (r : AnyResource) : act :=
  match r with
  | RService svc => x_modify (λ w, set_network
      (sync_service_proxies batch_send (store (cluster w)) (sup (cluster w)) svc (network w)) w)
  | _ => mret ()
  end.

Definition ServiceResource : Component world := {|
  c_kind := "Service"; c_category := Network; c_reconcile := no_reconcile;
  c_on_apply := service_on_apply;
  c_on_delete r := x_modify (λ w, set_network
    (remove_service batch_send (store (cluster w)) (namespace r) (name r) (network w)) w) |}.

Definition IngressResource : Component world := {|
  c_kind := "Ingress"; c_category := Network; c_reconcile := no_reconcile;
  c_on_apply r := on_ingress (ingress_on_apply r);
  c_on_delete r := on_ingress (ingress_on_delete r) |}.

Definition NetworkPolicyResource : Component world := {|
  c_kind := "NetworkPolicy"; c_category := Network; c_reconcile := no_reconcile;
  c_on_apply r := match r with
                  | RNetworkPolicy np => on_engine (np_on_apply batch_send parse_net np)
                  | _ => mret ()
                  end;
  c_on_delete := no_action |}.

Definition vnet_on_apply (r : AnyResource) : act :=
  match r with
  | RVNet vnet =>
      let cidr := unwrap_or (vs_cidr (vnet_spec vnet)) "10.42.0.0/20" in
      _ ← on_engine (apply_vnet batch_send parse_net vnet cidr);
      if vs_internet_access (vnet_spec vnet) then
        on_engine (add_snat batch_send parse_net
                     (unwrap_or (om_name (vnet_metadata vnet)) "vnet") cidr)
      else mret ()
  | _ => mret ()
  end.

Definition VNetResource : Component world := {|
  c_kind := "VNet"; c_category := Network; c_reconcile := no_reconcile;
  c_on_apply := vnet_on_apply; c_on_delete := no_action |}.

Definition subnet_on_apply (r : AnyResource) : act :=
  match r with
  | RSubnet sn => on_netmux (register_subnet_cidr
      (unwrap_or (om_name (sn_metadata sn)) "unknown") (sns_cidr (sn_spec sn)))
  | _ => mret ()
  end.

Definition SubnetResource : Component world := {|
  c_kind := "Subnet"; c_category := Network; c_reconcile := no_reconcile;
  c_on_apply := subnet_on_apply; c_on_delete := no_action |}.

Definition NsgResource : Component world := {|
  c_kind := "NSG"; c_category := Network; c_reconcile := no_reconcile;
  c_on_apply r := match r with
                  | RNsg nsg => on_engine (apply_nsg batch_send parse_net nsg)
                  | _ => mret ()
                  end;
  c_on_delete := no_action |}.

Definition RouteTableResource : Component world := {|
  c_kind := "RouteTable"; c_category := Network; c_reconcile := no_reconcile;
  c_on_apply := no_action; c_on_delete := no_action |}.

Definition ConfigMapResource : Component world := {|
  c_kind := "ConfigMap"; c_category := Storage; c_reconcile := no_reconcile;
  c_on_apply := no_action; c_on_delete := no_action |}.

Definition SecretResource : Component world := {|
  c_kind := "Secret"; c_category := Storage; c_reconcile := no_reconcile;
  c_on_apply := no_action; c_on_delete := no_action |}.

Definition PvResource : Component world := {|
  c_kind := "PersistentVolume"; c_category := Storage; c_reconcile := no_reconcile;
  c_on_apply r := on_storage (pv_on_apply now r);
  c_on_delete r := on_storage (pv_on_delete r) |}.

Definition PvcResource : Component world := {|
  c_kind := "PersistentVolumeClaim"; c_category := Storage; c_reconcile := no_reconcile;
  c_on_apply r := on_storage (pvc_on_apply now new_uuid r);
  c_on_delete r := on_storage (pvc_on_delete r) |}.

(** The components in the order of their registration. *)
Definition components : list (Component world) :=
  [PodResource; DeploymentResource; ServiceResource; IngressResource; NetworkPolicyResource;
   VNetResource; SubnetResource; NsgResource; RouteTableResource; ConfigMapResource;
   SecretResource; PvResource; PvcResource].

Definition main_registry : gmap string (Component world) :=
  foldl (λ reg c, register c reg) registry_new components.

Definition world_store (w : world) : ResourceStore := store (cluster w).

Definition apply_resource (r : AnyResource) : act := registry_on_apply main_registry [] r.
Definition delete_resource (r : AnyResource) : act := registry_on_delete main_registry [] r.

(** ** The reconciler *)

(** One tick: the children that exited, then a round of reconciliation. *)
Definition tick (answers : list WaitStatus) : act :=
  let reaped := reap_zombies answers in
  _ ← match reaped with
      | [] => mret ()
      | _ => x_modify (λ w, set_cluster (handle_exited_containers now reaped (cluster w)) w)
      end;
  reconcile_all world_store main_registry.

(** The spawned starts run in their order until none waits. *)
Fixpoint drain (fuel : nat) : execR world (list (AnyResource * result unit)) :=
  match fuel with
  | O => mret []
  | S fuel' =>
      o ← run_task 0;
      outs ← drain fuel';
      mret (option_list o ++ outs)
  end.
End world.

(** ** Dispatch *)

Section world_theorems.
Context `{HO : HashOrder} `{UC : UnicodeCase} {K KN net : Type} `{FS : FileSystem K}
        `{IJ : ImageConfigJson} `{OS : ContainerOS K} `{SO : StorageOS K}.
Variable errno_name : Z → string.
Variable transact : bytes → K → result bytes * K.
Variable open_netns : Z → K → bool.
Variable set_netns : Z → K → bool * K.
Variable cg : CgroupManager.
Variable base : string.
Variable is_root : bool.
Variable new_uuid : K → string * K.
Variable batch_send : batch net → KN → send_outcome * KN.
Variable parse_net : string → option net.
Variable pick : World K KN → nat.
Variable now : Z.
Implicit Types w : World K KN.
#[local] Set Default Proof Using "Type".

Abbreviation components := (components errno_name transact open_netns set_netns cg base is_root
  new_uuid batch_send parse_net pick now).
Abbreviation main_registry := (main_registry errno_name transact open_netns set_netns cg base is_root
  new_uuid batch_send parse_net pick now).
Abbreviation PodResource := (PodResource errno_name transact open_netns set_netns cg base is_root
  batch_send pick now).
Abbreviation start_pod := (start_pod errno_name transact open_netns set_netns cg base is_root now).
Abbreviation run_task := (run_task (KN := KN) errno_name transact open_netns set_netns cg base is_root now).
Abbreviation drain := (drain (KN := KN) errno_name transact open_netns set_netns cg base is_root now).
Abbreviation acquire := (acquire errno_name transact open_netns set_netns cg base is_root pick now).

Lemma get_main k :
  get_component k main_registry = last (List.filter (λ c, bool_decide (c_kind c = k)) components).
Proof. apply register_all_get. Qed.

Lemma main_in k c : get_component k main_registry = Some c → c ∈ components.
Proof.
  rewrite get_main. intros H%last_Some_elem_of. revert H.
  by rewrite !list_elem_of_In, filter_In; intros [? _].
Qed.

(** Every kind of resource has its component. *)
Lemma main_registry_complete r : ∃ c, get_component (kind r) main_registry = Some c ∧ c_kind c = kind r.
Proof. rewrite get_main. destruct r; by eexists. Qed.

Lemma get_pod : get_component "Pod" main_registry = Some PodResource.
Proof. by rewrite get_main. Qed.

(** ** Pending pods *)

Definition pending_pods (l : list ResourceTracker) : list AnyResource :=
  omap (λ t, if bool_decide (kind (resource t) = "Pod") && bool_decide (state t = Pending)
             then Some (resource t) else None) l.

Lemma acquire_room w : (length (tasks w) < pod_start_semaphore)%nat → acquire w = Ret (Ok (), w).
Proof. intros H. unfold World.acquire. by rewrite (proj2 (Nat.ltb_lt _ _) H). Qed.

Lemma sync_if_ready_frame t w :
  ∃ w', pod_sync_if_ready batch_send t w = Ret (Ok (), w') ∧ cluster w' = cluster w ∧ tasks w' = tasks w.
Proof.
  unfold pod_sync_if_ready, mbind, execR_bind, x_get.
  destruct (_ && _); [|by eexists]. destruct (resource t) as [pod| | | | | | | | | | | |]; try by eexists.
  unfold sync_labels, x_modify. destruct (process_pod_ip _ _) as [ip|]; [|by eexists].
  unfold logged, mbind, execR_bind, x_try, on_engine. rewrite fresh_update_pod. by eexists.
Qed.

(** On a tracker that is no deployment, a round only spawns the start of a pending pod
    and, for a running one, updates the service proxies. *)
Lemma reconcile_one_spec t w :
  kind (resource t) ≠ "Deployment" →
  (length (tasks w) + length (pending_pods [t]) ≤ pod_start_semaphore)%nat →
  ∃ w', reconcile_one main_registry t w = Ret (Ok (), w')
    ∧ cluster w' = cluster w ∧ tasks w' = tasks w ++ pending_pods [t].
Proof.
  intros Hd Hl. destruct (decide (kind (resource t) = "Pod")) as [Hk|Hk].
  - unfold reconcile_one. rewrite Hk, get_pod. unfold logged. cbn [c_reconcile World.PodResource].
    unfold pod_reconcile, pod_start_if_pending, pending_pods in *. cbn [omap list_omap] in *.
    rewrite Hk, bool_decide_true in * by done. cbn [andb] in *.
    case_bool_decide; cbn [length] in Hl.
    + unfold mbind, execR_bind, x_try. rewrite acquire_room by lia.
      unfold spawn_start, x_modify.
      destruct (sync_if_ready_frame t (set_tasks (tasks w ++ [resource t]) w)) as (w' & E & H1 & H2).
      rewrite E. exists w'. split; [done|]. rewrite H1, H2. done.
    + destruct (sync_if_ready_frame t w) as (w' & E & H1 & H2).
      unfold mbind, execR_bind, x_try, mret, execR_ret. rewrite E. exists w'. by rewrite app_nil_r.
  - exists w. unfold pending_pods. cbn [omap list_omap]. rewrite (bool_decide_false _ Hk). cbn [andb].
    rewrite app_nil_r. split; [|done]. unfold reconcile_one. rewrite get_main.
    by destruct (resource t).
Qed.

Lemma reconcile_each_spec l w :
  Forall (λ t, kind (resource t) ≠ "Deployment") l →
  (length (tasks w) + length (pending_pods l) ≤ pod_start_semaphore)%nat →
  ∃ w', x_each (reconcile_one main_registry) l w = Ret (Ok (), w')
    ∧ cluster w' = cluster w ∧ tasks w' = tasks w ++ pending_pods l.
Proof.
  intros Hd. revert w. induction Hd as [|t l Ht _ IH]; intros w Hl; cbn [x_each].
  { exists w. by rewrite app_nil_r. }
  change (pending_pods (t :: l)) with (pending_pods ([t] ++ l)) in *.
  unfold pending_pods in *. rewrite omap_app in *. fold (pending_pods l) (pending_pods [t]) in *.
  rewrite length_app in Hl.
  destruct (reconcile_one_spec t w Ht) as (w1 & E1 & Hc1 & Ht1); [lia|].
  unfold mbind, execR_bind. rewrite E1.
  destruct (IH w1) as (w2 & E2 & Hc2 & Ht2); [rewrite Ht1, length_app; lia|].
  exists w2. by rewrite E2, Hc2, Ht2, Hc1, Ht1, <- app_assoc.
Qed.

(** ** Starts *)

Definition state_of (u : string) (c : Cluster K) : option ResourceState := state <$> store c !! u.

Lemma start_pod_state r c x c' u :
  start_pod r c = Ret (x, c') → is_Some (store c !! u) →
  state_of u c' = if bool_decide (u = uid r) && is_ok x then Some Running else state_of u c.
Proof.
  intros [Hs _]%start_pod_store [t Ht]. unfold state_of. rewrite Hs.
  destruct x as [[]|e]; cbn [is_ok]; [|by rewrite andb_false_r]. rewrite andb_true_r.
  unfold update_state. case_bool_decide as E.
  - subst u. rewrite Ht. by rewrite lookup_insert_eq.
  - destruct (store c !! uid r); [by rewrite lookup_insert_ne|done].
Qed.

Lemma start_pod_known r c x c' u :
  start_pod r c = Ret (x, c') → is_Some (store c !! u) → is_Some (store c' !! u).
Proof.
  intros H Hu. pose proof (start_pod_state r c x c' u H Hu) as E. revert E. unfold state_of.
  destruct Hu as [t ->]. destruct (store c' !! u); [by eexists|]. by destruct (_ && _).
Qed.

Hypothesis HA : answers_in_full transact.

Lemma drain_spec w :
  ∃ outs w', drain (length (tasks w)) w = Ret (Ok outs, w') ∧ outs.*1 = tasks w ∧ tasks w' = []
  ∧ ∀ u, is_Some (store (cluster w) !! u) →
      (state_of u (cluster w) = Some Running ∨ ∃ r, u = uid r ∧ (r, Ok ()) ∈ outs) →
      state_of u (cluster w') = Some Running.
Proof using HA new_uuid.
  remember (tasks w) as l eqn:El. revert w El. induction l as [|r l IH]; intros w El; cbn [length].
  { exists [], w. split; [done|]. split; [done|]. split; [done|].
    intros u _ [H|(r & _ & H)]; [done|by apply elem_of_nil in H]. }
  cbn [World.drain]. unfold mbind at 1, execR_bind at 1. unfold World.run_task. rewrite <- El. cbn [lookup list_lookup].
  destruct (total_returns _ (cluster w) (total_start_pod errno_name transact open_netns set_netns cg
    base is_root new_uuid HA now r)) as [[x c'] E].
  rewrite E. cbn [mbind exec_bind delete list_delete].
  destruct (IH (set_cluster c' (set_tasks l w)) eq_refl) as (outs & w' & Ed & Ho & Ht & Hs).
  unfold mbind at 1, execR_bind at 1. rewrite Ed. exists ((r, x) :: outs), w'. split; [done|].
  split; [by cbn; rewrite Ho|]. split; [done|]. intros u Hu Hr. apply Hs.
  { by apply (start_pod_known r (cluster w) x c'). }
  cbn [cluster set_cluster]. rewrite (start_pod_state r (cluster w) x c' u E Hu).
  destruct Hr as [Hr|(r' & -> & [[= -> <-]|Hin]%elem_of_cons)].
  - left. rewrite Hr. by destruct (_ && _).
  - left. by rewrite bool_decide_true.
  - right. by exists r'.
Qed.

End world_theorems.

(** ** Witnesses *)

#[local] Existing Instance sample_os.
#[local] Existing Instance sample_case.
#[local] Existing Instance sample_image_json.

(** A system without files for volumes, on which no command can be started. *)
Definition no_storage_os : StorageOS Tree := {|
  so_exists _ _ := false; so_create_dir_all _ k := (false, k); so_remove_dir_all _ k := k;
  so_remove_file _ k := k; so_command _ _ k := (None, k); so_utf8_error _ := "" |}.
#[local] Existing Instance no_storage_os.

Definition sample_world (c : Cluster Tree) : World Tree (list (batch (option Ipv4Cidr))) := {|
  cluster := c; network := {| proxies := ∅; engine := sample_engine |}; w_routes := ∅;
  w_records := ∅; w_inflight := ∅; tasks := [] |}.

Definition sample_registry := main_registry (λ _, "E") (answers 36) (λ _ _, true) (λ _ k, (true, k))
  sample_cg "/b" true sample_uuid record_send sample_parse (λ _, 0%nat) 7.
Definition sample_drain := drain (KN := list (batch (option Ipv4Cidr))) (λ _, "E") (answers 36)
  (λ _ _, true) (λ _ k, (true, k)) sample_cg "/b" true 7.

