(* ===== verification/Reach.v ===== *)
(** * Reach: what every reachable world satisfies

    The steps of the running program: a resource is stored or removed, a component is
    told of it, the reconciler ticks, a spawned start runs, a restart timer fires, in any
    order. The store stays well formed, and the reconciler's own steps never touch the
    ingress routes, their DNS records or the marks of claims. *)
From S2P Require Import Prelude Text Utf8 Resources Pool Netlink Nft NetMux Cri SpecBuilder Runtime Process Deployment Service Panics Policy Ingress Storage Registry World.

Create HintDb wf.
Create HintDb wfc.

(** ** Well-formed stores *)

Lemma apply_wf now r s : store_wf s → store_wf (apply now r s).
Proof. apply (run_op_wf (OpApply now r)). Qed.

Lemma delete_wf r s : store_wf s → store_wf (store_delete r s).
Proof.
  intros H u t Ht. unfold store_delete in Ht. apply lookup_delete_Some in Ht as [_ Ht]. by apply H.
Qed.

Lemma update_wf now u st s : store_wf s → store_wf (update_state now u st s).
Proof.
  intros H. unfold update_state. destruct (s !! u) as [t|] eqn:E; [|done].
  intros u' t' [[<- <-]|[_ Ht]]%lookup_insert_Some; [by apply (H u t)|by apply H].
Qed.

#[export] Hint Resolve apply_wf delete_wf update_wf : wf.

(** ** The cluster *)

Section cluster.
Context `{HO : HashOrder} `{UC : UnicodeCase} {K : Type} `{FS : FileSystem K}
        `{IJ : ImageConfigJson} `{OS : ContainerOS K}.
Variable errno_name : Z → string.
Variable transact : bytes → K → result bytes * K.
Variable open_netns : Z → K → bool.
Variable set_netns : Z → K → bool * K.
Variable cg : CgroupManager.
Variable base : string.
Variable is_root : bool.
Variable new_uuid : K → string * K.
#[local] Set Default Proof Using "Type".

(** A relation on clusters that every operation on them stays within: a store may change
    to one that is as well formed, the kernel, the restart counts and the timers in any
    way, containers may leave the books, and pods start and stop. *)
Class ClusterRel (Rc : Cluster K → Cluster K → Prop) := {
  cr_preorder :: PreOrder Rc;
  cr_store c s k : (store_wf (store c) → store_wf s) → Rc c (set_store s (set_sup (set_os k (sup c)) c));
  cr_forget c cid : Rc c (set_sup (set_running (delete cid (running (sup c))) (sup c)) c);
  cr_counts c m : Rc c (set_sup (set_restart_counts m (sup c)) c);
  cr_timers c l : Rc c {| sup := sup c; store := store c; timers := l |};
  cr_subnet c n cidr : Rc c (set_sup (set_netmux (register_subnet_cidr n cidr (netmux (sup c))).2 (sup c)) c);
  cr_start now r : x_triple Rc (start_pod errno_name transact open_netns set_netns cg base is_root now r) (λ _, True);
  cr_stop now r : x_triple Rc (stop_pod errno_name transact cg base now r) (λ _, True)
}.

Section relation.
Variable Rc : Cluster K → Cluster K → Prop.
Context `{CR : !ClusterRel Rc}.
#[local] Set Default Proof Using "CR".

Abbreviation keeps m := (x_triple Rc m (λ _, True)).

Lemma keeps_ret {A} (x : A) : keeps (mret x).
Proof. by apply (xt_ret Rc). Qed.
Lemma keeps_seq {A B} (m : execR (Cluster K) A) (f : A → execR (Cluster K) B) :
  keeps m → (∀ x, keeps (f x)) → keeps (m ≫= f).
Proof. apply (xt_seq Rc). Qed.
Lemma keeps_get : keeps x_get.
Proof. apply (xt_get Rc). Qed.
Lemma keeps_fail {A} e : keeps (x_fail e : execR _ A).
Proof. apply (xt_fail Rc). Qed.
Lemma keeps_try {A} (m : execR (Cluster K) A) : keeps m → keeps (x_try m).
Proof. apply (xt_try Rc). Qed.

Lemma rel_os c k : Rc c (set_sup (set_os k (sup c)) c).
Proof. pose proof (cr_store c (store c) k (λ H, H)) as H. by destruct c. Qed.

Lemma rel_store c s : (store_wf (store c) → store_wf s) → Rc c (set_store s c).
Proof.
  intros Hs. pose proof (cr_store c s (os (sup c)) Hs) as H.
  by destruct c as [[r m [p sp pf g h]] st tm].
Qed.

Lemma keeps_set_store f : (∀ s, store_wf s → store_wf (f s)) →
  keeps (x_modify (λ c : Cluster K, set_store (f (store c)) c)).
Proof. intros Hf c r c' [= <- <-]. split; [|done]. by apply rel_store, Hf. Qed.

Lemma keeps_scale_up now t fuel : ∀ have created,
  keeps (scale_up errno_name transact open_netns set_netns cg base is_root new_uuid now t
           fuel have created).
Proof.
  induction fuel as [|fuel IH]; intros have created; cbn [scale_up]; [apply keeps_ret|].
  destruct (negb _); [apply keeps_ret|]. apply keeps_seq; [|].
  { intros c x c'. unfold fresh_pod_name. destruct (new_uuid _). intros [= <- <-].
    split; [apply rel_os|done]. }
  intros pn. destruct (create_pod_from_template _ _); [|apply keeps_fail].
  apply keeps_seq; [apply (keeps_set_store (apply now _)); auto with wf|]. intros _.
  apply keeps_seq; [apply keeps_try, cr_start|]. intros [[]|e]; [apply IH|].
  apply keeps_seq; [apply (keeps_set_store (update_state now _ _)); auto with wf|].
  intros _. apply keeps_ret.
Qed.

Lemma keeps_scale_down now n : ∀ pods, keeps (scale_down errno_name transact cg base now n pods).
Proof.
  induction n as [|n IH]; intros pods; cbn [scale_down]; [apply keeps_ret|].
  destruct (reverse pods) as [|p ps]; [apply IH|]. apply keeps_seq; [|intros _; apply IH].
  unfold remove_excess. apply keeps_seq; [apply keeps_get|]. intros c.
  destruct (find_first _ _) as [t|]; [|apply keeps_ret].
  apply keeps_seq; [apply keeps_try, cr_stop|]. intros _.
  apply (keeps_set_store (store_delete _)). auto with wf.
Qed.

Lemma keeps_reconcile now r :
  keeps (reconcile_impl errno_name transact open_netns set_netns cg base is_root new_uuid now r).
Proof.
  unfold reconcile_impl. destruct r as [|d| | | | | | | | | | |]; try apply keeps_ret.
  destruct (target_of d) as [t|]; [|apply keeps_fail].
  apply keeps_seq; [apply keeps_get|]. intros c.
  apply keeps_seq; [apply keeps_scale_up|]. intros l. apply keeps_scale_down.
Qed.

Lemma keeps_deployment_on_apply now r :
  keeps (deployment_on_apply errno_name transact open_netns set_netns cg base is_root new_uuid now r).
Proof.
  unfold deployment_on_apply. apply keeps_seq; [apply keeps_get|]. intros c.
  destruct (get _ _); [apply keeps_reconcile|apply keeps_ret].
Qed.

Lemma rel_handle_dead now c d : Rc c (handle_dead now c d).
Proof.
  destruct d as [[cid p] code]. unfold handle_dead.
  etrans; [apply (rel_os c (kill (- i32 p) SIGKILL (os (sup c))))|].
  set (c1 := set_sup _ c). etrans; [apply (cr_forget c1 cid)|]. set (c2 := set_sup _ c1).
  destruct (should_restart _ _).
  - etrans; [apply (cr_counts c2)|]. case_bool_decide; [done|]. apply cr_timers.
  - case_bool_decide; [done|]. destruct (code =? 0); apply rel_store, update_wf.
Qed.

Lemma rel_handle_exited now reaped c : Rc c (handle_exited_containers now reaped c).
Proof.
  unfold handle_exited_containers. generalize (dead_containers (collect reaped) (sup c)). intros l.
  revert c. induction l as [|d l IH]; intros c; cbn [foldl]; [done|].
  etrans; [apply (rel_handle_dead now c d)|apply IH].
Qed.

Lemma rel_fire_timer now i c : Rc c (fire_timer now i c).
Proof.
  unfold fire_timer. destruct (timers c !! i) as [[d u]|]; [|done].
  etrans; [apply (cr_timers c (delete i (timers c)))|].
  apply (rel_store {| sup := sup c; store := store c; timers := delete i (timers c) |}), update_wf.
Qed.
End relation.

(** *** Well-formed stores, as such a relation *)

Definition keeps_wf (c c' : Cluster K) : Prop := store_wf (store c) → store_wf (store c').

#[export] Instance keeps_wf_preorder : PreOrder keeps_wf.
Proof. split; [intros c H; exact H|intros c1 c2 c3 H1 H2 H; auto]. Qed.

#[export] Instance keeps_wf_rel : ClusterRel keeps_wf.
Proof.
  split; [apply _|intros c s k H; exact H|by intros c cid H|by intros c m H|by intros c l H|by intros c n cidr H|..].
  - intros now r c x c' [Hs _]%start_pod_store. split; [|done]. unfold keeps_wf. rewrite Hs.
    destruct x; auto with wf.
  - intros now r c x c' (_ & Hs & _)%stop_pod_store. split; [|done]. unfold keeps_wf. rewrite Hs.
    auto with wf.
Qed.

(** The relation of any two clusters. *)
Definition any_cluster (c c' : Cluster K) : Prop := True.
#[export] Instance any_cluster_rel : ClusterRel any_cluster.
Proof. by repeat split. Qed.
End cluster.

(** ** Volumes *)

Section volumes.
Context `{HO : HashOrder} {OS : Type} `{SO : StorageOS OS}.
Variable now : Z.
Variable new_uuid : OS → string * OS.
#[local] Set Default Proof Using "Type".

Abbreviation keeps m := (sr_keeps (λ s : ProvisionerDispatcher OS, store_wf (sto_store s)) m).

Lemma keeps_on_os {A} (f : stateR OS A) : keeps (on_os f).
Proof. intros s H. unfold on_os. by destruct (f (sto_os s)). Qed.
Lemma keeps_on_store f : (∀ s, store_wf s → store_wf (f s)) → keeps (on_store (OS := OS) f).
Proof. intros Hf s H. by apply Hf. Qed.
Lemma keeps_on_inflight f : keeps (on_inflight (OS := OS) f).
Proof. by intros s H. Qed.
#[local] Hint Resolve keeps_on_os keeps_on_store keeps_on_inflight apply_wf delete_wf : keeps.
#[local] Ltac keep := repeat first
  [solve [auto with keeps] | apply sr_keeps_bind; [|intros ?] | apply sr_keeps_try | case_match].

Lemma keeps_provision pvc : keeps (provision_for_pvc now new_uuid pvc).
Proof.
  unfold provision_for_pvc. apply sr_keeps_bind; [auto with keeps|]. intros [[u cn]|]; [|auto with keeps].
  apply sr_keeps_bind.
  { intros s H. unfold enter. by destruct (is_some _). }
  intros fresh. unfold do_provision, leave. keep.
Qed.
#[local] Hint Resolve keeps_provision : keeps.

Lemma keeps_deprovision pv : keeps (deprovision_pv pv).
Proof. unfold deprovision_pv. keep. Qed.
#[local] Hint Resolve keeps_deprovision : keeps.

Lemma keeps_pvc_on_apply r : keeps (pvc_on_apply now new_uuid r).
Proof.
  unfold pvc_on_apply, bind_to. keep.
Qed.
Lemma keeps_pvc_on_delete r : keeps (pvc_on_delete r).
Proof. unfold pvc_on_delete. keep. Qed.
Lemma keeps_pv_on_apply r : keeps (pv_on_apply (OS := OS) now r).
Proof. unfold pv_on_apply. keep. Qed.
Lemma keeps_pv_on_delete r : keeps (pv_on_delete r).
Proof. unfold pv_on_delete. keep. Qed.
End volumes.

(** ** The world *)

Section world.
Context `{HO : HashOrder} `{UC : UnicodeCase} {K KN net : Type} `{FS : FileSystem K}
        `{IJ : ImageConfigJson} `{OS : ContainerOS K} `{SO : StorageOS K}.
Variable errno_name : Z → string.
Variable transact : bytes → K → result bytes * K.
Variable open_netns : Z → K → bool.
Variable set_netns : Z → K → bool * K.
Variable cg : CgroupManager.
Variable base : string.
Variable is_root : bool.
Variable new_uuid : K → string * K.
Variable batch_send : batch net → KN → send_outcome * KN.
Variable parse_net : string → option net.
Variable pick : World K KN → nat.
Implicit Types w : World K KN.
#[local] Set Default Proof Using "All".

Abbreviation run_task := (run_task (KN := KN) errno_name transact open_netns set_netns cg base is_root).
Abbreviation apply_resource := (apply_resource errno_name transact open_netns set_netns cg base is_root
  new_uuid batch_send parse_net pick).
Abbreviation delete_resource := (delete_resource errno_name transact open_netns set_netns cg base is_root
  new_uuid batch_send parse_net pick).
Abbreviation tick := (tick errno_name transact open_netns set_netns cg base is_root
  new_uuid batch_send parse_net pick).
Abbreviation main_registry := (main_registry errno_name transact open_netns set_netns cg base is_root
  new_uuid batch_send parse_net pick).
Abbreviation reconcile_round now := (reconcile_all world_store (main_registry now)).

(** A relation that only looks at what rounds leave alone. *)
Section relation.
Variable Rc : Cluster K → Cluster K → Prop.
Context `{CR : !ClusterRel errno_name transact open_netns set_netns cg base is_root Rc}.
Variable R : World K KN → World K KN → Prop.
Context `{!PreOrder R}.
Hypothesis R_cluster : ∀ w c, Rc (cluster w) c → R w (set_cluster c w).
Hypothesis R_network : ∀ w m, R w (set_network m w).
Hypothesis R_tasks : ∀ w l, R w (set_tasks l w).
#[local] Set Default Proof Using "Type*".

Abbreviation within m := (x_triple R m (λ _, True)).

Lemma within_on_cluster {A} (m : execR (Cluster K) A) :
  x_triple Rc m (λ _, True) → within (on_cluster m).
Proof.
  intros Hm w r w'. unfold on_cluster. destruct (m (cluster w)) as [[r0 c]|] eqn:E; [|done].
  cbn. intros [= <- <-]. destruct (Hm _ _ _ E). split; [by apply R_cluster|done].
Qed.

Lemma within_on_engine {A} (f : stateR (NftEngine KN) A) : within (on_engine f).
Proof.
  intros w r w'. unfold on_engine. destruct (f _) as [r0 e]. intros [= <- <-].
  split; [apply R_network|done].
Qed.

Lemma within_run_task now i : within (run_task now i).
Proof.
  intros w r w'. unfold World.run_task. destruct (tasks w !! i) as [p|]; [|by intros [= <- <-]].
  destruct (start_pod _ _ _ _ _ _ _ _ _ _) as [[x c]|] eqn:E; [|done]. cbn. intros [= <- <-].
  split; [|done]. destruct (cr_start errno_name transact open_netns set_netns cg base is_root (Rc := Rc) _ _ _ _ _ E) as [E' _].
  etrans; [apply (R_tasks w (delete i (tasks w)))|]. by apply R_cluster.
Qed.

Lemma within_logged m : within m → within (logged m).
Proof. intros H. apply (xt_seq R); [eapply (xt_try R), H|]. intros _. by apply (xt_ret R). Qed.

Lemma within_acquire now :
  within (acquire errno_name transact open_netns set_netns cg base is_root pick now).
Proof.
  intros w r w'. unfold acquire. destruct (_ <? _)%nat; [by intros [= <- <-]|].
  apply (xt_seq R); [apply within_run_task|]. intros _. by apply (xt_ret R).
Qed.

Lemma within_sync pod : within (sync_labels batch_send pod).
Proof. intros w r w' [= <- <-]. split; [apply R_network|done]. Qed.

Lemma within_pod_reconcile now t : within (pod_reconcile errno_name transact open_netns set_netns cg base
  is_root batch_send pick now t).
Proof.
  apply (xt_seq R).
  - unfold pod_start_if_pending. case_bool_decide; [|by apply (xt_ret R)].
    apply (xt_seq R); [apply within_acquire|]. intros _ w r w' [= <- <-]. split; [apply R_tasks|done].
  - intros _. unfold pod_sync_if_ready. apply (xt_seq R); [apply (xt_get R)|]. intros w0.
    destruct (_ && _); [|by apply (xt_ret R)].
    destruct (resource t); try by apply (xt_ret R).
    apply (xt_seq R); [apply within_sync|]. intros _.
    destruct (process_pod_ip _ _); [|by apply (xt_ret R)].
    apply within_logged, within_on_engine.
Qed.

Lemma within_each {A} (f : A → execR (World K KN) unit) l :
  (∀ x, within (f x)) → within (x_each f l).
Proof.
  intros Hf. induction l as [|x l IH]; [by apply (xt_ret R)|]. cbn [x_each].
  apply (xt_seq R); [apply Hf|]. by intros _.
Qed.

(** Only pods and deployments do anything in a round. *)
Lemma within_round now : within (reconcile_round now).
Proof.
  unfold reconcile_all. apply (xt_seq R); [apply (xt_get R)|]. intros w. apply within_each. intros t.
  unfold reconcile_one. destruct (get_component _ _) as [c|] eqn:Hc; [|by apply (xt_ret R)].
  apply within_logged. apply main_in in Hc. revert t. revert c Hc.
  apply (Forall_forall (λ c, ∀ t, within (c_reconcile c t))).
  unfold World.components. rewrite !Forall_cons, Forall_nil.
  split_and!; [..|done]; cbn [c_reconcile]; intros t; try by apply (xt_ret R).
  - apply within_pod_reconcile.
  - by apply within_on_cluster, keeps_reconcile.
Qed.
End relation.

(** ** Rounds leave routes and claims alone *)

Definition same_routes w w' : Prop :=
  w_routes w' = w_routes w ∧ w_records w' = w_records w ∧ w_inflight w' = w_inflight w.

#[export] Instance same_routes_preorder : PreOrder same_routes.
Proof using Type. split; [by intros w|]. intros w1 w2 w3 (A & B & C) (D & E & F). repeat split; congruence. Qed.

(** A tick never touches the ingress routes, their DNS records or the claims being
    provisioned: an ingress or a claim that only entered the store, as those of the
    manifest directory do, has no effect. *)
Theorem ticks_apply_nothing now answers w r w' :
  tick now answers w = Ret (r, w') →
  w_routes w' = w_routes w ∧ w_records w' = w_records w ∧ w_inflight w' = w_inflight w.
Proof.
  intros H. unfold World.tick in H.
  apply (xt_seq same_routes _ _ (λ _, True)) in H as [H _]; [exact H| |].
  - destruct (reap_zombies answers) as [|d l]; [by apply (xt_ret same_routes)|].
    by intros w1 r1 w2 [= <- <-].
  - intros _. by apply (within_round any_cluster same_routes).
Qed.

(** ** What every step stays within *)

Section steps.
Variable Rc : Cluster K → Cluster K → Prop.
Context `{CR : !ClusterRel errno_name transact open_netns set_netns cg base is_root Rc}.
#[local] Set Default Proof Using "All".

Definition in_cluster w w' : Prop := Rc (cluster w) (cluster w').

#[export] Instance in_cluster_preorder : PreOrder in_cluster.
Proof. split; [by intros w; unfold in_cluster|]. intros w1 w2 w3 H1 H2. unfold in_cluster in *. by etrans. Qed.

Abbreviation keeps m := (x_triple in_cluster m (λ _, True)).
#[local] Ltac frame := first [done | by intros ?? Hc | by intros ??; unfold in_cluster; cbn].

Lemma in_on_engine {A} (f : stateR (NftEngine KN) A) : keeps (on_engine f).
Proof. apply (within_on_engine Rc in_cluster); frame. Qed.

Lemma in_on_cluster {A} (m : execR (Cluster K) A) :
  x_triple Rc m (λ _, True) → keeps (on_cluster m).
Proof. apply (within_on_cluster Rc in_cluster); frame. Qed.

Lemma in_run_task now i : keeps (run_task now i).
Proof. apply (within_run_task Rc in_cluster); frame. Qed.

Lemma in_acquire now :
  keeps (acquire errno_name transact open_netns set_netns cg base is_root pick now).
Proof. apply (within_acquire Rc in_cluster); frame. Qed.

Lemma in_round now : keeps (reconcile_round now).
Proof. apply (within_round Rc in_cluster); frame. Qed.

Lemma in_logged m : keeps m → keeps (logged m).
Proof. apply (within_logged Rc in_cluster); frame. Qed.

Lemma in_ret {A} (x : A) : keeps (mret x).
Proof. by apply (xt_ret in_cluster). Qed.

Lemma in_seq {A B} (m : execR (World K KN) A) (f : A → execR (World K KN) B) :
  keeps m → (∀ x, keeps (f x)) → keeps (m ≫= f).
Proof. apply (xt_seq in_cluster). Qed.

Lemma in_on_storage {A} (f : stateR (ProvisionerDispatcher K) A) :
  sr_keeps (λ s, store_wf (sto_store s)) f → keeps (on_storage f).
Proof.
  intros Hf w r w'. unfold on_storage. destruct (f _) as [r0 s] eqn:E. intros [= <- <-].
  split; [|done]. unfold in_cluster. cbn [cluster]. eapply cr_store; [exact CR|]. intros H.
  pose proof (Hf {| sto_store := store (cluster w); inflight := w_inflight w;
                    sto_os := os (sup (cluster w)) |} H) as H'.
  by rewrite E in H'.
Qed.

Lemma in_on_ingress {A} (f : stateR IngressNet A) : keeps (on_ingress f).
Proof.
  intros w r w'. unfold on_ingress. destruct (f _) as [r0 s]. intros [= <- <-].
  split; [unfold in_cluster; cbn; reflexivity|done].
Qed.

Lemma in_subnet n cidr : keeps (on_netmux (register_subnet_cidr n cidr)).
Proof.
  intros w r w'. unfold on_netmux. pose proof (cr_subnet errno_name transact open_netns set_netns cg base is_root (Rc := Rc) (cluster w) n cidr) as H.
  destruct (register_subnet_cidr _ _ _) as [r0 s]. intros [= <- <-]. by split.
Qed.

Lemma in_network (f : World K KN → NetworkManager KN) : keeps (x_modify (λ w, set_network (f w) w)).
Proof. intros w r w' [= <- <-]. split; [unfold in_cluster; cbn; reflexivity|done]. Qed.

Lemma in_no_action r : keeps (no_action r).
Proof. apply in_ret. Qed.
Lemma in_sync pod : keeps (sync_labels batch_send pod).
Proof. apply in_network. Qed.

#[local] Hint Resolve in_no_action in_sync in_ret in_on_engine in_on_ingress in_subnet in_network in_acquire : wfc.

(** What every component keeps when a resource is applied or deleted. *)
Lemma in_components now c :
  c ∈ components errno_name transact open_netns set_netns cg base is_root new_uuid batch_send parse_net
        pick now →
  (∀ r, keeps (c_on_apply c r)) ∧ (∀ r, keeps (c_on_delete c r)).
Proof.
  revert c. apply (Forall_forall (λ c, (∀ r, keeps (c_on_apply c r)) ∧ (∀ r, keeps (c_on_delete c r)))).
  unfold World.components. rewrite !Forall_cons, Forall_nil. split_and!; try done;
    cbn [c_on_apply c_on_delete PodResource DeploymentResource ServiceResource IngressResource
         NetworkPolicyResource VNetResource SubnetResource NsgResource RouteTableResource
         ConfigMapResource SecretResource PvResource PvcResource]; unfold service_on_apply, vnet_on_apply, subnet_on_apply;
    intros r; auto with wfc;
    try (destruct r; by auto with wfc);
    try (apply in_on_storage; auto using keeps_pv_on_apply, keeps_pv_on_delete,
           keeps_pvc_on_apply, keeps_pvc_on_delete).
  - apply in_seq; [auto with wfc|]. intros _. apply in_seq; [by apply in_on_cluster, cr_start|].
    intros _. destruct r; auto with wfc.
  - apply in_seq; [apply (xt_get in_cluster)|]. intros w0. apply in_seq.
    + destruct r; auto with wfc. destruct (process_pod_ip _ _); auto using in_logged with wfc.
    + intros _. apply in_logged, in_on_cluster. by eapply cr_stop.
  - by apply in_on_cluster, keeps_deployment_on_apply.
  - destruct r; auto with wfc. apply in_seq; [auto with wfc|]. intros _.
    destruct (vs_internet_access _); auto with wfc.
Qed.

Lemma in_apply_resource now r : keeps (apply_resource now r).
Proof.
  apply in_seq; [|intros _; apply in_ret].
  destruct (get_component _ _) as [c|] eqn:Hc; [|apply in_ret].
  apply in_logged. by apply (in_components now c), (main_in _ _ _ _ _ _ _ _ _ _ _ _ _ _ Hc).
Qed.

Lemma in_delete_resource now r : keeps (delete_resource now r).
Proof.
  apply in_seq; [|intros _; apply in_ret].
  destruct (get_component _ _) as [c|] eqn:Hc; [|apply in_ret].
  apply in_logged. by apply (in_components now c), (main_in _ _ _ _ _ _ _ _ _ _ _ _ _ _ Hc).
Qed.

Lemma in_tick now answers : keeps (tick now answers).
Proof.
  apply in_seq; [|intros _; apply in_round]. destruct (reap_zombies answers) as [|p l]; [apply in_ret|].
  intros w r w' [= <- <-]. split; [|done].
  exact (rel_handle_exited _ _ _ _ _ _ _ _ now (p :: l) (cluster w)).
Qed.
End steps.

(** The steps of the program, each at a time of its own. *)
Inductive world_step : World K KN → World K KN → Prop :=
  | step_put now r w :
      world_step w (set_cluster (set_store (apply now r (world_store w)) (cluster w)) w)
  | step_remove r w :
      world_step w (set_cluster (set_store (store_delete r (world_store w)) (cluster w)) w)
  | step_state now u st w :
      world_step w (set_cluster (set_store (update_state now u st (world_store w)) (cluster w)) w)
  | step_apply now r w x w' : apply_resource now r w = Ret (x, w') → world_step w w'
  | step_delete now r w x w' : delete_resource now r w = Ret (x, w') → world_step w w'
  | step_tick now answers w x w' : tick now answers w = Ret (x, w') → world_step w w'
  | step_task now i w x w' : run_task now i w = Ret (x, w') → world_step w w'
  | step_timer now i w : world_step w (set_cluster (fire_timer now i (cluster w)) w)
  (** The kernel changes: other programs act on it, or it gives random bytes. *)
  | step_os k w : world_step w (set_cluster (set_sup (set_os k (sup (cluster w))) (cluster w)) w).

(** No step leaves a relation that the operations on clusters stay within. *)
Lemma world_step_rel Rc `{CR : !ClusterRel errno_name transact open_netns set_netns cg base is_root Rc} w w' :
  world_step w w' → Rc (cluster w) (cluster w').
Proof.
  intros [now r w0|r w0|now u st w0|now r w0 x w1 H|now r w0 x w1 H|now answers w0 x w1 H
         |now i w0 x w1 H|now i w0|k w0].
  - eapply rel_store; [exact CR|apply apply_wf].
  - eapply rel_store; [exact CR|apply delete_wf].
  - eapply rel_store; [exact CR|apply update_wf].
  - by apply (in_apply_resource Rc) in H as [H _].
  - by apply (in_delete_resource Rc) in H as [H _].
  - by apply (in_tick Rc) in H as [H _].
  - by apply (in_run_task Rc) in H as [H _].
  - eapply rel_fire_timer, CR.
  - eapply rel_os, CR.
Qed.

Lemma steps_rel Rc `{CR : !ClusterRel errno_name transact open_netns set_netns cg base is_root Rc} w w' :
  rtc world_step w w' → Rc (cluster w) (cluster w').
Proof. induction 1 as [w|w1 w2 w3 Hs _ IH]; [done|]. etrans; [by apply (world_step_rel Rc)|done]. Qed.

(** C22. Every resource of every reachable store is filed under its own uid: no sequence of
    requests, ticks, starts and timers, failing or not, breaks this. *)
Theorem reachable_store_wf w w' :
  rtc world_step w w' → store_wf (world_store w) → store_wf (world_store w').
Proof. apply (steps_rel keeps_wf). Qed.
End world.

(** ** Witnesses *)

#[local] Existing Instance sample_os.
#[local] Existing Instance sample_case.
#[local] Existing Instance sample_image_json.
#[local] Existing Instance no_storage_os.

Lemma ticks_apply_nothing_witness :
  ∃ r w', World.tick (λ _, "E") (answers 36) (λ _ _, true) (λ _ k, (true, k)) sample_cg "/b" true
            sample_uuid record_send sample_parse (λ _, 0%nat) 7 [StillAlive]
            (sample_world (sample_cluster "i")) = Ret (r, w') ∧ w_routes w' = ∅.
Proof.
  destruct (World.tick (λ _, "E") (answers 36) (λ _ _, true) (λ _ k, (true, k)) sample_cg "/b" true
    sample_uuid record_send sample_parse (λ _, 0%nat) 7 [StillAlive] (sample_world (sample_cluster "i")))
    as [[r w']|] eqn:E; [|vm_compute in E; discriminate E].
  exists r, w'. split; [reflexivity|].
  destruct (ticks_apply_nothing (λ _, "E") (answers 36) (λ _ _, true) (λ _ k, (true, k)) sample_cg
    "/b" true sample_uuid record_send sample_parse (λ _, 0%nat) 7 [StillAlive] _ r w' E) as [H _].
  exact H.
Defined.

Lemma reachable_store_wf_witness :
  store_wf (world_store (set_cluster (set_store
    (apply 3 (pod_with "db" "i") (world_store (sample_world (sample_cluster "i"))))
    (sample_cluster "i")) (sample_world (sample_cluster "i")))).
Proof.
  apply (reachable_store_wf (λ _, "E") (answers 36) (λ _ _, true) (λ _ k, (true, k)) sample_cg "/b" true
    sample_uuid record_send sample_parse (λ _, 0%nat) (sample_world (sample_cluster "i"))).
  - apply rtc_once. apply (step_put _ _ _ _ _ _ _ _ _ _ _ 3 (pod_with "db" "i")).
  - apply (run_op_wf (OpApply 1 (pod_with "web" "i"))), store_new_wf.
Defined.
