(* ===== verification/Query.v ===== *)
(** * Query: reading requests and building answers
    (src/src/api/server.rs, and the pure parts of src/src/api/handlers/pod.rs,
    src/src/api/handlers/deployment.rs, src/src/api/handlers/service.rs and of the
    handlers of the custom resources)

    Label selectors of a query string, merge patches, JSON paths, membership of a CIDR,
    the tables that kubectl prints, and the errors of the API. Nothing here has a state.
    The theorems compare the merge patch with RFC 7386 and the CIDR test with the
    arithmetic of prefixes, and read selectors back from their text. *)
From S2P Require Import Prelude Text Utf8 Json Resources Pool.

(** ** Errors *)

Record ApiError := { err_status : Z; err_message : string }.

Definition not_found (msg : string) : ApiError := {| err_status := 404; err_message := msg |}.
Definition bad_request (msg : string) : ApiError := {| err_status := 400; err_message := msg |}.
Definition method_not_allowed (msg : string) : ApiError :=
  {| err_status := 405; err_message := msg |}.

(** [Status] of the Kubernetes API. *)
Record Status := {
  st_status : option string; st_message : option string; st_reason : option string;
  st_code : option Z
}.

Definition reason_of (status : Z) : string :=
  if status =? 400 then "BadRequest" else if status =? 401 then "Unauthorized"
  else if status =? 403 then "Forbidden" else if status =? 404 then "NotFound"
  else if status =? 405 then "MethodNotAllowed" else if status =? 409 then "Conflict"
  else if status =? 500 then "InternalError" else if status =? 503 then "ServiceUnavailable"
  else "Unknown".

(** [ApiError::into_response]: the code and the body. *)
Definition error_response (e : ApiError) : Z * Status :=
  (err_status e, {| st_status := Some "Failure"; st_message := Some (err_message e);
                    st_reason := Some (reason_of (err_status e));
                    st_code := Some (i32 (err_status e)) |}).

Definition ok_status : Status :=
  {| st_status := Some "Success"; st_message := None; st_reason := None; st_code := Some 200 |}.

Definition fallback_handler (path : string) : Z * Status :=
  (404, {| st_status := Some "Failure"; st_message := Some ("no route found for " +:+ path);
           st_reason := Some "NotFound"; st_code := Some 404 |}).

(** ** Query strings *)

(** [b as char], in UTF-8. *)
Definition latin1_char (b : byte) : bytes :=
  if b <? 128 then [b] else [0xC0 + b / 64; 0x80 + b `mod` 64].

Fixpoint urlpath_decode_bytes (l : bytes) : bytes :=
  match l with
  | [] => []
  | b :: l1 =>
      match l1 with
      | h :: l2 =>
          match l2 with
          | lo :: l3 =>
              match to_digit16 h, to_digit16 lo with
              | Some hi, Some lo =>
                  if b =? 37 then latin1_char (u8 (hi * 16 + lo)) ++ urlpath_decode_bytes l3
                  else latin1_char b ++ urlpath_decode_bytes l1
              | _, _ => latin1_char b ++ urlpath_decode_bytes l1
              end
          | [] => latin1_char b ++ urlpath_decode_bytes l1
          end
      | [] => latin1_char b ++ urlpath_decode_bytes l1
      end
  end.

Definition urlpath_decode (s : string) : string := of_bytes (urlpath_decode_bytes (as_bytes s)).

Definition nonempty (s : string) : bool := negb (bool_decide (s = "")).

Definition parse_requirement (req : string) : string * option string :=
  let req := urlpath_decode (trim req) in
  match split_once "=" req with
  | Some (k, v) => (trim k, Some (trim_start_matches "=" v))
  | None => (req, None)
  end.

Definition parse_label_selector (raw : string) : list (string * option string) :=
  if bool_decide (raw = "") then []
  else parse_requirement <$> List.filter nonempty (split_on "," raw).

Definition extract_label_selector (raw_query : string) : list (string * option string) :=
  if bool_decide (raw_query = "") then []
  else
    unwrap_or
      (find_map (λ part, parse_label_selector <$>
                           strip_prefix "labelSelector=" (urlpath_decode part))
         (List.filter nonempty (split_on "&" raw_query)))
      [].

Definition matches_requirement (lbls : gmap string string) (kv : string * option string) : bool :=
  match kv.2 with
  | Some v => bool_decide (lbls !! kv.1 = Some v)
  | None => is_some (lbls !! kv.1)
  end.

Definition pod_labels_match (selector : list (string * option string)) (lbls : gmap string string)
    : bool :=
  forallb (matches_requirement lbls) selector.

(** The [Accept] header, when it is text. *)
Definition accepts_table (accept : option string) : bool :=
  match accept with Some v => contains "as=Table" v | None => false end.

Definition wants_table (accept : option string) : bool :=
  match accept with Some v => contains "as=Table" v | None => false end.

(** ** Merge patches *)

(** The members of a patch one by one; [f] gives the new value of a member from its old
    one. A null removes the member. *)
Section members.
Variable f : option json → json → json.
Fixpoint merge_members (b p : list (string * json)) : list (string * json) :=
  match p with
  | [] => b
  | (k, v) :: p' =>
      merge_members (match v with
                     | JNull => jm_remove k b
                     | _ => jm_insert k (f (jm_get k b) v) b
                     end) p'
  end.
End members.

(** The second argument is the patch; only two objects are merged. *)
Fixpoint json_merge_patch (base patch : json) {struct patch} : json :=
  match base, patch with
  | JObj b, JObj p =>
      JObj (merge_members (λ old v,
        match v with
        | JObj _ => json_merge_patch (unwrap_or old (JObj [])) v
        | _ => v
        end) b p)
  | _, _ => base
  end.

(** [MergePatch(Target, Patch)] as RFC 7386 defines it. *)
Fixpoint merge_patch_rfc (target patch : json) {struct patch} : json :=
  match patch with
  | JObj p =>
      JObj (merge_members (λ old v, merge_patch_rfc (unwrap_or old JNull) v)
              (match target with JObj t => t | _ => [] end) p)
  | _ => patch
  end.

(** ** JSON paths *)

Fixpoint walk_path (parts : list string) (j : json) : json :=
  match parts with
  | [] => j
  | p :: parts' =>
      match j with
      | JObj m => walk_path parts' (unwrap_or (jm_get p m) JNull)
      | _ => JNull
      end
  end.

(** A string that reads as an integer is returned as one. *)
Definition extract_json_path (obj : json) (path : string) : json :=
  match path with
  | String "." rest =>
      let current := walk_path (split_on "." rest) obj in
      match current with
      | JStr s => match parse_i64 s with Some n => JNum n | None => current end
      | _ => current
      end
  | _ => JNull
  end.

(** ** Membership of a CIDR *)

Definition ip_in_cidr (ip cidr : string) : bool :=
  match split_on "/" cidr with
  | [net; len] =>
      match parse_u32 len with
      | None => false
      | Some prefix_len =>
          match omap parse_u8 (split_on "." ip), omap parse_u8 (split_on "." net) with
          | [a; b; c; d], [a'; b'; c'; d'] =>
              let mask := if prefix_len =? 0 then 0 else shl32 (2 ^ 32 - 1) (u32 (32 - prefix_len)) in
              Z.land (from_be32 a b c d) mask =? Z.land (from_be32 a' b' c' d') mask
          | _, _ => false
          end
      end
  | _ => false
  end.

(** ** Tables *)

Section tables.
(** [chrono::DateTime::parse_from_rfc3339], in seconds, and the clock. *)
Variable parse_rfc3339 : string → option Z.
Variable now : Z.

Definition age_from_timestamp (ts : string) : string :=
  match parse_rfc3339 ts with
  | Some created =>
      let secs := Z.max (now - created) 0 in
      if secs <? 60 then display secs +:+ "s"
      else if secs <? 3600 then display (secs / 60) +:+ "m"
      else if secs <? 86400 then display (secs / 3600) +:+ "h"
      else display (secs / 86400) +:+ "d"
  | None => "<unknown>"
  end.

Definition format_ts_relative (ts : string) : string :=
  match parse_rfc3339 ts with
  | Some dt =>
      let delta := Z.max (now - u64 dt) 0 in
      if delta <? 60 then display delta +:+ "s"
      else if delta <? 3600 then display (delta / 60) +:+ "m"
      else if delta <? 86400 then display (delta / 3600) +:+ "h"
      else display (delta / 86400) +:+ "d"
  | None => ts
  end.

Definition make_table (columns : json) (rows : list json) : json :=
  jobj [("kind", JStr "Table"); ("apiVersion", JStr "meta.k8s.io/v1");
        ("columnDefinitions", columns); ("rows", JArr rows)].

Definition row (cells : list json) (item : json) : json :=
  jobj [("cells", JArr cells); ("object", item)].

Definition str_or (d : string) (j : json) : string := unwrap_or (as_str j) d.
Definition int_or (d : Z) (j : json) : Z := unwrap_or (as_i64 j) d.

Definition name_column : json :=
  jobj [("name", JStr "Name"); ("type", JStr "string"); ("format", JStr "name"); ("priority", JNum 0)].
Definition column (n : string) : json :=
  jobj [("name", JStr n); ("type", JStr "string"); ("priority", JNum 0)].

Definition item_name (item : json) : string := str_or "" (jidx "name" (jidx "metadata" item)).
Definition item_created (item : json) : string :=
  str_or "" (jidx "creationTimestamp" (jidx "metadata" item)).

(** Ready, total and restarts; the restarts are summed in an [i32]. *)
Definition count_containers (status : json) : Z * Z * Z :=
  match as_array (jidx "containerStatuses" status) with
  | Some cs =>
      (Z.of_nat (length (List.filter (λ c, unwrap_or (as_bool (jidx "ready" c)) false) cs)),
       Z.of_nat (length cs),
       foldl (λ a c, i32 (a + i32 (int_or 0 (jidx "restartCount" c)))) 0 cs)
  | None => (0, 0, 0)
  end.

Definition pod_row (item : json) : json :=
  let status := jidx "status" item in
  let '(ready, total, restarts) := count_containers status in
  row [JStr (item_name item); JStr (display ready +:+ "/" +:+ display total);
       JStr (str_or "Unknown" (jidx "phase" status)); JNum restarts;
       JStr (age_from_timestamp (item_created item))] item.

Definition pod_list_to_table (items : list json) : json :=
  make_table (JArr [name_column; column "Ready"; column "Status"; column "Restarts"; column "Age"])
    (pod_row <$> items).

Definition deployment_row (item : json) : json :=
  let status := jidx "status" item in
  row [JStr (item_name item);
       JStr (display (int_or 0 (jidx "readyReplicas" status)) +:+ "/"
             +:+ display (int_or 0 (jidx "replicas" status)));
       JNum (int_or 0 (jidx "updatedReplicas" status));
       JNum (int_or 0 (jidx "availableReplicas" status));
       JStr (age_from_timestamp (item_created item))] item.

Definition deployment_list_to_table (items : list json) : json :=
  make_table (JArr [name_column; column "Ready"; column "Up-to-date"; column "Available"; column "Age"])
    (deployment_row <$> items).

Definition port_cell (p : json) : string :=
  let port := int_or 0 (jidx "port" p) in
  let proto := str_or "TCP" (jidx "protocol" p) in
  match as_i64 (jidx "nodePort" p) with
  | Some np => display port +:+ ":" +:+ display np +:+ "/" +:+ proto
  | None => display port +:+ "/" +:+ proto
  end.

Definition service_row (item : json) : json :=
  let spec := jidx "spec" item in
  row [JStr (item_name item); JStr (str_or "ClusterIP" (jidx "type" spec));
       JStr (str_or "<none>" (jidx "clusterIP" spec)); JStr "<none>";
       JStr (match as_array (jidx "ports" spec) with
             | Some ps => join "," (port_cell <$> ps)
             | None => ""
             end);
       JStr (age_from_timestamp (item_created item))] item.

Definition service_list_to_table (items : list json) : json :=
  make_table (JArr [column "Name"; column "Type"; column "Cluster-IP"; column "External-IP";
                    column "Port(s)"; column "Age"])
    (service_row <$> items).

(** The columns are name, path and type. *)
Definition col_def (c : string * string * string) : json :=
  let '(n, path, ty) := c in
  jobj [("name", JStr n); ("type", JStr ty); ("jsonPath", JStr path); ("description", JStr n);
        ("priority", JNum 0)].

Definition table_row (cols : list (string * string * string)) (item : json) : json :=
  row (JStr (item_name item) :: ((λ c, extract_json_path item c.1.2) <$> cols)
       ++ [JStr (format_ts_relative (item_created item))]) item.

Definition build_table (items : list json) (cols : list (string * string * string)) : json :=
  jobj [("kind", JStr "Table"); ("apiVersion", JStr "meta.k8s.io/v1"); ("metadata", JObj []);
        ("columnDefinitions", JArr
           (jobj [("name", JStr "Name"); ("type", JStr "string"); ("format", JStr "name");
                  ("description", JStr "Name"); ("priority", JNum 0)]
            :: (col_def <$> cols)
            ++ [jobj [("name", JStr "Age"); ("type", JStr "date"); ("description", JStr "Age");
                      ("priority", JNum 0)]]));
        ("rows", JArr (table_row cols <$> items))].
End tables.

(** ** Computed fields of the custom resources *)

Definition spec_rules (item : json) : list json :=
  unwrap_or (as_array (jidx "rules" (jidx "spec" item))) [].
Definition with_action (a : string) (l : list json) : Z :=
  Z.of_nat (length (List.filter (λ r, bool_decide (as_str (jidx "action" r) = Some a)) l)).

(** [item["spec"][k] = v] *)
Definition set_spec (k : string) (v : json) (item : json) : exec json :=
  jupd "spec" (jupd k (λ _, Ret v)) item.

Definition enrich_nsg_item (item : json) : exec json :=
  let rules := Z.of_nat (length (spec_rules item)) in
  let targets := match as_array (jidx "target_vnets" (jidx "spec" item)) with
                 | Some a => join "," (omap as_str a)
                 | None => ""
                 end in
  let allows := with_action "allow" (spec_rules item) in
  let denies := with_action "deny" (spec_rules item) in
  let implicit_deny := if (0 <? allows) || (0 <? denies) then 1 else 0 in
  item ← set_spec "_ruleCount" (JNum rules) item;
  item ← set_spec "_allowCount" (JNum allows) item;
  item ← set_spec "_denyCount" (JNum (denies + implicit_deny)) item;
  set_spec "_targets" (JStr targets) item.

Definition rule_methods (r : json) : option string :=
  let action := str_or "" (jidx "action" r) in
  let methods := match as_array (jidx "methods" r) with
                 | Some m => join "," (omap as_str m)
                 | None => ""
                 end in
  if bool_decide (methods = "") then None else Some (action +:+ ": " +:+ methods).

Definition enrich_routetable_item (item : json) : exec json :=
  let rules := Z.of_nat (length (spec_rules item)) in
  let allows := with_action "allow" (spec_rules item) in
  let denies := with_action "deny" (spec_rules item) in
  let methods := omap rule_methods (spec_rules item) in
  item ← set_spec "_ruleCount" (JNum rules) item;
  item ← set_spec "_allowCount" (JNum allows) item;
  item ← set_spec "_denyCount" (JNum denies) item;
  set_spec "_methods" (JArr (JStr <$> methods)) item.

Definition subnets_of (vnet : string) (subnets : list ResourceTracker) : Z :=
  Z.of_nat (length (List.filter (λ t, match resource t with
                                      | RSubnet s => bool_decide (sns_vnet (sn_spec s) = vnet)
                                      | _ => false
                                      end) subnets)).

Definition enrich_vnet_item (subnets pods svcs : list ResourceTracker) (item : json) : exec json :=
  let sc := subnets_of (item_name item) subnets in
  item ← set_spec "_subnetCount" (JNum sc) item;
  item ← set_spec "_podCount" (JNum (Z.of_nat (length pods))) item;
  set_spec "_serviceCount" (JNum (Z.of_nat (length svcs))) item.

Definition in_subnet (subnet : string) (t : ResourceTracker) : bool :=
  match resource t with
  | RService svc =>
      bool_decide ((a ← om_annotations (svc_metadata svc); a !! "z8s.io/subnet") = Some subnet)
  | _ => false
  end.

Definition enrich_subnet_item (ips : list (string * Ipv4Addr)) (svcs : list ResourceTracker)
    (item : json) : exec json :=
  let cidr := str_or "" (jidx "cidr" (jidx "spec" item)) in
  let pc := Z.of_nat (length (List.filter (λ p, ip_in_cidr (display_ipv4 p.2) cidr) ips)) in
  let sc := Z.of_nat (length (List.filter (in_subnet (item_name item)) svcs)) in
  item ← set_spec "_podCount" (JNum pc) item;
  set_spec "_serviceCount" (JNum sc) item.

(** The enriched views of api/server.rs, which no handler uses: members of [spec] are set if
    there is a [spec] that is an object. *)
Definition insert_members (fields : list (string * json)) (m : jmap) : jmap :=
  foldl (λ m kv, jm_insert kv.1 kv.2 m) m fields.

Definition with_spec (fields : list (string * json)) (v : json) : json :=
  match v with
  | JObj o => match jm_get "spec" o with
              | Some (JObj s) => JObj (jm_insert "spec" (JObj (insert_members fields s)) o)
              | _ => v
              end
  | _ => v
  end.

Definition enrich_vnet (v : json) (subnets pods svcs : Z) : json :=
  with_spec [("subnetCount", JNum subnets); ("podCount", JNum pods); ("serviceCount", JNum svcs)] v.
Definition enrich_subnet (v : json) (pods svcs : Z) : json :=
  with_spec [("podCount", JNum pods); ("serviceCount", JNum svcs)] v.
Definition enrich_nsg (v : json) (rules allows denies : Z) (targets : string) : json :=
  with_spec [("ruleCount", JNum rules); ("allowCount", JNum allows); ("denyCount", JNum denies);
             ("targets", JStr targets)] v.
Definition enrich_routetable (v : json) (rules allows denies : Z) (methods : list string) : json :=
  with_spec [("ruleCount", JNum rules); ("allowCount", JNum allows); ("denyCount", JNum denies);
             ("methods", JArr (JStr <$> methods))] v.

(** ** Merge patches and RFC 7386 *)

(** No object of a value has a member twice. *)
Fixpoint json_ok (j : json) : bool :=
  match j with
  | JObj m => bool_decide (NoDup m.*1) && forallb (λ kv, json_ok kv.2) m
  | JArr l => forallb json_ok l
  | _ => true
  end.

(** Where the patch has an object, the value it patches has an object or nothing. *)
Fixpoint aligned (base patch : json) : bool :=
  match base, patch with
  | JObj b, JObj p =>
      forallb (λ kv, match kv.2, jm_get kv.1 b with
                     | JObj _, Some e => aligned e kv.2
                     | _, _ => true
                     end) p
  | _, _ => false
  end.

(** A member that the patch does not name stays. *)
Lemma merge_members_other f k p : ∀ b, k ∉ p.*1 → jm_get k (merge_members f b p) = jm_get k b.
Proof.
  induction p as [|[k' v] p IH]; intros b; [done|]. cbn [fmap list_fmap fst].
  rewrite not_elem_of_cons. intros [Hne Hk]. cbn [merge_members]. rewrite IH by done.
  destruct v; first [by apply jm_get_remove_ne|by apply jm_get_insert_ne].
Qed.

Lemma merge_members_get f k v p : ∀ b,
  NoDup p.*1 → (k, v) ∈ p → v ≠ JNull → jm_get k (merge_members f b p) = Some (f (jm_get k b) v).
Proof.
  induction p as [|[k' v'] p IH]; intros b; [by intros _ ?%elem_of_nil|]. cbn [fmap list_fmap fst].
  rewrite NoDup_cons. intros [Hk' Hp] [[= <- <-]|Hin]%elem_of_cons Hv; cbn [merge_members].
  - rewrite merge_members_other by done. destruct v; try done; by rewrite jm_get_insert.
  - rewrite IH by done. assert (k ≠ k').
    { intros ->. apply Hk', list_elem_of_fmap. by exists (k', v). }
    do 2 f_equal. destruct v'; first [by apply jm_get_remove_ne|by apply jm_get_insert_ne].
Qed.

Lemma merge_members_ext f g p : ∀ b,
  NoDup p.*1 →
  (∀ k v, (k, v) ∈ p → v ≠ JNull → f (jm_get k b) v = g (jm_get k b) v) →
  merge_members f b p = merge_members g b p.
Proof.
  induction p as [|[k v] p IH]; intros b; [done|]. cbn [fmap list_fmap fst].
  rewrite NoDup_cons. intros [Hk Hp] H. cbn [merge_members].
  assert (v = JNull ∨ f (jm_get k b) v = g (jm_get k b) v) as Hfg.
  { destruct v; first [by left|right; by apply H; [apply list_elem_of_here|]]. }
  transitivity (merge_members f (match v with JNull => jm_remove k b
                                 | _ => jm_insert k (g (jm_get k b) v) b end) p).
  { destruct Hfg as [->|<-]; [done|]. by destruct v. }
  apply IH; [done|]. intros k' v' Hin Hv'.
  assert (k' ≠ k). { intros ->. apply Hk, list_elem_of_fmap. by exists (k, v'). }
  replace (jm_get k' _) with (jm_get k' b).
  - apply H; [by apply list_elem_of_further|done].
  - destruct v; first [by rewrite jm_get_remove_ne|by rewrite jm_get_insert_ne].
Qed.

Lemma merge_patch_rfc_aux base patch b p :
  base = JObj b → patch = JObj p → json_ok patch = true →
  json_merge_patch base patch = merge_patch_rfc base patch ↔ aligned base patch = true.
Proof.
  intros -> Hp. revert p Hp b. induction patch as [| | | | |m IH] using json_nested_ind; intros p; try done.
  intros [= ->] b. cbn [json_ok]. rewrite andb_true_iff, bool_decide_eq_true, forallb_forall.
  intros [Hnd Hok]. rewrite Forall_forall in IH.
  set (f := λ old v, match v with JObj _ => json_merge_patch (unwrap_or old (JObj [])) v | _ => v end).
  set (g := λ old v, merge_patch_rfc (unwrap_or old JNull) v).
  assert (∀ k v, (k, v) ∈ p → f (jm_get k b) v = g (jm_get k b) v
    ↔ match v, jm_get k b with JObj _, Some e => aligned e v = true | _, _ => True end) as Hfg.
  { intros k v Hin. unfold f, g. destruct v as [| | | | |q]; try done.
    assert (json_ok (JObj q) = true) as Hq by (by apply (Hok (k, JObj q)), list_elem_of_In).
    destruct (jm_get k b) as [e|]; cbn [unwrap_or].
    - destruct e as [| | | | |eb]; try (split; [done|by intros ?]).
      exact (IH (k, JObj q) Hin q eq_refl eb Hq).
    - split; [done|]. intros _.
      change (merge_patch_rfc JNull (JObj q)) with (merge_patch_rfc (JObj []) (JObj q)).
      apply (IH (k, JObj q) Hin q eq_refl [] Hq). cbn [aligned]. apply forallb_forall.
      intros [k' []] _; done. }
  change (json_merge_patch (JObj b) (JObj p)) with (JObj (merge_members f b p)).
  change (merge_patch_rfc (JObj b) (JObj p)) with (JObj (merge_members g b p)).
  cbn [aligned]. rewrite forallb_forall. split.
  - intros [= E] [k v] Hin%list_elem_of_In. cbn [fst snd].
    destruct v as [| | | | |q]; try done. pose proof (Hfg k (JObj q) Hin) as Hk.
    destruct (jm_get k b) as [e|] eqn:Hb; [|done]. apply Hk.
    pose proof (merge_members_get f k (JObj q) p b Hnd Hin ltac:(done)) as H1.
    pose proof (merge_members_get g k (JObj q) p b Hnd Hin ltac:(done)) as H2.
    rewrite E, H2, Hb in H1. by injection H1.
  - intros H. f_equal. apply merge_members_ext; [done|]. intros k v Hin _. apply Hfg; [done|].
    specialize (H (k, v) (proj1 (list_elem_of_In _ _) Hin)). cbn [fst snd] in H.
    destruct v; try done. by destruct (jm_get k b).
Qed.

(** C29. The handlers' merge patch is RFC 7386's exactly when wherever the patch has an object,
    the patched value has an object or nothing: an object never replaces a number, a
    string, an array or a null. *)
Theorem merge_patch_rfc_iff b p :
  json_ok (JObj p) = true →
  json_merge_patch (JObj b) (JObj p) = merge_patch_rfc (JObj b) (JObj p)
  ↔ aligned (JObj b) (JObj p) = true.
Proof. by apply (merge_patch_rfc_aux (JObj b) (JObj p) b p). Qed.

Definition scalar_base : list (string * json) := [("spec", JObj [("strategy", JStr "Recreate")])].
Definition scalar_patch : list (string * json) :=
  [("spec", JObj [("strategy", JObj [("type", JStr "RollingUpdate")])])].

Lemma merge_patch_rfc_iff_witness :
  json_merge_patch (JObj scalar_base) (JObj scalar_patch)
  ≠ merge_patch_rfc (JObj scalar_base) (JObj scalar_patch).
Proof.
  intros E. apply (merge_patch_rfc_iff scalar_base scalar_patch) in E; [discriminate E|reflexivity].
Defined.

(** ** CIDRs *)

Lemma split_display_ipv4 ip :
  split_on "." (display_ipv4 ip) = display <$> octets ip.
Proof.
  unfold display_ipv4. apply split_on_join; [done|].
  unfold octets, be32. cbn [fmap list_fmap]. repeat constructor; apply display_octet_no_dot, u8_range.
Qed.

Lemma parse_octets ip : omap parse_u8 (display <$> octets ip) = octets ip.
Proof.
  unfold octets, be32. cbn [fmap list_fmap omap list_omap].
  unfold parse_u8. rewrite !parse_unsigned_display by apply u8_range. done.
Qed.

Lemma display_octet_no_slash z : 0 ≤ z < 256 → has_char "/" (display z) = false.
Proof.
  intros Hz.
  assert (forallb (λ z, negb (has_char "/" (display z))) (seqZ 0 256) = true)
    as H by (vm_compute; reflexivity).
  rewrite forallb_forall in H. specialize (H z).
  rewrite negb_true_iff in H. apply H, list_elem_of_In, elem_of_seqZ. lia.
Qed.

Lemma split_cidr net p : 0 ≤ p ≤ 32 →
  split_on "/" (display_ipv4 net +:+ "/" +:+ display p) = [display_ipv4 net; display p].
Proof.
  intros Hp. change ("/" +:+ display p) with (String "/" (display p)). rewrite split_on_app.
  - rewrite split_on_no_char; [done|]. apply display_octet_no_slash. lia.
  - unfold display_ipv4, octets, be32. cbn [fmap list_fmap join].
    rewrite !has_char_app, !display_octet_no_slash by apply u8_range. done.
Qed.

(** The mask of the test. *)
Lemma prefix_mask p x :
  0 ≤ p ≤ 32 → ipv4_ok x →
  Z.land x (if p =? 0 then 0 else shl32 (2 ^ 32 - 1) (u32 (32 - p)))
  = x / 2 ^ (32 - p) * 2 ^ (32 - p).
Proof.
  intros Hp Hx. destruct (Z.eqb_spec p 0) as [->|Hne].
  - rewrite Z.land_0_r, Z.div_small; [done|]. apply Hx.
  - rewrite u32_small by lia. rewrite <- (u8_small (32 - p)) at 1 by lia.
    fold (cidr_mask p). apply land_cidr_mask; [lia|done].
Qed.

(** For an address and a network in their usual form, the test compares the first
    [p] bits. *)
Theorem ip_in_cidr_spec ip net p :
  ipv4_ok ip → ipv4_ok net → 0 ≤ p ≤ 32 →
  ip_in_cidr (display_ipv4 ip) (display_ipv4 net +:+ "/" +:+ display p)
  = bool_decide (ip / 2 ^ (32 - p) = net / 2 ^ (32 - p)).
Proof.
  intros Hip Hnet Hp. unfold ip_in_cidr. rewrite split_cidr by done.
  unfold parse_u32. rewrite parse_unsigned_display by lia.
  rewrite !split_display_ipv4, !parse_octets.
  destruct (ipv4_new_octets ip Hip) as (a & b & c & d & -> & Ei).
  destruct (ipv4_new_octets net Hnet) as (a' & b' & c' & d' & -> & En).
  unfold ipv4_new in Ei, En. rewrite Ei, En, !prefix_mask by done.
  pose proof (Z.pow_pos_nonneg 2 (32 - p) ltac:(lia) ltac:(lia)).
  case_bool_decide as E; [rewrite E; apply Z.eqb_refl|]. apply Z.eqb_neq. nia.
Qed.

Lemma ip_in_cidr_spec_witness :
  ip_in_cidr "10.42.3.7" "10.42.2.0/23" = true ∧ ip_in_cidr "10.42.4.7" "10.42.2.0/23" = false
  ∧ ip_in_cidr "99.9.9.9" "10.42.3.0/33" = true.
Proof.
  split; [|split; [|vm_compute; reflexivity]].
  - pose proof (ip_in_cidr_spec 170525447 170525184 23) as H. unfold ipv4_ok in H.
    specialize (H ltac:(lia) ltac:(lia) ltac:(lia)). vm_compute in H |- *. exact H.
  - vm_compute; reflexivity.
Defined.

(** ** Selectors *)

(** What kubectl does to a query: every byte but the unreserved ones of RFC 3986 as
    [%] and two digits. *)
Definition unreserved (b : byte) : bool :=
  ((48 <=? b) && (b <=? 57)) || ((65 <=? b) && (b <=? 90)) || ((97 <=? b) && (b <=? 122))
  || (b =? 45) || (b =? 46) || (b =? 95) || (b =? 126).

Definition hex_upper (d : Z) : byte := if d <? 10 then 48 + d else 55 + d.

Definition percent_encode_byte (b : byte) : bytes :=
  if unreserved b then [b] else [37; hex_upper (b / 16); hex_upper (b `mod` 16)].

Definition percent_encode (s : string) : string :=
  of_bytes (concat (percent_encode_byte <$> as_bytes s)).

Lemma urlpath_decode_bytes_plain b l :
  b ≠ 37 → urlpath_decode_bytes (b :: l) = latin1_char b ++ urlpath_decode_bytes l.
Proof.
  intros Hb%Z.eqb_neq. cbn. destruct l as [|h [|lo l]]; [done|done|]. rewrite Hb.
  by destruct (to_digit16 h), (to_digit16 lo).
Qed.

Lemma ascii_bytes_cases (P : byte → bool) :
  forallb P (seqZ 0 128) = true → ∀ b, 0 ≤ b < 128 → P b = true.
Proof. rewrite forallb_forall. intros H b Hb. apply H, list_elem_of_In, elem_of_seqZ. lia. Qed.

Lemma unreserved_plain b : unreserved b = true → b ≠ 37 ∧ b < 128.
Proof. unfold unreserved. rewrite !orb_true_iff, !andb_true_iff, !Z.leb_le, !Z.eqb_eq. lia. Qed.

Definition hex_digits (b : byte) : bool :=
  bool_decide (to_digit16 (hex_upper (b / 16)) = Some (b / 16))
  && bool_decide (to_digit16 (hex_upper (b `mod` 16)) = Some (b `mod` 16)).

Lemma decode_encode_byte b l :
  0 ≤ b < 128 → urlpath_decode_bytes (percent_encode_byte b ++ l) = b :: urlpath_decode_bytes l.
Proof.
  intros Hb. unfold percent_encode_byte. destruct (unreserved b) eqn:Hu.
  - destruct (unreserved_plain b Hu). cbn [app]. rewrite urlpath_decode_bytes_plain by done.
    unfold latin1_char. by rewrite (proj2 (Z.ltb_lt b 128)) by done.
  - assert (hex_digits b = true) as H by (apply (ascii_bytes_cases hex_digits); [vm_compute; reflexivity|done]).
    unfold hex_digits in H. apply andb_true_iff in H as [H1%bool_decide_eq_true H2%bool_decide_eq_true].
    cbn [app urlpath_decode_bytes]. rewrite H1, H2.
    cbn [Z.eqb Pos.eqb]. pose proof (Z.div_mod b 16). rewrite u8_small by lia.
    replace (b / 16 * 16 + b `mod` 16) with b by lia.
    unfold latin1_char. by rewrite (proj2 (Z.ltb_lt b 128)) by lia.
Qed.

Lemma percent_encode_ok s : bytes_ok (concat (percent_encode_byte <$> as_bytes s)).
Proof.
  pose proof (as_bytes_ok s) as H. induction H as [|b l Hb _ IH]; [constructor|]. cbn [fmap list_fmap concat].
  apply Forall_app. split; [|done]. unfold percent_encode_byte.
  destruct (unreserved b); [by constructor|].
  unfold hex_upper. pose proof (Z.mod_pos_bound b 16 ltac:(lia)).
  assert (0 ≤ b / 16 < 16) by (split; [apply Z.div_pos; lia|apply Z.div_lt_upper_bound; lia]).
  repeat constructor; try case_match; lia.
Qed.

Lemma is_ascii_bytes s : is_ascii s = true → Forall (λ b, 0 ≤ b < 128) (as_bytes s).
Proof.
  unfold is_ascii. rewrite forallb_forall, Forall_forall. intros H b Hb.
  specialize (H b (proj1 (list_elem_of_In _ _) Hb)).
  pose proof (as_bytes_ok s) as Hok. unfold bytes_ok in Hok. rewrite Forall_forall in Hok. specialize (Hok b Hb). lia.
Qed.

Lemma urlpath_decode_encode s : is_ascii s = true → urlpath_decode (percent_encode s) = s.
Proof.
  intros Hs%is_ascii_bytes. unfold urlpath_decode, percent_encode.
  rewrite as_of_bytes by apply percent_encode_ok. rewrite <- (of_as_bytes s) at 2. f_equal.
  induction Hs as [|b l Hb _ IH]; [done|]. cbn [fmap list_fmap concat].
  by rewrite decode_encode_byte, IH.
Qed.

(** Text without [%] decodes to itself. *)
Lemma urlpath_decode_plain s u :
  is_ascii s = true → has_char "%" s = false → urlpath_decode (s +:+ u) = s +:+ urlpath_decode u.
Proof.
  intros Hs%is_ascii_bytes Hc. unfold urlpath_decode. induction s as [|a s IH]; [done|].
  cbn [as_bytes String.append] in *. inversion Hs as [|? ? Hb Hs']; subst.
  cbn [has_char] in Hc. apply orb_false_iff in Hc as [Ha Hc]. apply Ascii.eqb_neq in Ha.
  rewrite urlpath_decode_bytes_plain.
  - unfold latin1_char. rewrite (proj2 (Z.ltb_lt _ 128)) by lia. cbn [app of_bytes].
    by rewrite IH, ascii_of_byte_of_ascii.
  - intros E. apply Ha. rewrite <- (ascii_of_byte_of_ascii a), E. done.
Qed.

Lemma urlpath_decode_id s :
  is_ascii s = true → has_char "%" s = false → urlpath_decode s = s.
Proof. intros Hs Hc. rewrite <- (string_app_nil_r s) at 1. rewrite urlpath_decode_plain by done. apply string_app_nil_r. Qed.

(** Label keys and values as Kubernetes allows them. *)
Definition label_char (a : ascii) : bool := unreserved (byte_of_ascii a) || Ascii.eqb a "/".
Definition label_text (s : string) : bool := forallb label_char (chars s).

Definition requirement_ok (r : string * option string) : Prop :=
  r.1 ≠ "" ∧ label_text r.1 = true ∧ label_text (unwrap_or r.2 "") = true.

Definition show_requirement (r : string * option string) : string :=
  match r.2 with Some v => r.1 +:+ "=" +:+ v | None => r.1 end.

Definition show_selector (l : list (string * option string)) : string :=
  join "," (show_requirement <$> l).

Lemma label_char_spec a : label_char a = true →
  graphic a = true ∧ byte_of_ascii a < 128 ∧ a ≠ "%"%char ∧ a ≠ "="%char ∧ a ≠ ","%char ∧ a ≠ "&"%char.
Proof.
  intros H.
  assert (forallb (λ b, negb (label_char (ascii_of_byte b))
            || (graphic (ascii_of_byte b) && (b <? 128)
                && forallb (λ c, negb (Ascii.eqb (ascii_of_byte b) c)) ["%"; "="; ","; "&"]%char))
            (seqZ 0 256) = true) as Hall by (vm_compute; reflexivity).
  rewrite forallb_forall in Hall. specialize (Hall (byte_of_ascii a)).
  rewrite ascii_of_byte_of_ascii, H in Hall. cbn [negb orb forallb] in Hall.
  pose proof (byte_of_ascii_range a).
  assert (byte_of_ascii a ∈ seqZ 0 256) as Hin by (apply elem_of_seqZ; lia).
  specialize (Hall (proj1 (list_elem_of_In _ _) Hin)).
  rewrite !andb_true_iff, !negb_true_iff, Z.ltb_lt in Hall. destruct Hall as [[Hg Hlt] (H1 & H2 & H3 & H4 & _)].
  repeat split; try done; by apply Ascii.eqb_neq.
Qed.

Lemma label_text_no_char c s : (∀ a, label_char a = true → a ≠ c) → label_text s = true → has_char c s = false.
Proof.
  intros Hc. induction s as [|a s IH]; [done|]. unfold label_text. cbn.
  rewrite andb_true_iff. intros [Ha Hs]. apply orb_false_iff. split; [by apply Ascii.eqb_neq, Hc|by apply IH].
Qed.

Lemma label_text_graphic s : label_text s = true → forallb graphic (chars s) = true.
Proof. apply forallb_impl. intros a Ha. by apply label_char_spec. Qed.

Lemma is_ascii_app s t : is_ascii (s +:+ t) = is_ascii s && is_ascii t.
Proof. unfold is_ascii. by rewrite as_bytes_app, forallb_app. Qed.

Lemma label_text_ascii s : label_text s = true → is_ascii s = true.
Proof.
  unfold label_text, is_ascii. induction s as [|a s IH]; [done|]. cbn.
  rewrite !andb_true_iff. intros [Ha Hs]. split; [|by apply IH].
  apply Z.ltb_lt. by apply label_char_spec.
Qed.

(** One requirement is read back from its text. *)
Lemma parse_show_requirement r : requirement_ok r → parse_requirement (show_requirement r) = r.
Proof.
  destruct r as [k o]. intros (Hne & Hk & Hv). cbn [fst snd] in *. unfold show_requirement, parse_requirement.
  cbn [fst snd]. destruct o as [v|]; cbn [unwrap_or] in Hv.
  - rewrite all_graphic_trim.
    2: { by rewrite !chars_app, !forallb_app, (label_text_graphic k Hk), (label_text_graphic v Hv). }
    rewrite urlpath_decode_id.
    2: { by rewrite !is_ascii_app, (label_text_ascii k Hk), (label_text_ascii v Hv). }
    2: { assert (∀ a, label_char a = true → a ≠ "%"%char) as Hc by (intros a Ha; by apply label_char_spec).
         by rewrite !has_char_app, (label_text_no_char _ k Hc Hk), (label_text_no_char _ v Hc Hv). }
    change ("=" +:+ v) with (String "=" v). rewrite split_once_app.
    2: { apply label_text_no_char; [|done]. intros a Ha. by apply label_char_spec. }
    rewrite all_graphic_trim by by apply label_text_graphic. do 2 f_equal.
    destruct v as [|a v]; [done|]. cbn in Hv |- *. apply andb_true_iff in Hv as [Ha _].
    by rewrite (proj2 (Ascii.eqb_neq a "=")) by by apply label_char_spec.
  - rewrite all_graphic_trim by by apply label_text_graphic.
    rewrite urlpath_decode_id; [|by apply label_text_ascii|].
    2: { apply label_text_no_char; [|done]. intros a Ha. by apply label_char_spec. }
    rewrite split_once_None; [done|]. apply label_text_no_char; [|done]. intros a Ha. by apply label_char_spec.
Qed.

Lemma show_requirement_ok r : requirement_ok r →
  show_requirement r ≠ "" ∧ is_ascii (show_requirement r) = true ∧ has_char "," (show_requirement r) = false.
Proof.
  destruct r as [k o]. intros (Hne & Hk & Hv). cbn [fst snd] in *. unfold show_requirement. cbn [fst snd].
  assert (∀ a, label_char a = true → a ≠ ","%char) as Hc by (intros a Ha; by apply label_char_spec).
  destruct o as [v|]; cbn [unwrap_or] in Hv.
  - split; [by destruct k|]. split; [by rewrite !is_ascii_app, (label_text_ascii k Hk), (label_text_ascii v Hv)|].
    by rewrite !has_char_app, (label_text_no_char _ k Hc Hk), (label_text_no_char _ v Hc Hv).
  - split; [done|]. split; [by apply label_text_ascii|by apply label_text_no_char].
Qed.

Lemma parse_show_selector l :
  l ≠ [] → Forall requirement_ok l → parse_label_selector (show_selector l) = l.
Proof.
  intros Hl H. unfold parse_label_selector, show_selector.
  assert (split_on "," (join "," (show_requirement <$> l)) = show_requirement <$> l) as Hs.
  { apply split_on_join; [by destruct l|]. apply Forall_fmap. eapply Forall_impl; [exact H|].
    intros r Hr. by apply show_requirement_ok. }
  assert (List.filter nonempty (show_requirement <$> l) = show_requirement <$> l) as Hf.
  { clear Hl Hs. induction H as [|r l Hr _ IH]; [done|]. cbn. unfold nonempty at 1.
    rewrite bool_decide_false by by apply show_requirement_ok. cbn. by rewrite IH. }
  case_bool_decide as E.
  - rewrite E in Hs. destruct l as [|r [|]]; try done. injection Hs as Hr. symmetry in Hr.
    by apply show_requirement_ok in Hr; [|by inversion H].
  - rewrite Hs, Hf. clear - H. induction H as [|r l Hr _ IH]; [done|]. cbn.
    by rewrite parse_show_requirement, IH.
Qed.

Lemma percent_encode_no_amp s : has_char "&" (percent_encode s) = false.
Proof.
  unfold percent_encode. pose proof (as_bytes_ok s) as H. induction H as [|b l Hb _ IH]; [done|].
  cbn [fmap list_fmap concat].
  assert (forallb (λ b, negb (has_char "&" (of_bytes (percent_encode_byte b)))) (seqZ 0 256) = true)
    as Hall by (vm_compute; reflexivity).
  rewrite forallb_forall in Hall. specialize (Hall b (proj1 (list_elem_of_In _ _) (proj2 (elem_of_seqZ 0 256 b) Hb))).
  apply negb_true_iff in Hall.
  assert (∀ l1 l2, of_bytes (l1 ++ l2) = of_bytes l1 +:+ of_bytes l2) as Happ.
  { intros l1 l2. induction l1 as [|x l1 IHl]; [done|]. cbn. by rewrite IHl. }
  by rewrite Happ, has_char_app, Hall, IH.
Qed.

Lemma find_map_first {A B} (f : A → option B) l1 x l2 y :
  Forall (λ x, f x = None) l1 → f x = Some y → find_map f (l1 ++ x :: l2) = Some y.
Proof. induction 1 as [|z l1 Hz _ IH]; cbn; [by intros ->|]. by rewrite Hz. Qed.

Lemma is_ascii_join l : Forall (λ s, is_ascii s = true) l → is_ascii (join "," l) = true.
Proof.
  induction 1 as [|s l Hs _ IH]; [done|]. destruct l as [|t l]; [done|].
  change (join "," (s :: t :: l)) with (s +:+ "," +:+ join "," (t :: l)).
  rewrite !is_ascii_app, Hs, IH. done.
Qed.

Lemma show_selector_ascii l : Forall requirement_ok l → is_ascii (show_selector l) = true.
Proof.
  intros H. apply is_ascii_join, Forall_fmap. eapply Forall_impl; [exact H|].
  intros r Hr. by apply show_requirement_ok.
Qed.

(** The selector that kubectl encodes is the selector the handler reads, whatever
    parameters come with it. *)
Theorem selector_roundtrip before after l :
  l ≠ [] → Forall requirement_ok l →
  Forall (λ p, has_char "&" p = false ∧ strip_prefix "labelSelector=" (urlpath_decode p) = None) before →
  Forall (λ p, has_char "&" p = false) after →
  extract_label_selector
    (join "&" (before ++ ("labelSelector=" +:+ percent_encode (show_selector l)) :: after)) = l.
Proof.
  intros Hl H Hb Ha. set (sel := "labelSelector=" +:+ percent_encode (show_selector l)).
  unfold extract_label_selector.
  assert (split_on "&" (join "&" (before ++ sel :: after)) = before ++ sel :: after) as Hs.
  { apply split_on_join; [by destruct before|]. apply Forall_app. split.
    - eapply Forall_impl; [exact Hb|]. by intros p [? _].
    - constructor; [|done]. unfold sel. rewrite has_char_app, percent_encode_no_amp. done. }
  assert (parse_label_selector <$> strip_prefix "labelSelector=" (urlpath_decode sel) = Some l) as Hsel.
  { unfold sel. rewrite urlpath_decode_plain, urlpath_decode_encode; [|by apply show_selector_ascii|done|done].
    rewrite (proj2 (strip_prefix_Some _ _ (show_selector l)) eq_refl). cbn. by rewrite parse_show_selector. }
  assert (sel ≠ "") as Hne by done. clearbody sel.
  case_bool_decide as E.
  { rewrite E in Hs. destruct before as [|? [|]]; try done. by injection Hs. }
  rewrite Hs, List.filter_app. cbn [List.filter]. unfold nonempty at 2. rewrite bool_decide_false by done.
  cbn [negb]. erewrite find_map_first; [done| |exact Hsel].
  apply Forall_forall. intros p Hp%list_elem_of_In%filter_In. destruct Hp as [Hp%list_elem_of_In _].
  rewrite Forall_forall in Hb. by destruct (Hb p Hp) as [_ ->].
Qed.

Lemma selector_roundtrip_witness :
  extract_label_selector "limit=500&labelSelector=app%3Dweb%2Ctier&watch=" = [("app", Some "web"); ("tier", None)].
Proof.
  apply (selector_roundtrip ["limit=500"] ["watch="] [("app", Some "web"); ("tier", None)]).
  - discriminate.
  - repeat constructor; discriminate.
  - repeat constructor.
  - repeat constructor.
Defined.

(** A character outside ASCII does not survive its encoding, and selectors other than
    equality and existence are read as odd keys. *)
Example decode_not_utf8 : urlpath_decode "%C3%A9" = of_bytes [0xC3; 0x83; 0xC2; 0xA9].
Proof. vm_compute. reflexivity. Qed.

Example inequality_selector :
  parse_label_selector "app!=web" = [("app!", Some "web")]
  ∧ parse_label_selector "tier in (a,b)" = [("tier in (a", None); ("b)", None)].
Proof. split; vm_compute; reflexivity. Qed.

(** ** Tables are rectangular *)

(** Every row has a cell for each column. *)
Definition table_ok (t : json) : bool :=
  match jget "columnDefinitions" t, jget "rows" t with
  | Some (JArr cols), Some (JArr rows) =>
      forallb (λ r, match jget "cells" r with
                    | Some (JArr cells) => (length cells =? length cols)%nat
                    | _ => false
                    end) rows
  | _, _ => false
  end.

Lemma make_table_ok cols (f : json → json) items :
  (∀ item, ∃ cells, f item = row cells item ∧ length cells = length cols) →
  table_ok (make_table (JArr cols) (f <$> items)) = true.
Proof.
  intros Hf. unfold table_ok, make_table. change (jget "columnDefinitions" _) with (Some (JArr cols)).
  change (jget "rows" _) with (Some (JArr (f <$> items))). cbv beta iota.
  apply forallb_forall. intros r (item & -> & _)%list_elem_of_In%list_elem_of_fmap.
  destruct (Hf item) as (cells & -> & Hl). change (jget "cells" _) with (Some (JArr cells)). cbv beta iota.
  by apply Nat.eqb_eq.
Qed.

(** Every table the API sends has, in every row, a cell for each of its columns. *)
Theorem tables_rectangular parse_rfc3339 now items cols :
  table_ok (pod_list_to_table parse_rfc3339 now items) = true
  ∧ table_ok (deployment_list_to_table parse_rfc3339 now items) = true
  ∧ table_ok (service_list_to_table parse_rfc3339 now items) = true
  ∧ table_ok (build_table parse_rfc3339 now items cols) = true.
Proof.
  split_and!; [apply make_table_ok; intros item..|].
  - unfold pod_row. destruct (count_containers _) as [[ready total] restarts]. by eexists.
  - by eexists.
  - by eexists.
  - unfold table_ok, build_table. set (defs := jobj _ :: _ ++ _).
    change (jget "columnDefinitions" _) with (Some (JArr defs)).
    change (jget "rows" _) with (Some (JArr (table_row parse_rfc3339 now cols <$> items))). cbv beta iota.
    apply forallb_forall. intros r (item & -> & _)%list_elem_of_In%list_elem_of_fmap.
    unfold table_row, row. set (cells := JStr _ :: _ ++ _).
    change (jget "cells" _) with (Some (JArr cells)). cbv beta iota.
    apply Nat.eqb_eq. unfold cells, defs. cbn [length]. by rewrite !length_app, !length_fmap.
Qed.

(** ** Enriched views *)

Lemma insert_members_other fields k : k ∉ fields.*1 → ∀ m, jm_get k (insert_members fields m) = jm_get k m.
Proof.
  induction fields as [|[k2 v] fields IH]; [done|]. rewrite fmap_cons, not_elem_of_cons. intros [Hne Hk] m.
  etrans; [by apply IH|]. by apply jm_get_insert_ne.
Qed.

Lemma insert_members_get fields k v : NoDup fields.*1 → (k, v) ∈ fields → ∀ m, jm_get k (insert_members fields m) = Some v.
Proof.
  induction fields as [|[k2 v2] fields IH]; [by intros _ ?%not_elem_of_nil|].
  rewrite fmap_cons, NoDup_cons, elem_of_cons. intros [Hn Hd] [[= -> ->]|Hin] m; [|by apply IH].
  etrans; [by apply (insert_members_other _ _ Hn)|]. apply jm_get_insert.
Qed.

(** On an object whose [spec] is one, exactly the given members of the [spec] change; anything
    else is left as it is. *)
Theorem with_spec_changes fields v : NoDup fields.*1 →
  (∀ k, k ≠ "spec" → jget k (with_spec fields v) = jget k v)
  ∧ (∀ k x s, jget "spec" v = Some (JObj s) → (k, x) ∈ fields → jget k (jidx "spec" (with_spec fields v)) = Some x)
  ∧ (∀ k, k ∉ fields.*1 → jget k (jidx "spec" (with_spec fields v)) = jget k (jidx "spec" v))
  ∧ ((∀ s, jget "spec" v ≠ Some (JObj s)) → with_spec fields v = v).
Proof.
  intros Hd. destruct v as [| | | | |o]; try by split_and!.
  cbn [jget with_spec]. destruct (jm_get "spec" o) as [[| | | | |s]|] eqn:E; try by split_and!.
  unfold jidx. cbn [jget]. rewrite jm_get_insert, E. cbn [unwrap_or jget]. split_and!.
  - intros k Hk. by apply jm_get_insert_ne.
  - intros k x s' _ Hin. by apply insert_members_get.
  - intros k Hk. by apply insert_members_other.
  - intros H. by destruct (H s).
Qed.
