(* ===== verification/Routes.v ===== *)
(** * Routes: the table of the API (the [routes] functions of src/src/api/handlers,
    [build_router] of src/src/api/server.rs)

    Every route with its methods, as data, and how a path and a method select a handler.
    No path fits two routes, so the order of the merges does not matter. *)
From S2P Require Import Prelude Text.

Inductive Method := GET | HEAD | POST | PUT | PATCH | DELETE | OtherMethod.

#[export] Instance Method_eq_dec : EqDecision Method.
Proof. solve_decision. Defined.

Record Request := {
  rq_method : Method; rq_path : list string; rq_query : string; rq_accept : option string;
  rq_body : bytes
}.

(** The documents of the server itself: discovery, versions, health, access reviews, the
    node. *)
Inductive SystemHandler :=
  | SListNodes | SGetNode | SMetricsApiResources | SRootHandler | SApiVersions | SApiV1Resources
  | SApiGroups | SApiZ8sV1Resources | SApiAppsV1Resources | SApiNetworkingV1Resources
  | SApiDiscoveryV1Resources | SApiStorageV1Resources | SApiAuthzV1Resources
  | SSelfSubjectAccessReview | SApiExtensionsV1Resources | SListCrds | SGetCrd
  | SOpenapiV2 | SOpenapiV3 | SVersionHandler | SHealthz | SReadyz | SLivez.

(** The handlers that the routes name. *)
Inductive Handler :=
  | HListPodsAll | HListPods | HCreatePod | HPod | HPodLog | HPodExec
  | HListDeploymentsAll | HListDeployments | HCreateDeployment | HGetDeployment
  | HDeleteDeployment | HPatchDeployment | HScaleDeployment
  | HListNamespaces | HCreateNamespace | HGetNamespace | HDeleteNamespace
  | HListEventsAll | HListEvents
  | HListConfigMapsAll | HListConfigMaps | HCreateConfigMap | HGetConfigMap | HUpdateConfigMap
  | HDeleteConfigMap
  | HListSecretsAll | HListSecrets | HCreateSecret | HGetSecret | HUpdateSecret | HDeleteSecret
  | HListServicesAll | HListServices | HCreateService | HGetService | HUpdateService | HDeleteService
  | HListPvs | HCreatePv | HGetPv | HDeletePv
  | HListPvcsAll | HListPvcs | HCreatePvc | HGetPvc | HDeletePvc
  | HListEndpointsAll | HListEndpoints | HGetEndpoints
  | HListEndpointSlicesAll | HListEndpointSlices | HGetEndpointSlice
  | HTopNodes | HTopPodsAll | HTopPods
  | HListStorageClasses | HGetStorageClass
  | HListIngressesAll | HListIngresses | HCreateIngress | HGetIngress | HUpdateIngress | HDeleteIngress
  | HListNetworkPoliciesAll | HListNetworkPolicies | HCreateNetworkPolicy | HGetNetworkPolicy
  | HUpdateNetworkPolicy | HDeleteNetworkPolicy
  | HListVNets | HCreateVNet | HGetVNet | HDeleteVNet
  | HListSubnets | HCreateSubnet | HGetSubnet | HDeleteSubnet
  | HListNsgs | HCreateNsg | HGetNsg | HDeleteNsg
  | HListRouteTables | HCreateRouteTable | HGetRouteTable | HDeleteRouteTable
  | HSystem (what : SystemHandler).

(** A route: its path and its methods, [None] for [any]. *)
Definition Route : Type := string * list (option Method * Handler).

Definition on_get (h : Handler) : option Method * Handler := (Some GET, h).
Definition on_post (h : Handler) : option Method * Handler := (Some POST, h).
Definition on_put (h : Handler) : option Method * Handler := (Some PUT, h).
Definition on_patch (h : Handler) : option Method * Handler := (Some PATCH, h).
Definition on_delete (h : Handler) : option Method * Handler := (Some DELETE, h).
Definition on_any (h : Handler) : option Method * Handler := (None, h).

Definition pod_routes : list Route :=
  [("/api/v1/pods", [on_get HListPodsAll]);
   ("/api/v1/namespaces/{namespace}/pods", [on_get HListPods; on_post HCreatePod]);
   ("/api/v1/namespaces/{namespace}/pods/{name}", [on_any HPod]);
   ("/api/v1/namespaces/{namespace}/pods/{name}/log", [on_get HPodLog]);
   ("/api/v1/namespaces/{namespace}/pods/{name}/exec", [on_get HPodExec; on_post HPodExec])].

Definition deployment_routes : list Route :=
  [("/apis/apps/v1/deployments", [on_get HListDeploymentsAll]);
   ("/apis/apps/v1/namespaces/{namespace}/deployments", [on_get HListDeployments; on_post HCreateDeployment]);
   ("/apis/apps/v1/namespaces/{namespace}/deployments/{name}",
    [on_get HGetDeployment; on_delete HDeleteDeployment; on_patch HPatchDeployment; on_put HPatchDeployment]);
   ("/apis/apps/v1/namespaces/{namespace}/deployments/{name}/scale", [on_patch HScaleDeployment])].

Definition namespace_routes : list Route :=
  [("/api/v1/namespaces", [on_get HListNamespaces; on_post HCreateNamespace]);
   ("/api/v1/namespaces/{name}", [on_get HGetNamespace; on_delete HDeleteNamespace])].

Definition event_routes : list Route :=
  [("/api/v1/events", [on_get HListEventsAll]);
   ("/api/v1/namespaces/{namespace}/events", [on_get HListEvents])].

Definition node_routes : list Route :=
  [("/api/v1/nodes", [on_get (HSystem SListNodes)]);
   ("/api/v1/nodes/{name}", [on_get (HSystem SGetNode)])].

Definition configmap_routes : list Route :=
  [("/api/v1/configmaps", [on_get HListConfigMapsAll]);
   ("/api/v1/namespaces/{namespace}/configmaps", [on_get HListConfigMaps; on_post HCreateConfigMap]);
   ("/api/v1/namespaces/{namespace}/configmaps/{name}",
    [on_get HGetConfigMap; on_put HUpdateConfigMap; on_patch HUpdateConfigMap; on_delete HDeleteConfigMap])].

Definition secret_routes : list Route :=
  [("/api/v1/secrets", [on_get HListSecretsAll]);
   ("/api/v1/namespaces/{namespace}/secrets", [on_get HListSecrets; on_post HCreateSecret]);
   ("/api/v1/namespaces/{namespace}/secrets/{name}",
    [on_get HGetSecret; on_put HUpdateSecret; on_patch HUpdateSecret; on_delete HDeleteSecret])].

Definition service_routes : list Route :=
  [("/api/v1/services", [on_get HListServicesAll]);
   ("/api/v1/namespaces/{namespace}/services", [on_get HListServices; on_post HCreateService]);
   ("/api/v1/namespaces/{namespace}/services/{name}",
    [on_get HGetService; on_put HUpdateService; on_patch HUpdateService; on_delete HDeleteService])].

Definition pv_routes : list Route :=
  [("/api/v1/persistentvolumes", [on_get HListPvs; on_post HCreatePv]);
   ("/api/v1/persistentvolumes/{name}", [on_get HGetPv; on_delete HDeletePv])].

Definition pvc_routes : list Route :=
  [("/api/v1/persistentvolumeclaims", [on_get HListPvcsAll]);
   ("/api/v1/namespaces/{namespace}/persistentvolumeclaims", [on_get HListPvcs; on_post HCreatePvc]);
   ("/api/v1/namespaces/{namespace}/persistentvolumeclaims/{name}", [on_get HGetPvc; on_delete HDeletePvc])].

Definition endpoints_routes : list Route :=
  [("/api/v1/endpoints", [on_get HListEndpointsAll]);
   ("/api/v1/namespaces/{namespace}/endpoints", [on_get HListEndpoints]);
   ("/api/v1/namespaces/{namespace}/endpoints/{name}", [on_get HGetEndpoints])].

Definition endpointslices_routes : list Route :=
  [("/apis/discovery.k8s.io/v1/endpointslices", [on_get HListEndpointSlicesAll]);
   ("/apis/discovery.k8s.io/v1/namespaces/{namespace}/endpointslices", [on_get HListEndpointSlices]);
   ("/apis/discovery.k8s.io/v1/namespaces/{namespace}/endpointslices/{name}", [on_get HGetEndpointSlice])].

Definition metrics_routes : list Route :=
  [("/apis/metrics.k8s.io/v1beta1", [on_get (HSystem SMetricsApiResources)]);
   ("/apis/metrics.k8s.io/v1beta1/nodes", [on_get HTopNodes]);
   ("/apis/metrics.k8s.io/v1beta1/pods", [on_get HTopPodsAll]);
   ("/apis/metrics.k8s.io/v1beta1/namespaces/{namespace}/pods", [on_get HTopPods])].

Definition storage_class_routes : list Route :=
  [("/apis/storage.k8s.io/v1/storageclasses", [on_get HListStorageClasses]);
   ("/apis/storage.k8s.io/v1/storageclasses/{name}", [on_get HGetStorageClass])].

Definition ingress_routes : list Route :=
  [("/apis/networking.k8s.io/v1/ingresses", [on_get HListIngressesAll]);
   ("/apis/networking.k8s.io/v1/namespaces/{namespace}/ingresses", [on_get HListIngresses; on_post HCreateIngress]);
   ("/apis/networking.k8s.io/v1/namespaces/{namespace}/ingresses/{name}",
    [on_get HGetIngress; on_put HUpdateIngress; on_patch HUpdateIngress; on_delete HDeleteIngress])].

Definition networkpolicy_routes : list Route :=
  [("/apis/networking.k8s.io/v1/networkpolicies", [on_get HListNetworkPoliciesAll]);
   ("/apis/networking.k8s.io/v1/namespaces/{namespace}/networkpolicies",
    [on_get HListNetworkPolicies; on_post HCreateNetworkPolicy]);
   ("/apis/networking.k8s.io/v1/namespaces/{namespace}/networkpolicies/{name}",
    [on_get HGetNetworkPolicy; on_put HUpdateNetworkPolicy; on_patch HUpdateNetworkPolicy;
     on_delete HDeleteNetworkPolicy])].

Definition vnet_routes : list Route :=
  [("/apis/z8s.io/v1/vnets", [on_get HListVNets; on_post HCreateVNet]);
   ("/apis/z8s.io/v1/vnets/{name}", [on_get HGetVNet; on_delete HDeleteVNet])].
Definition subnet_routes : list Route :=
  [("/apis/z8s.io/v1/subnets", [on_get HListSubnets; on_post HCreateSubnet]);
   ("/apis/z8s.io/v1/subnets/{name}", [on_get HGetSubnet; on_delete HDeleteSubnet])].
Definition nsg_routes : list Route :=
  [("/apis/z8s.io/v1/nsgs", [on_get HListNsgs; on_post HCreateNsg]);
   ("/apis/z8s.io/v1/nsgs/{name}", [on_get HGetNsg; on_delete HDeleteNsg])].
Definition routetable_routes : list Route :=
  [("/apis/z8s.io/v1/routetables", [on_get HListRouteTables; on_post HCreateRouteTable]);
   ("/apis/z8s.io/v1/routetables/{name}", [on_get HGetRouteTable; on_delete HDeleteRouteTable])].

Definition system_routes : list Route :=
  [("/", [on_get (HSystem SRootHandler)]);
   ("/api", [on_get (HSystem SApiVersions)]);
   ("/api/v1", [on_get (HSystem SApiV1Resources)]);
   ("/apis", [on_get (HSystem SApiGroups)]);
   ("/apis/z8s.io/v1", [on_get (HSystem SApiZ8sV1Resources)]);
   ("/apis/apps/v1", [on_get (HSystem SApiAppsV1Resources)]);
   ("/apis/networking.k8s.io/v1", [on_get (HSystem SApiNetworkingV1Resources)]);
   ("/apis/discovery.k8s.io/v1", [on_get (HSystem SApiDiscoveryV1Resources)]);
   ("/apis/storage.k8s.io/v1", [on_get (HSystem SApiStorageV1Resources)]);
   ("/apis/authorization.k8s.io/v1", [on_get (HSystem SApiAuthzV1Resources)]);
   ("/apis/authorization.k8s.io/v1/selfsubjectaccessreviews", [on_post (HSystem SSelfSubjectAccessReview)]);
   ("/apis/authorization.k8s.io/v1/subjectaccessreviews", [on_post (HSystem SSelfSubjectAccessReview)]);
   ("/apis/apiextensions.k8s.io/v1", [on_get (HSystem SApiExtensionsV1Resources)]);
   ("/apis/apiextensions.k8s.io/v1/customresourcedefinitions", [on_get (HSystem SListCrds)]);
   ("/apis/apiextensions.k8s.io/v1/customresourcedefinitions/{name}", [on_get (HSystem SGetCrd)]);
   ("/openapi/v2", [on_get (HSystem SOpenapiV2)]);
   ("/openapi/v3", [on_get (HSystem SOpenapiV3)]);
   ("/version", [on_get (HSystem SVersionHandler)]);
   ("/healthz", [on_get (HSystem SHealthz)]);
   ("/readyz", [on_get (HSystem SReadyz)]);
   ("/livez", [on_get (HSystem SLivez)])].

(** [build_router], in the order of the merges. *)
Definition build_router : list Route :=
  system_routes ++ pod_routes ++ deployment_routes ++ namespace_routes ++ node_routes ++ event_routes
  ++ configmap_routes ++ secret_routes ++ service_routes ++ pv_routes ++ pvc_routes
  ++ endpoints_routes ++ endpointslices_routes ++ metrics_routes ++ storage_class_routes
  ++ ingress_routes ++ networkpolicy_routes ++ vnet_routes ++ subnet_routes ++ nsg_routes
  ++ routetable_routes.

(** The segments of a pattern after the leading slash. *)
Definition segments (path : string) : list string := split_on "/" (unwrap_or (strip_prefix "/" path) path).

Definition is_param (seg : string) : bool := starts_with "{" seg.

(** A parameter matches any segment that is not empty; the values are returned in order. *)
Fixpoint match_segments (pat path : list string) : option (list string) :=
  match pat, path with
  | [], [] => Some []
  | p :: pat', s :: path' =>
      if is_param p then
        if bool_decide (s = "") then None else cons s <$> match_segments pat' path'
      else if bool_decide (p = s) then match_segments pat' path' else None
  | _, _ => None
  end.

Definition route_for (path : list string) : option (list (option Method * Handler) * list string) :=
  find_map (λ r, (λ ps, (r.2, ps)) <$> match_segments (segments r.1) path) build_router.

(** A GET handler answers HEAD as well, and the transport drops the body. *)
Definition answers_method (m : Method) (e : option Method * Handler) : bool :=
  match e.1 with
  | None => true
  | Some m' => bool_decide (m' = m) || bool_decide (m' = GET) && bool_decide (m = HEAD)
  end.

Definition method_for (m : Method) (l : list (option Method * Handler)) : option Handler :=
  snd <$> find_first (answers_method m) l.

(** ** No path fits two routes *)

(** Two patterns that no path fits: of different lengths, or with different words in the
    same place. *)
Fixpoint apart (p q : list string) : bool :=
  match p, q with
  | [], [] => false
  | x :: p', y :: q' =>
      (negb (is_param x) && negb (is_param y) && negb (bool_decide (x = y))) || apart p' q'
  | _, _ => true
  end.

Lemma match_segments_cons w pat s path ps :
  match_segments (w :: pat) (s :: path) = Some ps →
  (is_param w = true ∨ w = s) ∧ ∃ ps', match_segments pat path = Some ps'.
Proof.
  cbn [match_segments]. destruct (is_param w), (match_segments pat path) as [ps'|];
    repeat case_bool_decide; try done; intros _; eauto.
Qed.

Lemma apart_spec p q path ps qs :
  apart p q = true → match_segments p path = Some ps → match_segments q path ≠ Some qs.
Proof.
  revert q path ps qs. induction p as [|x p IH]; intros [|y q] [|s path] ps qs; try done.
  intros H (Hx & ps' & Hp)%match_segments_cons (Hy & qs' & Hq)%match_segments_cons. cbn [apart] in H.
  destruct (is_param x), (is_param y); cbn in H; try exact (IH q path ps' qs' H Hp Hq).
  destruct Hx as [? | ->]; [done|]. destruct Hy as [? | ->]; [done|].
  rewrite bool_decide_true in H by done. exact (IH q path ps' qs' H Hp Hq).
Qed.

Fixpoint all_apart (l : list Route) : bool :=
  match l with
  | [] => true
  | r :: l' => forallb (λ r', apart (segments r.1) (segments r'.1)) l' && all_apart l'
  end.

Definition try_route (path : list string) (r : Route) :=
  (λ ps, (r.2, ps)) <$> match_segments (segments r.1) path.

Lemma find_route_unique path l r x :
  all_apart l = true → r ∈ l → try_route path r = Some x → find_map (try_route path) l = Some x.
Proof.
  intros Hl Hr Hx. revert Hl. induction Hr as [r l | r r' l Hr IH]; cbn [all_apart find_map].
  - by rewrite Hx.
  - rewrite andb_true_iff, forallb_forall. intros [Ha Hl].
    specialize (Ha r (proj1 (list_elem_of_In _ _) Hr)).
    destruct (try_route path r') as [y|] eqn:Ey; [|by apply IH].
    unfold try_route in Ey, Hx. destruct (match_segments (segments r'.1) path) as [ps|] eqn:Ep; [|done].
    destruct (match_segments (segments r.1) path) as [qs|] eqn:Eq; [|done].
    by destruct (apart_spec _ _ _ _ _ Ha Ep Eq).
Qed.

Lemma route_for_spec path l ps :
  route_for path = Some (l, ps) ↔
  ∃ p, (p, l) ∈ build_router ∧ match_segments (segments p) path = Some ps.
Proof.
  change (route_for path) with (find_map (try_route path) build_router). split.
  - intros ([p l'] & Hr & H)%find_map_Some. unfold try_route in H. cbn [fst snd] in H.
    destruct (match_segments (segments p) path) as [ps'|] eqn:E; [|done]. injection H as -> ->.
    by exists p.
  - intros (p & Hr & H). apply (find_route_unique _ _ (p, l)); [vm_compute; reflexivity|done|].
    unfold try_route. cbn [fst snd]. by rewrite H.
Qed.

(** A path selects a route exactly when it fits the route's pattern: no path fits the
    patterns of two routes, so their order does not matter. *)
Theorem route_for_iff path l ps :
  route_for path = Some (l, ps) ↔
  ∃ p, (p, l) ∈ build_router ∧ match_segments (segments p) path = Some ps.
Proof. apply route_for_spec. Qed.

(** A handler of the table for each method that a path answers. *)
Example route_pod_log :
  route_for ["api"; "v1"; "namespaces"; "default"; "pods"; "web"; "log"]
  = Some ([on_get HPodLog], ["default"; "web"]).
Proof. vm_compute. reflexivity. Qed.
