(* ===== verification/Discovery.v ===== *)
(** * Discovery: what the server says of itself
    (src/src/api/handlers/system.rs, src/src/api/handlers/node.rs, the resource list of
    src/src/api/handlers/metrics.rs and the builders of src/src/api/server.rs)

    The documents from which kubectl learns the groups, the resources, their verbs and
    their columns, the custom resource definitions, the versions and the one node. The
    architecture of the build and the parallelism of the machine are arguments. The
    theorems compare the advertised verbs with the routes and the advertised columns with
    the computed fields of the custom resources. *)
From S2P Require Import Prelude Text Json Resources Config Cri Query Routes.

(** ** Documents *)

Record APIResource := {
  ar_name : string; ar_singular_name : string; ar_namespaced : bool; ar_kind : string;
  ar_verbs : list string; ar_short_names : option (list string); ar_categories : option (list string)
}.
Record APIResourceList := { arl_group_version : string; arl_resources : list APIResource }.
Record GroupVersion := { gv_group_version : string; gv_version : string }.
Record APIGroup := {
  ag_name : string; ag_versions : list GroupVersion; ag_preferred_version : option GroupVersion
}.

(** [if names.is_empty() { None } else { Some(..) }] *)
Definition some_names (l : list string) : option (list string) := match l with [] => None | _ => Some l end.

Definition api_resource (n singular : string) (namespaced : bool) (k : string)
    (verbs short_names categories : list string) : APIResource :=
  {| ar_name := n; ar_singular_name := singular; ar_namespaced := namespaced; ar_kind := k;
     ar_verbs := verbs; ar_short_names := some_names short_names; ar_categories := some_names categories |}.

Definition gvd (group_version version : string) : GroupVersion :=
  {| gv_group_version := group_version; gv_version := version |}.

Definition root_handler : json :=
  jobj [("paths", JArr (JStr <$> ["/api"; "/apis"; "/openapi/v2"; "/healthz"; "/readyz"; "/livez"; "/version"]))].

Definition api_versions : list string := ["v1"].

Definition api_v1_resources : APIResourceList :=
  {| arl_group_version := "v1";
     arl_resources :=
      [api_resource "pods" "pod" true "Pod" ["get"; "list"; "watch"; "create"; "update"; "delete"] ["po"] ["all"];
       api_resource "pods/exec" "" true "PodExecOptions" ["create"; "get"] [] [];
       api_resource "pods/log" "" true "Pod" ["get"] [] [];
       api_resource "namespaces" "namespace" false "Namespace" ["get"; "list"; "create"; "delete"] ["ns"] [];
       api_resource "nodes" "node" false "Node" ["get"; "list"] ["no"] [];
       api_resource "services" "service" true "Service"
         ["get"; "list"; "watch"; "create"; "update"; "patch"; "delete"] ["svc"] [];
       api_resource "endpoints" "endpoints" true "Endpoints" ["get"; "list"; "watch"] ["ep"] [];
       api_resource "configmaps" "configmap" true "ConfigMap" ["get"; "list"; "create"; "delete"] ["cm"] [];
       api_resource "secrets" "secret" true "Secret" ["get"; "list"; "create"; "delete"] [] [];
       api_resource "events" "event" true "Event" ["get"; "list"; "watch"] ["ev"] [];
       api_resource "persistentvolumes" "persistentvolume" false "PersistentVolume"
         ["get"; "list"; "create"; "delete"] ["pv"] [];
       api_resource "persistentvolumeclaims" "persistentvolumeclaim" true "PersistentVolumeClaim"
         ["get"; "list"; "create"; "delete"] ["pvc"] []] |}.

(** A group of one version. *)
Definition api_group (n gv v : string) : APIGroup :=
  {| ag_name := n; ag_versions := [gvd gv v]; ag_preferred_version := Some (gvd gv v) |}.

Definition api_groups : list APIGroup :=
  [api_group "apps" "apps/v1" "v1";
   api_group "metrics.k8s.io" "metrics.k8s.io/v1beta1" "v1beta1";
   api_group "authorization.k8s.io" "authorization.k8s.io/v1" "v1";
   api_group "discovery.k8s.io" "discovery.k8s.io/v1" "v1";
   api_group "networking.k8s.io" "networking.k8s.io/v1" "v1";
   api_group "storage.k8s.io" "storage.k8s.io/v1" "v1";
   api_group "z8s.io" "z8s.io/v1" "v1";
   api_group "apiextensions.k8s.io" "apiextensions.k8s.io/v1" "v1"].

Definition api_apps_v1_resources : APIResourceList :=
  {| arl_group_version := "apps/v1";
     arl_resources :=
      [api_resource "deployments" "deployment" true "Deployment"
         ["get"; "list"; "watch"; "create"; "update"; "patch"; "delete"] ["deploy"] ["all"]] |}.

Definition api_authz_v1_resources : APIResourceList :=
  {| arl_group_version := "authorization.k8s.io/v1";
     arl_resources :=
      [api_resource "selfsubjectaccessreviews" "" false "SelfSubjectAccessReview" ["create"] [] [];
       api_resource "subjectaccessreviews" "" false "SubjectAccessReview" ["create"] [] []] |}.

Definition api_discovery_v1_resources : APIResourceList :=
  {| arl_group_version := "discovery.k8s.io/v1";
     arl_resources :=
      [api_resource "endpointslices" "endpointslice" true "EndpointSlice" ["get"; "list"; "watch"] [] []] |}.

Definition api_networking_v1_resources : APIResourceList :=
  {| arl_group_version := "networking.k8s.io/v1";
     arl_resources :=
      [api_resource "ingresses" "ingress" true "Ingress"
         ["get"; "list"; "watch"; "create"; "update"; "delete"] ["ing"] ["all"];
       api_resource "networkpolicies" "networkpolicy" true "NetworkPolicy"
         ["get"; "list"; "watch"; "create"; "update"; "delete"] ["netpol"] ["all"]] |}.

Definition api_extensions_v1_resources : APIResourceList :=
  {| arl_group_version := "apiextensions.k8s.io/v1";
     arl_resources :=
      [api_resource "customresourcedefinitions" "customresourcedefinition" false "CustomResourceDefinition"
         ["get"; "list"; "watch"; "create"; "update"; "delete"] ["crd"] []] |}.

Definition api_storage_v1_resources : APIResourceList :=
  {| arl_group_version := "storage.k8s.io/v1";
     arl_resources :=
      [api_resource "storageclasses" "storageclass" false "StorageClass" ["get"; "list"] ["sc"] []] |}.

Definition metrics_api_resources : APIResourceList :=
  {| arl_group_version := "metrics.k8s.io/v1beta1";
     arl_resources :=
      [api_resource "pods" "" true "PodMetrics" ["get"; "list"] [] [];
       api_resource "nodes" "" false "NodeMetrics" ["get"; "list"] [] []] |}.

(** *** The custom resources, as JSON *)

(** A printer column: its name, its path and its type. *)
Definition Column : Type := string * string * string.

Definition col (c : Column) : json :=
  let '(n, path, ty) := c in
  jobj [("name", JStr n); ("type", JStr ty); ("jsonPath", JStr path); ("description", JStr n)].

Definition resource_with_cols (n singular k : string) (verbs short : list string) (cols : list Column) : json :=
  let r := jobj [("name", JStr n); ("singularName", JStr singular); ("namespaced", JBool false);
                 ("kind", JStr k); ("verbs", JArr (JStr <$> verbs)); ("categories", JArr [JStr "all"])] in
  let r := if is_some (some_names short) then jset "shortNames" (JArr (JStr <$> short)) r else r in
  match cols with [] => r | _ => jset "additionalPrinterColumns" (JArr (col <$> cols)) r end.

Definition age_col : Column := ("Age", ".metadata.creationTimestamp", "date").
Definition vnet_cols : list Column :=
  [("CIDR", ".spec.cidr", "string"); ("Role", ".spec.role", "string");
   ("Internet", ".spec.internetAccess", "boolean"); ("Subnets", ".spec._subnetCount", "integer");
   ("Pods", ".spec._podCount", "integer"); ("Services", ".spec._serviceCount", "integer"); age_col].
Definition subnet_cols : list Column :=
  [("CIDR", ".spec.cidr", "string"); ("VNet", ".spec.vnet", "string");
   ("Pods", ".spec._podCount", "integer"); ("Services", ".spec._serviceCount", "integer"); age_col].
Definition nsg_cols : list Column :=
  [("Targets", ".spec._targets", "string"); ("Rules", ".spec._ruleCount", "integer");
   ("Allows", ".spec._allowCount", "integer"); ("Denies", ".spec._denyCount", "integer"); age_col].
Definition routetable_cols : list Column :=
  [("Rules", ".spec._ruleCount", "integer"); ("Allows", ".spec._allowCount", "integer");
   ("Denies", ".spec._denyCount", "integer"); ("Methods", ".spec._methods", "string"); age_col].

Definition crd_verbs : list string := ["get"; "list"; "create"; "delete"].

Definition api_z8s_v1_resources : json :=
  jobj [("groupVersion", JStr "z8s.io/v1");
        ("resources", JArr
           [resource_with_cols "vnets" "vnet" "VNet" crd_verbs ["vn"] vnet_cols;
            resource_with_cols "subnets" "subnet" "Subnet" crd_verbs ["sn"] subnet_cols;
            resource_with_cols "nsgs" "nsg" "NSG" crd_verbs ["nsg"] nsg_cols;
            resource_with_cols "routetables" "routetable" "RouteTable" crd_verbs ["rt"] routetable_cols])].

Definition crd_col (c : Column) : json :=
  let '(n, path, ty) := c in jobj [("name", JStr n); ("type", JStr ty); ("jsonPath", JStr path)].

(** The first argument of [make_crd] is not used. *)
Definition make_crd (group k plural singular : string) (cols : list Column) : json :=
  let object := jobj [("type", JStr "object")] in
  jobj [("apiVersion", JStr "apiextensions.k8s.io/v1"); ("kind", JStr "CustomResourceDefinition");
        ("metadata", jobj [("name", JStr (plural +:+ "." +:+ group));
                           ("uid", JStr "00000000-0000-0000-0000-000000000000");
                           ("creationTimestamp", JStr "2026-01-01T00:00:00Z")]);
        ("spec", jobj
           [("group", JStr group); ("scope", JStr "Cluster");
            ("names", jobj [("kind", JStr k); ("plural", JStr plural); ("singular", JStr singular);
                            ("shortNames", JArr [])]);
            ("versions", JArr [jobj
               [("name", JStr "v1"); ("served", JBool true); ("storage", JBool true);
                ("schema", jobj [("openAPIV3Schema",
                   jobj [("type", JStr "object"); ("properties", jobj [("spec", object); ("status", object)])])]);
                ("additionalPrinterColumns", JArr (crd_col <$> cols))]])])].

Definition all_crds : list json :=
  [make_crd "z8s.io" "VNet" "vnets" "vnet" vnet_cols;
   make_crd "z8s.io" "Subnet" "subnets" "subnet" subnet_cols;
   make_crd "z8s.io" "NSG" "nsgs" "nsg" nsg_cols;
   make_crd "z8s.io" "RouteTable" "routetables" "routetable" routetable_cols].

Definition list_crds : json :=
  jobj [("apiVersion", JStr "apiextensions.k8s.io/v1"); ("kind", JStr "CustomResourceDefinitionList");
        ("items", JArr all_crds); ("metadata", jobj [("resourceVersion", JStr "1")])].

Definition get_crd (n : string) : option json :=
  find_first (λ crd, bool_decide (as_str (jidx "name" (jidx "metadata" crd)) = Some n)) all_crds.

(** *** Versions and access *)

(** [SubjectAccessReviewStatus]: allowed, and why. *)
Definition self_subject_access_review : bool * string := (true, "z8s grants all access").

Definition CARGO_PKG_VERSION : string := "0.1.0".

Definition openapi_info : json := jobj [("title", JStr "z8s"); ("version", JStr CARGO_PKG_VERSION)].
Definition openapi_v2 : json :=
  jobj [("swagger", JStr "2.0"); ("info", openapi_info); ("paths", JObj [])].
Definition openapi_v3 : json :=
  jobj [("openapi", JStr "3.0.0"); ("info", openapi_info); ("paths", JObj [])].

Definition version_handler (arch now_text : string) : json :=
  jobj [("major", JStr "0"); ("minor", JStr "1"); ("gitVersion", JStr ("z8s-v" +:+ CARGO_PKG_VERSION));
        ("gitCommit", JStr "dev"); ("buildDate", JStr now_text); ("goVersion", JStr "go1.21");
        ("compiler", JStr "rustc"); ("platform", JStr ("linux/" +:+ arch))].

(** ** The node *)

Record NodeInfo := {
  ni_machine_id : string; ni_system_uuid : string; ni_boot_id : string; ni_kernel_version : string;
  ni_os_image : string; ni_container_runtime_version : string; ni_kubelet_version : string;
  ni_kube_proxy_version : string; ni_operating_system : string; ni_architecture : string
}.
Record Node := {
  nd_name : string; nd_uid : string; nd_labels : gmap string string; nd_created : Z;
  nd_pod_cidr : string; nd_pod_cidrs : list string;
  nd_ready : bool * string * string; nd_addresses : list (string * string);
  nd_kubelet_port : Z; nd_info : NodeInfo;
  nd_capacity : gmap string string; nd_allocatable : gmap string string
}.

Section node.
Context {K : Type} `{FS : FileSystem K}.
Variable arch : string.
(** [std::thread::available_parallelism()] *)
Variable parallelism : option Z.
Variable cfg : Config.
Variable now : Z.

Definition kernel_version (k : K) : string :=
  unwrap_or (s ← read_to_string "/proc/version" k; split_whitespace s !! 2%nat) "unknown".

Definition host_memory_ki (k : K) : string :=
  unwrap_or (s ← read_to_string "/proc/meminfo" k;
             l ← find_first (starts_with "MemTotal:") (lines s);
             kb ← split_whitespace l !! 1%nat;
             Some (kb +:+ "Ki")) "8192Ki".

Definition cpu_count : string := match parallelism with Some n => display n | None => "1" end.

Definition node_labels : gmap string string :=
  {[ "kubernetes.io/hostname" := "z8s-node"; "kubernetes.io/os" := "linux"; "kubernetes.io/arch" := arch;
     "beta.kubernetes.io/os" := "linux"; "beta.kubernetes.io/arch" := arch ]}.

Definition node_capacity (k : K) : gmap string string :=
  {[ "cpu" := cpu_count; "memory" := host_memory_ki k; "pods" := "110" ]}.

Definition node_info (k : K) : NodeInfo :=
  {| ni_machine_id := "z8s-1"; ni_system_uuid := "z8s-1"; ni_boot_id := "z8s-1";
     ni_kernel_version := kernel_version k; ni_os_image := "Linux";
     ni_container_runtime_version := "z8s://" +:+ CARGO_PKG_VERSION;
     ni_kubelet_version := "z8s-" +:+ CARGO_PKG_VERSION;
     ni_kube_proxy_version := "z8s-" +:+ CARGO_PKG_VERSION;
     ni_operating_system := "linux"; ni_architecture := arch |}.

Definition list_nodes (k : K) : list Node :=
  [{| nd_name := "z8s-node"; nd_uid := "z8s-node"; nd_labels := node_labels; nd_created := now;
      nd_pod_cidr := "10.42.0.0/24"; nd_pod_cidrs := ["10.42.0.0/24"];
      nd_ready := (true, "KubeletReady", "z8s is ready");
      nd_addresses := [("InternalIP", "127.0.0.1"); ("Hostname", "z8s-node")];
      nd_kubelet_port := api_port cfg; nd_info := node_info k;
      nd_capacity := node_capacity k; nd_allocatable := node_capacity k |}].
End node.

(** ** Advertised verbs and routes *)

(** A resource of the JSON list of the custom resources. *)
Definition resource_of_json (j : json) : APIResource :=
  {| ar_name := str_or "" (jidx "name" j); ar_singular_name := str_or "" (jidx "singularName" j);
     ar_namespaced := unwrap_or (as_bool (jidx "namespaced" j)) true; ar_kind := str_or "" (jidx "kind" j);
     ar_verbs := omap as_str (unwrap_or (as_array (jidx "verbs" j)) []);
     ar_short_names := None; ar_categories := None |}.

Definition resources_of (l : APIResourceList) : list (string * APIResource) :=
  (λ r, (arl_group_version l, r)) <$> arl_resources l.

(** Every resource that a client learns of, with its group and version. *)
Definition advertised : list (string * APIResource) :=
  resources_of api_v1_resources ++ resources_of api_apps_v1_resources
  ++ resources_of api_authz_v1_resources ++ resources_of api_discovery_v1_resources
  ++ resources_of api_networking_v1_resources ++ resources_of api_extensions_v1_resources
  ++ resources_of api_storage_v1_resources ++ resources_of metrics_api_resources
  ++ ((λ j, ("z8s.io/v1", resource_of_json j))
        <$> unwrap_or (as_array (jidx "resources" api_z8s_v1_resources)) []).

(** The request that a verb stands for in the API of Kubernetes. *)
Definition verb_request (gv : string) (r : APIResource) (verb ns n : string) : option (Method * list string) :=
  let base := (if bool_decide (gv = "v1") then ["api"; "v1"] else "apis" :: split_on "/" gv)
              ++ (if ar_namespaced r then ["namespaces"; ns] else []) in
  let names := split_on "/" (ar_name r) in
  let collection := base ++ names in
  let item := match names with res :: sub => base ++ res :: n :: sub | [] => base end in
  let subresource := bool_decide (1 < length names)%nat in
  match verb with
  | "list" | "watch" => Some (GET, collection)
  | "create" => Some (POST, if subresource then item else collection)
  | "get" => Some (GET, item)
  | "update" => Some (PUT, item)
  | "patch" => Some (PATCH, item)
  | "delete" => Some (DELETE, item)
  | _ => None
  end.

(** Some handler runs for the request. *)
Definition has_handler (m : Method) (path : list string) : bool :=
  match route_for path with Some (l, _) => is_some (method_for m l) | None => false end.

(** The verbs that are advertised without a route. *)
Definition unserved : list (string * string * string) :=
  [("v1", "events", "get");
   ("apiextensions.k8s.io/v1", "customresourcedefinitions", "create");
   ("apiextensions.k8s.io/v1", "customresourcedefinitions", "update");
   ("apiextensions.k8s.io/v1", "customresourcedefinitions", "delete");
   ("metrics.k8s.io/v1beta1", "pods", "get"); ("metrics.k8s.io/v1beta1", "nodes", "get")].

Definition verb_ok (ns n gv : string) (r : APIResource) (verb : string) : bool :=
  match verb_request gv r verb ns n with
  | Some (m, path) => Bool.eqb (has_handler m path) (negb (bool_decide ((gv, ar_name r, verb) ∈ unserved)))
  | None => false
  end.

Lemma verbs_ok a s a' s' :
  forallb (λ e, forallb (verb_ok (String a s) (String a' s') e.1 e.2) (ar_verbs e.2)) advertised = true.
Proof. vm_compute. reflexivity. Qed.

(** Whatever the namespace and the name, every verb that the server advertises for a
    resource stands for a request, and a handler runs for it exactly when the verb is not
    one of the six of [unserved]. *)
Theorem advertised_verbs_served gv r v ns n :
  (gv, r) ∈ advertised → v ∈ ar_verbs r → ns ≠ "" → n ≠ "" →
  ∃ m path, verb_request gv r v ns n = Some (m, path)
  ∧ (has_handler m path = true ↔ (gv, ar_name r, v) ∉ unserved).
Proof.
  intros Hr Hv Hns Hn. destruct ns as [|a s]; [done|]. destruct n as [|a' s']; [done|].
  pose proof (verbs_ok a s a' s') as H. rewrite forallb_forall in H.
  specialize (H _ (proj1 (list_elem_of_In _ _) Hr)). cbn [fst snd] in H. rewrite forallb_forall in H.
  specialize (H _ (proj1 (list_elem_of_In _ _) Hv)). unfold verb_ok in H.
  destruct (verb_request gv r v _ _) as [[m path]|]; [|done]. exists m, path. split; [done|].
  apply eqb_prop in H. rewrite H, negb_true_iff, bool_decide_eq_false. done.
Qed.

Lemma advertised_verbs_served_witness :
  ∃ r m path, verb_request "apps/v1" r "delete" "x" "web" = Some (m, path)
  ∧ (has_handler m path = true ↔ ("apps/v1", ar_name r, "delete") ∉ unserved).
Proof.
  exists (api_resource "deployments" "deployment" true "Deployment"
         ["get"; "list"; "watch"; "create"; "update"; "patch"; "delete"] ["deploy"] ["all"]).
  apply (advertised_verbs_served "apps/v1" _ "delete" "x" "web"); [|set_solver..].
  unfold advertised. rewrite !elem_of_app. right. left. apply list_elem_of_here.
Defined.

(** ** Printer columns and computed fields *)

(** [item] is an object whose [spec] is an object that has the members [ks]. *)
Definition spec_has (ks : list string) (item : json) : Prop :=
  ∃ o sp, item = JObj o ∧ jm_get "spec" o = Some (JObj sp)
  ∧ ∀ k, k ∈ ks → ∃ v, jm_get k sp = Some v ∧ v ≠ JNull.

Lemma set_spec_has k v ks item item' :
  v ≠ JNull → (ks = [] ∨ spec_has ks item) → set_spec k v item = Ret item' → spec_has (k :: ks) item'.
Proof.
  intros Hv Hks H. unfold set_spec, jupd in H.
  assert (∃ o x, item' = JObj (jm_insert "spec" x o)
    ∧ (match unwrap_or (jm_get "spec" o) JNull with
       | JObj m => Ret (JObj (jm_insert k v m)) | JNull => Ret (JObj [(k, v)]) | _ => Panic end) = Ret x
    ∧ (ks = [] ∨ spec_has ks (JObj o))) as (o & x & -> & Hx & Ho).
  { destruct item as [| | | | |o]; try done.
    - exists [], (JObj [(k, v)]). injection H as <-. split; [done|]. split; [done|].
      destruct Hks as [?|(o & sp & ? & _)]; [by left|done].
    - exists o. cbn in H. destruct (unwrap_or (jm_get "spec" o) JNull) as [| | | | |m]; try done;
        injection H as <-; eauto. }
  clear H Hks item. destruct (unwrap_or (jm_get "spec" o) JNull) as [| | | | |m] eqn:Em; try done; injection Hx as <-.
  - exists (jm_insert "spec" (JObj [(k, v)]) o), [(k, v)]. split; [done|]. split; [apply jm_get_insert|].
    intros k' [->|Hk']%elem_of_cons.
    + exists v. cbn. by rewrite bool_decide_true.
    + destruct Ho as [->|(o' & sp & [= <-] & Hsp & _)]; [by apply not_elem_of_nil in Hk'|].
      rewrite Hsp in Em. done.
  - exists (jm_insert "spec" (JObj (jm_insert k v m)) o), (jm_insert k v m). split; [done|].
    split; [apply jm_get_insert|]. intros k' Hk'.
    destruct (decide (k' = k)) as [->|Hne]; [exists v; by rewrite jm_get_insert|].
    apply elem_of_cons in Hk' as [?|Hk']; [done|]. rewrite jm_get_insert_ne by done.
    destruct Ho as [->|(o' & sp & [= <-] & Hsp & Hall)]; [by apply not_elem_of_nil in Hk'|].
    rewrite Hsp in Em. injection Em as ->. by apply Hall.
Qed.

Lemma spec_path ks k item :
  spec_has ks item → k ∈ ks → split_on "." k = [k] → extract_json_path item (".spec." +:+ k) ≠ JNull.
Proof.
  intros (o & sp & -> & Hsp & Hall) Hk Hs. destruct (Hall k Hk) as (v & Hv & Hn).
  assert (split_on "." ("spec." +:+ k) = ["spec"; k]) as Hp.
  { change (split_on "." ("spec." +:+ k)) with ("spec" :: split_on "." k). by rewrite Hs. }
  change (".spec." +:+ k) with (String "." ("spec." +:+ k)). cbn [extract_json_path]. rewrite Hp.
  cbn [walk_path]. rewrite Hsp. cbn [unwrap_or]. rewrite Hv. cbn [unwrap_or].
  destruct v; try done. by destruct (parse_i64 s).
Qed.

Lemma exec_bind_inv {A B} (m : exec A) (f : A → exec B) b :
  (m ≫= f) = Ret b → ∃ a, m = Ret a ∧ f a = Ret b.
Proof. destruct m as [a|]; [by exists a|done]. Qed.

(** The paths of the columns that show a computed field. *)
Definition computed (cols : list Column) : list string :=
  List.filter (starts_with ".spec._") ((λ c : Column, c.1.2) <$> cols).

(** The members that the earlier assignments made. *)
Ltac has_specs := first [by left | right; eapply set_spec_has; [ | |eassumption]; [done|has_specs]].

Lemma vnet_item_has subnets pods svcs item item' :
  enrich_vnet_item subnets pods svcs item = Ret item' →
  spec_has ["_serviceCount"; "_podCount"; "_subnetCount"] item'.
Proof.
  intros (i1 & H1 & (i2 & H2 & H)%exec_bind_inv)%exec_bind_inv.
  eapply set_spec_has; [ | |eassumption]; [done|has_specs].
Qed.
Lemma subnet_item_has ips svcs item item' :
  enrich_subnet_item ips svcs item = Ret item' → spec_has ["_serviceCount"; "_podCount"] item'.
Proof.
  intros (i1 & H1 & H)%exec_bind_inv.
  eapply set_spec_has; [ | |eassumption]; [done|has_specs].
Qed.
Lemma nsg_item_has item item' :
  enrich_nsg_item item = Ret item' →
  spec_has ["_targets"; "_denyCount"; "_allowCount"; "_ruleCount"] item'.
Proof.
  intros (i1 & H1 & (i2 & H2 & (i3 & H3 & H)%exec_bind_inv)%exec_bind_inv)%exec_bind_inv.
  eapply set_spec_has; [ | |eassumption]; [done|has_specs].
Qed.
Lemma routetable_item_has item item' :
  enrich_routetable_item item = Ret item' →
  spec_has ["_methods"; "_denyCount"; "_allowCount"; "_ruleCount"] item'.
Proof.
  intros (i1 & H1 & (i2 & H2 & (i3 & H3 & H)%exec_bind_inv)%exec_bind_inv)%exec_bind_inv.
  eapply set_spec_has; [ | |eassumption]; [done|has_specs].
Qed.

Lemma columns_have ks cols item path :
  spec_has ks item →
  forallb (λ p, existsb (λ k, bool_decide (p = ".spec." +:+ k) && bool_decide (split_on "." k = [k])) ks)
    (computed cols) = true →
  path ∈ computed cols → extract_json_path item path ≠ JNull.
Proof.
  intros Hs Hall Hp. rewrite forallb_forall in Hall.
  specialize (Hall _ (proj1 (list_elem_of_In _ _) Hp)).
  apply existsb_exists in Hall as (k & Hk & H). apply andb_true_iff in H as [Hpk Hsplit].
  apply bool_decide_eq_true in Hpk as ->. apply bool_decide_eq_true in Hsplit.
  by apply (spec_path ks k); [done|apply list_elem_of_In|].
Qed.

(** Every column of a computed field that the discovery documents announce for a custom
    resource has a value in the items that the lists of that resource show, whatever the
    stored object is. *)
Theorem computed_columns_shown subnets pods svcs ips item item' path :
  (enrich_vnet_item subnets pods svcs item = Ret item' ∧ path ∈ computed vnet_cols)
  ∨ (enrich_subnet_item ips svcs item = Ret item' ∧ path ∈ computed subnet_cols)
  ∨ (enrich_nsg_item item = Ret item' ∧ path ∈ computed nsg_cols)
  ∨ (enrich_routetable_item item = Ret item' ∧ path ∈ computed routetable_cols) →
  extract_json_path item' path ≠ JNull.
Proof.
  intros [[H Hp]|[[H Hp]|[[H Hp]|[H Hp]]]];
    [apply vnet_item_has in H | apply subnet_item_has in H | apply nsg_item_has in H
    | apply routetable_item_has in H]; (eapply (columns_have _ _ _ _ H); [|exact Hp]; vm_compute; reflexivity).
Qed.

Lemma computed_columns_shown_witness :
  ∃ item', enrich_nsg_item (jobj [("spec", jobj [("rules", JArr [])])]) = Ret item'
  ∧ extract_json_path item' ".spec._denyCount" ≠ JNull.
Proof.
  eexists. split; [vm_compute; reflexivity|].
  apply (computed_columns_shown [] [] [] [] (jobj [("spec", jobj [("rules", JArr [])])])).
  right. right. left. split; [vm_compute; reflexivity|]. vm_compute. set_solver.
Defined.
