(* ===== verification/Api.v ===== *)
(** * Api: the handlers of the API server
    (src/src/api/server.rs, src/src/api/handlers)

    The state of the server is the world of the components together with the namespaces,
    the events and the two counters of addresses and node ports. A handler is a
    computation that ends with a response or an [ApiError]; it calls the store and the
    registry in the order of the source. What serde derives, the typed decoders and
    encoders of JSON and YAML, is the interface [ApiCodec]. The routes are a table, and
    [handle] answers one request. The handler of exec sees the supervisor and the kernel and
    can change the kernel only; it is a parameter. *)
From S2P Require Import Prelude Text Utf8 Json Resources Proto Config Pool Netlink Nft NetMux Cri SpecBuilder Runtime Process Deployment Service Panics Policy Ingress Storage Registry World Query Routes Discovery.

(** ** What the handlers exchange *)

Record Namespace := { ns_metadata : ObjectMeta; ns_phase : option string }.

Record Event := {
  evt_metadata : ObjectMeta; evt_object : ObjectReference; evt_reason : string;
  evt_message : string; evt_type : string; evt_count : Z
}.

Record PodCondition := { pcd_type : string; pcd_status : string; pcd_transition : Z }.

Inductive ContainerState :=
  | CsRunning (started_at : Z)
  | CsTerminated (exit_code : Z) (reason : string) (message : option string)
  | CsWaiting (reason : string).

Record ContainerStatus := {
  cst_name : string; cst_image : string; cst_image_id : string; cst_ready : bool;
  cst_restart_count : Z; cst_container_id : string; cst_state : ContainerState; cst_started : bool
}.

Record PodStatus := {
  pst_phase : string; pst_host_ip : string; pst_pod_ip : string; pst_start_time : Z;
  pst_conditions : list PodCondition;
  pst_container_statuses : option (list ContainerStatus);
  pst_message : option string; pst_reason : option string; pst_qos_class : string
}.

Record DeploymentCondition := {
  dcd_type : string; dcd_status : string; dcd_time : Z; dcd_reason : string; dcd_message : string
}.
Record DeploymentStatus := {
  dst_replicas : option Z; dst_ready_replicas : option Z; dst_available_replicas : option Z;
  dst_updated_replicas : option Z; dst_conditions : list DeploymentCondition
}.

Record Scale := {
  sca_metadata : ObjectMeta; sca_spec_replicas : Z; sca_status_replicas : Z;
  sca_selector : option string
}.

Record StorageClass := {
  stc_name : string; stc_provisioner : string; stc_reclaim_policy : string;
  stc_volume_binding_mode : string
}.

(** The codecs that serde derives: JSON and YAML text, the typed decoders with the text
    of their error, and the encoders. *)
Class ApiCodec := {
  json_from_slice : bytes → option json;
  yaml_from_slice : bytes → option json;
  pod_from_value : json → result Pod;
  deployment_from_value : json → result Deployment;
  service_from_value : json → result Service;
  config_map_from_value : json → result ConfigMap;
  secret_from_value : json → result Secret;
  pv_from_value : json → result PersistentVolume;
  pvc_from_value : json → result PersistentVolumeClaim;
  vnet_from_value : json → result VNet;
  subnet_from_value : json → result Subnet;
  nsg_from_value : json → result Nsg;
  route_table_from_value : json → result RouteTable;
  ingress_from_value : json → result Ingress;
  network_policy_from_value : json → result NetworkPolicy;
  namespace_from_value : json → result Namespace;
  to_value : AnyResource → json;
  pod_to_value : Pod → PodStatus → json;
  deployment_to_value : Deployment → DeploymentStatus → json;
  scale_to_value : Scale → json
}.

Inductive Body :=
  | BStatus (s : Status)
  | BValue (j : json)
  | BResource (r : AnyResource)
  | BResources (l : list AnyResource)
  | BNamespace (ns : Namespace)
  | BNamespaces (l : list Namespace)
  | BEvents (l : list Event)
  | BStorageClasses (l : list StorageClass)
  | BStorageClass (c : StorageClass)
  (** A number of [Endpoints::default()]. *)
  | BEndpointsList (n : nat)
  | BEndpoints
  (** An empty list of endpoint slices. *)
  | BEndpointSlices
  | BApiVersions (l : list string)
  | BApiGroups (l : list APIGroup)
  | BApiResources (l : APIResourceList)
  (** The status of an access review: allowed, and why. *)
  | BAccessReview (status : bool * string)
  | BNodes (l : list Node)
  | BNode (n : Node)
  | BText (s : string)
  | BNone.

Record Response := { code : Z; body : Body }.

Definition ok (b : Body) : Response := {| code := 200; body := b |}.
Definition created (b : Body) : Response := {| code := 201; body := b |}.

(** ** The state of the server *)

Record AppState (K KN : Type) := {
  app_world : World K KN;
  namespaces : gmap string Namespace;
  events : list Event;
  nodeport_counter : Z;
  ip_counter : Z
}.
#[global] Arguments app_world {K KN} s : rename.
#[global] Arguments namespaces {K KN} s : rename.
#[global] Arguments events {K KN} s : rename.
#[global] Arguments nodeport_counter {K KN} s : rename.
#[global] Arguments ip_counter {K KN} s : rename.

(** ** Handlers as computations *)

Definition apiR (S A : Type) : Type := S → exec ((ApiError + A) * S).
#[export] Instance apiR_ret {S} : MRet (apiR S) := λ A a s, Ret (inr a, s).
#[export] Instance apiR_bind {S} : MBind (apiR S) := λ A B f m s,
  match m s with
  | Panic => Panic
  | Ret (inr a, s') => f a s'
  | Ret (inl e, s') => Ret (inl e, s')
  end.
Definition throw {S A} (e : ApiError) : apiR S A := λ s, Ret (inl e, s).
Definition gets {S A} (f : S → A) : apiR S A := λ s, Ret (inr (f s), s).
(** [r.map_err(f)?] *)
Definition map_err {S A} (f : string → ApiError) (r : result A) : apiR S A :=
  match r with Ok a => mret a | Err e => throw (f e) end.
(** [o.ok_or(e)?] *)
Definition or_throw {S A} (e : ApiError) (o : option A) : apiR S A :=
  match o with Some a => mret a | None => throw e end.
(** Code that can panic but has no effect. *)
Definition lift_exec {S A} (m : exec A) : apiR S A := λ s, a ← m; Ret (inr a, s).

(** [for x in l { f(x); }] *)
Fixpoint api_each {S A} (f : A → apiR S unit) (l : list A) : apiR S unit :=
  match l with
  | [] => mret ()
  | x :: l' => _ ← f x; api_each f l'
  end.

(** The loop that fills a list, in its order. *)
Fixpoint map_exec {A B} (f : A → exec B) (l : list A) : exec (list B) :=
  match l with
  | [] => Ret []
  | x :: l' => y ← f x; ys ← map_exec f l'; Ret (y :: ys)
  end.

(** ** Times and metadata *)

Definition make_namespace (now : Z) (n u : string) : Namespace :=
  {| ns_metadata := set_creation_timestamp (Some now) (set_uid (Some u) (set_name (Some n) meta_default));
     ns_phase := Some "Active" |}.

Definition make_event (now : Z) (n ns obj_kind obj_name reason message ty : string) : Event :=
  {| evt_metadata := set_creation_timestamp (Some now)
       (set_namespace (Some ns) (set_name (Some n) meta_default));
     evt_object := {| ref_kind := Some obj_kind; ref_name := Some obj_name; ref_namespace := Some ns |};
     evt_reason := reason; evt_message := message; evt_type := ty; evt_count := 1 |}.

Definition or_else {A} (o : option A) (d : A) : option A :=
  match o with Some _ => o | None => Some d end.

(** Filled where they are missing. *)
Definition default_namespace (ns : string) (m : ObjectMeta) : ObjectMeta :=
  set_namespace (or_else (om_namespace m) ns) m.
Definition default_name (n : string) (m : ObjectMeta) : ObjectMeta :=
  set_name (or_else (om_name m) n) m.

Definition fill_metadata (now : Z) (k : string) (m : ObjectMeta) : ObjectMeta :=
  let m := set_creation_timestamp (or_else (om_creation_timestamp m) now) m in
  let m := set_resource_version (or_else (om_resource_version m) "1") m in
  set_uid (or_else (om_uid m) (k +:+ "/" +:+ unwrap_or (om_namespace m) "default" +:+ "/"
                               +:+ unwrap_or (om_name m) "unknown")) m.

Definition with_pod_meta (f : ObjectMeta → ObjectMeta) (p : Pod) : Pod :=
  {| pod_metadata := f (pod_metadata p); pod_spec := pod_spec p |}.
Definition with_dep_meta (f : ObjectMeta → ObjectMeta) (d : Deployment) : Deployment :=
  {| dep_metadata := f (dep_metadata d); dep_spec := dep_spec d |}.

Definition fill_pod_metadata (now : Z) : Pod → Pod := with_pod_meta (fill_metadata now "Pod").
Definition fill_deployment_metadata (now : Z) : Deployment → Deployment :=
  with_dep_meta (fill_metadata now "Deployment").

(** ** The status of a pod *)

Definition pod_condition (ty status : string) (time : Z) : PodCondition :=
  {| pcd_type := ty; pcd_status := status; pcd_transition := time |}.

Definition phase_of (st : ResourceState) : string :=
  match st with
  | Pending => "Pending"
  | Running => "Running"
  | Succeeded => "Succeeded"
  | Failed _ => "Failed"
  | Terminated => "Succeeded"
  end.

Definition is_state_running (st : ResourceState) : bool := bool_decide (st = Running).

Definition container_state (now : Z) (st : ResourceState) (crash_loop : bool) : ContainerState :=
  match st with
  | Running => if crash_loop then CsWaiting "CrashLoopBackOff" else CsRunning now
  | Succeeded | Terminated => CsTerminated 0 "Completed" None
  | Failed msg => CsTerminated 1 "Error" (Some msg)
  | Pending => CsWaiting (if crash_loop then "CrashLoopBackOff" else "ContainerCreating")
  end.

Definition container_status (now : Z) (st : ResourceState) (is_ready : bool)
    (restart_counts : gmap string Z) (c : Container) : ContainerStatus :=
  let restarts := i32 (unwrap_or (restart_counts !! c_name c) 0) in
  let crash_loop := (3 <=? restarts) && negb is_ready in
  {| cst_name := c_name c;
     cst_image := unwrap_or (c_image c) "";
     cst_image_id := unwrap_or ((λ i, "z8s://" +:+ i) <$> c_image c) "";
     cst_ready := is_ready && is_state_running st;
     cst_restart_count := restarts;
     cst_container_id := "z8s://" +:+ c_name c;
     cst_state := container_state now st crash_loop;
     cst_started := is_state_running st && negb crash_loop |}.

Definition pod_status_of `{HO : HashOrder} (now : Z) (pod : Pod) (st : ResourceState) (is_ready : bool)
    (restart_counts : gmap string Z) (pod_ip : option Ipv4Addr) : PodStatus :=
  let ready := if is_ready && is_state_running st then "True" else "False" in
  let ip := unwrap_or (display_ipv4 <$> pod_ip) "127.0.0.1" in
  {| pst_phase := phase_of st; pst_host_ip := ip; pst_pod_ip := ip; pst_start_time := now;
     pst_conditions := [pod_condition "Initialized" "True" now; pod_condition "Ready" ready now;
                        pod_condition "ContainersReady" ready now;
                        pod_condition "PodScheduled" "True" now];
     pst_container_statuses :=
       (λ s, container_status now st is_ready restart_counts <$> ps_containers s) <$> pod_spec pod;
     pst_message := match st with Failed msg => Some msg | _ => None end;
     pst_reason := if existsb (λ v, 3 <=? v) (hash_values restart_counts) && negb is_ready
                   then Some "CrashLoopBackOff" else None;
     pst_qos_class := "Burstable" |}.

(** ** The status of a deployment *)

Definition pod_managed_by_deployment (pod : Pod) (deploy_name : string) : bool :=
  match om_name (pod_metadata pod) with
  | Some n => starts_with (deploy_name +:+ "-pod-") n
  | None => false
  end.

Definition labels_match (selector lbls : gmap string string) : bool := has_labels selector lbls.

(** The pods that the status of a deployment counts. *)
Definition counted_pod (deploy_name ns : string) (lbls : gmap string string) (t : ResourceTracker) : bool :=
  match resource t with
  | RPod pod =>
      bool_decide (om_namespace (pod_metadata pod) = Some ns)
      && pod_managed_by_deployment pod deploy_name
      && match om_labels (pod_metadata pod) with Some pl => has_labels lbls pl | None => false end
  | _ => false
  end.

Definition some_container_ready {K} (s : Supervisor K) (t : ResourceTracker) : bool :=
  existsb (λ c, is_container_ready (name (resource t) +:+ "-" +:+ c_name c) s)
    (extract_containers (resource t)).

Definition count_deployment_pods {K} (r : AnyResource) (pods : list ResourceTracker) (s : Supervisor K)
    : Z * Z :=
  match r with
  | RDeployment deploy =>
      match sp ← dep_spec deploy; ds_match_labels sp with
      | None => (0, 0)
      | Some lbls =>
          let matching := List.filter
            (counted_pod (unwrap_or (om_name (dep_metadata deploy)) "")
               (unwrap_or (om_namespace (dep_metadata deploy)) "default") lbls) pods in
          (Z.of_nat (length (List.filter (some_container_ready s) matching)),
           Z.of_nat (length matching))
      end
  | _ => (0, 0)
  end.

Definition deployment_conditions (now : Z) (running desired : option Z) : list DeploymentCondition :=
  let all_ready := unwrap_or desired 1 <=? unwrap_or running 0 in
  [{| dcd_type := "Available"; dcd_status := if all_ready then "True" else "False"; dcd_time := now;
      dcd_reason := if all_ready then "MinimumReplicasAvailable" else "MinimumReplicasUnavailable";
      dcd_message := if all_ready then "Deployment has minimum availability."
                     else display (unwrap_or running 0) +:+ "/" +:+ display (unwrap_or desired 1)
                          +:+ " pods ready" |};
   {| dcd_type := "Progressing"; dcd_status := "True"; dcd_time := now;
      dcd_reason := "NewReplicaSetAvailable"; dcd_message := "ReplicaSet has successfully progressed." |}].

Definition deployment_status_of (now : Z) (deploy : Deployment) (ready_count available_count : option Z)
    : DeploymentStatus :=
  let desired := sp ← dep_spec deploy; ds_replicas sp in
  let running := or_opt (i32 <$> ready_count) desired in
  let available := or_opt (i32 <$> available_count) desired in
  {| dst_replicas := desired; dst_ready_replicas := running; dst_available_replicas := available;
     dst_updated_replicas := available; dst_conditions := deployment_conditions now running desired |}.

Definition set_replicas (n : Z) (sp : DeploymentSpec) : DeploymentSpec :=
  {| ds_replicas := Some n; ds_match_labels := ds_match_labels sp;
     ds_template_metadata := ds_template_metadata sp; ds_template_spec := ds_template_spec sp |}.

(** The replicas asked for, or those there are, as an [i32]. *)
Definition scale_target (body : json) (deploy : Deployment) : Z :=
  let desired := or_opt (sp ← jget "spec" body; r ← jget "replicas" sp; as_i64 r)
                        (r ← jget "replicas" body; as_i64 r) in
  i32 (unwrap_or desired (unwrap_or (sp ← dep_spec deploy; ds_replicas sp) 1)).

(** ** Services *)

Definition with_svc_meta (f : ObjectMeta → ObjectMeta) (s : Service) : Service :=
  {| svc_metadata := f (svc_metadata s); svc_spec := svc_spec s; svc_has_status := svc_has_status s |}.

Definition default_target_port (p : ServicePort) : ServicePort :=
  {| sp_name := sp_name p; sp_port := sp_port p;
     sp_target_port := or_else (sp_target_port p) (IoInt (sp_port p)); sp_node_port := sp_node_port p |}.

Definition set_node_port (n : Z) (p : ServicePort) : ServicePort :=
  {| sp_name := sp_name p; sp_port := sp_port p; sp_target_port := sp_target_port p;
     sp_node_port := Some n |}.

Definition set_cluster_ip (ip : string) (sp : ServiceSpec) : ServiceSpec :=
  {| ss_type := ss_type sp; ss_cluster_ip := Some ip; ss_cluster_ips := Some [ip];
     ss_selector := ss_selector sp; ss_ports := ss_ports sp; ss_external_name := ss_external_name sp |}.
Definition set_ports (l : option (list ServicePort)) (sp : ServiceSpec) : ServiceSpec :=
  {| ss_type := ss_type sp; ss_cluster_ip := ss_cluster_ip sp; ss_cluster_ips := ss_cluster_ips sp;
     ss_selector := ss_selector sp; ss_ports := l; ss_external_name := ss_external_name sp |}.
Definition set_svc_spec (sp : option ServiceSpec) (s : Service) : Service :=
  {| svc_metadata := svc_metadata s; svc_spec := sp; svc_has_status := svc_has_status s |}.

Definition default_target_ports (s : Service) : Service :=
  set_svc_spec ((λ sp, set_ports ((λ l : list ServicePort, default_target_port <$> l) <$> ss_ports sp) sp) <$> svc_spec s) s.

(** ** Secrets and the other kinds *)

(** [stringData] moves into [data]. *)
Definition merge_string_data (s : Secret) : Secret :=
  match sec_string_data s with
  | Some sd =>
      {| sec_metadata := sec_metadata s;
         sec_data := Some (foldl (λ d kv, <[kv.1 := as_bytes kv.2]> d) (unwrap_or (sec_data s) ∅) (btree_iter sd));
         sec_string_data := None |}
  | None => s
  end.

Definition with_cm_meta (f : ObjectMeta → ObjectMeta) (c : ConfigMap) : ConfigMap :=
  {| cm_metadata := f (cm_metadata c); cm_data := cm_data c; cm_binary_data := cm_binary_data c |}.
Definition with_sec_meta (f : ObjectMeta → ObjectMeta) (s : Secret) : Secret :=
  {| sec_metadata := f (sec_metadata s); sec_data := sec_data s; sec_string_data := sec_string_data s |}.

Definition builtin_classes : list StorageClass :=
  [{| stc_name := "standard"; stc_provisioner := "z8s.io/loop"; stc_reclaim_policy := "Delete";
      stc_volume_binding_mode := "Immediate" |};
   {| stc_name := "hostpath"; stc_provisioner := "z8s.io/hostpath"; stc_reclaim_policy := "Delete";
      stc_volume_binding_mode := "Immediate" |}].

(** ** Metrics *)

Section metrics.
Context {K : Type} `{FS : FileSystem K}.

Definition cgroup_cpu_usage (cg : string) (k : K) : Z :=
  unwrap_or
    (s ← read_to_string ("/sys/fs/cgroup/z8s/" +:+ cg +:+ "/cpu.stat") k;
     l ← find_first (starts_with "usage_usec ") (lines s);
     v ← split_whitespace l !! 1%nat;
     parse_u64 v) 0.

Definition cgroup_memory_current (cg : string) (k : K) : Z :=
  unwrap_or (s ← read_to_string ("/sys/fs/cgroup/z8s/" +:+ cg +:+ "/memory.current") k;
             parse_u64 (trim s)) 0.

(** [replace(['/', '.', ':'], "_")] *)
Definition sanitize_cg_char (a : ascii) : ascii :=
  if Ascii.eqb a "/" || Ascii.eqb a "." || Ascii.eqb a ":" then "_"%char else a.
Definition sanitize_cg (n : string) : string := of_chars (sanitize_cg_char <$> chars n).

Definition usage (cpu mem : Z) : json :=
  jobj [("cpu", JStr (display (u64 (cpu * 1000)) +:+ "n")); ("memory", JStr (display (mem / 1024) +:+ "Ki"))].

Definition pod_metrics (now_text : string) (k : K) (t : ResourceTracker) : json :=
  let cg := sanitize_cg (uid (resource t)) in
  let mem := cgroup_memory_current cg k in
  let cpu := cgroup_cpu_usage cg k in
  jobj [("metadata", jobj [("name", JStr (name (resource t))); ("namespace", JStr (namespace (resource t)));
                           ("creationTimestamp", JStr now_text)]);
        ("timestamp", JStr now_text); ("window", JStr "1m0s");
        ("containers", JArr [jobj [("name", JStr (name (resource t))); ("usage", usage cpu mem)]])].

Definition metrics_top_nodes (now_text : string) (k : K) : json :=
  let cpu_usec := cgroup_cpu_usage "z8s" k in
  let mem_bytes := cgroup_memory_current "z8s" k in
  jobj [("kind", JStr "NodeMetricsList"); ("apiVersion", JStr "metrics.k8s.io/v1beta1");
        ("metadata", jobj [("resourceVersion", JStr "1")]);
        ("items", JArr [jobj [("metadata", jobj [("name", JStr "z8s-node"); ("creationTimestamp", JStr now_text)]);
                              ("timestamp", JStr now_text); ("window", JStr "1m0s");
                              ("usage", usage cpu_usec mem_bytes)]])].
End metrics.

(** ** The handlers *)

Section api.
Context `{HO : HashOrder} `{UC : UnicodeCase} {K KN net : Type} `{FS : FileSystem K}
        `{IJ : ImageConfigJson} `{OS : ContainerOS K} `{SO : StorageOS K} `{AC : ApiCodec}.
Variable errno_name : Z → string.
Variable transact : bytes → K → result bytes * K.
Variable open_netns : Z → K → bool.
Variable set_netns : Z → K → bool * K.
Variable cg : CgroupManager.
Variable base : string.
Variable is_root : bool.
Variable new_uuid : K → string * K.
Variable batch_send : batch net → KN → send_outcome * KN.
Variable parse_net : string → option net.
Variable pick : World K KN → nat.
Variable cfg : Config.
(** The clock of the request, as a number and as text, and the parser of times. *)
Variable now : Z.
Variable now_text : string.
Variable parse_rfc3339 : string → option Z.

Abbreviation AppState := (AppState K KN).
Abbreviation api := (apiR AppState).
Abbreviation apply_resource := (apply_resource errno_name transact open_netns set_netns cg base is_root
  new_uuid batch_send parse_net pick now).
Abbreviation delete_resource := (delete_resource errno_name transact open_netns set_netns cg base is_root
  new_uuid batch_send parse_net pick now).

Definition set_app_world (w : World K KN) (s : AppState) : AppState :=
  {| app_world := w; namespaces := namespaces s; events := events s;
     nodeport_counter := nodeport_counter s; ip_counter := ip_counter s |}.
Definition set_namespaces (l : gmap string Namespace) (s : AppState) : AppState :=
  {| app_world := app_world s; namespaces := l; events := events s;
     nodeport_counter := nodeport_counter s; ip_counter := ip_counter s |}.
Definition set_nodeport_counter (n : Z) (s : AppState) : AppState :=
  {| app_world := app_world s; namespaces := namespaces s; events := events s;
     nodeport_counter := n; ip_counter := ip_counter s |}.
Definition set_ip_counter (n : Z) (s : AppState) : AppState :=
  {| app_world := app_world s; namespaces := namespaces s; events := events s;
     nodeport_counter := nodeport_counter s; ip_counter := n |}.

Definition app_store (s : AppState) : ResourceStore := world_store (app_world s).
Definition app_sup (s : AppState) : Supervisor K := sup (cluster (app_world s)).

(** [build_app_state] on the world that the components share. *)
Definition build_app_state (w : World K KN) : AppState :=
  {| app_world := w;
     namespaces := {[ "default" := make_namespace now "default" "ns-default" ]};
     events := [make_event now "z8s-started" "default" "Node" "z8s-node" "Started" "z8s daemon started" "Normal"];
     nodeport_counter := 30000; ip_counter := 1 |}.

(** *** Calls of the store and the registry *)

Definition on_world {A} (m : execR (World K KN) A) : api (result A) := λ s,
  '(r, w) ← m (app_world s); Ret (inr r, set_app_world w s).

Definition change_store (f : ResourceStore → ResourceStore) : api unit := λ s,
  let w := app_world s in
  Ret (inr (), set_app_world (set_cluster (set_store (f (world_store w)) (cluster w)) w) s).

Definition store_apply (r : AnyResource) : api unit := change_store (apply now r).
Definition store_remove (r : AnyResource) : api unit := change_store (store_delete r).
Definition store_update_state (u : string) (st : ResourceState) : api unit :=
  change_store (update_state now u st).
Definition store_by_kind (k : string) : api (list ResourceTracker) :=
  gets (λ s, get_by_kind k (app_store s)).

Definition registry_apply (r : AnyResource) : api unit := _ ← on_world (apply_resource r); mret ().
Definition registry_delete (r : AnyResource) : api unit := _ ← on_world (delete_resource r); mret ().

(** [Uuid::new_v4().to_string()] *)
Definition fresh_uuid : api string := λ s,
  let c := cluster (app_world s) in
  let '(u, k) := new_uuid (os (sup c)) in
  Ret (inr u, set_app_world (set_cluster (set_sup (set_os k (sup c)) c) (app_world s)) s).

Definition alloc_node_port : api Z := λ s,
  Ret (inr (nodeport_counter s), set_nodeport_counter (u16 (nodeport_counter s + 1)) s).

Definition api_cluster_ip : api string := λ s,
  let '(ip, n) := alloc_cluster_ip cfg (ip_counter s) in Ret (inr ip, set_ip_counter n s).

Definition parse_body (raw : bytes) : api json :=
  o ← lift_exec (try_proto_to_json raw);
  match o with
  | Some v => mret v
  | None =>
      match json_from_slice raw with
      | Some v => mret v
      | None => or_throw (bad_request "invalid body: not valid JSON or YAML") (yaml_from_slice raw)
      end
  end.

(** A uid and a time, where they are missing. *)
Definition stamp (m : ObjectMeta) : api ObjectMeta :=
  u ← match om_uid m with Some u => mret u | None => fresh_uuid end;
  mret (set_creation_timestamp (or_else (om_creation_timestamp m) now) (set_uid (Some u) m)).

(** *** Finding, getting and deleting one object *)

Definition is_named (ns n : string) (t : ResourceTracker) : bool :=
  bool_decide (namespace (resource t) = ns) && bool_decide (name (resource t) = n).
Definition has_name (n : string) (t : ResourceTracker) : bool := bool_decide (name (resource t) = n).
Definition in_namespace (ns : option string) (t : ResourceTracker) : bool :=
  match ns with Some n => bool_decide (namespace (resource t) = n) | None => true end.

(** The first tracker of a kind that satisfies a test, as the loops find it. *)
Definition find_tracker (k : string) (p : ResourceTracker → bool) (e : ApiError) : api ResourceTracker :=
  l ← store_by_kind k; or_throw e (find_first p l).

(** [on_delete], then the removal from the store. *)
Definition drop_resource (r : AnyResource) : api unit := _ ← registry_delete r; store_remove r.

Definition dquote : string := String (ascii_of_byte 34) EmptyString.
Definition quoted (what n : string) : ApiError :=
  not_found (what +:+ " " +:+ dquote +:+ n +:+ dquote +:+ " not found").

(** *** Pods *)

Definition resource_to_pod_json_with_status (r : AnyResource) (st : ResourceState) (is_ready : bool)
    (restart_counts : gmap string Z) (pod_ip : option Ipv4Addr) : json :=
  match r with
  | RPod pod => pod_to_value (fill_pod_metadata now pod)
                  (pod_status_of now pod st is_ready restart_counts pod_ip)
  | _ => JNull
  end.

Definition pod_view (r : AnyResource) (st : ResourceState) (s : Supervisor K) : json :=
  resource_to_pod_json_with_status r st (is_ready (name r) s) (pod_restart_counts (name r) s)
    (process_pod_ip (name r) s).

Definition listed_pod (ns : option string) (selector : list (string * option string))
    (t : ResourceTracker) : bool :=
  in_namespace ns t
  && match selector, resource t with
     | _ :: _, RPod pod => pod_labels_match selector (unwrap_or (om_labels (pod_metadata pod)) ∅)
     | _, _ => true
     end.

Definition typed_list (kind_name api_version : string) (items : list json) : json :=
  jobj [("kind", JStr kind_name); ("apiVersion", JStr api_version);
        ("metadata", jobj [("resourceVersion", JStr "1")]); ("items", JArr items)].

Definition list_pods_in_ns (ns : option string) (raw_query : string) (accept : option string) : api Response :=
  let selector := extract_label_selector raw_query in
  trackers ← store_by_kind "Pod";
  s ← gets app_sup;
  let items := (λ t, pod_view (resource t) (state t) s) <$> List.filter (listed_pod ns selector) trackers in
  if accepts_table accept then mret (ok (BValue (pod_list_to_table parse_rfc3339 now items)))
  else mret (ok (BValue (typed_list "PodList" "v1" items))).

Definition get_pod (ns n : string) : api Response :=
  t ← find_tracker "Pod" (is_named ns n) (quoted "pod" n);
  s ← gets app_sup;
  mret (ok (BValue (pod_view (resource t) (state t) s))).

Definition get_pod_log (ns n : string) : api Response :=
  t ← find_tracker "Pod" (is_named ns n) (quoted "pod" n);
  match extract_containers (resource t) with
  | c :: _ => s ← gets app_sup; mret (ok (BText (join (String newline "") (get_logs n (c_name c) s))))
  | [] => throw (bad_request "no containers in pod")
  end.

(** The state in which the answer shows a pod that was just applied. *)
Definition recorded_state (r : AnyResource) : api ResourceState :=
  gets (λ s, unwrap_or (state <$> get (uid r) (app_store s)) Pending).

Definition update_pod (ns n : string) (raw : bytes) : api Response :=
  if bool_decide (raw = []) then throw (bad_request "missing body")
  else
    v ← parse_body raw;
    pod ← map_err (λ e, bad_request ("invalid Pod: " +:+ e)) (pod_from_value v);
    let pod := with_pod_meta (default_namespace ns) pod in
    let pod := with_pod_meta (default_name n) pod in
    let r := RPod (fill_pod_metadata now pod) in
    _ ← store_apply r;
    already_running ← gets (λ s : AppState, is_running (name r) (app_sup s));
    _ ← if already_running : bool then mret ()
        else _ ← registry_apply r; store_update_state (uid r) Running;
    st ← recorded_state r;
    s ← gets app_sup;
    mret (ok (BValue (pod_view r st s))).

Definition delete_pod (ns n : string) : api Response :=
  t ← find_tracker "Pod" (is_named ns n) (quoted "pod" n);
  _ ← drop_resource (resource t);
  mret (ok (BStatus ok_status)).

Definition pod_handler (m : Method) (ns n : string) (raw : bytes) : api Response :=
  match m with
  | GET => get_pod ns n
  | DELETE => delete_pod ns n
  | PATCH | PUT => update_pod ns n raw
  | _ => throw (method_not_allowed "method not allowed")
  end.

Definition kind_in (d : string) (v : json) : string := unwrap_or (k ← jget "kind" v; as_str k) d.

Definition create_pod (ns : string) (raw : bytes) : api Response :=
  v ← parse_body raw;
  if negb (bool_decide (kind_in "Pod" v = "Pod")) then
    throw (bad_request ("expected Pod, got " +:+ kind_in "Pod" v))
  else
    pod ← map_err (λ e, bad_request ("invalid Pod: " +:+ e)) (pod_from_value v);
    let pod := with_pod_meta (default_namespace ns) pod in
    let r := RPod (fill_pod_metadata now pod) in
    _ ← store_apply r;
    _ ← registry_apply r;
    _ ← store_update_state (uid r) Running;
    st ← recorded_state r;
    s ← gets app_sup;
    mret (created (BValue (pod_view r st s))).

(** *** Deployments *)

Definition resource_to_deploy_json (r : AnyResource) (ready_count available_count : option Z) : json :=
  match r with
  | RDeployment d => deployment_to_value (fill_deployment_metadata now d)
                       (deployment_status_of now d ready_count available_count)
  | _ => JNull
  end.

Definition deploy_view (pods : list ResourceTracker) (s : Supervisor K) (r : AnyResource) : json :=
  let '(ready, avail) := count_deployment_pods r pods s in
  resource_to_deploy_json r (Some ready) (Some avail).

Definition list_deployments_in_ns (ns : option string) (accept : option string) : api Response :=
  trackers ← store_by_kind "Deployment";
  pods ← store_by_kind "Pod";
  s ← gets app_sup;
  let items := (λ t, deploy_view pods s (resource t)) <$> List.filter (in_namespace ns) trackers in
  if accepts_table accept then mret (ok (BValue (deployment_list_to_table parse_rfc3339 now items)))
  else mret (ok (BValue (typed_list "DeploymentList" "apps/v1" items))).

Definition get_deployment (ns n : string) : api Response :=
  t ← find_tracker "Deployment" (is_named ns n) (quoted "deployment" n);
  pods ← store_by_kind "Pod";
  s ← gets app_sup;
  mret (ok (BValue (deploy_view pods s (resource t)))).

Definition selector_text (lbls : gmap string string) : string :=
  join "," ((λ kv, kv.1 +:+ "=" +:+ kv.2) <$> btree_iter lbls).

Definition patch_deployment_scale (ns n : string) (raw : bytes) : api Response :=
  v ← parse_body raw;
  t ← find_tracker "Deployment" (is_named ns n) (quoted "deployment" n);
  match resource t with
  | RDeployment deploy =>
      let replicas := scale_target v deploy in
      _ ← match dep_spec deploy with
          | Some sp => store_apply (RDeployment {| dep_metadata := dep_metadata deploy;
                                                   dep_spec := Some (set_replicas replicas sp) |})
          | None => mret ()
          end;
      mret (ok (BValue (scale_to_value {|
        sca_metadata := set_uid (Some ("Deployment/" +:+ ns +:+ "/" +:+ n))
          (set_namespace (Some ns) (set_name (Some n) meta_default));
        sca_spec_replicas := replicas; sca_status_replicas := replicas;
        sca_selector := selector_text <$> (sp ← dep_spec deploy; ds_match_labels sp) |})))
  | _ => throw (quoted "deployment" n)
  end.

(** The answer is the object with a status of no replicas. *)
Definition with_zero_status (r : AnyResource) : api json :=
  lift_exec (jupd "status" (λ _, Ret (jobj [("replicas", JNum 0)])) (to_value r)).

Definition create_deployment (ns : string) (raw : bytes) : api Response :=
  v ← parse_body raw;
  if negb (bool_decide (kind_in "" v = "Deployment")) then
    throw (bad_request ("expected Deployment, got " +:+ kind_in "" v))
  else
    d ← map_err (λ e, bad_request ("invalid Deployment: " +:+ e)) (deployment_from_value v);
    let r := RDeployment (fill_deployment_metadata now (with_dep_meta (default_namespace ns) d)) in
    _ ← store_apply r;
    j ← with_zero_status r;
    mret (created (BValue j)).

Definition owned_pod (ns n : string) (lbls : gmap string string) (t : ResourceTracker) : bool :=
  bool_decide (namespace (resource t) = ns)
  && match resource t with
     | RPod pod => labels_match lbls (unwrap_or (om_labels (pod_metadata pod)) ∅)
                   && pod_owned_by_deployment pod n
     | _ => false
     end.

Definition delete_deployment (ns n : string) : api Response :=
  t ← find_tracker "Deployment" (is_named ns n) (quoted "deployment" n);
  _ ← match resource t with
      | RDeployment d =>
          match sp ← dep_spec d; ds_match_labels sp with
          | Some lbls =>
              pods ← store_by_kind "Pod";
              api_each (λ p, drop_resource (resource p)) (List.filter (owned_pod ns n lbls) pods)
          | None => mret ()
          end
      | _ => mret ()
      end;
  _ ← store_remove (resource t);
  mret (ok (BStatus ok_status)).

(** What a patch applies to: the object of that name, or an empty one. *)
Definition merged_with (k ns n : string) (patch : json) : api json :=
  l ← store_by_kind k;
  let existing := (λ t, to_value (resource t)) <$> find_first (is_named ns n) l in
  mret (json_merge_patch (unwrap_or existing (JObj [])) patch).

Definition patch_deployment (ns n : string) (raw : bytes) : api Response :=
  patch ← parse_body raw;
  merged ← merged_with "Deployment" ns n patch;
  d ← map_err (λ e, bad_request ("invalid Deployment: " +:+ e)) (deployment_from_value merged);
  let d := with_dep_meta (default_name n) (with_dep_meta (default_namespace ns) d) in
  let r := RDeployment (fill_deployment_metadata now d) in
  _ ← store_apply r;
  j ← with_zero_status r;
  mret (ok (BValue j)).

(** *** Services *)

Definition list_services_in_ns (ns : option string) (accept : option string) : api Response :=
  l ← store_by_kind "Service";
  let svcs := resource <$> List.filter (in_namespace ns) l in
  if accepts_table accept then
    mret (ok (BValue (service_list_to_table parse_rfc3339 now (to_value <$> svcs))))
  else mret (ok (BResources svcs)).

Definition get_service (ns n : string) : api Response :=
  t ← find_tracker "Service" (is_named ns n) (quoted "service" (ns +:+ "/" +:+ n));
  mret (ok (BValue (to_value (resource t)))).

Definition svc_type (sp : ServiceSpec) : string := unwrap_or (ss_type sp) "ClusterIP".

Definition assign_cluster_ip (sp : ServiceSpec) : api ServiceSpec :=
  if bool_decide (unwrap_or (ss_cluster_ip sp) "" = "") && negb (bool_decide (svc_type sp = "ExternalName"))
  then ip ← api_cluster_ip; mret (set_cluster_ip ip sp)
  else mret sp.

Definition assign_port (ty : string) (p : ServicePort) : api ServicePort :=
  let p := default_target_port p in
  if (bool_decide (ty = "NodePort") || bool_decide (ty = "LoadBalancer")) && negb (is_some (sp_node_port p))
  then np ← alloc_node_port; mret (set_node_port np p)
  else mret p.

Fixpoint assign_ports (ty : string) (l : list ServicePort) : api (list ServicePort) :=
  match l with
  | [] => mret []
  | p :: l' => p' ← assign_port ty p; ps ← assign_ports ty l'; mret (p' :: ps)
  end.

Definition complete_spec (sp : ServiceSpec) : api ServiceSpec :=
  let ty := svc_type sp in
  sp ← assign_cluster_ip sp;
  match ss_ports sp with
  | Some ports => ps ← assign_ports ty ports; mret (set_ports (Some ps) sp)
  | None => mret sp
  end.

Definition created_or_ok (already_exists : bool) (b : Body) : Response :=
  if already_exists then ok b else created b.

Definition create_service (ns : string) (raw : bytes) : api Response :=
  v ← parse_body raw;
  svc ← map_err (λ e, bad_request ("invalid Service: " +:+ e)) (service_from_value v);
  let svc := with_svc_meta (default_namespace ns) svc in
  meta ← stamp (svc_metadata svc);
  spec ← match svc_spec svc with
         | Some sp => sp' ← complete_spec sp; mret (Some sp')
         | None => mret None
         end;
  let r := RService {| svc_metadata := meta; svc_spec := spec; svc_has_status := true |} in
  l ← store_by_kind "Service";
  let already_exists := existsb (is_named ns (unwrap_or (om_name meta) "")) l in
  _ ← store_apply r;
  _ ← registry_apply r;
  mret (created_or_ok already_exists (BValue (to_value r))).

Definition update_service (ns n : string) (raw : bytes) : api Response :=
  patch ← parse_body raw;
  merged ← merged_with "Service" ns n patch;
  svc ← map_err (λ e, bad_request ("invalid Service: " +:+ e)) (service_from_value merged);
  let svc := with_svc_meta (default_name n) (with_svc_meta (default_namespace ns) svc) in
  let r := RService (default_target_ports svc) in
  _ ← store_apply r;
  _ ← registry_apply r;
  mret (ok (BValue (to_value r))).

(** Found, told to the registry and removed: how most kinds are deleted. *)
Definition delete_with_registry (k : string) (p : ResourceTracker → bool) (e : ApiError) : api Response :=
  t ← find_tracker k p e;
  _ ← drop_resource (resource t);
  mret (ok (BStatus ok_status)).

Definition delete_service (ns n : string) : api Response :=
  delete_with_registry "Service" (is_named ns n) (quoted "service" (ns +:+ "/" +:+ n)).

(** *** Config maps and secrets, which only the store knows *)

Definition list_typed (k : string) (ns : option string) : api Response :=
  l ← store_by_kind k; mret (ok (BResources (resource <$> List.filter (in_namespace ns) l))).

Definition get_resource (k : string) (p : ResourceTracker → bool) (e : ApiError) : api Response :=
  t ← find_tracker k p e; mret (ok (BResource (resource t))).

Definition get_value (k : string) (p : ResourceTracker → bool) (e : ApiError) : api Response :=
  t ← find_tracker k p e; mret (ok (BValue (to_value (resource t)))).

Definition delete_from_store (k : string) (p : ResourceTracker → bool) (e : ApiError) : api Response :=
  t ← find_tracker k p e;
  _ ← store_remove (resource t);
  mret (ok (BStatus ok_status)).

Definition exists_same (r : AnyResource) : api bool :=
  l ← store_by_kind (kind r); mret (existsb (is_named (namespace r) (name r)) l).

Definition list_configmaps_in_ns (ns : option string) : api Response := list_typed "ConfigMap" ns.
Definition get_configmap (ns n : string) : api Response :=
  get_resource "ConfigMap" (is_named ns n) (quoted "configmap" (ns +:+ "/" +:+ n)).

Definition create_configmap (ns : string) (raw : bytes) : api Response :=
  v ← parse_body raw;
  cm ← map_err (λ e, bad_request ("invalid ConfigMap: " +:+ e)) (config_map_from_value v);
  meta ← stamp (default_namespace ns (cm_metadata cm));
  let r := RConfigMap (with_cm_meta (λ _, meta) cm) in
  already_exists ← exists_same r;
  _ ← store_apply r;
  mret (created_or_ok already_exists (BResource r)).

Definition update_configmap (ns n : string) (raw : bytes) : api Response :=
  patch ← parse_body raw;
  merged ← merged_with "ConfigMap" ns n patch;
  cm ← map_err (λ e, bad_request ("invalid ConfigMap: " +:+ e)) (config_map_from_value merged);
  let r := RConfigMap (with_cm_meta (default_name n) (with_cm_meta (default_namespace ns) cm)) in
  _ ← store_apply r;
  mret (ok (BResource r)).

Definition delete_configmap (ns n : string) : api Response :=
  delete_from_store "ConfigMap" (is_named ns n) (quoted "configmap" (ns +:+ "/" +:+ n)).

Definition list_secrets_in_ns (ns : option string) : api Response := list_typed "Secret" ns.
Definition get_secret (ns n : string) : api Response :=
  get_value "Secret" (is_named ns n) (quoted "secret" (ns +:+ "/" +:+ n)).

Definition create_secret (ns : string) (raw : bytes) : api Response :=
  v ← parse_body raw;
  sec ← map_err (λ e, bad_request ("invalid Secret: " +:+ e)) (secret_from_value v);
  meta ← stamp (default_namespace ns (sec_metadata sec));
  let r := RSecret (merge_string_data (with_sec_meta (λ _, meta) sec)) in
  already_exists ← exists_same r;
  _ ← store_apply r;
  mret (created_or_ok already_exists (BValue (to_value r))).

Definition update_secret (ns n : string) (raw : bytes) : api Response :=
  patch ← parse_body raw;
  merged ← merged_with "Secret" ns n patch;
  sec ← map_err (λ e, bad_request ("invalid Secret: " +:+ e)) (secret_from_value merged);
  let r := RSecret (merge_string_data
             (with_sec_meta (default_name n) (with_sec_meta (default_namespace ns) sec))) in
  _ ← store_apply r;
  mret (ok (BValue (to_value r))).

Definition delete_secret (ns n : string) : api Response :=
  delete_from_store "Secret" (is_named ns n) (quoted "secret" (ns +:+ "/" +:+ n)).

(** *** Namespaces *)

Definition list_namespaces : api Response :=
  gets (λ s, ok (BNamespaces (hash_values (namespaces s)))).

Definition get_namespace (n : string) : api Response :=
  o ← gets (λ s : AppState, namespaces s !! n);
  ns ← or_throw (quoted "namespace" n) o;
  mret (ok (BNamespace ns)).

Definition active_namespace (n : string) (ns : Namespace) : Namespace :=
  let m := set_name (Some n) (ns_metadata ns) in
  let m := set_uid (or_else (om_uid m) ("ns-" +:+ n)) m in
  {| ns_metadata := set_creation_timestamp (or_else (om_creation_timestamp m) now) m;
     ns_phase := Some "Active" |}.

Definition create_namespace (raw : bytes) : api Response :=
  v ← parse_body raw;
  ns ← map_err (λ e, bad_request ("invalid Namespace: " +:+ e)) (namespace_from_value v);
  n ← match om_name (ns_metadata ns) with
      | Some n => mret n
      | None => u ← fresh_uuid; mret ("ns-" +:+ unwrap_or (head (split_on "-" u)) "x")
      end;
  let ns := active_namespace n ns in
  s ← gets (λ s : AppState, s);
  if is_some (namespaces s !! n) then
    throw (bad_request ("namespace " +:+ dquote +:+ n +:+ dquote +:+ " already exists"))
  else
    _ ← (λ s, Ret (inr (), set_namespaces (<[n := ns]> (namespaces s)) s));
    mret (created (BNamespace ns)).

(** Every tracker of a kind in the namespace, in the order of the store. *)
Definition drop_kind (n k : string) : api unit :=
  l ← store_by_kind k;
  api_each (λ t, drop_resource (resource t)) (List.filter (in_namespace (Some n)) l).

(** What goes with a namespace. *)
Definition cascade_kinds : list string :=
  ["Pod"; "Deployment"; "Service"; "ConfigMap"; "Secret"; "PersistentVolumeClaim"].

Definition delete_namespace (n : string) : api Response :=
  if bool_decide (n = "default") then throw (bad_request "cannot delete default namespace")
  else
    s ← gets (λ s : AppState, s);
    if is_some (namespaces s !! n) then
      _ ← (λ s, Ret (inr (), set_namespaces (delete n (namespaces s)) s));
      _ ← api_each (drop_kind n) cascade_kinds;
      mret (ok (BStatus ok_status))
    else throw (quoted "namespace" n).

(** *** Ingresses and network policies *)

Definition list_ingresses (ns : option string) : api Response := list_typed "Ingress" ns.
Definition get_ingress (ns n : string) : api Response :=
  get_value "Ingress" (is_named ns n) (quoted "ingress" (ns +:+ "/" +:+ n)).
Definition delete_ingress (ns n : string) : api Response :=
  delete_with_registry "Ingress" (is_named ns n) (quoted "ingress" (ns +:+ "/" +:+ n)).

(** Existence is looked up in the namespace of the path, not in that of the object. *)
Definition create_ingress (ns : string) (raw : bytes) : api Response :=
  v ← parse_body raw;
  ing ← map_err (λ e, bad_request ("invalid Ingress: " +:+ e)) (ingress_from_value v);
  meta ← stamp (default_namespace ns (ing_metadata ing));
  l ← store_by_kind "Ingress";
  let already_exists := existsb (is_named ns (unwrap_or (om_name meta) "")) l in
  let r := RIngress {| ing_metadata := meta; ing_spec := ing_spec ing |} in
  _ ← store_apply r;
  _ ← registry_apply r;
  mret (created_or_ok already_exists (BValue (to_value r))).

Definition update_ingress (ns n : string) (raw : bytes) : api Response :=
  patch ← parse_body raw;
  merged ← merged_with "Ingress" ns n patch;
  ing ← map_err (λ e, bad_request ("invalid Ingress: " +:+ e)) (ingress_from_value merged);
  let r := RIngress {| ing_metadata := default_name n (default_namespace ns (ing_metadata ing));
                       ing_spec := ing_spec ing |} in
  _ ← store_apply r;
  _ ← registry_apply r;
  mret (ok (BValue (to_value r))).

Definition list_networkpolicies (ns : option string) : api Response := list_typed "NetworkPolicy" ns.
Definition get_networkpolicy (ns n : string) : api Response :=
  get_value "NetworkPolicy" (is_named ns n) (quoted "networkpolicy" (ns +:+ "/" +:+ n)).
Definition delete_networkpolicy (ns n : string) : api Response :=
  delete_with_registry "NetworkPolicy" (is_named ns n) (quoted "networkpolicy" (ns +:+ "/" +:+ n)).

Definition create_networkpolicy (ns : string) (raw : bytes) : api Response :=
  v ← parse_body raw;
  np ← map_err (λ e, bad_request ("invalid NetworkPolicy: " +:+ e)) (network_policy_from_value v);
  meta ← stamp (default_namespace ns (np_metadata np));
  l ← store_by_kind "NetworkPolicy";
  let already_exists := existsb (is_named ns (unwrap_or (om_name meta) "")) l in
  let r := RNetworkPolicy {| np_metadata := meta; np_spec := np_spec np |} in
  _ ← store_apply r;
  _ ← registry_apply r;
  mret (created_or_ok already_exists (BValue (to_value r))).

Definition update_networkpolicy (ns n : string) (raw : bytes) : api Response :=
  patch ← parse_body raw;
  merged ← merged_with "NetworkPolicy" ns n patch;
  np ← map_err (λ e, bad_request ("invalid NetworkPolicy: " +:+ e)) (network_policy_from_value merged);
  let r := RNetworkPolicy {| np_metadata := default_name n (default_namespace ns (np_metadata np));
                             np_spec := np_spec np |} in
  _ ← store_apply r;
  _ ← registry_apply r;
  mret (ok (BValue (to_value r))).

(** *** Volumes and claims *)

Definition list_pvs : api Response := list_typed "PersistentVolume" None.
Definition get_pv (n : string) : api Response :=
  get_resource "PersistentVolume" (has_name n) (quoted "persistentvolume" n).
Definition delete_pv (n : string) : api Response :=
  delete_with_registry "PersistentVolume" (has_name n) (quoted "persistentvolume" n).

Definition create_pv (raw : bytes) : api Response :=
  v ← parse_body raw;
  pv ← map_err (λ e, bad_request ("invalid PersistentVolume: " +:+ e)) (pv_from_value v);
  meta ← stamp (pv_metadata pv);
  let r := RPersistentVolume {| pv_metadata := meta; pv_spec := pv_spec pv; pv_phase := pv_phase pv |} in
  _ ← store_apply r;
  _ ← registry_apply r;
  mret (created (BResource r)).

Definition list_pvcs (ns : option string) : api Response := list_typed "PersistentVolumeClaim" ns.
Definition get_pvc (ns n : string) : api Response :=
  get_resource "PersistentVolumeClaim" (is_named ns n)
    (quoted "persistentvolumeclaim" (ns +:+ "/" +:+ n)).
Definition delete_pvc (ns n : string) : api Response :=
  delete_with_registry "PersistentVolumeClaim" (is_named ns n)
    (quoted "persistentvolumeclaim" (ns +:+ "/" +:+ n)).

Definition create_pvc (ns : string) (raw : bytes) : api Response :=
  v ← parse_body raw;
  pvc ← map_err (λ e, bad_request ("invalid PersistentVolumeClaim: " +:+ e)) (pvc_from_value v);
  meta ← stamp (default_namespace ns (pvc_metadata pvc));
  let r := RPersistentVolumeClaim {| pvc_metadata := meta; pvc_spec := pvc_spec pvc;
                                     pvc_status := pvc_status pvc |} in
  _ ← store_apply r;
  _ ← registry_apply r;
  mret (created (BResource r)).

(** *** Custom resources (crd.rs) *)

(** The text of the object's kind in lower case. *)
Definition crd_error (k n : string) : ApiError := quoted (to_lowercase k) n.

Definition generic_list (k : string) : api (list json) :=
  l ← store_by_kind k; mret ((λ t, to_value (resource t)) <$> l).

Definition generic_list_value (list_kind : string) (items : list json) : json :=
  jobj [("apiVersion", JStr "z8s.io/v1"); ("kind", JStr list_kind); ("items", JArr items);
        ("metadata", jobj [("resourceVersion", JStr "1")])].

Definition generic_create (r : AnyResource) (k : string) : api Response :=
  meta ← stamp (metadata r);
  let r := metadata_mut (λ _, meta) r in
  l ← store_by_kind k;
  let exists_ := existsb (has_name (name r)) l in
  _ ← store_apply r;
  _ ← registry_apply r;
  mret (created_or_ok exists_ (BValue (to_value r))).

Definition generic_get (k n : string) : api Response := get_value k (has_name n) (crd_error k n).
Definition generic_delete (k n : string) : api Response :=
  delete_with_registry k (has_name n) (crd_error k n).

(** The list with its computed fields, as a table when one is asked for. *)
Definition enriched_list (k list_kind : string) (enrich : json → exec json)
    (cols : list (string * string * string)) (accept : option string) : api Response :=
  items ← generic_list k;
  items ← lift_exec (map_exec enrich items);
  if wants_table accept then mret (ok (BValue (build_table parse_rfc3339 now items cols)))
  else mret (ok (BValue (generic_list_value list_kind items))).

Definition vnet_columns : list (string * string * string) :=
  [("CIDR", ".spec.cidr", "string"); ("Role", ".spec.role", "string");
   ("Internet", ".spec.internet_access", "boolean"); ("Subnets", ".spec._subnetCount", "integer");
   ("Pods", ".spec._podCount", "integer"); ("Services", ".spec._serviceCount", "integer")].

Definition list_vnets (accept : option string) : api Response :=
  subnets ← store_by_kind "Subnet";
  pods ← store_by_kind "Pod";
  svcs ← store_by_kind "Service";
  enriched_list "VNet" "VNetList" (enrich_vnet_item subnets pods svcs) vnet_columns accept.

Definition list_subnets (accept : option string) : api Response :=
  svcs ← store_by_kind "Service";
  s ← gets app_sup;
  enriched_list "Subnet" "SubnetList" (enrich_subnet_item (pod_ips s) svcs)
    [("CIDR", ".spec.cidr", "string"); ("VNet", ".spec.vnet", "string");
     ("Pods", ".spec._podCount", "integer"); ("Services", ".spec._serviceCount", "integer")] accept.

Definition list_nsgs (accept : option string) : api Response :=
  enriched_list "NSG" "NSGList" enrich_nsg_item
    [("Targets", ".spec._targets", "string"); ("Rules", ".spec._ruleCount", "integer");
     ("Allows", ".spec._allowCount", "integer"); ("Denies", ".spec._denyCount", "integer")] accept.

Definition list_routetables (accept : option string) : api Response :=
  enriched_list "RouteTable" "RouteTableList" enrich_routetable_item
    [("Rules", ".spec._ruleCount", "integer"); ("Allows", ".spec._allowCount", "integer");
     ("Denies", ".spec._denyCount", "integer")] accept.

Definition create_crd {A} (decode : json → result A) (mk : A → AnyResource) (k : string) (raw : bytes)
    : api Response :=
  v ← parse_body raw;
  x ← map_err bad_request (decode v);
  generic_create (mk x) k.

Definition create_vnet : bytes → api Response := create_crd vnet_from_value RVNet "VNet".
Definition create_subnet : bytes → api Response := create_crd subnet_from_value RSubnet "Subnet".
Definition create_nsg : bytes → api Response := create_crd nsg_from_value RNsg "NSG".
Definition create_routetable : bytes → api Response :=
  create_crd route_table_from_value RRouteTable "RouteTable".

(** *** Read-only answers *)

Definition list_storage_classes : api Response := mret (ok (BStorageClasses builtin_classes)).
Definition get_storage_class (n : string) : api Response :=
  c ← or_throw (quoted "storageclass" n) (find_first (λ c, bool_decide (stc_name c = n)) builtin_classes);
  mret (ok (BStorageClass c)).

Definition list_events (ns : option string) : api Response :=
  s ← gets (λ s : AppState, s);
  mret (ok (BEvents (List.filter (λ e, match ns with
                                       | Some n => bool_decide (om_namespace (evt_metadata e) = Some n)
                                       | None => true
                                       end) (events s)))).

(** The trait's own [compute_endpoints], which no engine replaces, answers
    [Endpoints::default()], and [compute_endpointslices] an empty list. *)
Definition list_endpoints_ns (ns : option string) : api Response :=
  l ← store_by_kind "Service";
  mret (ok (BEndpointsList (length (List.filter (in_namespace ns) l)))).
Definition get_endpoints (ns n : string) : api Response :=
  _ ← find_tracker "Service" (is_named ns n) (quoted "endpoints" (ns +:+ "/" +:+ n));
  mret (ok BEndpoints).
Definition list_endpointslices_ns (ns : option string) : api Response := mret (ok BEndpointSlices).
Definition get_endpointslice (ns n : string) : api Response :=
  throw (quoted "endpointslices" (ns +:+ "/" +:+ n)).

Definition top_nodes : api Response :=
  gets (λ s, ok (BValue (metrics_top_nodes now_text (os (app_sup s))))).

Definition top_pods_in_ns (ns : option string) : api Response :=
  l ← store_by_kind "Pod";
  s ← gets app_sup;
  mret (ok (BValue (typed_list "PodMetricsList" "metrics.k8s.io/v1beta1"
    (pod_metrics now_text (os s) <$> List.filter (in_namespace ns) l)))).

(** *** Requests *)

(** The architecture of the build and the parallelism of the machine. *)
Variable arch : string.
Variable parallelism : option Z.

Definition node_list : api (list Node) := gets (λ s, list_nodes arch parallelism cfg now (os (app_sup s))).

Definition get_node (n : string) : api Response :=
  if bool_decide (n = "z8s-node")
  then l ← node_list; nd ← or_throw (not_found "node not found") (head l); mret (ok (BNode nd))
  else throw (quoted "node" n).

(** The documents of the server itself. *)
Definition run_system (h : SystemHandler) (a : string) : api Response :=
  match h with
  | SRootHandler => mret (ok (BValue root_handler))
  | SApiVersions => mret (ok (BApiVersions api_versions))
  | SApiGroups => mret (ok (BApiGroups api_groups))
  | SApiV1Resources => mret (ok (BApiResources api_v1_resources))
  | SApiAppsV1Resources => mret (ok (BApiResources api_apps_v1_resources))
  | SApiNetworkingV1Resources => mret (ok (BApiResources api_networking_v1_resources))
  | SApiDiscoveryV1Resources => mret (ok (BApiResources api_discovery_v1_resources))
  | SApiStorageV1Resources => mret (ok (BApiResources api_storage_v1_resources))
  | SApiAuthzV1Resources => mret (ok (BApiResources api_authz_v1_resources))
  | SApiExtensionsV1Resources => mret (ok (BApiResources api_extensions_v1_resources))
  | SMetricsApiResources => mret (ok (BApiResources metrics_api_resources))
  | SApiZ8sV1Resources => mret (ok (BValue api_z8s_v1_resources))
  | SSelfSubjectAccessReview => mret (ok (BAccessReview self_subject_access_review))
  | SListCrds => mret (ok (BValue list_crds))
  | SGetCrd => crd ← or_throw (quoted "customresourcedefinition" a) (get_crd a); mret (ok (BValue crd))
  | SOpenapiV2 => mret (ok (BValue openapi_v2))
  | SOpenapiV3 => mret (ok (BValue openapi_v3))
  | SVersionHandler => mret (ok (BValue (version_handler arch now_text)))
  | SHealthz | SReadyz | SLivez => mret (ok (BText "ok"))
  | SListNodes => l ← node_list; mret (ok (BNodes l))
  | SGetNode => get_node a
  end.

(** Exec: it reads the supervisor and can change the kernel. *)
Variable other : Handler → list string → Request → Supervisor K → Response * K.

Definition run_other (h : Handler) (ps : list string) (rq : Request) : api Response := λ s,
  let c := cluster (app_world s) in
  let '(r, k) := other h ps rq (sup c) in
  Ret (inr r, set_app_world (set_cluster (set_sup (set_os k (sup c)) c) (app_world s)) s).

Definition arg (i : nat) (ps : list string) : string := unwrap_or (ps !! i) "".

Definition run_handler (h : Handler) (ps : list string) (rq : Request) : api Response :=
  let a := arg 0 ps in
  let b := arg 1 ps in
  let raw := rq_body rq in
  match h with
  | HListPodsAll => list_pods_in_ns None (rq_query rq) (rq_accept rq)
  | HListPods => list_pods_in_ns (Some a) (rq_query rq) (rq_accept rq)
  | HCreatePod => create_pod a raw
  | HPod => pod_handler (rq_method rq) a b raw
  | HPodLog => get_pod_log a b
  | HListDeploymentsAll => list_deployments_in_ns None (rq_accept rq)
  | HListDeployments => list_deployments_in_ns (Some a) (rq_accept rq)
  | HCreateDeployment => create_deployment a raw
  | HGetDeployment => get_deployment a b
  | HDeleteDeployment => delete_deployment a b
  | HPatchDeployment => patch_deployment a b raw
  | HScaleDeployment => patch_deployment_scale a b raw
  | HListNamespaces => list_namespaces
  | HCreateNamespace => create_namespace raw
  | HGetNamespace => get_namespace a
  | HDeleteNamespace => delete_namespace a
  | HListEventsAll => list_events None
  | HListEvents => list_events (Some a)
  | HListConfigMapsAll => list_configmaps_in_ns None
  | HListConfigMaps => list_configmaps_in_ns (Some a)
  | HCreateConfigMap => create_configmap a raw
  | HGetConfigMap => get_configmap a b
  | HUpdateConfigMap => update_configmap a b raw
  | HDeleteConfigMap => delete_configmap a b
  | HListSecretsAll => list_secrets_in_ns None
  | HListSecrets => list_secrets_in_ns (Some a)
  | HCreateSecret => create_secret a raw
  | HGetSecret => get_secret a b
  | HUpdateSecret => update_secret a b raw
  | HDeleteSecret => delete_secret a b
  | HListServicesAll => list_services_in_ns None (rq_accept rq)
  | HListServices => list_services_in_ns (Some a) (rq_accept rq)
  | HCreateService => create_service a raw
  | HGetService => get_service a b
  | HUpdateService => update_service a b raw
  | HDeleteService => delete_service a b
  | HListPvs => list_pvs
  | HCreatePv => create_pv raw
  | HGetPv => get_pv a
  | HDeletePv => delete_pv a
  | HListPvcsAll => list_pvcs None
  | HListPvcs => list_pvcs (Some a)
  | HCreatePvc => create_pvc a raw
  | HGetPvc => get_pvc a b
  | HDeletePvc => delete_pvc a b
  | HListEndpointsAll => list_endpoints_ns None
  | HListEndpoints => list_endpoints_ns (Some a)
  | HGetEndpoints => get_endpoints a b
  | HListEndpointSlicesAll => list_endpointslices_ns None
  | HListEndpointSlices => list_endpointslices_ns (Some a)
  | HGetEndpointSlice => get_endpointslice a b
  | HTopNodes => top_nodes
  | HTopPodsAll => top_pods_in_ns None
  | HTopPods => top_pods_in_ns (Some a)
  | HListStorageClasses => list_storage_classes
  | HGetStorageClass => get_storage_class a
  | HListIngressesAll => list_ingresses None
  | HListIngresses => list_ingresses (Some a)
  | HCreateIngress => create_ingress a raw
  | HGetIngress => get_ingress a b
  | HUpdateIngress => update_ingress a b raw
  | HDeleteIngress => delete_ingress a b
  | HListNetworkPoliciesAll => list_networkpolicies None
  | HListNetworkPolicies => list_networkpolicies (Some a)
  | HCreateNetworkPolicy => create_networkpolicy a raw
  | HGetNetworkPolicy => get_networkpolicy a b
  | HUpdateNetworkPolicy => update_networkpolicy a b raw
  | HDeleteNetworkPolicy => delete_networkpolicy a b
  | HListVNets => list_vnets (rq_accept rq)
  | HCreateVNet => create_vnet raw
  | HGetVNet => generic_get "VNet" a
  | HDeleteVNet => generic_delete "VNet" a
  | HListSubnets => list_subnets (rq_accept rq)
  | HCreateSubnet => create_subnet raw
  | HGetSubnet => generic_get "Subnet" a
  | HDeleteSubnet => generic_delete "Subnet" a
  | HListNsgs => list_nsgs (rq_accept rq)
  | HCreateNsg => create_nsg raw
  | HGetNsg => generic_get "NSG" a
  | HDeleteNsg => generic_delete "NSG" a
  | HListRouteTables => list_routetables (rq_accept rq)
  | HCreateRouteTable => create_routetable raw
  | HGetRouteTable => generic_get "RouteTable" a
  | HDeleteRouteTable => generic_delete "RouteTable" a
  | HSystem what => run_system what a
  | HPodExec => run_other h ps rq
  end.

(** The handler's response, or its error as one. *)
Definition respond (m : api Response) (s : AppState) : exec (Response * AppState) :=
  '(r, s) ← m s;
  Ret (match r with
       | inr resp => resp
       | inl e => {| code := (error_response e).1; body := BStatus (error_response e).2 |}
       end, s).

(** One request: the route of its path, the handler of its method; without a route the
    fallback answers, and without the method the router does. *)
Definition handle (rq : Request) (s : AppState) : exec (Response * AppState) :=
  match route_for (rq_path rq) with
  | None =>
      let '(c, st) := fallback_handler ("/" +:+ join "/" (rq_path rq)) in
      Ret ({| code := c; body := BStatus st |}, s)
  | Some (l, ps) =>
      match method_for (rq_method rq) l with
      | None => Ret ({| code := 405; body := BNone |}, s)
      | Some h => respond (run_handler h ps rq) s
      end
  end.
End api.
