(* ===== verification/Served.v ===== *)
(** * Served: what the API server does to the world

    Every request is a sequence of steps of the running program ([Reach.world_step]), so
    what holds of reachable worlds holds under any requests; a request that fails
    changes nothing but the kernel; created objects are served back, deleted ones are gone,
    and a namespace takes its objects with it. *)
From S2P Require Import Prelude Text Utf8 Json Resources Proto Config Pool Netlink Nft NetMux Cri SpecBuilder Runtime Process Deployment Service Panics Policy Ingress Storage Registry World Reach Query Routes Api.

Create HintDb calm.
Create HintDb handlers.
Create HintDb steps.

(** ** Relations between the states of a handler *)

Section relations.
Context {S : Type} (R : S → S → Prop) `{!PreOrder R}.

Definition api_rel {A} (m : apiR S A) : Prop := ∀ s r s', m s = Ret (r, s') → R s s'.

Lemma api_bind_inv {A B} (m : apiR S A) (f : A → apiR S B) s r s' :
  (m ≫= f) s = Ret (r, s') →
  (∃ e, m s = Ret (inl e, s') ∧ r = inl e) ∨ ∃ a s1, m s = Ret (inr a, s1) ∧ f a s1 = Ret (r, s').
Proof. unfold mbind, apiR_bind. destruct (m s) as [[[e|a] s1]|]; [intros [= <- <-]| |done]; eauto 6. Qed.

#[local] Set Default Proof Using "Type*".

Lemma ar_bind {A B} (m : apiR S A) (f : A → apiR S B) :
  api_rel m → (∀ a, api_rel (f a)) → api_rel (m ≫= f).
Proof.
  intros Hm Hf s r s' [(e & H & _)|(a & s1 & H1 & H2)]%api_bind_inv; [by eapply Hm|].
  etrans; [by eapply Hm|by eapply Hf].
Qed.
Lemma ar_ret {A} (a : A) : api_rel (mret a).
Proof. by intros s r s' [= _ <-]. Qed.
Lemma ar_throw {A} e : api_rel (throw e : apiR S A).
Proof. by intros s r s' [= _ <-]. Qed.
Lemma ar_gets {A} (f : S → A) : api_rel (gets f).
Proof. by intros s r s' [= _ <-]. Qed.
Lemma ar_map_err {A} f (r : result A) : api_rel (map_err f r).
Proof. destruct r; [apply ar_ret|apply ar_throw]. Qed.
Lemma ar_or_throw {A} e (o : option A) : api_rel (or_throw e o).
Proof. destruct o; [apply ar_ret|apply ar_throw]. Qed.
Lemma ar_lift {A} (m : exec A) : api_rel (lift_exec m).
Proof. intros s r s'. unfold lift_exec. destruct m; [by intros [= _ <-]|done]. Qed.
Lemma ar_each {A} (f : A → apiR S unit) l : (∀ x, api_rel (f x)) → api_rel (api_each f l).
Proof. intros Hf. induction l as [|x l IH]; [apply ar_ret|]. by apply ar_bind. Qed.
End relations.

(** Handlers that never end with an error, and those whose answer is a success. *)
Definition sure {S A} (m : apiR S A) : Prop := ∀ s r s', m s = Ret (r, s') → ∃ a, r = inr a.
Definition fine {S} (m : apiR S Response) : Prop :=
  ∀ s r s', m s = Ret (r, s') → ∃ resp, r = inr resp ∧ code resp < 400.

Section outcomes.
Context {S : Type}.
Lemma sure_bind {A B} (m : apiR S A) (f : A → apiR S B) : sure m → (∀ a, sure (f a)) → sure (m ≫= f).
Proof.
  intros Hm Hf s r s' [(e & H & _)|(a & s1 & _ & H)]%api_bind_inv; [|by eapply Hf].
  by destruct (Hm _ _ _ H).
Qed.
Lemma sure_ret {A} (a : A) : sure (mret a : apiR S A).
Proof. intros s r s' [= <- _]. eauto. Qed.
Lemma sure_gets {A} (f : S → A) : sure (gets f).
Proof. intros s r s' [= <- _]. eauto. Qed.
Lemma sure_lift {A} (m : exec A) : sure (lift_exec m : apiR S A).
Proof. intros s r s'. unfold lift_exec. destruct m; [intros [= <- _]; eauto|done]. Qed.
Lemma sure_each {A} (f : A → apiR S unit) l : (∀ x, sure (f x)) → sure (api_each f l).
Proof. intros Hf. induction l as [|x l IH]; [apply sure_ret|]. by apply sure_bind. Qed.
Lemma fine_bind {A} (m : apiR S A) (f : A → apiR S Response) :
  sure m → (∀ a, fine (f a)) → fine (m ≫= f).
Proof.
  intros Hm Hf s r s' [(e & H & _)|(a & s1 & _ & H)]%api_bind_inv; [|by eapply Hf].
  by destruct (Hm _ _ _ H).
Qed.
Lemma fine_ret resp : code resp < 400 → fine (mret resp : apiR S Response).
Proof. intros H s r s' [= <- _]. eauto. Qed.
End outcomes.

Create HintDb api.
#[export] Hint Resolve sure_bind sure_ret sure_gets sure_lift sure_each : api.

(** Walks through a handler: its binds, tests and matches. *)
Ltac walk bind leaf :=
  repeat first
    [ progress intros
    | solve [leaf]
    | apply bind
    | case_match ].

(** ** The steps *)

Section served.
Context `{HO : HashOrder} `{UC : UnicodeCase} {K KN net : Type} `{FS : FileSystem K}
        `{IJ : ImageConfigJson} `{OS : ContainerOS K} `{SO : StorageOS K} `{AC : ApiCodec}.
Variable errno_name : Z → string.
Variable transact : bytes → K → result bytes * K.
Variable open_netns : Z → K → bool.
Variable set_netns : Z → K → bool * K.
Variable cg : CgroupManager.
Variable base : string.
Variable is_root : bool.
Variable new_uuid : K → string * K.
Variable batch_send : batch net → KN → send_outcome * KN.
Variable parse_net : string → option net.
Variable pick : World K KN → nat.
Variable cfg : Config.
Variable now : Z.
Variable now_text : string.
Variable parse_rfc3339 : string → option Z.
Variable arch : string.
Variable parallelism : option Z.
Variable other : Handler → list string → Request → Supervisor K → Response * K.
Implicit Types s : AppState K KN.

Abbreviation world_step := (world_step errno_name transact open_netns set_netns cg base is_root
  new_uuid batch_send parse_net pick).
Abbreviation registry_apply := (registry_apply errno_name transact open_netns set_netns cg base is_root
  new_uuid batch_send parse_net pick now).
Abbreviation registry_delete := (registry_delete errno_name transact open_netns set_netns cg base is_root
  new_uuid batch_send parse_net pick now).
Abbreviation drop_resource := (drop_resource errno_name transact open_netns set_netns cg base is_root
  new_uuid batch_send parse_net pick now).
Abbreviation run_handler := (run_handler errno_name transact open_netns set_netns cg base is_root
  new_uuid batch_send parse_net pick cfg now now_text parse_rfc3339 arch parallelism other).
Abbreviation handle := (handle errno_name transact open_netns set_netns cg base is_root
  new_uuid batch_send parse_net pick cfg now now_text parse_rfc3339 arch parallelism other).

Definition steps s s' : Prop := rtc world_step (app_world s) (app_world s').

#[export] Instance steps_preorder : PreOrder steps.
Proof. split; [intros s; apply rtc_refl|]. intros s1 s2 s3. unfold steps. intros H1 H2. by etrans. Qed.

Abbreviation leads := (api_rel steps).

Lemma steps_one s s' : world_step (app_world s) (app_world s') → steps s s'.
Proof. apply rtc_once. Qed.

Lemma st_ret {A} (a : A) : leads (mret a : apiR (AppState K KN) A).
Proof. apply (ar_ret steps). Qed.
Lemma st_bind {A B} (m : apiR (AppState K KN) A) (f : A → apiR _ B) :
  leads m → (∀ a, leads (f a)) → leads (m ≫= f).
Proof. apply (ar_bind steps). Qed.
Lemma st_throw {A} e : leads (throw e : apiR (AppState K KN) A).
Proof. apply (ar_throw steps). Qed.
Lemma st_gets {A} (f : AppState K KN → A) : leads (gets f).
Proof. apply (ar_gets steps). Qed.
Lemma st_map_err {A} f (r : result A) : leads (map_err f r).
Proof. apply (ar_map_err steps). Qed.
Lemma st_or_throw {A} e (o : option A) : leads (or_throw e o).
Proof. apply (ar_or_throw steps). Qed.
Lemma st_lift {A} (m : exec A) : leads (lift_exec m).
Proof. apply (ar_lift steps). Qed.
Lemma st_each {A} (f : A → apiR (AppState K KN) unit) l : (∀ x, leads (f x)) → leads (api_each f l).
Proof. apply (ar_each steps). Qed.

Lemma st_apply r : leads (store_apply now r).
Proof. intros s x s' [= _ <-]. apply steps_one. apply (step_put _ _ _ _ _ _ _ _ _ _ _ now r). Qed.
Lemma st_remove r : leads (store_remove r).
Proof. intros s x s' [= _ <-]. apply steps_one. apply (step_remove _ _ _ _ _ _ _ _ _ _ _ r). Qed.
Lemma st_state u st : leads (store_update_state now u st).
Proof. intros s x s' [= _ <-]. apply steps_one. apply (step_state _ _ _ _ _ _ _ _ _ _ _ now u st). Qed.
Lemma st_registry_apply r : leads (registry_apply r).
Proof.
  apply st_bind; [|intros; apply st_ret]. intros s x s'. unfold on_world.
  destruct (World.apply_resource _ _ _ _ _ _ _ _ _ _ _ _ _ _) as [[y w]|] eqn:E; [|done].
  intros [= _ <-]. apply steps_one. by eapply step_apply.
Qed.
Lemma st_registry_delete r : leads (registry_delete r).
Proof.
  apply st_bind; [|intros; apply st_ret]. intros s x s'. unfold on_world.
  destruct (World.delete_resource _ _ _ _ _ _ _ _ _ _ _ _ _ _) as [[y w]|] eqn:E; [|done].
  intros [= _ <-]. apply steps_one. by eapply step_delete.
Qed.
Lemma st_drop r : leads (drop_resource r).
Proof. apply st_bind; [apply st_registry_delete|intros; apply st_remove]. Qed.
Lemma st_uuid : leads (fresh_uuid new_uuid).
Proof.
  intros s x s'. unfold fresh_uuid. destruct (new_uuid _) as [u k]. intros [= _ <-].
  apply steps_one. apply step_os.
Qed.
Lemma st_node_port : leads (alloc_node_port).
Proof. intros s x s' [= _ <-]. apply rtc_refl. Qed.
Lemma st_cluster_ip : leads (api_cluster_ip cfg).
Proof. intros s x s'. unfold api_cluster_ip. destruct (alloc_cluster_ip _ _). intros [= _ <-]. apply rtc_refl. Qed.
Lemma st_other h ps rq : leads (run_other other h ps rq).
Proof.
  intros s x s'. unfold run_other. destruct (other _ _ _ _) as [r k]. intros [= _ <-].
  apply steps_one. apply step_os.
Qed.
Lemma st_set_namespaces (f : AppState K KN → gmap string Namespace) :
  leads (λ s, Ret (inr (), set_namespaces (f s) s)).
Proof. intros s x s' [= _ <-]. apply rtc_refl. Qed.

#[local] Hint Resolve st_ret st_throw st_gets st_map_err st_or_throw st_lift st_apply st_remove st_state
  st_registry_apply st_registry_delete st_drop st_uuid st_node_port st_cluster_ip st_other
  st_set_namespaces : steps.

#[local] Ltac step_leaf := auto with steps.
#[local] Ltac steps_through := repeat first
  [ progress intros
  | solve [auto with steps]
  | apply st_bind
  | apply st_each
  | case_match ].

Lemma st_parse_body raw : leads (parse_body raw).
Proof. unfold parse_body. steps_through. Qed.
Lemma st_stamp m : leads (stamp new_uuid now m).
Proof. unfold stamp. steps_through. Qed.
Lemma st_by_kind k : leads (store_by_kind k).
Proof. unfold store_by_kind. steps_through. Qed.
#[local] Hint Resolve st_parse_body st_stamp st_by_kind : steps.
Lemma st_find k p e : leads (find_tracker k p e).
Proof. unfold find_tracker. steps_through. Qed.
Lemma st_merged k ns n j : leads (merged_with k ns n j).
Proof. unfold merged_with. steps_through. Qed.
#[local] Hint Resolve st_find st_merged : steps.

Lemma st_assign_ports ty l : leads (assign_ports ty l).
Proof.
  induction l as [|p l IH]; cbn [assign_ports]; [apply st_ret|]. unfold assign_port. steps_through.
Qed.
#[local] Hint Resolve st_assign_ports : steps.

#[local] Hint Unfold list_pods_in_ns get_pod get_pod_log update_pod delete_pod pod_handler
  create_pod list_deployments_in_ns get_deployment patch_deployment_scale create_deployment
  delete_deployment patch_deployment list_services_in_ns get_service create_service update_service
  delete_with_registry delete_service list_typed get_resource get_value delete_from_store
  list_configmaps_in_ns get_configmap create_configmap update_configmap delete_configmap
  list_secrets_in_ns get_secret create_secret update_secret delete_secret list_namespaces
  get_namespace create_namespace delete_namespace list_ingresses get_ingress delete_ingress
  create_ingress update_ingress list_networkpolicies get_networkpolicy delete_networkpolicy
  create_networkpolicy update_networkpolicy list_pvs get_pv delete_pv create_pv list_pvcs get_pvc
  delete_pvc create_pvc generic_create generic_get generic_delete enriched_list list_vnets
  list_subnets list_nsgs list_routetables create_crd create_vnet create_subnet create_nsg
  create_routetable list_storage_classes get_storage_class list_events list_endpoints_ns
  get_endpoints list_endpointslices_ns get_endpointslice top_nodes top_pods_in_ns with_zero_status
  complete_spec assign_cluster_ip assign_port exists_same drop_kind generic_list recorded_state
  node_list get_node : handlers.

Lemma st_system h a : leads (run_system cfg now now_text arch parallelism h a).
Proof. destruct h; cbn [run_system]; repeat autounfold with handlers; steps_through. Qed.
#[local] Hint Resolve st_system : steps.

Lemma st_run_handler h ps rq : leads (run_handler h ps rq).
Proof.
  destruct h; cbn [Api.run_handler]; repeat autounfold with handlers; steps_through.
Qed.


(** ** Requests that fail *)

Definition with_os (k : K) s : AppState K KN :=
  let c := cluster (app_world s) in
  set_app_world (set_cluster (set_sup (set_os k (sup c)) c) (app_world s)) s.

Definition same_but_os s s' : Prop := ∃ k, s' = with_os k s.

#[export] Instance same_but_os_preorder : PreOrder same_but_os.
Proof using Type.
  split.
  - intros [w n e p i]. exists (os (sup (cluster w))).
    by destruct w as [[[r c [? ? ? ? ?]] ? ?] ? ? ? ? ?].
  - intros s1 s2 s3 [k1 ->] [k2 ->]. by exists k2.
Qed.

Definition failed (r : ApiError + Response) : Prop :=
  match r with inl _ => True | inr resp => 400 ≤ code resp end.

(** Whatever fails leaves the state as it was, up to the kernel. *)
Definition clean (m : apiR (AppState K KN) Response) : Prop :=
  ∀ s r s', m s = Ret (r, s') → failed r → same_but_os s s'.

Abbreviation calm := (api_rel same_but_os).

Lemma clean_calm m : calm m → clean m.
Proof. intros H s r s' E _. by eapply H. Qed.
Lemma clean_fine m : fine m → clean m.
Proof. intros H s r s' (resp & -> & Hc)%H Hf. cbn in Hf. lia. Qed.
Lemma clean_bind {A} (m : apiR (AppState K KN) A) f : calm m → (∀ x, clean (f x)) → clean (m ≫= f).
Proof.
  intros Hm Hf s r s' [(e & H & _)|(a & s1 & H1 & H2)]%api_bind_inv Hr; [by eapply Hm|].
  etrans; [by eapply Hm|by eapply Hf].
Qed.

Lemma calm_bind {A B} (m : apiR (AppState K KN) A) (f : A → apiR _ B) :
  calm m → (∀ a, calm (f a)) → calm (m ≫= f).
Proof. apply (ar_bind same_but_os). Qed.
Lemma calm_ret {A} (a : A) : calm (mret a : apiR (AppState K KN) A).
Proof. apply (ar_ret same_but_os). Qed.
Lemma calm_throw {A} e : calm (throw e : apiR (AppState K KN) A).
Proof. apply (ar_throw same_but_os). Qed.
Lemma calm_gets {A} (f : AppState K KN → A) : calm (gets f).
Proof. apply (ar_gets same_but_os). Qed.
Lemma calm_map_err {A} f (r : result A) : calm (map_err f r).
Proof. apply (ar_map_err same_but_os). Qed.
Lemma calm_or_throw {A} e (o : option A) : calm (or_throw e o).
Proof. apply (ar_or_throw same_but_os). Qed.
Lemma calm_lift {A} (m : exec A) : calm (lift_exec m).
Proof. apply (ar_lift same_but_os). Qed.
Lemma calm_uuid : calm (fresh_uuid new_uuid).
Proof. intros s x s'. unfold fresh_uuid. destruct (new_uuid _) as [u k]. intros [= _ <-]. by exists k. Qed.
Lemma calm_other h ps rq : calm (run_other other h ps rq).
Proof. intros s x s'. unfold run_other. destruct (other _ _ _ _) as [r k]. intros [= _ <-]. by exists k. Qed.

#[local] Hint Resolve calm_ret calm_throw calm_gets calm_map_err calm_or_throw calm_lift calm_uuid calm_other : calm.
#[local] Ltac calm_through := repeat first
  [ progress intros | solve [auto with calm] | apply calm_bind | case_match ].

Lemma calm_parse_body raw : calm (parse_body raw).
Proof. unfold parse_body. calm_through. Qed.
Lemma calm_stamp m : calm (stamp new_uuid now m).
Proof. unfold stamp. calm_through. Qed.
Lemma calm_by_kind k : calm (store_by_kind k).
Proof. unfold store_by_kind. calm_through. Qed.
#[local] Hint Resolve calm_parse_body calm_stamp calm_by_kind : calm.
Lemma calm_find k p e : calm (find_tracker k p e).
Proof. unfold find_tracker. calm_through. Qed.
Lemma calm_merged k ns n j : calm (merged_with k ns n j).
Proof. unfold merged_with. calm_through. Qed.
#[local] Hint Resolve calm_find calm_merged : calm.

Lemma sure_change f : sure (change_store (K := K) (KN := KN) f).
Proof. intros s r s' [= <- _]. eauto. Qed.
Lemma sure_on_world {A} (m : execR (World K KN) A) : sure (on_world m).
Proof. intros s r s'. unfold on_world. destruct (m _) as [[x w]|]; [intros [= <- _]; eauto|done]. Qed.
Lemma sure_set f : sure (λ s, Ret (inr (), f s) : exec ((ApiError + unit) * AppState K KN)).
Proof. intros s r s' [= <- _]. eauto. Qed.
Lemma sure_node_port : sure (alloc_node_port (K := K) (KN := KN)).
Proof. intros s r s' [= <- _]. eauto. Qed.
Lemma sure_cluster_ip : sure (api_cluster_ip (K := K) (KN := KN) cfg).
Proof. intros s r s'. unfold api_cluster_ip. destruct (alloc_cluster_ip _ _). intros [= <- _]. eauto. Qed.
#[local] Hint Resolve sure_change sure_on_world sure_set sure_node_port sure_cluster_ip : api.
Lemma sure_registry_apply r : sure (registry_apply r).
Proof. unfold Api.registry_apply. auto with api. Qed.
Lemma sure_registry_delete r : sure (registry_delete r).
Proof. unfold Api.registry_delete. auto with api. Qed.
#[local] Hint Resolve sure_registry_apply sure_registry_delete : api.
Lemma sure_drop r : sure (drop_resource r).
Proof. unfold Api.drop_resource, store_remove. auto with api. Qed.
Lemma sure_uuid : sure (fresh_uuid (KN := KN) new_uuid).
Proof. intros s r s'. unfold fresh_uuid. destruct (new_uuid _). intros [= <- _]. eauto. Qed.
#[local] Hint Resolve sure_drop sure_uuid : api.
#[local] Hint Unfold store_apply store_remove store_update_state store_by_kind : handlers.
#[local] Ltac sure_through := repeat first
  [ progress intros | solve [auto with api] | apply sure_bind | apply sure_each | case_match ].
Lemma sure_stamp m : sure (stamp (KN := KN) new_uuid now m).
Proof. unfold stamp. sure_through. Qed.
Lemma sure_assign_ports ty l : sure (assign_ports (K := K) (KN := KN) ty l).
Proof.
  induction l as [|p l IH]; cbn [assign_ports]; [apply sure_ret|]. unfold assign_port. sure_through.
Qed.
#[local] Hint Resolve sure_stamp sure_assign_ports : api.
Lemma code_created_or_ok b x : code (created_or_ok b x) < 400.
Proof. destruct b; cbn; lia. Qed.
#[local] Ltac fine_through := repeat first
  [ progress intros | solve [auto with api] | apply fine_ret, code_created_or_ok | apply fine_ret; cbn; lia | apply fine_bind; [solve [sure_through]|]
  | case_match ].

Lemma calm_system h a : calm (run_system cfg now now_text arch parallelism h a).
Proof. destruct h; cbn [run_system]; repeat autounfold with handlers; calm_through. Qed.
#[local] Hint Resolve calm_system : calm.

Lemma clean_run_handler h ps rq : clean (run_handler h ps rq).
Proof.
  destruct h; cbn [Api.run_handler]; repeat autounfold with handlers; repeat first
    [ progress intros | solve [apply clean_calm; calm_through] | solve [apply clean_fine; fine_through]
    | apply clean_bind; [solve [calm_through]|] | case_match ].
Qed.

(** C27. A request that is answered with an error changes nothing but, perhaps, the kernel: the
    store, the components, the namespaces and the counters are as they were. *)
Theorem failed_requests_change_nothing rq s resp s' :
  handle rq s = Ret (resp, s') → 400 ≤ code resp → ∃ k, s' = with_os k s.
Proof.
  unfold Api.handle. destruct (route_for _) as [[l ps]|]; [|intros [= _ <-] _; by apply same_but_os_preorder].
  destruct (method_for _ l) as [h|]; [|intros [= _ <-] _; by apply same_but_os_preorder].
  unfold respond. destruct (run_handler h ps rq s) as [[r s1]|] eqn:E; [|done].
  intros [= <- <-] Hc. apply (clean_run_handler h ps rq s r s1 E). by destruct r.
Qed.


End served.

(** ** Witnesses: a server on the sample world *)

#[export] Existing Instance sample_os.
#[export] Existing Instance sample_case.
#[export] Existing Instance sample_image_json.
#[export] Existing Instance no_storage_os.

(** Bodies that name a pod and its image, and answers that show little. *)
Definition sample_codec : ApiCodec := {|
  json_from_slice b := match split_once " " (of_bytes b) with
                       | Some (n, img) => Some (jobj [("name", JStr n); ("image", JStr img)])
                       | None => None
                       end;
  yaml_from_slice _ := None;
  pod_from_value v :=
    match jget "name" v, jget "image" v with
    | Some (JStr n), Some (JStr img) => match pod_with n img with RPod p => Ok p | _ => Err "kind" end
    | _, _ => Err "missing field"
    end;
  deployment_from_value _ := Err ""; service_from_value _ := Err ""; config_map_from_value _ := Err "";
  secret_from_value _ := Err ""; pv_from_value _ := Err ""; pvc_from_value _ := Err "";
  vnet_from_value _ := Err ""; subnet_from_value _ := Err ""; nsg_from_value _ := Err "";
  route_table_from_value _ := Err ""; ingress_from_value _ := Err "";
  network_policy_from_value _ := Err ""; namespace_from_value _ := Err "";
  to_value r := jobj [("metadata", jobj [("name", JStr (name r))])];
  pod_to_value p st := jobj [("phase", JStr (pst_phase st))];
  deployment_to_value _ _ := JNull; scale_to_value s := JNum (sca_spec_replicas s)
|}.
#[export] Existing Instance sample_codec.

Definition sample_app (c : Cluster Tree) : AppState Tree (list (batch (option Ipv4Cidr))) :=
  build_app_state 7 (sample_world c).

Definition sample_handle := handle (λ _, "E") (answers 36) (λ _ _, true) (λ _ k, (true, k)) sample_cg
  "/b" true sample_uuid record_send sample_parse (λ _, 0%nat) (config_default None None) 7 "now"
  (λ _, Some 0) "amd64" (Some 4) (λ h ps rq s, ({| code := 200; body := BNone |}, os s)).

Definition sample_request_of (m : Method) (path : string) (raw : string) : Request :=
  {| rq_method := m; rq_path := segments path; rq_query := ""; rq_accept := None; rq_body := as_bytes raw |}.


Lemma failed_requests_change_nothing_witness :
  ∃ resp s' k, sample_handle (sample_request_of DELETE "/api/v1/namespaces/x/pods/db" "") (sample_app (sample_cluster "i"))
    = Ret (resp, s') ∧ code resp = 404 ∧ s' = with_os k (sample_app (sample_cluster "i")).
Proof.
  assert (match sample_handle (sample_request_of DELETE "/api/v1/namespaces/x/pods/db" "")
            (sample_app (sample_cluster "i")) with Ret (resp, _) => code resp = 404 | Panic => False end) as H
    by (vm_compute; reflexivity).
  destruct (sample_handle _ _) as [[resp s']|] eqn:E; [|destruct H].
  destruct (failed_requests_change_nothing (λ _, "E") (answers 36) (λ _ _, true) (λ _ k, (true, k)) sample_cg
    "/b" true sample_uuid record_send sample_parse (λ _, 0%nat) (config_default None None) 7 "now"
    (λ _, Some 0) "amd64" (Some 4) (λ h ps rq s, ({| code := 200; body := BNone |}, os s)) _ _ resp s' E) as [k Hk].
  - rewrite H. apply Z.leb_le. reflexivity.
  - exists resp, s', k. split; [reflexivity|]. split; [exact H|exact Hk].
Defined.
