(* ===== verification/Objects.v ===== *)
(** * Objects: the life of the objects behind the API
    (src/src/api/handlers/pod.rs, src/src/api/handlers/namespace.rs,
    src/src/api/handlers/deployment.rs)

    What deleting does to the store, component by component: it removes the object, never
    adds one, and takes at most volumes with it. From this, a deleted object is not found
    again, and a namespace takes the objects of six kinds with it and leaves all others.
    What applying a pod does: it files the pod, and the pod is served back. *)
From S2P Require Import Prelude Text Utf8 Json Resources Proto Config Pool Netlink Nft NetMux Cri SpecBuilder Runtime Process Deployment Service Panics Policy Ingress Storage Registry World Reach Query Routes Api Served.

(** ** Stores that lost something *)

(** Every tracker of the new store was there, perhaps in another state. *)
Definition loses (s s' : ResourceStore) : Prop :=
  ∀ u t', s' !! u = Some t' → ∃ t, s !! u = Some t ∧ resource t' = resource t.

(** Every tracker that satisfies a test is still there, perhaps in another state. *)
Definition keeps_if (P : AnyResource → Prop) (s s' : ResourceStore) : Prop :=
  ∀ u t, s !! u = Some t → P (resource t) → ∃ t', s' !! u = Some t' ∧ resource t' = resource t.

Definition not_volume (r : AnyResource) : Prop := kind r ≠ "PersistentVolume".

Definition pruned (s s' : ResourceStore) : Prop :=
  store_wf s → store_wf s' ∧ loses s s' ∧ keeps_if not_volume s s'.

Lemma loses_refl s : loses s s.
Proof. intros u t H. by exists t. Qed.
Lemma loses_trans s1 s2 s3 : loses s1 s2 → loses s2 s3 → loses s1 s3.
Proof.
  intros H1 H2 u t3 Ht3. destruct (H2 u t3 Ht3) as (t2 & Ht2 & ->). by apply H1.
Qed.
Lemma keeps_if_refl P s : keeps_if P s s.
Proof. intros u t H _. by exists t. Qed.
Lemma keeps_if_trans P s1 s2 s3 : keeps_if P s1 s2 → keeps_if P s2 s3 → keeps_if P s1 s3.
Proof.
  intros H1 H2 u t1 Ht1 HP. destruct (H1 u t1 Ht1 HP) as (t2 & Ht2 & E). rewrite <- E in HP |- *.
  by apply H2.
Qed.

#[export] Instance pruned_preorder : PreOrder pruned.
Proof.
  split; [intros s H; eauto using loses_refl, keeps_if_refl|].
  intros s1 s2 s3 H1 H2 Hwf. destruct (H1 Hwf) as (Hw2 & L1 & K1), (H2 Hw2) as (Hw3 & L2 & K2).
  eauto using loses_trans, keeps_if_trans.
Qed.

Lemma pruned_update now u st s : pruned s (update_state now u st s).
Proof.
  intros Hwf. split; [by apply update_wf|]. unfold update_state.
  destruct (s !! u) as [t|] eqn:E; [|by eauto using loses_refl, keeps_if_refl]. split.
  - intros u' t' [[<- <-]|[_ Ht]]%lookup_insert_Some; [by exists t|by exists t'].
  - intros u' t' Ht _. destruct (decide (u = u')) as [<-|Hne].
    + rewrite lookup_insert_eq. eexists. split; [done|]. by rewrite Ht in E; injection E as ->.
    + rewrite lookup_insert_ne by done. by exists t'.
Qed.

Lemma pruned_delete r s : kind r = "PersistentVolume" → pruned s (store_delete r s).
Proof.
  intros Hk Hwf. split; [by apply delete_wf|]. unfold store_delete. split.
  - intros u t [_ Ht]%lookup_delete_Some. by exists t.
  - intros u t Ht Hv. exists t. split; [|done]. rewrite lookup_delete_ne; [done|].
    intros <-. apply Hwf in Ht. apply Hv. rewrite <- Hk. symmetry.
    rewrite !uid_key in Ht. unfold key in Ht. cbn [String.append] in Ht.
    pose proof (split_once_app "/" (kind r) (namespace r +:+ "/" +:+ name r) (kind_no_slash r)) as E1.
    pose proof (split_once_app "/" (kind (resource t)) (namespace (resource t) +:+ "/" +:+ name (resource t))
                  (kind_no_slash _)) as E2.
    cbn [String.append] in E1, E2. rewrite Ht in E2. rewrite E1 in E2. by injection E2.
Qed.

(** ** Deleting, component by component *)

Section storage.
Context `{HO : HashOrder} {OS : Type} `{SO : StorageOS OS}.
Implicit Types s : ProvisionerDispatcher OS.

Lemma pv_on_delete_store r s x s' : pv_on_delete r s = (x, s') → sto_store s' = sto_store s.
Proof.
  unfold pv_on_delete. destruct r; try by intros [= _ <-].
  unfold mbind, stateR_bind, sr_try. destruct (deprovision_pv _ s) as [y s1] eqn:E.
  apply deprovision_keeps in E as [E _]. by intros [= _ <-].
Qed.

Lemma pvc_on_delete_pruned r s x s' : pvc_on_delete r s = (x, s') → pruned (sto_store s) (sto_store s').
Proof.
  unfold pvc_on_delete. destruct r as [| | | | | |pvc| | | | | |]; try by intros [= _ <-].
  unfold sr_get. unfold mbind at 1, stateR_bind at 1. destruct (pvc_volume _ _) as [v|]; [|by intros [= _ <-]].
  destruct (find_first _ _) as [t|] eqn:Ef; [|by intros [= _ <-]].
  assert (kind (resource t) = "PersistentVolume") as Hk.
  { apply find_first_Some in Ef as [Hin _]. unfold get_by_kind in Hin.
    apply list_elem_of_In, filter_In in Hin as [_ Hin]. by apply bool_decide_eq_true in Hin. }
  destruct (resource t) as [| | | | |pv| | | | | | |] eqn:Hr; try done.
  unfold mbind, stateR_bind, sr_try. destruct (deprovision_pv pv s) as [y s1] eqn:E.
  apply deprovision_keeps in E as [E _]. intros [= _ <-]. rewrite <- E. exact (pruned_delete (RPersistentVolume pv) (sto_store s1) Hk).
Qed.
End storage.

Section objects.
Context `{HO : HashOrder} `{UC : UnicodeCase} {K KN net : Type} `{FS : FileSystem K}
        `{IJ : ImageConfigJson} `{OS : ContainerOS K} `{SO : StorageOS K} `{AC : ApiCodec}.
Variable errno_name : Z → string.
Variable transact : bytes → K → result bytes * K.
Variable open_netns : Z → K → bool.
Variable set_netns : Z → K → bool * K.
Variable cg : CgroupManager.
Variable base : string.
Variable is_root : bool.
Variable new_uuid : K → string * K.
Variable batch_send : batch net → KN → send_outcome * KN.
Variable parse_net : string → option net.
Variable pick : World K KN → nat.
Variable cfg : Config.
Variable now : Z.
Implicit Types w : World K KN.
Implicit Types s : AppState K KN.

Abbreviation delete_resource := (delete_resource errno_name transact open_netns set_netns cg base is_root
  new_uuid batch_send parse_net pick now).
Abbreviation apply_resource := (apply_resource errno_name transact open_netns set_netns cg base is_root
  new_uuid batch_send parse_net pick now).
Abbreviation drop_resource := (drop_resource errno_name transact open_netns set_netns cg base is_root
  new_uuid batch_send parse_net pick now).
Abbreviation delete_namespace := (delete_namespace errno_name transact open_netns set_netns cg base is_root
  new_uuid batch_send parse_net pick now).
Abbreviation drop_kind := (drop_kind errno_name transact open_netns set_netns cg base is_root
  new_uuid batch_send parse_net pick now).

Definition prunes w w' : Prop := pruned (world_store w) (world_store w').

#[export] Instance prunes_preorder : PreOrder prunes.
Proof. split; [intros w; apply pruned_preorder|intros w1 w2 w3; apply pruned_preorder]. Qed.

Abbreviation within m := (x_triple prunes m (λ _, True)).

Lemma pw_ret {A} (x : A) : within (mret x).
Proof. by apply (xt_ret prunes). Qed.
Lemma pw_seq {A B} (m : execR (World K KN) A) (f : A → execR _ B) :
  within m → (∀ x, within (f x)) → within (m ≫= f).
Proof. apply (xt_seq prunes). Qed.
Lemma pw_logged m : within m → within (logged m).
Proof. intros H. apply pw_seq; [eapply (xt_try prunes), H|]. intros _. apply pw_ret. Qed.
Lemma pw_frame {A} (m : execR (World K KN) A) :
  (∀ w r w', m w = Ret (r, w') → world_store w' = world_store w) → within m.
Proof. intros H w r w' E. split; [|done]. unfold prunes. by rewrite (H _ _ _ E). Qed.
Lemma pw_on_engine {A} (f : stateR (NftEngine KN) A) : within (on_engine f).
Proof. apply pw_frame. intros w r w'. unfold on_engine. destruct (f _). by intros [= _ <-]. Qed.
Lemma pw_on_ingress {A} (f : stateR IngressNet A) : within (on_ingress f).
Proof. apply pw_frame. intros w r w'. unfold on_ingress. destruct (f _). by intros [= _ <-]. Qed.
Lemma pw_network (f : World K KN → NetworkManager KN) : within (x_modify (λ w, set_network (f w) w)).
Proof. apply pw_frame. by intros w r w' [= _ <-]. Qed.
Lemma pw_on_storage {A} (f : stateR (ProvisionerDispatcher K) A) :
  (∀ p x p', f p = (x, p') → pruned (sto_store p) (sto_store p')) → within (on_storage f).
Proof.
  intros Hf w r w'. unfold on_storage. destruct (f _) as [x s'] eqn:E. intros [= _ <-].
  split; [|done]. exact (Hf _ _ _ E).
Qed.

Lemma pw_stop r : within (on_cluster (stop_pod errno_name transact cg base now r)).
Proof.
  intros w x w'. unfold on_cluster. destruct (Process.stop_pod _ _ _ _ _ _ _) as [[y c]|] eqn:E; [|done].
  intros [= _ <-]. split; [|done]. apply stop_pod_store in E as (_ & Hs & _).
  unfold prunes, world_store. cbn. rewrite Hs. apply pruned_update.
Qed.

(** No component adds anything when an object is deleted, and only claims take
    something with them: their volume. *)
Lemma pw_components c r :
  c ∈ components errno_name transact open_netns set_netns cg base is_root new_uuid batch_send parse_net
        pick now → within (c_on_delete c r).
Proof.
  revert c r. assert (Forall (λ c, ∀ r, within (c_on_delete c r))
    (components errno_name transact open_netns set_netns cg base is_root new_uuid batch_send parse_net
        pick now)) as H; [|rewrite Forall_forall in H; auto].
  unfold World.components. rewrite !Forall_cons, Forall_nil. split_and!; try done; intros r; cbn [c_on_delete];
    try apply pw_ret; try apply pw_on_ingress; try apply pw_network.
  - unfold pod_on_delete. apply pw_seq; [by apply (xt_get prunes)|]. intros w0.
    apply pw_seq; [|intros _; apply pw_logged, pw_stop].
    destruct r as [pod| | | | | | | | | | | |]; try apply pw_ret.
    destruct (process_pod_ip _ _); [apply pw_logged, pw_on_engine|apply pw_ret].
  - apply pw_on_storage. intros s x s' E. by rewrite (pv_on_delete_store r s x s' E).
  - apply pw_on_storage. apply pvc_on_delete_pruned.
Qed.

Lemma pw_delete_resource r : within (delete_resource r).
Proof.
  apply pw_seq; [|intros _; apply pw_ret]. destruct (get_component _ _) as [c|] eqn:Hc; [|apply pw_ret].
  apply pw_logged, pw_components, (main_in _ _ _ _ _ _ _ _ _ _ _ _ _ _ Hc).
Qed.

(** ** Dropping objects *)

(** What a handler that drops objects guarantees: nothing is added, [gone] is not there any
    more, and what satisfies [stays] is still there. *)
Definition drops (gone stays : AnyResource → Prop) s s' : Prop :=
  store_wf (app_store s) →
  namespaces s' = namespaces s ∧ store_wf (app_store s') ∧ loses (app_store s) (app_store s')
  ∧ (∀ u t, app_store s' !! u = Some t → ¬ gone (resource t))
  ∧ keeps_if stays (app_store s) (app_store s').

Lemma drop_spec r s x s' :
  drop_resource r s = Ret (x, s') →
  drops (λ r', uid r' = uid r) (λ r', not_volume r' ∧ uid r' ≠ uid r) s s'.
Proof.
  unfold Api.drop_resource, Api.registry_delete, on_world. intros H Hwf.
  unfold mbind, apiR_bind in H. destruct (delete_resource r (app_world s)) as [[y w]|] eqn:E; [|done].
  injection H as _ <-. apply pw_delete_resource in E as [E _].
  destruct (E Hwf) as (Hw & Hl & Hk). split; [done|].
  change (app_store (set_app_world _ _)) with (store_delete r (world_store w)).
  split; [by apply delete_wf|]. split; [|split].
  - intros u t Ht. unfold store_delete in Ht. apply lookup_delete_Some in Ht as [_ Ht]. by apply Hl.
  - intros u t Ht Hu. pose proof (delete_wf r _ Hw u t Ht) as E2. unfold store_delete in Ht.
    apply lookup_delete_Some in Ht as [Hne _]. congruence.
  - intros u t Ht [Hv Hu]. destruct (Hk u t Ht Hv) as (t' & Ht' & Er). exists t'. split; [|done].
    unfold store_delete. apply lookup_delete_Some. split; [|done]. intros <-. apply Hu. by apply Hwf.
Qed.

Lemma each_drop_spec l : ∀ s x s',
  api_each (λ t, drop_resource (resource t)) l s = Ret (x, s') →
  drops (λ r', uid r' ∈ uid ∘ resource <$> l) (λ r', not_volume r' ∧ uid r' ∉ uid ∘ resource <$> l) s s'.
Proof.
  induction l as [|t l IH]; intros s x s'; cbn [api_each].
  - intros [= _ <-] Hwf. split; [done|]. split; [done|]. split; [apply loses_refl|].
    split; [intros u t _; apply not_elem_of_nil|]. intros u t Ht _. by exists t.
  - intros [(e & H & _)|(a & s1 & H1 & H2)]%api_bind_inv Hwf.
    { destruct (sure_drop errno_name transact open_netns set_netns cg base is_root new_uuid batch_send
        parse_net pick now (resource t) _ _ _ H). done. }
    destruct (drop_spec _ _ _ _ H1 Hwf) as (En & Hw1 & L1 & G1 & K1).
    destruct (IH _ _ _ H2 Hw1) as (En2 & Hw2 & L2 & G2 & K2).
    split; [congruence|]. split; [done|]. split; [by eapply loses_trans|]. split.
    + intros u t' Ht'. rewrite fmap_cons, elem_of_cons. intros [Hu|Hu]; [|by apply (G2 u t' Ht')].
      destruct (L2 u t' Ht') as (t1 & Ht1 & Er). apply (G1 u t1 Ht1). by rewrite <- Er.
    + intros u t' Ht'. rewrite fmap_cons, not_elem_of_cons. intros (Hv & Hne & Hin).
      destruct (K1 u t' Ht' (conj Hv Hne)) as (t1 & Ht1 & Er). rewrite <- Er in *.
      by apply (K2 u t1 Ht1).
Qed.

Definition in_kind (n k : string) (r : AnyResource) : Prop := kind r = k ∧ namespace r = n.

Lemma drop_kind_spec n k s x s' :
  drop_kind n k s = Ret (x, s') → drops (in_kind n k) (λ r, not_volume r ∧ ¬ in_kind n k r) s s'.
Proof.
  unfold Api.drop_kind, store_by_kind, gets. intros H Hwf. unfold mbind, apiR_bind in H.
  destruct (each_drop_spec _ _ _ _ H Hwf) as (En & Hw & L & G & Kp). clear H.
  assert (∀ u t, app_store s !! u = Some t →
    uid (resource t) ∈ uid ∘ resource <$> List.filter (in_namespace (Some n)) (get_by_kind k (app_store s))
    ↔ in_kind n k (resource t)) as Hin.
  { intros u t Ht. pose proof (Hwf u t Ht) as Hu. rewrite list_elem_of_fmap. split.
    - intros (t' & Hu' & Hin). rewrite list_elem_of_In, filter_In, <- list_elem_of_In in Hin.
      destruct Hin as [Hin Hns]. apply bool_decide_eq_true in Hns.
      apply (proj1 (get_by_kind_spec _ _ _ Hwf)) in Hin as [Hk Ht'].
      cbn in Hu'. rewrite <- Hu', Hu, Ht in Ht'. injection Ht' as ->. by split.
    - intros [Hk Hn]. exists t. split; [done|]. rewrite list_elem_of_In, filter_In, <- list_elem_of_In.
      split; [|by apply bool_decide_eq_true]. apply (get_by_kind_spec _ _ _ Hwf). by rewrite Hu. }
  split; [done|]. split; [done|]. split; [done|]. split.
  - intros u t Ht Hk. apply (G u t Ht). destruct (L u t Ht) as (t0 & Ht0 & Er). rewrite Er in *.
    by apply (Hin u t0 Ht0).
  - intros u t Ht [Hv Hk]. apply (Kp u t Ht). split; [done|]. by rewrite (Hin u t Ht).
Qed.

Lemma drop_kinds_spec n ks : ∀ s x s',
  api_each (drop_kind n) ks s = Ret (x, s') →
  drops (λ r, ∃ k, k ∈ ks ∧ in_kind n k r) (λ r, not_volume r ∧ ¬ ∃ k, k ∈ ks ∧ in_kind n k r) s s'.
Proof.
  induction ks as [|k ks IH]; intros s x s'; cbn [api_each].
  - intros [= _ <-] Hwf. split; [done|]. split; [done|]. split; [apply loses_refl|].
    split; [by intros u t _ (k & ?%elem_of_nil & _)|]. intros u t Ht _. by exists t.
  - intros [(e & H & _)|(a & s1 & H1 & H2)]%api_bind_inv Hwf.
    { eapply (sure_bind (store_by_kind k)) in H as [? ?]; [done|apply sure_gets|].
      intros l. apply sure_each. intros t0. apply sure_drop. }
    destruct (drop_kind_spec _ _ _ _ _ H1 Hwf) as (En & Hw1 & L1 & G1 & K1).
    destruct (IH _ _ _ H2 Hw1) as (En2 & Hw2 & L2 & G2 & K2).
    split; [congruence|]. split; [done|]. split; [by eapply loses_trans|]. split.
    + intros u t Ht (k' & [->|Hk']%elem_of_cons & Hk); [|apply (G2 u t Ht); by exists k'].
      destruct (L2 u t Ht) as (t1 & Ht1 & Er). apply (G1 u t1 Ht1). by rewrite <- Er.
    + intros u t Ht (Hv & Hk). destruct (K1 u t Ht) as (t1 & Ht1 & Er).
      { split; [done|]. intros Hk'. apply Hk. exists k. split; [apply list_elem_of_here|done]. }
      rewrite <- Er in *. apply (K2 u t1 Ht1). split; [done|]. intros (k' & Hin & Hk').
      apply Hk. exists k'. split; [by apply list_elem_of_further|done].
Qed.

(** What goes with its namespace. *)
Definition namespaced_object (r : AnyResource) : bool :=
  match r with
  | RPod _ | RDeployment _ | RService _ | RConfigMap _ | RSecret _ | RPersistentVolumeClaim _ => true
  | _ => false
  end.

Lemma cascade_kinds_spec r : kind r ∈ cascade_kinds ↔ namespaced_object r = true.
Proof. rewrite <- (bool_decide_eq_true (kind r ∈ cascade_kinds)). by destruct r. Qed.

(** C8. A namespace that is deleted takes its pods, deployments, services, config maps,
    secrets and claims with it. Of everything else only volumes can go: ingresses and
    network policies stay behind, and so do the objects of other namespaces. *)
Theorem namespace_takes_its_objects n s resp s' :
  delete_namespace n s = Ret (inr resp, s') → store_wf (app_store s) →
  n ≠ "default" ∧ is_Some (namespaces s !! n) ∧ namespaces s' = delete n (namespaces s)
  ∧ (∀ u t, app_store s' !! u = Some t → namespaced_object (resource t) = true → namespace (resource t) ≠ n)
  ∧ (∀ u t, app_store s !! u = Some t → kind (resource t) ≠ "PersistentVolume" →
       namespaced_object (resource t) = false ∨ namespace (resource t) ≠ n →
       ∃ t', app_store s' !! u = Some t' ∧ resource t' = resource t).
Proof.
  unfold Api.delete_namespace. case_bool_decide as Hd; [done|]. unfold gets at 1.
  intros H Hwf. unfold mbind at 1, apiR_bind at 1 in H.
  destruct (namespaces s !! n) as [ns|] eqn:En; cbn [is_some] in H; [|done].
  split; [done|]. split; [by eexists|].
  unfold mbind at 1, apiR_bind at 1 in H.
  apply api_bind_inv in H as [(e & _ & ?)|([] & s1 & H1 & H2)]; [done|]. injection H2 as _ <-.
  destruct (drop_kinds_spec _ _ _ _ _ H1 Hwf) as (Hn & _ & L & G & Kp).
  split; [done|]. split.
  - intros u t Ht Hk%cascade_kinds_spec Hns. apply (G u t Ht). by exists (kind (resource t)).
  - intros u t Ht Hv Hor. apply (Kp u t Ht). split; [done|]. intros (k & Hk & <- & Hns).
    apply cascade_kinds_spec in Hk. destruct Hor; congruence.
Qed.

(** ** Finding an object by its name *)

Lemma named_uid k ns n t : kind (resource t) = k → is_named ns n t = true → uid (resource t) = key k ns n.
Proof.
  intros <- H. unfold is_named in H. apply andb_true_iff in H as [H1%bool_decide_eq_true H2%bool_decide_eq_true].
  by rewrite uid_key, H1, H2.
Qed.

Lemma find_named st r t :
  store_wf st → st !! uid r = Some t → resource t = r →
  find_first (is_named (namespace r) (name r)) (get_by_kind (kind r) st) = Some t.
Proof.
  intros Hwf Ht Hr. assert (is_named (namespace r) (name r) t = true) as Hn.
  { unfold is_named. by rewrite Hr, !bool_decide_true. }
  assert (t ∈ get_by_kind (kind r) st) as Hin by (apply (get_by_kind_spec _ _ _ Hwf); by rewrite Hr).
  destruct (find_first _ _) as [t'|] eqn:E.
  - apply find_first_Some in E as [Hin' Hn']. apply (proj1 (get_by_kind_spec _ _ _ Hwf)) in Hin' as [Hk' Ht'].
    rewrite (named_uid _ _ _ _ Hk' Hn'), <- uid_key, Ht in Ht'. congruence.
  - rewrite find_first_None in E. specialize (E t Hin). congruence.
Qed.

Lemma find_gone st k ns n :
  store_wf st → (∀ u t, st !! u = Some t → uid (resource t) ≠ key k ns n) →
  find_first (is_named ns n) (get_by_kind k st) = None.
Proof.
  intros Hwf Hg. apply find_first_None. intros t [Hk Ht]%(get_by_kind_spec _ _ _ Hwf).
  destruct (is_named ns n t) eqn:Hn; [|done]. by destruct (Hg _ _ Ht); apply named_uid.
Qed.

Lemma find_tracker_inv k p e s x s' :
  find_tracker (K := K) (KN := KN) k p e s = Ret (x, s') →
  s' = s ∧ match find_first p (get_by_kind k (app_store s)) with Some t => x = inr t | None => x = inl e end.
Proof.
  unfold find_tracker, store_by_kind, gets, mbind, apiR_bind. destruct (find_first _ _); by intros [= <- <-].
Qed.

Lemma dropped_is_gone k ns n e resp s s' :
  delete_with_registry errno_name transact open_netns set_netns cg base is_root new_uuid batch_send
    parse_net pick now k (is_named ns n) e s = Ret (inr resp, s') → store_wf (app_store s) →
  store_wf (app_store s') ∧ find_first (is_named ns n) (get_by_kind k (app_store s')) = None.
Proof.
  unfold delete_with_registry. intros [(? & _ & ?)|(t & s1 & H1 & H)]%api_bind_inv Hwf; [done|].
  apply find_tracker_inv in H1 as [-> H1].
  destruct (find_first _ _) as [t0|] eqn:Ef in H1; [|done]. injection H1 as <-.
  apply api_bind_inv in H as [(? & _ & ?)|(a & s2 & H2 & [= _ <-])]; [done|].
  destruct (drop_spec _ _ _ _ H2 Hwf) as (_ & Hw & _ & G & _).
  split; [done|]. apply find_gone; [done|]. intros u t' Ht' Hu.
  apply find_first_Some in Ef as [Hin Hn]. apply (proj1 (get_by_kind_spec _ _ _ Hwf)) in Hin as [Hk _].
  apply (G u t' Ht'). by rewrite Hu, (named_uid _ _ _ _ Hk Hn).
Qed.

Abbreviation get_pod := (get_pod (KN := KN) now).
Abbreviation delete_pod := (delete_pod errno_name transact open_netns set_netns cg base is_root new_uuid
  batch_send parse_net pick now).
Abbreviation create_pod := (create_pod errno_name transact open_netns set_netns cg base is_root new_uuid
  batch_send parse_net pick now).

(** A pod that was deleted is not found again. *)
Theorem deleted_pod_is_gone ns n s resp s' :
  delete_pod ns n s = Ret (inr resp, s') → store_wf (app_store s) →
  get_pod ns n s' = Ret (inl (quoted "pod" n), s').
Proof.
  intros H Hwf. destruct (dropped_is_gone "Pod" ns n (quoted "pod" n) resp s s' H Hwf) as [_ Hf].
  unfold Api.get_pod, find_tracker, store_by_kind, gets, mbind, apiR_bind. by rewrite Hf.
Qed.

(** ** Applying a pod *)

(** The same resources under the same uids, perhaps in other states. *)
Definition same_resources (st st' : ResourceStore) : Prop :=
  ∀ u, resource <$> st' !! u = resource <$> st !! u.

Lemma same_resources_update t u st st0 : same_resources st0 (update_state t u st st0).
Proof.
  intros u'. unfold update_state. destruct (st0 !! u) as [x|] eqn:E; [|done].
  destruct (decide (u = u')) as [<-|Hne]; [by rewrite lookup_insert_eq, E|by rewrite lookup_insert_ne].
Qed.

Definition renames_nothing w w' : Prop := same_resources (world_store w) (world_store w').

#[export] Instance renames_nothing_preorder : PreOrder renames_nothing.
Proof.
  split; [by intros w u|]. intros w1 w2 w3 H1 H2 u. unfold renames_nothing in *. by rewrite H2.
Qed.

Lemma rn_start r : x_triple renames_nothing
  (on_cluster (start_pod errno_name transact open_netns set_netns cg base is_root now r)) (λ _, True).
Proof.
  intros w x w'. unfold on_cluster. destruct (Process.start_pod _ _ _ _ _ _ _ _ _ _) as [[y c]|] eqn:E; [|done].
  intros [= _ <-]. split; [|done]. apply start_pod_store in E as [Hs _]. unfold renames_nothing, world_store. cbn.
  rewrite Hs. destruct y; [apply same_resources_update|by intros u].
Qed.

Lemma rn_acquire : x_triple renames_nothing
  (acquire errno_name transact open_netns set_netns cg base is_root pick now) (λ _, True).
Proof.
  intros w x w'. unfold acquire. destruct (_ <? _)%nat; [by intros [= _ <-]|].
  intros [(e & H & _)|(a & w1 & H & [= _ <-])]%x_bind_Ret; revert H; unfold run_task;
    (destruct (tasks w !! _) as [r|]; [|by intros [= _ <-]]);
    destruct (Process.start_pod _ _ _ _ _ _ _ _ _ _) as [[y c]|] eqn:E; try done; intros [= _ <-];
    (split; [|done]); apply start_pod_store in E as [Hs _]; unfold renames_nothing, world_store; cbn;
    rewrite Hs; destruct y; first [apply same_resources_update|by intros u].
Qed.

Lemma rn_apply_pod pod : x_triple renames_nothing (apply_resource (RPod pod)) (λ _, True).
Proof.
  unfold World.apply_resource, registry_on_apply. apply (xt_seq renames_nothing); [|intros _; by apply (xt_ret renames_nothing)].
  cbn [kind]. rewrite World.get_pod. apply (xt_seq renames_nothing); [apply (xt_try renames_nothing _ (λ _, True))|intros _; by apply (xt_ret renames_nothing)].
  cbn [c_on_apply PodResource]. unfold pod_on_apply.
  apply (xt_seq renames_nothing); [apply rn_acquire|]. intros _.
  apply (xt_seq renames_nothing); [apply rn_start|]. intros _ w x w' [= _ <-]. split; [by intros u|done].
Qed.

Lemma calm_store {A} (m : apiR (AppState K KN) A) s x s' :
  api_rel same_but_os m → m s = Ret (x, s') → app_store s' = app_store s.
Proof. by intros Hm [k ->]%Hm. Qed.

(** Filed, told to the components and marked as running. *)
Lemma file_pod_spec pod s1 s2 s3 s4 x y z :
  let r := RPod pod in
  store_apply now r s1 = Ret (x, s2) →
  registry_apply errno_name transact open_netns set_netns cg base is_root new_uuid batch_send parse_net
    pick now r s2 = Ret (y, s3) →
  store_update_state now (uid r) Running s3 = Ret (z, s4) → store_wf (app_store s1) →
  store_wf (app_store s4) ∧ ∃ t, app_store s4 !! uid r = Some t ∧ resource t = r ∧ state t = Running.
Proof.
  intros r [= _ <-] H2 [= _ <-] Hwf. unfold Api.registry_apply, on_world in H2.
  unfold mbind, apiR_bind in H2. destruct (apply_resource r _) as [[x2 w2]|] eqn:E; [|done].
  injection H2 as _ <-.
  pose proof (in_apply_resource errno_name transact open_netns set_netns cg base is_root new_uuid
    batch_send parse_net pick keeps_wf now r _ _ _ E) as [Hw _].
  destruct (rn_apply_pod pod _ _ _ E) as [Hr _]. specialize (Hr (uid r)).
  change (world_store (app_world (set_app_world _ _))) with (apply now r (app_store s1)) in Hr.
  change (app_store (set_app_world _ _)) with (update_state now (uid r) Running (world_store w2)).
  specialize (Hw (apply_wf now r _ Hwf)). split; [by apply update_wf|].
  unfold apply in Hr. rewrite lookup_insert_eq in Hr. cbn [fmap option_fmap option_map] in Hr.
  unfold update_state. destruct (world_store w2 !! uid r) as [t2|] eqn:Et; [|done].
  rewrite lookup_insert_eq. eexists. split; [done|]. split; [|done]. cbn in *. injection Hr as ->.
  by destruct (state <$> _).
Qed.

(** The pod that the body of the request decodes to, with the namespace of the path and the
    metadata that it lacks, is filed as running, whether its start succeeded or not; and the
    answer to the creation is the one that getting it then gives. *)
Theorem created_pod_is_served ns raw s resp s' :
  create_pod ns raw s = Ret (inr resp, s') → store_wf (app_store s) →
  code resp = 201 ∧
  ∃ v s1 pod0 t, parse_body raw s = Ret (inr v, s1) ∧ pod_from_value v = Ok pod0 ∧
    let pod := fill_pod_metadata now (with_pod_meta (default_namespace ns) pod0) in
    app_store s' !! uid (RPod pod) = Some t ∧ resource t = RPod pod ∧ state t = Running
    ∧ get_pod (namespace (RPod pod)) (name (RPod pod)) s' = Ret (inr (ok (body resp)), s').
Proof.
  unfold Api.create_pod. intros [(? & _ & ?)|(v & s1 & H1 & H)]%api_bind_inv Hwf; [done|].
  pose proof H1 as Hb. apply (calm_store _ _ _ _ (calm_parse_body raw)) in H1.
  destruct (negb _); [done|].
  apply api_bind_inv in H as [(? & _ & ?)|(pod0 & s2 & H2 & H)]; [done|].
  assert (s2 = s1 ∧ pod_from_value v = Ok pod0) as [-> Hv]
    by (destruct (pod_from_value v); [by injection H2 as <- <-|done]).
  set (pod := fill_pod_metadata now (with_pod_meta (default_namespace ns) pod0)) in H.
  apply api_bind_inv in H as [(? & _ & ?)|(a3 & s3 & H3 & H)]; [done|].
  apply api_bind_inv in H as [(? & _ & ?)|(a4 & s4 & H4 & H)]; [done|].
  apply api_bind_inv in H as [(? & _ & ?)|(a5 & s5 & H5 & H)]; [done|].
  rewrite <- H1 in Hwf.
  destruct (file_pod_spec pod _ _ _ _ _ _ _ H3 H4 H5 Hwf) as (Hw & t & Ht & Hr & Hst).
  unfold recorded_state, gets, mbind, apiR_bind, Resources.get in H. rewrite Ht in H. cbn in H.
  injection H as <- <-. split; [done|]. exists v, s1, pod0, t. cbv zeta. fold pod.
  split; [done|]. split; [done|]. split; [done|]. split; [done|]. split; [done|].
  unfold Api.get_pod, find_tracker, store_by_kind, gets, mbind, apiR_bind.
  pose proof (find_named _ (RPod pod) t Hw Ht Hr) as Hf. cbn [kind] in Hf. rewrite Hf. cbn [or_throw mret apiR_ret].
  by rewrite Hr, Hst.
Qed.
End objects.

(** ** Witnesses *)

Abbreviation on_sample f := (f (λ _, "E") (answers 36) (λ _ _, true) (λ _ k, (true, k)) sample_cg
  "/b" true sample_uuid record_send sample_parse (λ _, 0%nat)) (only parsing).

(** A namespace with an ingress and one of the store's pods. *)
Definition team_cluster : Cluster Tree :=
  {| sup := sample_sup;
     store := apply 2 (RIngress {| ing_metadata := sample_meta "site" "x"; ing_spec := None |})
                (apply 1 (pod_with "web" "i") store_new);
     timers := [] |}.
Definition team_app : AppState Tree (list (batch (option Ipv4Cidr))) :=
  set_namespaces (<["x" := make_namespace 7 "x" "ns-x"]> (namespaces (sample_app team_cluster)))
    (sample_app team_cluster).

Lemma team_wf : store_wf (app_store team_app).
Proof. apply apply_wf, apply_wf, store_new_wf. Qed.

Lemma namespace_takes_its_objects_witness :
  ∃ resp s', on_sample delete_namespace 7 "x" team_app = Ret (inr resp, s')
    ∧ app_store s' !! "Pod/x/web" = None ∧ is_Some (app_store s' !! "Ingress/x/site").
Proof.
  assert (match on_sample delete_namespace 7 "x" team_app with
          | Ret (inr _, s') => app_store s' !! "Pod/x/web" = None | _ => False end) as H
    by (vm_compute; reflexivity).
  destruct (on_sample delete_namespace 7 "x" team_app) as [[[e|resp] s']|] eqn:E; [destruct H| |destruct H].
  destruct (namespace_takes_its_objects (λ _, "E") (answers 36) (λ _ _, true) (λ _ k, (true, k)) sample_cg
    "/b" true sample_uuid record_send sample_parse (λ _, 0%nat) 7 "x" team_app resp s' E team_wf)
    as (_ & _ & _ & _ & Hk).
  exists resp, s'. split; [reflexivity|]. split; [exact H|].
  destruct (Hk "Ingress/x/site" (tracker_new 2 (RIngress {| ing_metadata := sample_meta "site" "x"; ing_spec := None |})))
    as (t' & Ht & _).
  - vm_compute. reflexivity.
  - discriminate.
  - left. reflexivity.
  - exists t'. exact Ht.
Defined.

Lemma deleted_pod_is_gone_witness :
  ∃ resp s', on_sample delete_pod 7 "x" "web" team_app = Ret (inr resp, s')
    ∧ get_pod 7 "x" "web" s' = Ret (inl (quoted "pod" "web"), s').
Proof.
  assert (match on_sample delete_pod 7 "x" "web" team_app with
          | Ret (inr _, _) => True | _ => False end) as H by (vm_compute; exact I).
  destruct (on_sample delete_pod 7 "x" "web" team_app) as [[[e|resp] s']|] eqn:E; [destruct H| |destruct H].
  exists resp, s'. split; [reflexivity|].
  exact (deleted_pod_is_gone (λ _, "E") (answers 36) (λ _ _, true) (λ _ k, (true, k)) sample_cg
    "/b" true sample_uuid record_send sample_parse (λ _, 0%nat) 7 "x" "web" team_app resp s' E team_wf).
Defined.

(** The image of this pod cannot be prepared: it is filed as running all the same, without a
    process. *)
Lemma created_pod_is_served_witness :
  ∃ resp s' pod t, on_sample create_pod 7 "x" (as_bytes "db bad") team_app = Ret (inr resp, s')
    ∧ app_store s' !! uid (RPod pod) = Some t ∧ state t = Running
    ∧ get_pod 7 (namespace (RPod pod)) (name (RPod pod)) s' = Ret (inr (ok (body resp)), s')
    ∧ pid ∘ instance <$> running (app_sup s') !! "db-main" = Some None.
Proof.
  assert (match on_sample create_pod 7 "x" (as_bytes "db bad") team_app with
          | Ret (inr resp, s') => pid ∘ instance <$> running (app_sup s') !! "db-main" = Some None
          | _ => False end) as H by (vm_compute; reflexivity).
  destruct (on_sample create_pod 7 "x" (as_bytes "db bad") team_app) as [[[e|resp] s']|] eqn:E;
    [destruct H| |destruct H].
  destruct (created_pod_is_served (λ _, "E") (answers 36) (λ _ _, true) (λ _ k, (true, k)) sample_cg
    "/b" true sample_uuid record_send sample_parse (λ _, 0%nat) 7 "x" _ team_app resp s' E team_wf)
    as (_ & v & s1 & pod0 & t & _ & _ & Ht & _ & Hs & Hg).
  exists resp, s', (fill_pod_metadata 7 (with_pod_meta (default_namespace "x") pod0)), t. split; [reflexivity|]. split; [exact Ht|]. split; [exact Hs|].
  split; [exact Hg|exact H].
Defined.
