(* ===== verification/Views.v ===== *)
(** * Views: what the API shows, counts and fills in
    (src/src/api/handlers/pod.rs, src/src/api/handlers/deployment.rs,
    src/src/api/handlers/service.rs, src/src/api/handlers/metrics.rs)

    When a pod is shown as ready, which pods a list selects, which pods the status of a
    deployment counts, what a service gets on creation and where the metrics are read. *)
From S2P Require Import Prelude Text Utf8 Json Resources Proto Config Pool Netlink Nft NetMux Cri SpecBuilder Runtime Process Deployment Service Panics Policy Ingress Storage Registry World Reach Query Routes Api Served.

(** ** Ready pods *)

(** A pod is shown as ready exactly when it is running and the supervisor calls it ready.
    Then, and only then, all its containers are shown as ready, and so as running and
    started. *)
Theorem pod_ready_view `{HO : HashOrder} now pod st is_ready counts ip :
  let ps := pod_status_of now pod st is_ready counts ip in
  (pst_conditions ps !! 1%nat = Some (pod_condition "Ready" "True" now) ↔ st = Running ∧ is_ready = true)
  ∧ ∀ l c, pst_container_statuses ps = Some l → c ∈ l →
      (cst_ready c = true ↔ st = Running ∧ is_ready = true)
      ∧ (cst_ready c = true → cst_state c = CsRunning now ∧ cst_started c = true).
Proof.
  intros ps. assert (is_ready && is_state_running st = true ↔ st = Running ∧ is_ready = true) as Hr.
  { unfold is_state_running. rewrite andb_true_iff, bool_decide_eq_true. tauto. }
  split.
  - cbn. rewrite <- Hr. by destruct (is_ready && is_state_running st).
  - intros l c Hl Hc. unfold ps, pod_status_of in Hl. cbn in Hl.
    destruct (pod_spec pod) as [sp|]; [|done]. injection Hl as <-.
    apply list_elem_of_fmap in Hc as (x & -> & _). cbn. split; [done|].
    intros [-> ->]%Hr. unfold container_state. by rewrite andb_false_r.
Qed.

Lemma pod_ready_view_witness :
  match pod_with "web" "i" with
  | RPod p => pst_conditions (pod_status_of 7 p Running true ∅ None) !! 1%nat
              = Some (pod_condition "Ready" "True" 7)
  | _ => False
  end.
Proof.
  cbn [pod_with]. apply (pod_ready_view 7 _ Running true ∅ None). split; reflexivity.
Defined.

(** ** Listed pods *)

Section views.
Context `{HO : HashOrder} {K KN : Type} `{AC : ApiCodec}.
Variable parse_rfc3339 : string → option Z.
Variable now : Z.
Implicit Types s : AppState K KN.

(** A label requirement, as its meaning. *)
Definition meets (lbls : gmap string string) (r : string * option string) : Prop :=
  match r.2 with Some v => lbls !! r.1 = Some v | None => is_Some (lbls !! r.1) end.

Lemma matches_requirement_spec lbls r : matches_requirement lbls r = true ↔ meets lbls r.
Proof.
  unfold matches_requirement, meets. destruct r.2; [apply bool_decide_eq_true|apply is_some_true].
Qed.

Definition selected (ns : option string) (selector : list (string * option string))
    (t : ResourceTracker) : Prop :=
  (∀ n, ns = Some n → namespace (resource t) = n)
  ∧ match resource t with
    | RPod pod => Forall (meets (unwrap_or (om_labels (pod_metadata pod)) ∅)) selector
    | _ => False
    end.

Lemma listed_pod_spec ns selector t :
  kind (resource t) = "Pod" → listed_pod ns selector t = true ↔ selected ns selector t.
Proof.
  intros Hk. unfold listed_pod, selected. rewrite andb_true_iff.
  assert (in_namespace ns t = true ↔ ∀ n, ns = Some n → namespace (resource t) = n) as ->.
  { unfold in_namespace. destruct ns as [m|]; [|split; [by intros _ n|done]].
    rewrite bool_decide_eq_true. split; [intros <- n; congruence|auto]. }
  destruct (resource t) as [pod| | | | | | | | | | | |]; try done.
  apply and_iff_compat_l. destruct selector as [|r l]; [split; [constructor|done]|].
  unfold pod_labels_match. rewrite forallb_forall, Forall_forall.
  setoid_rewrite <- list_elem_of_In. setoid_rewrite matches_requirement_spec. done.
Qed.

(** A list of pods shows every pod of the namespace whose labels meet the selector, once,
    and no other. *)
Theorem list_pods_selects ns raw selector accept s :
  extract_label_selector raw = selector → store_wf (app_store s) → accepts_table accept = false →
  ∃ l, list_pods_in_ns now parse_rfc3339 ns raw accept s
       = Ret (inr (ok (BValue (typed_list "PodList" "v1"
               ((λ t, pod_view now (resource t) (state t) (app_sup s)) <$> l)))), s)
    ∧ NoDup l
    ∧ ∀ t, t ∈ l ↔ kind (resource t) = "Pod" ∧ app_store s !! uid (resource t) = Some t
                   ∧ selected ns selector t.
Proof.
  intros <- Hwf Ha. eexists. split; [|split].
  - unfold list_pods_in_ns, store_by_kind, gets, mbind, apiR_bind. by rewrite Ha.
  - apply NoDup_ListNoDup, List.NoDup_filter, NoDup_ListNoDup.
    apply (get_by_kind_spec _ _ (tracker_new 0 (sample_pod "" "")) Hwf).
  - intros t. rewrite list_elem_of_In, filter_In, <- list_elem_of_In.
    rewrite (proj1 (get_by_kind_spec _ _ _ Hwf)). split.
    + intros [[Hk Ht] Hl]. by apply listed_pod_spec in Hl.
    + intros (Hk & Ht & Hl). split; [done|]. by apply listed_pod_spec.
Qed.
End views.

Lemma list_pods_selects_witness :
  ∃ l, list_pods_in_ns 7 (λ _, Some 0) (Some "x") "labelSelector=app" None (sample_app (sample_cluster "i"))
       = Ret (inr (ok (BValue (typed_list "PodList" "v1"
               ((λ t, pod_view 7 (resource t) (state t) (app_sup (sample_app (sample_cluster "i")))) <$> l)))),
              sample_app (sample_cluster "i")) ∧ NoDup l.
Proof.
  destruct (list_pods_selects (λ _, Some 0) 7 (Some "x") "labelSelector=app" [("app", None)] None
    (sample_app (sample_cluster "i"))) as (l & H & Hl & _).
  - vm_compute. reflexivity.
  - apply apply_wf, store_new_wf.
  - reflexivity.
  - exists l. split; [exact H|exact Hl].
Defined.

(** ** Counted pods *)

(** The status of a deployment counts only pods that the controller counts as well, and
    counts each pod that the controller creates. *)
Theorem status_counts_controller_pods deploy t lbls :
  target_of deploy = Some t → om_name (dep_metadata deploy) = Some (t_name t) →
  (sp ← dep_spec deploy; ds_match_labels sp) = Some lbls →
  (∀ tr, counted_pod (t_name t) (t_namespace t) lbls tr = true → pod_matches t tr = true)
  ∧ ∀ suffix st now, counted_pod (t_name t) (t_namespace t) lbls
      {| resource := pod_of t (t_name t +:+ "-pod-" +:+ suffix); state := st; last_updated := now |} = true.
Proof.
  intros Ht Hn Hl. revert Ht. unfold target_of. destruct (dep_spec deploy) as [sp|] eqn:E; [|done].
  cbn in Hl |- *. intros [= <-]. cbn [t_name t_namespace t_labels]. cbn in Hn. rewrite Hl. cbn [unwrap_or]. split.
  - intros tr. unfold counted_pod, pod_matches. destruct (resource tr) as [pod| | | | | | | | | | | |]; try done.
    cbn [t_name t_namespace t_labels]. rewrite !andb_true_iff. intros [[Hns Hm] Hp].
    split; [split|done].
    + unfold pod_owned_by_deployment. unfold pod_managed_by_deployment in Hm.
      rewrite orb_true_iff. by right.
    + destruct (om_labels _); [exact Hp|done].
  - intros suffix st now0. unfold counted_pod, pod_of, create_pod_from_template. cbn [t_deploy t_namespace t_name].
    rewrite E. cbn. rewrite bool_decide_true by done. cbn.
    unfold pod_managed_by_deployment. cbn. apply andb_true_iff. split.
    + apply (starts_with_app_3 _ "-pod-" suffix).
    + apply has_labels_spec. unfold extend. rewrite Hl. apply map_union_subseteq_l.
Qed.

Lemma status_counts_controller_pods_witness :
  counted_pod "web" "x" {[ "app" := "web" ]}
    {| resource := pod_of (sample_target 2) "web-pod-1a"; state := Pending; last_updated := 3 |} = true.
Proof.
  destruct (status_counts_controller_pods (sample_deploy 2) (sample_target 2) {[ "app" := "web" ]})
    as [_ H]; [reflexivity..|]. exact (H "1a" Pending 3).
Defined.

(** The replicas that a scale request asks for are kept modulo 2^32. *)
Example scale_wraps d :
  scale_target (jobj [("spec", jobj [("replicas", JNum (2 ^ 32 + 1))])]) d = 1.
Proof. vm_compute. reflexivity. Qed.

(** ** Services *)

Section services.
Context {K KN : Type}.
Variable cfg : Config.
Implicit Types s : AppState K KN.

(** Whether the type of a service publishes its ports on the node. *)
Definition publishes (ty : string) : bool :=
  bool_decide (ty = "NodePort") || bool_decide (ty = "LoadBalancer").

(** A port after completion: its target port and, if the type publishes it, its node port
    are there; what was given is kept. *)
Definition completed (ty : string) (p p' : ServicePort) : Prop :=
  sp_name p' = sp_name p ∧ sp_port p' = sp_port p
  ∧ sp_target_port p' = Some (unwrap_or (sp_target_port p) (IoInt (sp_port p)))
  ∧ (is_Some (sp_node_port p) → sp_node_port p' = sp_node_port p)
  ∧ (sp_node_port p = None → is_Some (sp_node_port p') ↔ publishes ty = true).

Lemma assign_ports_spec ty l : ∀ s l' s',
  assign_ports ty l s = Ret (inr l', s') →
  Forall2 (completed ty) l l' ∧ ip_counter s' = ip_counter s.
Proof.
  induction l as [|p l IH]; intros s l' s'; cbn [assign_ports].
  { by intros [= <- <-]. }
  intros [(? & _ & ?)|(p' & s1 & H1 & H)]%api_bind_inv; [done|].
  apply api_bind_inv in H as [(? & _ & ?)|(ps & s2 & H2 & [= <- <-])]; [done|].
  destruct (IH _ _ _ H2) as [Hl Hi].
  assert (completed ty p p' ∧ ip_counter s1 = ip_counter s) as [Hc Hi1].
  { unfold assign_port in H1. fold (publishes ty) in H1. unfold completed.
    assert (or_else (sp_target_port p) (IoInt (sp_port p))
      = Some (unwrap_or (sp_target_port p) (IoInt (sp_port p)))) as Ht by by destruct (sp_target_port p).
    destruct (publishes ty); cbn [andb] in H1.
    - cbn [default_target_port sp_node_port] in H1. destruct (sp_node_port p) as [np|] eqn:En; cbn in H1.
      + injection H1 as <- <-. split; [|done]. cbn. rewrite En. by eauto.
      + injection H1 as <- <-. split; [|done]. cbn. by eauto 10.
    - injection H1 as <- <-. split; [|done]. cbn. split; [done|]. split; [done|]. split; [done|].
      split; [done|]. intros ->. split; [by intros [? ?]|done]. }
  split; [by constructor|congruence].
Qed.

(** On creation a service without an address gets the next one, unless it is an external
    name; every port gets a target port and, in a service that publishes its ports, a node
    port; and whatever was given is kept. *)
Theorem service_spec_completed sp s sp' s' :
  complete_spec cfg sp s = Ret (inr sp', s') →
  let ty := svc_type sp in
  let needs_ip := bool_decide (unwrap_or (ss_cluster_ip sp) "" = "") && negb (bool_decide (ty = "ExternalName")) in
  let next := alloc_cluster_ip cfg (ip_counter s) in
  ss_type sp' = ss_type sp ∧ ss_selector sp' = ss_selector sp
  ∧ ss_cluster_ip sp' = (if needs_ip then Some next.1 else ss_cluster_ip sp)
  ∧ ip_counter s' = (if needs_ip then next.2 else ip_counter s)
  ∧ match ss_ports sp, ss_ports sp' with
    | Some l, Some l' => Forall2 (completed ty) l l'
    | None, None => True
    | _, _ => False
    end.
Proof.
  intros H ty needs_ip next. unfold complete_spec in H. cbv zeta in H.
  apply api_bind_inv in H as [(? & _ & ?)|(sp1 & s1 & H1 & H)]; [done|].
  assert (ss_type sp1 = ss_type sp ∧ ss_selector sp1 = ss_selector sp ∧ ss_ports sp1 = ss_ports sp
    ∧ ss_cluster_ip sp1 = (if needs_ip then Some next.1 else ss_cluster_ip sp)
    ∧ ip_counter s1 = (if needs_ip then next.2 else ip_counter s)) as (Ht & Hs & Hp & Hip & Hc).
  { unfold assign_cluster_ip in H1. fold ty in H1. fold needs_ip in H1. destruct needs_ip.
    - unfold api_cluster_ip, mbind, apiR_bind in H1. subst next. destruct (alloc_cluster_ip cfg _) as [ip n].
      by injection H1 as <- <-.
    - by injection H1 as <- <-. }
  rewrite Hp in H. destruct (ss_ports sp) as [l|].
  - apply api_bind_inv in H as [(? & _ & ?)|(ps & s2 & H2 & [= <- <-])]; [done|].
    apply assign_ports_spec in H2 as [Hf Hi]. cbn. rewrite Hi. by eauto 10.
  - injection H as <- <-. rewrite Hp. by eauto 10.
Qed.
End services.

Definition sample_service_spec (ty : string) : ServiceSpec :=
  {| ss_type := Some ty; ss_cluster_ip := None; ss_cluster_ips := None; ss_selector := None;
     ss_ports := Some [{| sp_name := None; sp_port := 80; sp_target_port := None; sp_node_port := None |}];
     ss_external_name := None |}.

Lemma service_spec_completed_witness :
  ∃ sp' s', complete_spec (config_default None None) (sample_service_spec "NodePort")
              (sample_app (sample_cluster "i")) = Ret (inr sp', s')
  ∧ ss_cluster_ip sp' = Some "10.96.0.1".
Proof.
  destruct (complete_spec (config_default None None) (sample_service_spec "NodePort")
              (sample_app (sample_cluster "i"))) as [[[e|sp'] s']|] eqn:H; [exfalso; vm_compute in H; done| |exfalso; vm_compute in H; done].
  exists sp', s'. split; [reflexivity|].
  destruct (service_spec_completed _ _ _ _ _ H) as (_ & _ & -> & _). vm_compute. reflexivity.
Defined.

(** The counter of node ports wraps: the port after the last one is zero, and nothing asks
    whether a port is in use. *)
Example node_port_wraps s :
  nodeport_counter s = 65535 →
  ∃ s', alloc_node_port (K := Tree) (KN := unit) s = Ret (inr 65535, s') ∧ nodeport_counter s' = 0.
Proof. intros H. eexists. unfold alloc_node_port. rewrite H. by split. Qed.

(** ** Metrics *)

Section metrics.
Context {K : Type} `{FS : FileSystem K}.

Lemma chars_replace_char c d s :
  chars (replace_char c (String d "") s) = (λ a, if Ascii.eqb a c then d else a) <$> chars s.
Proof.
  induction s as [|a s IH]; [done|]. cbn. destruct (Ascii.eqb a c); cbn; by rewrite IH.
Qed.

(** The handler spells the name of a cgroup as the cgroup manager does. *)
Lemma sanitize_cg_is_manager n : sanitize_cg n = sanitize_cgroup_name n.
Proof.
  rewrite <- (of_chars_chars (sanitize_cgroup_name n)). unfold sanitize_cg, sanitize_cgroup_name.
  f_equal. rewrite !chars_replace_char, <- !list_fmap_compose. apply list_fmap_ext. intros _ a _.
  unfold sanitize_cg_char. cbn.
  destruct (Ascii.eqb_spec a "/") as [->|]; [done|].
  destruct (Ascii.eqb_spec a ".") as [->|]; [done|]. cbn.
  by destruct (Ascii.eqb a ":").
Qed.

(** What the API reports as the memory of a pod is what the kernel says of the cgroup that
    the supervisor made for the uid of the pod. *)
Theorem pod_memory_is_its_cgroup now m k (t : ResourceTracker) :
  base_path m = CGROUP_DIR +:+ "/z8s" →
  ∃ mem, mem = unwrap_or (s ← read_to_string (cg_file m (uid (resource t)) "memory.current") k;
                          parse_u64 (trim s)) 0
  ∧ ∃ cpu, jidx "containers" (pod_metrics now k t)
     = JArr [jobj [("name", JStr (name (resource t))); ("usage", usage cpu mem)]].
Proof.
  intros Hm. eexists. split; [reflexivity|]. unfold cg_file. rewrite Hm, <- sanitize_cg_is_manager.
  exists (cgroup_cpu_usage (sanitize_cg (uid (resource t))) k). unfold pod_metrics, cgroup_memory_current.
  generalize (sanitize_cg (uid (resource t))). intros cg. reflexivity.
Qed.
End metrics.

(** The node reads the cgroup [z8s/z8s], which nobody makes. *)
Example node_metrics_path {K} `{FS : FileSystem K} k :
  read_to_string "/sys/fs/cgroup/z8s/z8s/memory.current" k = None →
  cgroup_memory_current "z8s" k = 0.
Proof. intros H. unfold cgroup_memory_current. cbn. by rewrite H. Qed.
