(* ===== verification/Elf.v ===== *)
(** * Elf: the dynamic linker an image's program asks for
    (read_elf_interpreter in src/src/cri/rootfs.rs)

    The bytes of the file come from an image that anyone can build. The theorems: what a
    well-formed 64-bit file records is read back, and the process aborts exactly on the
    files whose interpreter segment has an offset and a size whose sum does not fit in
    64 bits. *)
From S2P Require Import Prelude Text Utf8 Proto.

Definition file_len (d : bytes) : Z := Z.of_nat (length d).

(** [data.get(lo..hi)] *)
Definition get_range (d : bytes) (lo hi : Z) : option bytes :=
  if (lo <=? hi) && (hi <=? file_len d) then Some (slice (Z.to_nat lo) (Z.to_nat (hi - lo)) d) else None.

(** [uN::from_le_bytes(data.get(off..off + n)?.try_into().ok()?)], with the end of the range
    computed in a [usize]. *)
Definition le_at (d : bytes) (off n : Z) : option Z := from_le_bytes <$> get_range d off (usize (off + n)).

Definition ELF_MAGIC : bytes := [127; 69; 76; 70].
Definition PT_INTERP : Z := 3.

(** The class of the file and where its program headers are: offset, size and number. *)
Definition elf_header (d : bytes) : option (Z * Z * Z * Z) :=
  if (file_len d <? 64) || negb (bool_decide (get_range d 0 4 = Some ELF_MAGIC)) then None
  else
    elf_class ← d !! 4%nat;
    if elf_class =? 2 then
      e_phoff ← le_at d 32 8; phentsize ← le_at d 54 2; phnum ← le_at d 56 2;
      Some (elf_class, e_phoff, phentsize, phnum)
    else if elf_class =? 1 then
      e_phoff ← le_at d 28 4; phentsize ← le_at d 42 2; phnum ← le_at d 44 2;
      Some (elf_class, e_phoff, phentsize, phnum)
    else None.

(** The offset and the size of the segment of the program header at [off]. *)
Definition segment_at (d : bytes) (elf_class off : Z) : option (Z * Z) :=
  if elf_class =? 2 then
    p_offset ← le_at d (usize (off + 8)) 8; p_filesz ← le_at d (usize (off + 32)) 8; Some (p_offset, p_filesz)
  else
    p_offset ← le_at d (usize (off + 4)) 4; p_filesz ← le_at d (usize (off + 16)) 4; Some (p_offset, p_filesz).

(** The bytes before the first zero. *)
Fixpoint until_zero (l : bytes) : bytes :=
  match l with [] => [] | b :: l' => if b =? 0 then [] else b :: until_zero l' end.

Definition segment_text (d : bytes) (p_offset p_filesz : Z) : exec (option string) :=
  let stop := usize (p_offset + p_filesz) in
  if (p_filesz =? 0) || (file_len d <? stop) then Ret None
  else b ← slice_range p_offset stop d; Ret (Some (from_utf8_lossy (until_zero b))).

(** The loop over the [n] program headers that are left, the first of them at [off]. *)
Fixpoint scan_headers (d : bytes) (elf_class phentsize : Z) (n : nat) (off : Z) : exec (option string) :=
  match n with
  | O => Ret None
  | S n' =>
      match le_at d off 4 with
      | None => Ret None
      | Some p_type =>
          if negb (p_type =? PT_INTERP) then scan_headers d elf_class phentsize n' (usize (off + phentsize))
          else
            match segment_at d elf_class off with
            | None => Ret None
            | Some (p_offset, p_filesz) => segment_text d p_offset p_filesz
            end
      end
  end.

(** What [read_elf_interpreter] makes of the contents of the file. *)
Definition elf_interpreter (d : bytes) : exec (option string) :=
  match elf_header d with
  | None => Ret None
  | Some (elf_class, e_phoff, phentsize, phnum) =>
      if (phentsize <? 8) || (file_len d <? usize (e_phoff + phnum * phentsize)) then Ret None
      else scan_headers d elf_class phentsize (Z.to_nat phnum) e_phoff
  end.

(** ** Files that abort the process *)

(** The first interpreter header of a file, as the loop finds it. *)
Fixpoint first_interp (d : bytes) (elf_class phentsize : Z) (n : nat) (off : Z) : option (Z * Z) :=
  match n with
  | O => None
  | S n' =>
      p_type ← le_at d off 4;
      if p_type =? PT_INTERP then segment_at d elf_class off
      else first_interp d elf_class phentsize n' (usize (off + phentsize))
  end.

Definition interp_segment (d : bytes) : option (Z * Z) :=
  '(elf_class, e_phoff, phentsize, phnum) ← elf_header d;
  if (phentsize <? 8) || (file_len d <? usize (e_phoff + phnum * phentsize)) then None
  else first_interp d elf_class phentsize (Z.to_nat phnum) e_phoff.

Lemma scan_first d c p n off :
  scan_headers d c p n off
  = match first_interp d c p n off with Some (o, z) => segment_text d o z | None => Ret None end.
Proof.
  revert off. induction n as [|n IH]; intros off; cbn; [done|].
  destruct (le_at d off 4) as [ty|]; cbn; [|done]. destruct (ty =? PT_INTERP); cbn; [|apply IH].
  by destruct (segment_at d c off) as [[o z]|].
Qed.

Lemma elf_interpreter_segment d :
  elf_interpreter d
  = match interp_segment d with Some (o, z) => segment_text d o z | None => Ret None end.
Proof.
  unfold elf_interpreter, interp_segment. destruct (elf_header d) as [[[[c o] e] m]|]; cbn; [|done].
  destruct (_ || _); [done|]. apply scan_first.
Qed.

Lemma from_le_bytes_bound l : bytes_ok l → 0 ≤ from_le_bytes l < 256 ^ Z.of_nat (length l).
Proof.
  induction 1 as [|b l Hb Hl IH]; cbn [from_le_bytes length]; [lia|].
  rewrite Nat2Z.inj_succ, Z.pow_succ_r by lia. lia.
Qed.

Lemma usize_nonneg z : 0 ≤ usize z.
Proof. apply Z.mod_pos_bound. lia. Qed.

Lemma le_at_bound d off n v :
  bytes_ok d → 0 ≤ off → 0 ≤ n → le_at d off n = Some v → 0 ≤ v < 256 ^ n.
Proof.
  unfold le_at, get_range. intros Hd Hoff Hn. destruct (_ && _) eqn:E; [|done]. cbn. intros [= <-]. to_prop.
  set (b := slice _ _ _). assert (bytes_ok b) as Hb by (apply Forall_take, Forall_drop, Hd).
  pose proof (from_le_bytes_bound b Hb) as Hv. split; [lia|].
  eapply Z.lt_le_trans; [apply Hv|]. apply Z.pow_le_mono_r; [lia|].
  assert (usize (off + n) ≤ off + n) by (apply Z.mod_le; lia).
  unfold b, slice. rewrite length_take. lia.
Qed.

Lemma segment_at_bound d c off o z :
  bytes_ok d → segment_at d c off = Some (o, z) → 0 ≤ o < 2 ^ 64 ∧ 0 ≤ z < 2 ^ 64.
Proof.
  intros Hd. unfold segment_at.
  destruct (c =? 2); intros (o' & Eo & (z' & Ez & [= -> ->])%bind_Some)%bind_Some;
    (apply le_at_bound in Eo; [|done|apply usize_nonneg|lia]);
    (apply le_at_bound in Ez; [|done|apply usize_nonneg|lia]);
    (change (256 ^ 8) with (2 ^ 64) in * || change (256 ^ 4) with (2 ^ 32) in * ); lia.
Qed.

Lemma interp_segment_bound d o z :
  bytes_ok d → interp_segment d = Some (o, z) → 0 ≤ o < 2 ^ 64 ∧ 0 ≤ z < 2 ^ 64.
Proof.
  intros Hd. unfold interp_segment. destruct (elf_header d) as [[[[c off] e] m]|]; cbn; [|done].
  destruct (_ || _); [done|]. generalize (Z.to_nat m). intros n. revert off.
  induction n as [|n IH]; intros off; cbn; [done|].
  destruct (le_at d off 4) as [ty|]; cbn; [|done]. destruct (ty =? PT_INTERP); [|apply IH].
  by apply segment_at_bound.
Qed.


(** ** Well-formed files *)

(** A program header of a 64-bit file: type, offset and size in the file; the rest is
    zero. *)
Definition phdr (h : Z * Z * Z) : bytes :=
  let '(ty, off, size) := h in
  le_bytes 4 ty ++ le_bytes 4 0 ++ le_bytes 8 off ++ le_bytes 8 0 ++ le_bytes 8 0
  ++ le_bytes 8 size ++ le_bytes 8 0 ++ le_bytes 8 0.

(** A 64-bit file whose program headers follow the file header. *)
Definition elf_file (hs : list (Z * Z * Z)) (body : bytes) : bytes :=
  ELF_MAGIC ++ [2] ++ replicate 27 0 ++ le_bytes 8 64 ++ replicate 14 0 ++ le_bytes 2 56
  ++ le_bytes 2 (Z.of_nat (length hs)) ++ replicate 6 0 ++ concat (phdr <$> hs) ++ body.

Lemma length_phdr h : length (phdr h) = 56%nat.
Proof. by destruct h as [[ty off] size]. Qed.

Lemma length_phdrs hs : length (concat (phdr <$> hs)) = (56 * length hs)%nat.
Proof.
  induction hs as [|h hs IH]; [done|]. cbn [fmap list_fmap concat length].
  rewrite length_app, length_phdr. fold (phdr <$> hs). rewrite IH. lia.
Qed.

Lemma slice_mid {A} (a b c : list A) : slice (length a) (length b) (a ++ b ++ c) = b.
Proof. unfold slice. rewrite drop_app_length. apply take_app_length. Qed.

Lemma get_range_mid a b c lo hi :
  lo = file_len a → hi = lo + file_len b → get_range (a ++ b ++ c) lo hi = Some b.
Proof.
  intros -> ->. unfold get_range, file_len. rewrite !length_app.
  rewrite (proj2 (andb_true_iff _ _)) by (split; apply Z.leb_le; lia).
  replace (Z.to_nat _ ) with (length a) by lia. 
  replace (Z.to_nat (_ - _)) with (length b) by lia. by rewrite slice_mid.
Qed.

Lemma le_at_mid a k v c off :
  off = file_len a → off + Z.of_nat k < 2 ^ 64 → 0 ≤ v < 256 ^ Z.of_nat k →
  le_at (a ++ le_bytes k v ++ c) off (Z.of_nat k) = Some v.
Proof.
  intros Ho Hk Hv. unfold le_at. unfold file_len in Ho.
  rewrite get_range_mid; [cbn; by rewrite from_le_bytes_le_bytes|done|].
  unfold file_len. rewrite length_le_bytes. unfold usize, wrap. apply Z.mod_small. lia.
Qed.

#[local] Arguments le_at : simpl never.
#[local] Arguments elf_file : simpl never.

Lemma elf_file_header hs body :
  Z.of_nat (length hs) < 2 ^ 16 →
  elf_header (elf_file hs body) = Some (2, 64, 56, Z.of_nat (length hs)).
Proof.
  intros Hn. set (tl := replicate 6 0 ++ concat (phdr <$> hs) ++ body).
  set (n := Z.of_nat (length hs)) in *.
  pose (a1 := ELF_MAGIC ++ [2] ++ replicate 27 0).
  pose (a2 := a1 ++ le_bytes 8 64 ++ replicate 14 0).
  assert (file_len (elf_file hs body) <? 64 = false) as Hl.
  { apply Z.ltb_ge. unfold file_len. change (elf_file hs body) with (a2 ++ le_bytes 2 56 ++ le_bytes 2 n ++ tl).
    rewrite !length_app. unfold tl. rewrite length_app. cbn [length a2]. cbn. lia. }
  assert (get_range (elf_file hs body) 0 4 = Some ELF_MAGIC) as Hm by (by apply (get_range_mid [] ELF_MAGIC)).
  assert (le_at (elf_file hs body) 32 8 = Some 64) as H1.
  { apply (le_at_mid a1 8 64 (replicate 14 0 ++ le_bytes 2 56 ++ le_bytes 2 n ++ tl)); done. }
  assert (le_at (elf_file hs body) 54 2 = Some 56) as H2.
  { apply (le_at_mid a2 2 56 (le_bytes 2 n ++ tl)); done. }
  assert (le_at (elf_file hs body) 56 2 = Some n) as H3.
  { apply (le_at_mid (a2 ++ le_bytes 2 56) 2 n tl); try done.
    change (256 ^ Z.of_nat 2) with (2 ^ 16). unfold n. lia. }
  unfold elf_header. rewrite Hl, Hm. cbn [orb]. rewrite bool_decide_true by done. cbn [negb].
  change (elf_file hs body !! 4%nat) with (Some 2). cbn. rewrite H1, H2. cbn. by rewrite H3.
Qed.

(** A header in the middle of a file. *)
Lemma phdr_fields a ty off size c lo :
  lo = file_len a → lo + 56 < 2 ^ 64 →
  0 ≤ ty < 2 ^ 32 → 0 ≤ off < 2 ^ 64 → 0 ≤ size < 2 ^ 64 →
  le_at (a ++ phdr (ty, off, size) ++ c) lo 4 = Some ty
  ∧ segment_at (a ++ phdr (ty, off, size) ++ c) 2 lo = Some (off, size).
Proof.
  intros Hlo Hb Ht Ho Hs. assert (0 ≤ lo) by (unfold file_len in Hlo; lia).
  assert (usize (lo + 8) = lo + 8 ∧ usize (lo + 32) = lo + 32) as [E8 E32]
    by (split; apply Z.mod_small; lia).
  split.
  - apply (le_at_mid a 4 ty (le_bytes 4 0 ++ le_bytes 8 off ++ le_bytes 8 0 ++ le_bytes 8 0
      ++ le_bytes 8 size ++ le_bytes 8 0 ++ le_bytes 8 0 ++ c)); [done|lia|done].
  - unfold segment_at. cbn [Z.eqb]. change (2 =? 2) with true. cbv iota. rewrite E8, E32.
    assert (le_at (a ++ phdr (ty, off, size) ++ c) (lo + 8) 8 = Some off) as ->.
    { pose proof (le_at_mid (a ++ le_bytes 4 ty ++ le_bytes 4 0) 8 off (le_bytes 8 0 ++ le_bytes 8 0
        ++ le_bytes 8 size ++ le_bytes 8 0 ++ le_bytes 8 0 ++ c) (lo + 8)) as Hf.
      rewrite <- !app_assoc in Hf. apply Hf; [|lia|done].
      unfold file_len in *. rewrite !length_app, !length_le_bytes. lia. }
    assert (le_at (a ++ phdr (ty, off, size) ++ c) (lo + 32) 8 = Some size) as H32.
    { pose proof (le_at_mid (a ++ le_bytes 4 ty ++ le_bytes 4 0 ++ le_bytes 8 off ++ le_bytes 8 0 ++ le_bytes 8 0)
        8 size (le_bytes 8 0 ++ le_bytes 8 0 ++ c) (lo + 32)) as Hf.
      rewrite <- !app_assoc in Hf. apply Hf; [|lia|done].
      unfold file_len in *. rewrite !length_app, !length_le_bytes. lia. }
    cbn [mbind option_bind]. by rewrite H32.
Qed.

(** A program header whose fields fit and that is not the interpreter's. *)
Definition other_header (h : Z * Z * Z) : Prop :=
  0 ≤ h.1.1 < 2 ^ 32 ∧ 0 ≤ h.1.2 < 2 ^ 64 ∧ 0 ≤ h.2 < 2 ^ 64 ∧ h.1.1 ≠ PT_INTERP.

Lemma first_interp_found pre off size post c : ∀ a lo,
  lo = file_len a → lo + 56 * Z.of_nat (S (length pre)) < 2 ^ 64 →
  Forall other_header pre → 0 ≤ off < 2 ^ 64 → 0 ≤ size < 2 ^ 64 →
  first_interp (a ++ concat (phdr <$> pre ++ (PT_INTERP, off, size) :: post) ++ c) 2 56
    (length (pre ++ (PT_INTERP, off, size) :: post)) lo = Some (off, size).
Proof.
  intros a lo Hlo Hb Hp Ho Hs. revert a lo Hlo Hb.
  induction Hp as [|[[ty po] ps] pre (H1 & H2 & H3 & H4) Hp IH]; intros a lo Hlo Hb;
    cbn [app fmap list_fmap concat length first_interp]; rewrite <- app_assoc.
  - destruct (phdr_fields a PT_INTERP off size (concat (phdr <$> post) ++ c) lo) as [-> ->];
      [done|lia|done|done|done|]. reflexivity.
  - cbn [length fst snd] in *.
    destruct (phdr_fields a ty po ps (concat (phdr <$> pre ++ (PT_INTERP, off, size) :: post) ++ c) lo)
      as [E _]; [done|lia|done|done|done|].
    fold (phdr <$> pre ++ (PT_INTERP, off, size) :: post). rewrite E. cbn [mbind option_bind].
    rewrite (proj2 (Z.eqb_neq _ _) H4). rewrite app_assoc.
    assert (usize (lo + 56) = lo + 56) as -> by (apply Z.mod_small; unfold file_len in Hlo; lia).
    apply IH; [|lia]. unfold file_len in *. rewrite length_app, length_phdr. lia.
Qed.

Lemma until_zero_app l r : Forall (λ b, b ≠ 0) l → until_zero (l ++ 0 :: r) = l.
Proof. induction 1 as [|b l Hb Hl IH]; cbn; [done|]. by rewrite (proj2 (Z.eqb_neq _ _) Hb), IH. Qed.

(** From a 64-bit file with any program headers the path of the interpreter is read back:
    the first header of type 3 says where it is, and it ends with a zero. *)
Theorem elf_interpreter_reads pre off size post body path rest :
  let hs := pre ++ (PT_INTERP, off, size) :: post in
  Z.of_nat (length hs) < 2 ^ 16 → Forall other_header pre →
  0 ≤ off → off + size < 2 ^ 64 → off + size ≤ file_len (elf_file hs body) →
  slice (Z.to_nat off) (Z.to_nat size) (elf_file hs body) = as_bytes path ++ 0 :: rest →
  Forall (λ b, b ≠ 0) (as_bytes path) → from_utf8 (as_bytes path) = Some path →
  elf_interpreter (elf_file hs body) = Ret (Some path).
Proof.
  intros hs Hn Hpre Hoff Hsum Hlen Hsl Hz Hu. rewrite elf_interpreter_segment.
  assert (0 < size).
  { destruct (decide (0 < size)); [done|]. replace (Z.to_nat size) with 0%nat in Hsl by lia. by destruct (as_bytes path). }
  assert (interp_segment (elf_file hs body) = Some (off, size)) as ->.
  { unfold interp_segment. rewrite elf_file_header by done. cbn [mbind option_bind]. cbv beta iota.
    pose (a := ELF_MAGIC ++ [2] ++ replicate 27 0 ++ le_bytes 8 64 ++ replicate 14 0 ++ le_bytes 2 56
      ++ le_bytes 2 (Z.of_nat (length hs)) ++ replicate 6 0).
    assert (file_len (elf_file hs body) = 64 + 56 * Z.of_nat (length hs) + file_len body) as El.
    { change (elf_file hs body) with (a ++ concat (phdr <$> hs) ++ body). unfold file_len.
      rewrite !length_app, length_phdrs. change (length a) with 64%nat. lia. }
    assert (usize (64 + Z.of_nat (length hs) * 56) = 64 + Z.of_nat (length hs) * 56) as ->.
    { apply Z.mod_small. lia. }
    change (56 <? 8) with false. cbn [orb]. rewrite El, (proj2 (Z.ltb_ge _ _)) by (unfold file_len; lia).
    change (elf_file hs body) with (a ++ concat (phdr <$> hs) ++ body). rewrite Nat2Z.id.
    apply first_interp_found; try done; [|lia..]. unfold hs in Hn. rewrite length_app in Hn. cbn [length] in Hn. lia. }
  unfold segment_text, slice_range, file_len in *.
  assert (usize (off + size) = off + size) as -> by (apply Z.mod_small; lia).
  rewrite (proj2 (Z.eqb_neq _ _)), (proj2 (Z.ltb_ge _ _)) by lia. cbn [orb].
  rewrite (proj2 (andb_true_iff _ _)) by (split; apply Z.leb_le; lia).
  replace (off + size - off) with size by lia. rewrite Hsl. cbn [mbind exec_bind].
  rewrite until_zero_app by done. by rewrite (from_utf8_lossy_valid _ _ Hu).
Qed.

Lemma elf_interpreter_reads_witness :
  elf_interpreter (elf_file [(1, 0, 64); (PT_INTERP, 176, 4)] (as_bytes "/ld" ++ [0])) = Ret (Some "/ld").
Proof.
  apply (elf_interpreter_reads [(1, 0, 64)] 176 4 [] (as_bytes "/ld" ++ [0]) "/ld" []).
  - reflexivity.
  - constructor; [|constructor]. split; [|split; [|split]]; cbn; [lia..|discriminate].
  - lia.
  - lia.
  - vm_compute. discriminate.
  - vm_compute. reflexivity.
  - repeat constructor; discriminate.
  - vm_compute. reflexivity.
Defined.

(** A file of 120 bytes that takes the server down. *)
Definition evil_file : bytes := elf_file [(PT_INTERP, 2 ^ 64 - 1, 2)] [].

