(* ===== verification/Host.v ===== *)
(** * Host: the system calls of a container's set-up
    (the calls of std::fs and nix in src/src/cri/volumes.rs, src/src/cri/rootfs.rs,
    src/src/cri/exec.rs and the child of src/src/cri/runtime.rs)

    The state [K] of the operating system is the one of [Cri.FileSystem]; here are the
    calls that the runtime's child and exec make on it beyond that. A boolean says whether
    a call succeeded. [x_check] is [call.context(msg)?], [x_ok] ignores the outcome. *)
From S2P Require Import Prelude Text Utf8 Cri.

Inductive MsFlag := MS_BIND | MS_REC | MS_RDONLY | MS_REMOUNT | MS_SLAVE | MS_PRIVATE | MS_NOSUID | MS_NOEXEC | MS_NODEV.
Inductive CloneFlag := CLONE_NEWUSER | CLONE_NEWNS | CLONE_NEWUTS | CLONE_NEWIPC | CLONE_NEWNET.
Inductive CapSet := Bounding | Effective | Permitted | Inheritable | Ambient.

#[export] Instance CapSet_eq_dec : EqDecision CapSet.
Proof. solve_decision. Defined.

Class Syscalls (K : Type) := {
  (** Files: contents, links, kinds, device and inode, owner and group. *)
  fs_read : string → K → option bytes;
  read_link : string → K → option string;
  is_symlink : string → K → bool;
  is_dir : string → K → bool;
  is_file : string → K → bool;
  file_id : string → K → option (Z * Z);
  file_owner : string → K → option (Z * Z);
  access_read : string → K → bool;
  remove_file : string → K → bool * K;
  fs_copy : string → string → K → bool * K;
  symlink : string → string → K → bool * K;
  mknod_tty : string → K → bool * K;
  (** Mounts and roots. *)
  mount : option string → string → option string → list MsFlag → K → bool * K;
  umount : string → K → bool * K;
  pivot_root : string → string → K → bool * K;
  chroot : string → K → bool * K;
  chdir : string → K → bool * K;
  (** Namespaces and identity. *)
  unshare : list CloneFlag → K → bool * K;
  sethostname : string → K → bool * K;
  loopback_up : K → bool * K;
  setgid : Z → K → bool * K;
  setuid : Z → K → bool * K;
  setsid : K → bool * K;
  raise_nproc_limit : K → bool * K;
  landlock_restrict : K → bool * K;
  (** Capabilities, by name: those of the kernel, the permitted ones, and changes. *)
  caps_all : list string;
  cap_parse : string → option string;
  caps_permitted : K → option (list string);
  cap_drop_bounding : string → K → bool * K;
  caps_set : CapSet → list string → K → bool * K;
  (** The pipes between parent and child: one byte, none at the end of the stream. *)
  write_sync : K → bool * K;
  read_ack : K → option (list byte) * K;
  (** A command: not run, or whether it succeeded. *)
  run_command : string → list string → K → option bool * K;
  user_name : Z → K → option string;
  getuid : Z;
  getgid : Z;
  env_path : option string
}.

Section checks.
Context {K : Type}.
(** [call.context(msg)?] *)
Definition x_check (msg : string) (f : K → bool * K) : execR K unit := λ k,
  let '(b, k') := f k in Ret (if b then Ok () else Err msg, k').
(** [let _ = call], [call.ok()] *)
Definition x_ok (f : K → bool * K) : execR K unit := λ k, Ret (Ok (), (f k).2).
(** [call.is_ok()] *)
Definition x_is_ok (f : K → bool * K) : execR K bool := λ k, let '(b, k') := f k in Ret (Ok b, k').
Definition x_gets {A} (f : K → A) : execR K A := λ k, Ret (Ok (f k), k).
(** [m.is_ok()] *)
Definition x_succeeds {A} (m : execR K A) : execR K bool := r ← x_try m; mret (is_ok r).
Definition x_when (b : bool) (m : execR K unit) : execR K unit := if b then m else mret ().
End checks.

(** [split] of bytes at a byte. *)
Fixpoint split_bytes (c : byte) (l : bytes) : list bytes :=
  match l with
  | [] => [[]]
  | b :: l' =>
      if b =? c then [] :: split_bytes c l'
      else match split_bytes c l' with w :: ws => (b :: w) :: ws | [] => [[b]] end
  end.

(** The PATH of an environment block: the first variable that is one and is text. *)
Definition path_variable (environ : bytes) : option string :=
  find_map (λ var, if bool_decide (take 5 var = as_bytes "PATH=") then from_utf8 (drop 5 var) else None)
    (split_bytes 0 environ).

Fixpoint x_for {S A} (f : A → execR S unit) (l : list A) : execR S unit :=
  match l with [] => mret () | a :: l' => _ ← f a; x_for f l' end.

(** What computations made of calls keep, when the calls keep it. *)
Abbreviation kept R m := (x_triple R m (λ _, True)).

Section kept.
Context {K : Type} (R : K → K → Prop) `{!PreOrder R}.

Lemma xt_check msg f : (∀ k, R k (f k).2) → kept R (x_check msg f).
Proof. intros Hf k r k'. unfold x_check. specialize (Hf k). destruct (f k). intros [= _ <-]. by split. Qed.
Lemma xt_ok f : (∀ k, R k (f k).2) → kept R (x_ok f).
Proof. intros Hf k r k' [= _ <-]. by split. Qed.
Lemma xt_is_ok f : (∀ k, R k (f k).2) → kept R (x_is_ok f).
Proof. intros Hf k r k'. unfold x_is_ok. specialize (Hf k). destruct (f k). intros [= _ <-]. by split. Qed.
Lemma xt_for {A} (f : A → execR K unit) l : (∀ a, a ∈ l → kept R (f a)) → kept R (x_for f l).
Proof using Type*.
  induction l as [|a l IH]; intros Hf; cbn [x_for]; [by apply (xt_ret R)|].
  apply (xt_seq R); [apply Hf, list_elem_of_here|]. intros _. apply IH.
  intros b Hb. by apply Hf, list_elem_of_further.
Qed.
Lemma xt_succeeds {A} (m : execR K A) : kept R m → kept R (x_succeeds m).
Proof using Type*.
  intros Hm. apply (xt_seq R); [eapply (xt_try R), Hm|]. intros r. by apply (xt_ret R).
Qed.
End kept.

(** ** The log of the calls that succeed *)

Inductive Event :=
  | EMount (src : option string) (dst : string) (fstype : option string) (flags : list MsFlag)
  | EPivot (new_root : string) | EChroot (dir : string) | EChdir (dir : string)
  | ESetgid (gid : Z) | ESetuid (uid : Z)
  | EDropBounding (cap : string) | ECapsSet (set : CapSet) (caps : list string)
  | ELandlock.

#[export] Instance MsFlag_eq_dec : EqDecision MsFlag.
Proof. solve_decision. Defined.
#[export] Instance Event_eq_dec : EqDecision Event.
Proof. solve_decision. Defined.

(** A call logs an event when it succeeds, and nothing when it fails. *)
Definition logs {K} (trace : K → list Event) (f : K → bool * K) (e : option Event) : Prop :=
  ∀ k, trace (f k).2 = trace k ++ match e with Some e => if (f k).1 then [e] else [] | None => [] end.

Class Trace (K : Type) `{FileSystem K} `{Syscalls K} := {
  trace : K → list Event;
  tr_mount s d t f : logs trace (mount s d t f) (Some (EMount s d t f));
  tr_umount p : logs trace (umount p) None;
  tr_pivot n o : logs trace (pivot_root n o) (Some (EPivot n));
  tr_chroot p : logs trace (chroot p) (Some (EChroot p));
  tr_chdir p : logs trace (chdir p) (Some (EChdir p));
  tr_setgid g : logs trace (setgid g) (Some (ESetgid g));
  tr_setuid u : logs trace (setuid u) (Some (ESetuid u));
  tr_drop c : logs trace (cap_drop_bounding c) (Some (EDropBounding c));
  tr_caps s l : logs trace (caps_set s l) (Some (ECapsSet s l));
  tr_landlock : logs trace landlock_restrict (Some ELandlock);
  tr_unshare l : logs trace (unshare l) None;
  tr_hostname h : logs trace (sethostname h) None;
  tr_loopback : logs trace loopback_up None;
  tr_setsid : logs trace setsid None;
  tr_nproc : logs trace raise_nproc_limit None;
  tr_sync : logs trace write_sync None;
  tr_ack k : trace (read_ack k).2 = trace k;
  tr_mkdir p : logs trace (create_dir_all p) None;
  tr_write p c : logs trace (fs_write p c) None;
  tr_rmdir p : logs trace (remove_dir p) None;
  tr_rmdirs p : logs trace (remove_dir_all p) None;
  tr_rm p : logs trace (remove_file p) None;
  tr_copy s d : logs trace (fs_copy s d) None;
  tr_symlink s d : logs trace (symlink s d) None
}.

(** ** A concrete host *)

(** A host with a tree of files, which refuses some calls and logs the others. *)
Record Box := { bx_tree : Tree; bx_log : list Event; bx_refuses : Event → bool }.

Definition bx_files {A} (f : Tree → A * Tree) (k : Box) : A * Box :=
  let '(a, t) := f (bx_tree k) in (a, {| bx_tree := t; bx_log := bx_log k; bx_refuses := bx_refuses k |}).
Definition bx_call (e : Event) (k : Box) : bool * Box :=
  if bx_refuses k e then (false, k)
  else (true, {| bx_tree := bx_tree k; bx_log := bx_log k ++ [e]; bx_refuses := bx_refuses k |}).
Definition bx_done (k : Box) : bool * Box := (true, k).

#[export] Instance box_fs : FileSystem Box := {|
  create_dir_all p := bx_files (create_dir_all p);
  fs_write p c := bx_files (fs_write p c);
  read_to_string p k := read_to_string p (bx_tree k);
  fs_exists p k := fs_exists p (bx_tree k);
  symlink_metadata_ok p k := symlink_metadata_ok p (bx_tree k);
  read_dir d k := read_dir d (bx_tree k);
  remove_dir p := bx_files (remove_dir p);
  remove_dir_all p := bx_files (remove_dir_all p);
  set_permissions p m := bx_files (set_permissions p m)
|}.

(** There are no links; process 7 has its root at /r; commands do not run; capabilities are
    parsed by their names. *)
#[export] Instance box_syscalls : Syscalls Box := {|
  fs_read p k := as_bytes <$> read_to_string p (bx_tree k);
  read_link _ _ := None; is_symlink _ _ := false;
  is_dir p k := bool_decide (bx_tree k !! p = Some None);
  is_file p k := is_some (read_to_string p (bx_tree k));
  file_id p _ := if bool_decide (p = "/r") || bool_decide (p = "/proc/7/root") then Some (8, 1) else None; file_owner _ _ := None; access_read _ _ := true;
  remove_file p := bx_files (λ t, (is_some (t !! p), delete p t));
  fs_copy s d := bx_files (λ t, match t !! s with Some (Some c) => (true, <[d := Some c]> t) | _ => (false, t) end);
  symlink _ _ k := (false, k);
  mknod_tty p := bx_files (λ t, (true, <[p := Some ""]> t));
  mount s d t f := bx_call (EMount s d t f);
  umount _ := bx_done;
  pivot_root n _ := bx_call (EPivot n);
  chroot p := bx_call (EChroot p);
  chdir p := bx_call (EChdir p);
  unshare _ := bx_done; sethostname _ := bx_done; loopback_up := bx_done;
  setgid g := bx_call (ESetgid g);
  setuid u := bx_call (ESetuid u);
  setsid := bx_done; raise_nproc_limit := bx_done;
  landlock_restrict := bx_call ELandlock;
  caps_all := ["CAP_CHOWN"; "CAP_SYS_ADMIN"; "CAP_NET_ADMIN"];
  cap_parse n := if starts_with "CAP_" n then Some n else None;
  caps_permitted _ := Some ["CAP_CHOWN"; "CAP_SYS_ADMIN"; "CAP_NET_ADMIN"];
  cap_drop_bounding c := bx_call (EDropBounding c);
  caps_set s l := bx_call (ECapsSet s l);
  write_sync := bx_done; read_ack k := (Some [65], k);
  run_command _ _ k := (None, k);
  user_name _ _ := None; getuid := 0; getgid := 0; env_path := None
|}.

(** A directory lists plain names. *)
Definition plain_name (n : string) : Prop := has_char "/" n = false ∧ n ∉ [""; "."; ".."].
Lemma box_plain_name d (k : Box) l e : read_dir d k = Some l → e ∈ l → plain_name (de_name e).
Proof.
  cbn. destruct (_ !! d) as [[|]|]; [done| |done]. intros [= <-] H.
  apply list_elem_of_omap in H as ([p o] & _ & H). apply bind_Some in H as (n & E & [= <-]). cbn [de_name].
  apply bind_Some in E as (n' & _ & E). destruct (has_char "/" n' || _) eqn:Hs; [discriminate|].
  injection E as <-. apply orb_false_iff in Hs as [? ?%bool_decide_eq_false]. by split.
Qed.

Lemma bx_files_log {A} (f : Tree → A * Tree) k : bx_log (bx_files f k).2 = bx_log k.
Proof. unfold bx_files. by destruct (f (bx_tree k)). Qed.
Lemma bx_call_logs e : logs bx_log (bx_call e) (Some e).
Proof. intros k. unfold bx_call. destruct (bx_refuses k e); [by rewrite app_nil_r|done]. Qed.

#[export] Instance box_trace : Trace Box.
Proof.
  refine {| trace := bx_log |}; intros; first [apply bx_call_logs|idtac]; try intros k;
    rewrite ?app_nil_r; cbn; first [done|apply bx_files_log].
Defined.
