(* ===== verification/Volumes.v ===== *)
(** * Volumes: putting volumes into a root file system
    (src/src/cri/volumes.rs)

    Staging by the parent before the fork, and bind mounts by the child, with the copies
    and links that replace a mount that is refused. [copy_tree] descends as deep as the
    paths of the kernel can be long. *)
From S2P Require Import Prelude Text Utf8 Cri Host.

Section volumes.
Context {K : Type} `{FS : FileSystem K} `{SC : Syscalls K}.

Abbreviation io := (execR K).

(** [dst.exists() || dst.is_symlink()] *)
Definition present (p : string) (k : K) : bool := fs_exists p k || is_symlink p k.

(** Remove what is at a path, a link as a link. *)
Definition clear_path (dst : string) : io unit :=
  k ← x_get;
  if present dst k then
    if is_dir dst k && negb (is_symlink dst k) then x_ok (remove_dir_all dst) else x_ok (remove_file dst)
  else mret ().

Definition volume_dst (rootfs_path : string) (vol : ResolvedVolume) : string :=
  path_join rootfs_path (trim_start_matches "/" (rv_container_path vol)).

Definition scrub_rootfs_volume_mounts (rootfs_path : string) (volumes : list ResolvedVolume) : io unit :=
  x_for (λ vol, clear_path (volume_dst rootfs_path vol)) volumes.

(** [if let Some(parent) = dst.parent() { create_dir_all(parent)?; }] *)
Definition make_parent (dst : string) : io unit :=
  match path_parent dst with
  | Some parent => x_check ("create " +:+ parent) (create_dir_all parent)
  | None => mret ()
  end.

Fixpoint copy_tree (fuel : nat) (src dst : string) : io unit :=
  match fuel with
  | O => x_fail "File name too long"
  | S fuel' =>
      k ← x_get;
      if is_file src k then
        _ ← make_parent dst;
        x_check "copy" (fs_copy src dst)
      else if negb (is_dir src k) then mret ()
      else
        _ ← x_check "create_dir_all" (create_dir_all dst);
        k ← x_get;
        match read_dir src k with
        | None => x_fail "read_dir"
        | Some entries =>
            x_for (λ e, copy_tree fuel' (path_join src (de_name e)) (path_join dst (de_name e))) entries
        end
  end.

(** The kernel refuses paths of 4096 bytes and more, so no descent is deeper. *)
Definition PATH_MAX : nat := 4096.

Definition stage_volume (rootfs_path : string) (vol : ResolvedVolume) : io unit :=
  let dst := volume_dst rootfs_path vol in
  let src := rv_host_path vol in
  _ ← clear_path dst;
  _ ← x_try (make_parent dst);
  if is_emptydir_host_path src then x_ok (create_dir_all dst)
  else
    k ← x_get;
    if is_dir src k then
      linked ← x_is_ok (symlink src dst);
      if linked : bool then mret () else _ ← x_try (copy_tree PATH_MAX src dst); mret ()
    else if is_file src k then
      linked ← x_is_ok (symlink src dst);
      if linked : bool then mret () else x_ok (fs_copy src dst)
    else mret ().

Definition stage_volumes_in_rootfs (rootfs_path : string) (volumes : list ResolvedVolume) : io unit :=
  x_for (stage_volume rootfs_path) volumes.

(** [if !src.exists() { create_dir_all(src) }] *)
Definition make_source (src : string) : io unit :=
  k ← x_get; if fs_exists src k then mret () else x_ok (create_dir_all src).

(** The bind mount, read-only if the volume is; whether it was made. *)
Definition bind_volume (vol : ResolvedVolume) (dst : string) : io bool :=
  let src := rv_host_path vol in
  bound ← x_is_ok (mount (Some src) dst None [MS_BIND; MS_REC]);
  if bound : bool then
    _ ← x_when (rv_read_only vol) (x_ok (mount (Some src) dst None [MS_BIND; MS_REMOUNT; MS_RDONLY]));
    mret true
  else mret false.

(** What stands in for a bind mount: a link for an emptyDir, else a copy. *)
Definition install_volume (vol : ResolvedVolume) (dst : string) : io unit :=
  let src := rv_host_path vol in
  if is_emptydir_host_path src then x_ok (symlink src dst)
  else _ ← x_try (copy_tree PATH_MAX src dst); mret ().

Definition bind_mount_volume (rootfs_path : string) (vol : ResolvedVolume) : io unit :=
  let dst := rootfs_path +:+ rv_container_path vol in
  let src := rv_host_path vol in
  _ ← make_source src;
  k ← x_get;
  _ ← (if present dst k then
         if is_symlink dst k || is_file dst k then x_ok (remove_file dst)
         else if is_dir dst k && is_emptydir_host_path src then x_ok (remove_dir_all dst)
         else mret ()
       else mret ());
  k ← x_get;
  _ ← (if is_dir src k then x_ok (create_dir_all dst)
       else match path_parent dst with
            | Some parent =>
                _ ← x_ok (create_dir_all parent);
                k ← x_get;
                if fs_exists dst k then mret () else x_ok (fs_write dst "")
            | None => mret ()
            end);
  bound ← bind_volume vol dst;
  if bound : bool then mret () else install_volume vol dst.

Definition bind_mount_volumes (rootfs_path : string) (volumes : list ResolvedVolume) : io unit :=
  x_for (bind_mount_volume rootfs_path) volumes.

Definition degraded_dst (vol : ResolvedVolume) : string :=
  if bool_decide (rv_container_path vol = "/var/data") then "/tmp/data" else rv_container_path vol.

Definition bind_mount_volume_degraded (vol : ResolvedVolume) : io unit :=
  let dst := degraded_dst vol in
  let src := rv_host_path vol in
  _ ← make_source src;
  k ← x_get;
  _ ← (if fs_exists dst k then
         if is_symlink dst k then x_ok (remove_file dst)
         else if is_emptydir_host_path src then x_ok (remove_dir_all dst)
         else mret ()
       else mret ());
  k ← x_get;
  _ ← (if is_emptydir_host_path src then
         match path_parent dst with Some parent => x_ok (create_dir_all parent) | None => mret () end
       else if is_dir src k then x_ok (create_dir_all dst)
       else match path_parent dst with
            | Some parent =>
                _ ← x_ok (create_dir_all parent);
                k ← x_get;
                if fs_exists dst k then mret () else x_ok (fs_write dst "")
            | None => mret ()
            end);
  bound ← bind_volume vol dst;
  if bound : bool then mret () else install_volume vol dst.

Definition bind_mount_volumes_degraded (volumes : list ResolvedVolume) : io unit :=
  x_for bind_mount_volume_degraded volumes.
End volumes.
