(* ===== verification/Rootfs.v ===== *)
(** * Rootfs: the root file system of a container
    (src/src/cri/rootfs.rs)

    How a program is found in the root file system and started, the files the parent puts
    there, the maps of the user namespace, and how the child enters its namespaces and its
    root. The system calls are the interface [Host.Syscalls]. *)
From S2P Require Import Prelude Text Utf8 Config Cri Proto Elf Host Volumes.

Definition DEV_NODES : list string := ["null"; "zero"; "full"; "random"; "urandom"; "tty"; "console"; "ptmx"].

Inductive RootfsIsolation := Pivot | Chroot | Degraded.

#[export] Instance RootfsIsolation_eq_dec : EqDecision RootfsIsolation.
Proof. solve_decision. Defined.

Definition root_of (rootfs_path : string) : string := trim_end_matches "/" rootfs_path.

Definition busybox_argv (exec_path entrypoint : string) (args : list string) : list string :=
  if is_some (strip_suffix "/busybox" exec_path) && negb (contains "busybox" entrypoint)
  then entrypoint :: args else args.

(** The path that a host path under the root has for a process in the root. *)
Definition host_path_in_container_root (host_path rootfs_path : string) : string :=
  match strip_prefix (root_of rootfs_path) host_path with
  | Some rest =>
      if bool_decide (rest = "") then "/" else if starts_with "/" rest then rest else "/" +:+ rest
  | None => host_path
  end.

Section rootfs.
Context {K : Type} `{FS : FileSystem K} `{SC : Syscalls K}.
Variable cfg : Config.
(** What [set_dns_port] and [set_dns_server] have stored. *)
Variable dns_port : option Z.
Variable dns_server : option string.

Abbreviation io := (execR K).

(** ** Finding the program *)

Definition all_digits (s : string) : bool := forallb (λ a, is_some (dec_digit a)) (chars s).

(** The PATH of some process whose root is the container's. *)
Definition get_container_path_from_proc (rootfs_path : string) (k : K) : option string :=
  entries ← read_dir "/proc" k;
  find_map (λ e,
    let proc := "/proc/" +:+ de_name e in
    if all_digits (de_name e) then
      target ← read_link (proc +:+ "/root") k;
      if bool_decide (trim_end_matches "/" target = root_of rootfs_path)
      then data ← fs_read (proc +:+ "/environ") k; path_variable data
      else None
    else None) entries.

Definition fallback_dirs : list string := ["bin"; "usr/bin"; "usr/local/bin"; "sbin"; "usr/sbin"; "usr/local/sbin"].

(** Where PostgreSQL images keep their programs. *)
Definition pg_candidates (root entrypoint : string) (k : K) : list string :=
  let pg_dir := root +:+ "/usr/lib/postgresql" in
  match read_dir pg_dir k with
  | Some entries =>
      omap (λ e,
        let p := path_join pg_dir (de_name e) in
        let bin_dir := path_join p "bin" in
        if is_dir p k && fs_exists bin_dir k then Some (bin_dir +:+ "/" +:+ entrypoint) else None) entries
  | None => []
  end.

Definition exec_candidates (entrypoint rootfs_path : string) (k : K) : list string :=
  let root := root_of rootfs_path in
  (match get_container_path_from_proc rootfs_path k with
   | Some container_path =>
       (λ dir, root +:+ "/" +:+ trim_start_matches "/" dir +:+ "/" +:+ entrypoint)
         <$> List.filter (λ d, negb (bool_decide (d = ""))) (split_on ":" container_path)
   | None => []
   end)
  ++ ((λ dir, root +:+ "/" +:+ dir +:+ "/" +:+ entrypoint) <$> fallback_dirs)
  ++ pg_candidates root entrypoint k.

(** What a candidate resolves to: an absolute link is followed inside the root. *)
Definition candidate_path (root p : string) (k : K) : option string :=
  if negb (fs_exists p k) && negb (is_symlink p k) then None
  else Some
    (match read_link p k with
     | Some t => if starts_with "/" t && fs_exists (root +:+ t) k then root +:+ t else p
     | None => p
     end).

Definition resolve_exec_path (entrypoint rootfs_path : string) (k : K) : string :=
  let root := root_of rootfs_path in
  if starts_with "/" entrypoint then root +:+ entrypoint
  else
    match find_map (λ p, candidate_path root p k) (exec_candidates entrypoint rootfs_path k) with
    | Some p => p
    | None =>
        if fs_exists entrypoint k then entrypoint
        else if starts_with "/" entrypoint then root +:+ entrypoint
        else entrypoint
    end.

Definition container_fs_isolated (container_pid : Z) (rootfs_path : string) (k : K) : bool :=
  match file_id ("/proc/" +:+ display container_pid +:+ "/root") k, file_id rootfs_path k with
  | Some (d, i), Some (d', i') => (d =? d') && (i =? i')
  | _, _ => false
  end.

Definition read_elf_interpreter (path : string) (k : K) : exec (option string) :=
  match fs_read path k with Some d => elf_interpreter d | None => Ret None end.

Definition wrap_dynamic_linker (exec_path : string) (prog_args : list string) (rootfs_path : string) (k : K)
    : exec (string * list string) :=
  let root := root_of rootfs_path in
  if negb (starts_with root exec_path) then Ret (exec_path, prog_args)
  else
    interp ← read_elf_interpreter exec_path k;
    match interp with
    | None => Ret (exec_path, prog_args)
    | Some i =>
        let loader := if starts_with "/" i then root +:+ i else root +:+ "/" +:+ i in
        if fs_exists loader k then Ret (loader, exec_path :: prog_args) else Ret (exec_path, prog_args)
    end.

Definition build_container_argv (entrypoint : string) (args : list string) (rootfs_path : string) (k : K)
    : string * list string :=
  let exec_path := resolve_exec_path entrypoint rootfs_path k in
  (exec_path, busybox_argv exec_path entrypoint args).

Definition build_container_argv_in_mount_ns (entrypoint : string) (args : list string) (rootfs_path : string)
    (k : K) : string * list string :=
  let '(host_exec, argv) := build_container_argv entrypoint args rootfs_path k in
  (host_path_in_container_root host_exec rootfs_path, argv).

(** ** The files of the root *)

Definition build_resolv_conf (k : K) : string :=
  match dns_port with
  | Some _ =>
      let domain := cluster_domain cfg in
      let ns := unwrap_or dns_server "127.0.0.1" in
      join (String newline "")
        ["nameserver " +:+ ns; "search default.svc." +:+ domain +:+ " svc." +:+ domain +:+ " " +:+ domain;
         "options ndots:5"; ""]
  | None =>
      let host_resolv := unwrap_or (read_to_string "/etc/resolv.conf" k) "" in
      if bool_decide (trim host_resolv = "") || contains "127.0.0.53" host_resolv
         || contains "systemd-resolved" host_resolv
      then join (String newline "") ["nameserver 1.1.1.1"; "nameserver 8.8.8.8"; ""]
      else host_resolv
  end.

Definition rootfs_dirs : list string := ["proc"; "sys"; "dev"; "dev/pts"; "tmp"; "etc"; "run"; "dev/shm"].

Definition prepare_rootfs (rootfs_path : string) : io unit :=
  k ← x_get;
  if negb (fs_exists rootfs_path k) then x_fail ("Rootfs path does not exist: " +:+ rootfs_path)
  else
    _ ← x_for (λ dir, x_check ("Failed to create /" +:+ dir +:+ " in rootfs")
                         (create_dir_all (path_join rootfs_path dir))) rootfs_dirs;
    _ ← x_for (λ n,
          let path := path_join (path_join rootfs_path "dev") n in
          _ ← x_ok (fs_write path ""); x_ok (set_permissions path 438)) DEV_NODES;
    k ← x_get;
    _ ← x_check "Failed to write /etc/resolv.conf"
          (fs_write (path_join rootfs_path "etc/resolv.conf") (build_resolv_conf k));
    let hosts := path_join rootfs_path "etc/hosts" in
    k ← x_get;
    if fs_exists hosts k then mret ()
    else x_check "Failed to write /etc/hosts" (fs_write hosts ("127.0.0.1 localhost" +:+ String newline "")).

(** ** The maps of the user namespace *)

(** The range of the first line for the user. A line without two numbers ends the search. *)
Fixpoint subid_range (host_id : Z) (username : option string) (l : list string) : option (Z * Z) :=
  match l with
  | [] => None
  | line :: l' =>
      let line := trim line in
      if bool_decide (line = "") || starts_with "#" line then subid_range host_id username l'
      else
        '(id_field, rest) ← split_once ":" line;
        '(start_field, count_field) ← split_once ":" rest;
        start ← parse_u64 start_field;
        count ← parse_u64 count_field;
        if bool_decide (parse_u32 id_field = Some host_id) || bool_decide (username = Some id_field)
        then Some (start, count) else subid_range host_id username l'
  end.

Definition read_subid (path : string) (host_id : Z) (k : K) : option (Z * Z) :=
  content ← read_to_string path k; subid_range host_id (user_name host_id k) (lines content).

Definition build_idmap_args (child_pid host_id : Z) (subid_file : string) (k : K) : list string :=
  [display child_pid; "0"; display host_id; "1"]
  ++ match read_subid subid_file host_id k with
     | Some (start, count) => ["1"; display start; display count]
     | None => []
     end.

Definition idmap_bin (n : string) (k : K) : string :=
  unwrap_or (find_first (λ p, fs_exists p k) ["/usr/bin/" +:+ n; "/bin/" +:+ n]) n.

(** [Command::status().context(..)?.success()], which must be true. *)
Definition run_idmap (n : string) (args : list string) : io unit := λ k,
  match run_command (idmap_bin n k) args k with
  | (None, k') => Ret (Err ("Failed to run " +:+ n), k')
  | (Some b, k') => Ret (if b then Ok () else Err (n +:+ " exited with error"), k')
  end.

Definition try_newid_maps (child_pid uid gid : Z) : io unit :=
  k ← x_get;
  let uid_args := build_idmap_args child_pid uid "/etc/subuid" k in
  let gid_args := build_idmap_args child_pid gid "/etc/subgid" k in
  _ ← run_idmap "newuidmap" uid_args;
  run_idmap "newgidmap" gid_args.

Definition proc_file (child_pid : Z) (n : string) : string := "/proc/" +:+ display child_pid +:+ "/" +:+ n.

(** "0 host 1" and "1 start count", a line each. *)
Definition subid_map (host_id : Z) (range : Z * Z) : string :=
  join (String newline "")
    ["0 " +:+ display host_id +:+ " 1"; "1 " +:+ display range.1 +:+ " " +:+ display range.2; ""].

Definition try_write_subid_maps_direct (child_pid uid gid : Z) : io unit :=
  k ← x_get;
  match read_subid "/etc/subuid" uid k with
  | None => x_fail ("no subuid entry for uid " +:+ display uid)
  | Some ur =>
      match read_subid "/etc/subgid" gid k with
      | None => x_fail ("no subgid entry for gid " +:+ display gid)
      | Some gr =>
          _ ← x_check "Failed to write setgroups" (fs_write (proc_file child_pid "setgroups") "deny");
          _ ← x_check "Failed to write uid_map" (fs_write (proc_file child_pid "uid_map") (subid_map uid ur));
          x_check "Failed to write gid_map" (fs_write (proc_file child_pid "gid_map") (subid_map gid gr))
      end
  end.

Definition single_map (inside outside : Z) : string :=
  display inside +:+ " " +:+ display outside +:+ " 1" +:+ String newline "".

Definition write_userns_maps (child_pid : Z) (run_as_user run_as_group : option Z) : io unit :=
  done ← x_succeeds (try_newid_maps child_pid getuid getgid);
  if done : bool then mret ()
  else
    done ← x_succeeds (try_write_subid_maps_direct child_pid getuid getgid);
    if done : bool then mret ()
    else
      let pid_text := display child_pid in
      _ ← x_check ("Failed to write setgroups for pid " +:+ pid_text) (fs_write (proc_file child_pid "setgroups") "deny");
      let map_uid := unwrap_or run_as_user 0 in
      let map_gid := unwrap_or run_as_group map_uid in
      _ ← x_check ("Failed to write uid_map for pid " +:+ pid_text)
            (fs_write (proc_file child_pid "uid_map") (single_map map_uid getuid));
      x_check ("Failed to write gid_map for pid " +:+ pid_text)
        (fs_write (proc_file child_pid "gid_map") (single_map map_gid getgid)).

(** ** Mounts *)

(** Does a mount point without its last slashes contain the path? *)
Definition contains_path (mp rootfs : string) : bool :=
  if bool_decide (mp = "") then starts_with "/" rootfs
  else bool_decide (rootfs = mp) || starts_with (mp +:+ "/") rootfs.

(** [line.find(p)], and the text before it. *)
Fixpoint before_sub (p s : string) : option string :=
  if starts_with p s then Some ""
  else match s with EmptyString => None | String a s' => String a <$> before_sub p s' end.

(** The optional fields of a line, after the sixth and before the separator, say whether
    the mount is shared. *)
Definition is_shared (line : string) : bool :=
  let before := unwrap_or (before_sub " - " line) line in
  existsb (starts_with "shared:") (drop 6 (split_whitespace before)).

Record BestMount := { bm_mount : option string; bm_len : nat; bm_shared : bool }.

Definition better_mount (rootfs : string) (b : BestMount) (line : string) : BestMount :=
  match split_whitespace line !! 4%nat with
  | None => b
  | Some mount_point =>
      let mp := trim_end_matches "/" mount_point in
      if contains_path mp rootfs && (bm_len b <=? String.length mp)%nat
      then {| bm_mount := Some mount_point; bm_len := String.length mp; bm_shared := is_shared line |}
      else b
  end.

Definition best_mount (rootfs mountinfo : string) : BestMount :=
  foldl (better_mount rootfs) {| bm_mount := None; bm_len := 0; bm_shared := false |} (lines mountinfo).

Definition make_parent_mount_private (rootfs : string) : io unit :=
  k ← x_get;
  match read_to_string "/proc/self/mountinfo" k with
  | None => x_fail "Failed to read /proc/self/mountinfo"
  | Some mountinfo =>
      let b := best_mount rootfs mountinfo in
      match bm_mount b with
      | Some mp =>
          if bm_shared b
          then x_check ("Failed to make parent mount private: " +:+ mp) (mount None mp None [MS_PRIVATE])
          else mret ()
      | None => mret ()
      end
  end.

(** A host directory bound into the root and made read-only, when it can be read. *)
Definition bind_host_dir (rootfs_path n : string) : io unit :=
  let host := "/" +:+ n in
  k ← x_get;
  if access_read host k then
    let dst := path_join rootfs_path n in
    _ ← x_ok (create_dir_all dst);
    _ ← x_check ("Failed to bind-mount /" +:+ n) (mount (Some host) dst None [MS_BIND; MS_REC]);
    x_ok (mount (Some host) dst None [MS_BIND; MS_REC; MS_RDONLY])
  else mret ().

Definition bind_device (dev n : string) : io unit :=
  let src := path_join "/dev" n in
  let dst := path_join dev n in
  k ← x_get;
  if access_read src k then
    _ ← match path_parent dst with Some parent => x_ok (create_dir_all parent) | None => mret () end;
    x_ok (mount (Some src) dst None [MS_BIND])
  else mret ().

Definition mount_rootfs_components (rootfs_path : string) (is_root : bool) (volumes : list ResolvedVolume) : io unit :=
  k ← x_get;
  if negb (fs_exists rootfs_path k) then x_fail ("Rootfs does not exist: " +:+ rootfs_path)
  else
    _ ← x_try (make_parent_mount_private rootfs_path);
    _ ← x_check "Failed to bind mount rootfs" (mount (Some rootfs_path) rootfs_path None [MS_BIND; MS_REC]);
    _ ← bind_mount_volumes rootfs_path volumes;
    _ ← x_when (negb is_root) (bind_host_dir rootfs_path "proc");
    _ ← x_when (negb is_root) (bind_host_dir rootfs_path "sys");
    let dev := path_join rootfs_path "dev" in
    _ ← x_ok (create_dir_all dev);
    _ ← x_for (bind_device dev) DEV_NODES;
    _ ← x_ok (symlink "/proc/self/fd" (path_join dev "fd"));
    _ ← x_ok (symlink "/proc/self/fd/0" (path_join dev "stdin"));
    _ ← x_ok (symlink "/proc/self/fd/1" (path_join dev "stdout"));
    x_ok (symlink "/proc/self/fd/2" (path_join dev "stderr")).

Definition mount_fs (fstype dst : string) (flags : list MsFlag) : io unit :=
  x_check ("Failed to mount " +:+ dst) (mount (Some fstype) dst (Some fstype) flags).

Definition mount_filesystems (is_root : bool) : io unit :=
  _ ← x_when is_root (_ ← mount_fs "proc" "/proc" [MS_NOSUID; MS_NOEXEC; MS_NODEV];
                      mount_fs "sysfs" "/sys" [MS_NOSUID; MS_NOEXEC; MS_NODEV]);
  _ ← mount_fs "tmpfs" "/tmp" [MS_NOSUID; MS_NODEV];
  _ ← mount_fs "tmpfs" "/run" [MS_NOSUID; MS_NODEV];
  _ ← mount_fs "devpts" "/dev/pts" [MS_NOSUID; MS_NOEXEC];
  k ← x_get;
  _ ← (if fs_exists "/dev/shm" k then mret () else x_ok (create_dir_all "/dev/shm"));
  mount_fs "tmpfs" "/dev/shm" [MS_NOSUID; MS_NODEV; MS_NOEXEC].

Definition enter_rootfs (rootfs_path : string) (is_root : bool) (volumes : list ResolvedVolume) : io unit :=
  _ ← mount_rootfs_components rootfs_path is_root volumes;
  let old_root := path_join rootfs_path ".z8s_old_root" in
  _ ← x_check "create_dir_all" (create_dir_all old_root);
  _ ← x_check "Failed to pivot_root" (pivot_root rootfs_path old_root);
  _ ← x_check "Failed to chdir to /" (chdir "/");
  _ ← x_ok (mount None "/.z8s_old_root" None [MS_PRIVATE; MS_REC]);
  _ ← x_ok (umount "/.z8s_old_root");
  _ ← x_ok (remove_dir "/.z8s_old_root");
  mount_filesystems is_root.

(** ** Entering the namespaces and the root *)

Definition enter_namespaces (flags : list CloneFlag) (isolate_net : bool) (hostname what : string) : io unit :=
  _ ← x_check what (unshare (flags ++ if isolate_net then [CLONE_NEWNET] else []));
  _ ← x_check "Failed to set container hostname" (sethostname hostname);
  x_when isolate_net (x_ok loopback_up).

Definition await_ack : io unit := λ k,
       match read_ack k with
       | (None, k') => Ret (Err "child: failed to read ack", k')
       | (Some [], k') => Ret (Err "child: ack pipe closed before receiving ack", k')
       | (Some (b :: _), k') =>
           Ret (if b =? 65 then Ok () else Err ("child: invalid ack byte: " +:+ display b), k')
       end.

(** Tell the parent, and wait for its answer. *)
Definition sync_with_parent : io unit :=
  _ ← x_check "child: failed to write sync byte" write_sync; await_ack.

(** The steps into the root without privileges. *)
Definition enter_chroot (rootfs_path : string) (volumes : list ResolvedVolume) : io unit :=
  _ ← mount_rootfs_components rootfs_path false volumes;
  _ ← x_check "chroot" (chroot rootfs_path);
  _ ← x_check "chdir" (chdir "/");
  mount_filesystems false.

Definition child_enter_ns_fork (rootfs_path : string) (volumes : list ResolvedVolume) (isolate_net : bool)
    (hostname : string) : io RootfsIsolation :=
  _ ← enter_namespaces [CLONE_NEWUSER; CLONE_NEWNS; CLONE_NEWUTS; CLONE_NEWIPC] isolate_net hostname
        "Failed to unshare user/mount/uts/ipc namespaces";
  _ ← sync_with_parent;
  _ ← x_ok (mount None "/" None [MS_SLAVE; MS_REC]);
  entered ← x_succeeds (enter_chroot rootfs_path volumes);
  if entered : bool then mret Chroot
  else _ ← bind_mount_volumes_degraded volumes; mret Degraded.

Definition child_enter_ns_root (rootfs_path : string) (volumes : list ResolvedVolume) (isolate_net : bool)
    (hostname : string) : io RootfsIsolation :=
  _ ← enter_namespaces [CLONE_NEWNS; CLONE_NEWUTS; CLONE_NEWIPC] isolate_net hostname
        "Failed to unshare mount/uts/ipc";
  _ ← x_check "Failed to set slave mount propagation" (mount None "/" None [MS_SLAVE; MS_REC]);
  entered ← x_succeeds (enter_rootfs rootfs_path true volumes);
  if entered : bool then mret Pivot
  else
    _ ← bind_mount_volumes rootfs_path volumes;
    _ ← x_check "Failed to chroot" (chroot rootfs_path);
    _ ← x_check "Failed to chdir to /" (chdir "/");
    _ ← mount_filesystems true;
    _ ← x_check "Failed to mount /dev" (mount (Some "devtmpfs") "/dev" (Some "devtmpfs") [MS_NOSUID; MS_NODEV]);
    mret Chroot.

(** ** Capabilities *)

Definition oci_caps : list string :=
  ["CAP_CHOWN"; "CAP_DAC_OVERRIDE"; "CAP_FSETID"; "CAP_FOWNER"; "CAP_MKNOD"; "CAP_NET_RAW"; "CAP_SETGID";
   "CAP_SETUID"; "CAP_SETFCAP"; "CAP_SETPCAP"; "CAP_NET_BIND_SERVICE"; "CAP_SYS_CHROOT"; "CAP_KILL";
   "CAP_AUDIT_WRITE"].

Definition normalized_cap `{UnicodeCase} (n : string) : string :=
  if starts_with "CAP_" (to_uppercase n) then to_uppercase n else "CAP_" +:+ to_uppercase n.

Definition kept_caps `{UnicodeCase} (extra_caps : list string) : list string :=
  oci_caps ++ omap (λ n, cap_parse (normalized_cap n)) extra_caps.

Definition drop_capabilities `{UnicodeCase} (privileged : bool) (extra_caps : list string) : io unit :=
  if privileged then mret ()
  else
    let keep := kept_caps extra_caps in
    _ ← x_for (λ c, if bool_decide (c ∈ keep) then mret () else x_ok (cap_drop_bounding c)) caps_all;
    k ← x_get;
    let new_caps := List.filter (λ c, bool_decide (c ∈ keep)) (unwrap_or (caps_permitted k) []) in
    _ ← x_ok (caps_set Effective new_caps);
    _ ← x_ok (caps_set Permitted new_caps);
    _ ← x_ok (caps_set Inheritable []);
    x_ok (caps_set Ambient []).

(** [apply_landlock]: best effort. *)
Definition apply_landlock : io unit := x_ok landlock_restrict.

(** ** The root of an exec session *)

Definition setup_exec_mounts (rootfs_path : string) : io unit :=
  let proc_path := path_join rootfs_path "proc" in
  _ ← x_ok (create_dir_all proc_path);
  _ ← x_ok (mount (Some "proc") proc_path (Some "proc") [MS_NOSUID; MS_NOEXEC; MS_NODEV]);
  let pts := path_join rootfs_path "dev/pts" in
  _ ← x_ok (create_dir_all pts);
  _ ← x_ok (mount (Some "devpts") pts (Some "devpts") [MS_NOSUID; MS_NOEXEC]);
  let ptmx := path_join rootfs_path "dev/ptmx" in
  k ← x_get;
  _ ← (if fs_exists ptmx k then mret () else x_ok (mknod_tty ptmx));
  let etc_path := path_join rootfs_path "etc" in
  _ ← x_ok (create_dir_all etc_path);
  k ← x_get;
  x_ok (fs_write (path_join etc_path "resolv.conf") (build_resolv_conf k)).
End rootfs.

(** ** The mount that holds a path *)

Definition mount_points (mountinfo : string) : list string :=
  omap (λ line, split_whitespace line !! 4%nat) (lines mountinfo).

(** The mount point of a line holds the path. *)
Definition holds (rootfs mount_point : string) : Prop :=
  contains_path (trim_end_matches "/" mount_point) rootfs = true.

Definition mount_len (mount_point : string) : nat := String.length (trim_end_matches "/" mount_point).

(** What is known after some lines. *)
Definition best_of (rootfs : string) (l : list string) (b : BestMount) : Prop :=
  match bm_mount b with
  | Some mp => mp ∈ l ∧ holds rootfs mp ∧ bm_len b = mount_len mp
  | None => bm_len b = O
  end
  ∧ ∀ mp, mp ∈ l → holds rootfs mp → is_Some (bm_mount b) ∧ (mount_len mp ≤ bm_len b)%nat.

Lemma better_mount_best rootfs line l b :
  best_of rootfs l b →
  best_of rootfs (l ++ match split_whitespace line !! 4%nat with Some mp => [mp] | None => [] end)
    (better_mount rootfs b line).
Proof.
  intros [Hb Hall]. unfold better_mount. destruct (split_whitespace line !! 4%nat) as [mp|]; [|by rewrite app_nil_r].
  destruct (contains_path _ rootfs) eqn:Hc; cbn [andb].
  - destruct (_ <=? _)%nat eqn:Hl.
    + apply Nat.leb_le in Hl. split; cbn [bm_mount bm_len].
      * split; [set_solver|done].
      * intros mp' Hm Hh; apply elem_of_app in Hm as [Hm|Hm]; [|apply list_elem_of_singleton in Hm as ->]; [|done].
        destruct (Hall mp' Hm Hh) as [_ H]. split; [done|]. unfold mount_len in *. lia.
    + apply Nat.leb_gt in Hl. split.
      * destruct (bm_mount b); [|lia]. destruct Hb as (H1 & H2 & H3). split; [set_solver|done].
      * intros mp' Hm Hh; apply elem_of_app in Hm as [Hm|Hm]; [|apply list_elem_of_singleton in Hm as ->]; [by apply Hall|].
        destruct (bm_mount b); [|lia]. split; [done|]. unfold mount_len. lia.
  - split; cbn [bm_mount].
    + destruct (bm_mount b); [|done]. destruct Hb as (H1 & H2 & H3). split; [set_solver|done].
    + intros mp' Hm Hh; apply elem_of_app in Hm as [Hm|Hm]; [|apply list_elem_of_singleton in Hm as ->]; [by apply Hall|].
      unfold holds in Hh. congruence.
Qed.

(** The mount that is made private is the innermost one that holds the root: none of those
    that hold it is longer, and when there is one, one is found. *)
Theorem best_mount_innermost rootfs mountinfo :
  let b := best_mount rootfs mountinfo in
  (∀ mp, bm_mount b = Some mp →
     mp ∈ mount_points mountinfo ∧ holds rootfs mp
     ∧ ∀ mp', mp' ∈ mount_points mountinfo → holds rootfs mp' → (mount_len mp' ≤ mount_len mp)%nat)
  ∧ (bm_mount b = None → ∀ mp, mp ∈ mount_points mountinfo → ¬ holds rootfs mp).
Proof.
  intros b. assert (best_of rootfs (mount_points mountinfo) b) as [Hb Hall].
  { unfold b, best_mount, mount_points. generalize (lines mountinfo). intros l.
    assert (∀ l0 b0, best_of rootfs l0 b0 →
      best_of rootfs (l0 ++ omap (λ line, split_whitespace line !! 4%nat) l) (foldl (better_mount rootfs) b0 l)) as H.
    { induction l as [|line l IH]; intros l0 b0 H0; cbn [foldl]; [by rewrite app_nil_r|].
      apply (better_mount_best rootfs line) in H0. apply IH in H0. rewrite <- app_assoc in H0.
      cbn [omap list_omap]. by destruct (split_whitespace line !! 4%nat). }
    apply (H [] {| bm_mount := None; bm_len := 0; bm_shared := false |}). split; [done|]. set_solver. }
  split.
  - intros mp E. rewrite E in Hb. destruct Hb as (H1 & H2 & H3). split; [done|]. split; [done|].
    intros mp' H4 H5. rewrite <- H3. by apply Hall.
  - intros E mp H1 H2. destruct (Hall mp H1 H2) as [[? H] _]. congruence.
Qed.

Lemma best_mount_innermost_witness :
  let info := join (String newline "")
    ["22 1 8:1 / / rw shared:1 - ext4 /dev/sda1 rw"; "30 22 8:2 / /var rw - ext4 /dev/sda2 rw"; ""] in
  bm_mount (best_mount "/var/lib/z8s/rootfs" info) = Some "/var"
  ∧ ∀ mp', mp' ∈ mount_points info → holds "/var/lib/z8s/rootfs" mp' → (mount_len mp' ≤ mount_len "/var")%nat.
Proof.
  intros info. assert (bm_mount (best_mount "/var/lib/z8s/rootfs" info) = Some "/var") as E by (vm_compute; reflexivity).
  split; [exact E|]. exact (proj2 (proj2 (proj1 (best_mount_innermost "/var/lib/z8s/rootfs" info) "/var" E))).
Defined.

(** ** Programs are found in the root *)

Section resolve.
Context {K : Type} `{FS : FileSystem K} `{SC : Syscalls K}.
Implicit Types k : K.

(** The names in a directory have no slash in front. *)
Definition plain_names k : Prop :=
  ∀ d l e, read_dir d k = Some l → e ∈ l → starts_with "/" (de_name e) = false.

Lemma path_join_starts p q : starts_with "/" q = false → ∃ r, path_join p q = p +:+ r.
Proof. unfold path_join. intros ->. destruct (_ || _); eauto. Qed.

Lemma exec_candidates_in_root entrypoint rootfs_path k p :
  plain_names k → p ∈ exec_candidates entrypoint rootfs_path k →
  starts_with (root_of rootfs_path +:+ "/") p = true.
Proof.
  intros Hn. unfold exec_candidates. set (root := root_of rootfs_path).
  intros [H|[H|H]%elem_of_app]%elem_of_app.
  - destruct (get_container_path_from_proc _ _); [|by apply not_elem_of_nil in H].
    apply list_elem_of_fmap in H as (d & -> & _). apply starts_with_spec. eexists. by rewrite !string_app_assoc.
  - apply list_elem_of_fmap in H as (d & -> & _). apply starts_with_spec. eexists. by rewrite !string_app_assoc.
  - unfold pg_candidates in H. destruct (read_dir _ _) as [l|] eqn:El; [|by apply not_elem_of_nil in H].
    apply list_elem_of_omap in H as (e & He & H).
    destruct (path_join_starts (root +:+ "/usr/lib/postgresql") (de_name e) (Hn _ _ _ El He)) as [r Er].
    rewrite Er in H. destruct (path_join_starts ((root +:+ "/usr/lib/postgresql") +:+ r) "bin" eq_refl) as [r' Er'].
    rewrite Er' in H. destruct (_ && _); [|done]. injection H as <-.
    apply starts_with_spec. eexists. rewrite !string_app_assoc. change "/usr/lib/postgresql" with ("/" +:+ "usr/lib/postgresql").
    by rewrite !string_app_assoc.
Qed.

Lemma candidate_in_root root p q k :
  starts_with (root +:+ "/") p = true → candidate_path root p k = Some q →
  starts_with (root +:+ "/") q = true.
Proof.
  intros Hp. unfold candidate_path. destruct (_ && _); [done|]. intros [= <-].
  destruct (read_link p k) as [t|]; [|done]. destruct (starts_with "/" t && _) eqn:E; [|done].
  apply andb_true_iff in E as [E _]. apply starts_with_spec in E as [r ->].
  rewrite <- string_app_assoc. apply starts_with_app.
Qed.

(** A program that is not given by an absolute path is found under the root of the
    container, links included, or nowhere at all. *)
Lemma resolved_in_root entrypoint rootfs_path k :
  plain_names k → starts_with "/" entrypoint = false →
  (resolve_exec_path entrypoint rootfs_path k = entrypoint
   ∧ ∀ p, p ∈ exec_candidates entrypoint rootfs_path k → fs_exists p k = false)
  ∨ starts_with (root_of rootfs_path +:+ "/") (resolve_exec_path entrypoint rootfs_path k) = true.
Proof.
  intros Hn He. unfold resolve_exec_path. rewrite He.
  destruct (find_map _ _) as [q|] eqn:E.
  - right. apply find_map_Some in E as (p & Hp & Hq). eapply candidate_in_root; [|exact Hq].
    by apply exec_candidates_in_root in Hp.
  - left. split; [by destruct (fs_exists _ _)|]. intros p Hp.
    pose proof (proj1 (find_map_None _ _) E p Hp) as H. unfold candidate_path in H.
    by destruct (fs_exists p k).
Qed.

Lemma host_path_in_root rootfs_path r :
  host_path_in_container_root (root_of rootfs_path +:+ "/" +:+ r) rootfs_path = "/" +:+ r.
Proof.
  unfold host_path_in_container_root.
  assert (strip_prefix (root_of rootfs_path) (root_of rootfs_path +:+ "/" +:+ r) = Some ("/" +:+ r)) as ->
    by (by apply strip_prefix_Some).
  rewrite bool_decide_false by done. by rewrite starts_with_app.
Qed.

(** The path that exec uses inside the container, put behind the root again, is the path
    that was found on the host; only a program that is nowhere in the root keeps its
    name. *)
Theorem exec_path_in_root entrypoint args rootfs_path k :
  plain_names k → starts_with "/" entrypoint = false →
  let '(exec_path, argv) := build_container_argv_in_mount_ns entrypoint args rootfs_path k in
  (starts_with "/" exec_path = true
   ∧ root_of rootfs_path +:+ exec_path = resolve_exec_path entrypoint rootfs_path k)
  ∨ (resolve_exec_path entrypoint rootfs_path k = entrypoint
     ∧ ∀ p, p ∈ exec_candidates entrypoint rootfs_path k → fs_exists p k = false).
Proof.
  intros Hn He. unfold build_container_argv_in_mount_ns, build_container_argv.
  destruct (resolved_in_root entrypoint rootfs_path k Hn He) as [H|H]; [by right|]. left.
  apply starts_with_spec in H as [r Hr]. rewrite string_app_assoc in Hr. rewrite Hr, host_path_in_root.
  split; [apply starts_with_app|done].
Qed.
End resolve.

Definition sample_root : Box :=
  {| bx_tree := {["/r" := None; "/r/usr/lib/postgresql" := None; "/r/usr/bin/psql" := Some "elf"]};
     bx_log := []; bx_refuses := λ _, false |}.

Lemma no_slash_first n : has_char "/" n = false → starts_with "/" n = false.
Proof.
  destruct n as [|a n]; [done|]. intros [H _]%orb_false_iff. apply Ascii.eqb_neq in H.
  destruct (starts_with "/" (String a n)) eqn:E; [|done]. apply starts_with_spec in E as [r E].
  cbn in E. injection E as E _. by destruct H.
Qed.

Lemma box_plain_names (k : Box) : plain_names k.
Proof. intros d l e Hd He. apply no_slash_first. by destruct (box_plain_name d k l e Hd He). Qed.

Lemma exec_path_in_root_witness :
  build_container_argv_in_mount_ns "psql" ["-l"] "/r/" sample_root = ("/usr/bin/psql", ["-l"])
  ∧ resolve_exec_path "psql" "/r/" sample_root = "/r/usr/bin/psql"
  ∧ root_of "/r/" +:+ "/usr/bin/psql" = "/r/usr/bin/psql".
Proof.
  assert (build_container_argv_in_mount_ns "psql" ["-l"] "/r/" sample_root = ("/usr/bin/psql", ["-l"])) as E
    by (vm_compute; reflexivity).
  assert (resolve_exec_path "psql" "/r/" sample_root = "/r/usr/bin/psql") as R by (vm_compute; reflexivity).
  split; [exact E|]. split; [exact R|].
  pose proof (exec_path_in_root "psql" ["-l"] "/r/" sample_root (box_plain_names sample_root) eq_refl) as H.
  rewrite E, R in H. destruct H as [[_ H]|[H _]]; [exact H|discriminate].
Defined.
