(* ===== verification/Child.v ===== *)
(** * Child: what a forked child does until it becomes the container
    (the child branches of spawn_root_ns_container and spawn_userns_container,
    child_setup_privileges, argv_for_isolation and execvpe_container in
    src/src/cri/runtime.rs)

    A child enters its namespaces and its root, gives up its privileges and replaces
    itself; the redirection of its standard streams is in [Streams]. The theorems are about the
    calls that succeed on the way, as a log that [Host.Trace] keeps: which root the program
    starts in, which mounts are made, and which capabilities are left. *)
From S2P Require Import Prelude Text Utf8 Config Cri Proto Elf Host Volumes Rootfs Runtime.

Create HintDb calls.
Create HintDb may.

(** The call of [execvpe], which returns only when it fails. *)
Record ExecCall := { ec_program : string; ec_argv : list string; ec_env : list string }.

Section child.
Context {K : Type} `{FS : FileSystem K} `{SC : Syscalls K} `{UC : UnicodeCase}.

Abbreviation io := (execR K).

(** [if let Some(id) = id { if call(id) fails, warn }] *)
Definition x_opt {A} (o : option A) (f : A → K → bool * K) : io unit :=
  match o with Some a => x_ok (f a) | None => mret () end.

Definition child_setup_privileges (run_as_group run_as_user : option Z) (working_dir : option string)
    (privileged : bool) (extra_caps : list string) (isolation : RootfsIsolation) : io unit :=
  _ ← x_opt run_as_group setgid;
  _ ← x_opt run_as_user setuid;
  _ ← x_opt working_dir chdir;
  _ ← x_ok raise_nproc_limit;
  _ ← drop_capabilities privileged extra_caps;
  if bool_decide (isolation = Degraded) then mret () else apply_landlock.

Definition argv_for_isolation (entrypoint : string) (args : list string) (rootfs_host_path : string)
    (isolation : RootfsIsolation) (k : K) : string * list string :=
  if bool_decide (isolation = Degraded) then build_container_argv entrypoint args rootfs_host_path k
  else build_container_argv_in_mount_ns entrypoint args rootfs_host_path k.

(** [CString::new(s).expect(..)] *)
Definition cstring (s : string) : exec string := if has_char "000" s then Panic else Ret s.
Fixpoint cstrings (l : list string) : exec (list string) :=
  match l with [] => Ret [] | s :: l' => c ← cstring s; cs ← cstrings l'; Ret (c :: cs) end.

Definition execvpe_container (exec_path : string) (prog_args : list string) (env_owned : list (string * string))
    (rootfs_host_path : string) (isolation : RootfsIsolation) (k : K) : exec ExecCall :=
  envp ← cstrings ((λ kv, kv.1 +:+ "=" +:+ kv.2) <$> env_owned);
  prog ← cstring exec_path;
  args ← cstrings prog_args;
  if bool_decide (isolation = Degraded) then
    '(loader, largs) ← wrap_dynamic_linker exec_path prog_args rootfs_host_path k;
    prog ← cstring loader;
    args ← cstrings largs;
    Ret {| ec_program := prog; ec_argv := prog :: args; ec_env := envp |}
  else Ret {| ec_program := prog; ec_argv := prog :: args; ec_env := envp |}.

Definition exec_container (exec_path : string) (prog_args : list string) (c : ChildSetup)
    (isolation : RootfsIsolation) : io ExecCall := λ k,
  call ← execvpe_container exec_path prog_args (ch_env c) (ch_rootfs c) isolation k; Ret (Ok call, k).

(** After the namespaces: privileges, command line, program. *)
Definition become_container (c : ChildSetup) (isolation : RootfsIsolation) : io ExecCall :=
  _ ← child_setup_privileges (ch_group c) (ch_user c) (ch_working_dir c) (ch_privileged c) (ch_caps c) isolation;
  k ← x_get;
  let '(exec_path, prog_args) := argv_for_isolation (ch_entrypoint c) (ch_args c) (ch_rootfs c) isolation k in
  exec_container exec_path prog_args c isolation.

(** The child of a supervisor that is root. An error ends it with status 1. *)
Definition child_root (c : ChildSetup) : io ExecCall :=
  _ ← x_ok setsid;
  isolation ← child_enter_ns_root (ch_rootfs c) (ch_volumes c) (ch_isolate_net c) (ch_hostname c);
  _ ← x_when (ch_isolate_net c) (_ ← x_ok write_sync; x_ok (λ k, (true, (read_ack k).2)));
  become_container c isolation.

(** The child of a supervisor that is not. *)
Definition child_userns (c : ChildSetup) : io ExecCall :=
  _ ← x_ok setsid;
  isolation ← child_enter_ns_fork (ch_rootfs c) (ch_volumes c) (ch_isolate_net c) (ch_hostname c);
  become_container c isolation.
End child.

(** ** What a child may do *)

(** What is bound into the root: the root itself, host directories and devices, and the
    host path of a volume at the place of that volume. *)
Definition bind_ok (rootfs : string) (volumes : list ResolvedVolume) (src dst : string) : Prop :=
  (src = rootfs ∧ dst = rootfs)
  ∨ ((src ∈ ["/proc"; "/sys"] ∨ src ∈ (λ n, path_join "/dev" n) <$> DEV_NODES) ∧ starts_with rootfs dst = true)
  ∨ ∃ vol, vol ∈ volumes ∧ src = rv_host_path vol
      ∧ (dst = rootfs +:+ rv_container_path vol ∨ dst = degraded_dst vol).

Definition child_event `{Syscalls K} `{UnicodeCase} (c : ChildSetup) (e : Event) : Prop :=
  match e with
  | EMount (Some src) dst None _ => bind_ok (ch_rootfs c) (ch_volumes c) src dst
  | EMount (Some src) _ (Some fstype) _ => src = fstype
  | EMount None _ _ _ => True
  | EPivot d | EChroot d => d = ch_rootfs c
  | EChdir d => d = "/" ∨ ch_working_dir c = Some d
  | ESetgid g => ch_group c = Some g
  | ESetuid u => ch_user c = Some u
  | EDropBounding cap => ch_privileged c = false ∧ cap ∉ kept_caps (ch_caps c)
  | ECapsSet _ l => ch_privileged c = false ∧ ∀ cap, cap ∈ l → cap ∈ kept_caps (ch_caps c)
  | ELandlock => True
  end.

Section log.
Context {K : Type} `{FS : FileSystem K} `{SC : Syscalls K} `{TR : !Trace K} `{UC : UnicodeCase}.
Variable c : ChildSetup.
Implicit Types k : K.

(** The log grows by events that the child may cause. *)
Definition grows k k' : Prop := ∃ evs, trace k' = trace k ++ evs ∧ Forall (child_event c) evs.

#[local] Instance grows_preorder : PreOrder grows.
Proof.
  split.
  - intros k. exists []. by rewrite app_nil_r.
  - intros k1 k2 k3 (e1 & H1 & F1) (e2 & H2 & F2). exists (e1 ++ e2).
    rewrite H2, H1, <- app_assoc. split; [done|by apply Forall_app].
Qed.

Abbreviation may m := (x_triple grows m (λ _, True)).

Definition allowed (e : option Event) : Prop := match e with Some e => child_event c e | None => True end.

Lemma logs_grows f e k : logs trace f e → allowed e → grows k (f k).2.
Proof.
  intros Hf He. exists (match e with Some e => if (f k).1 then [e] else [] | None => [] end).
  split; [apply Hf|]. destruct e; [|constructor]. destruct (f k).1; [|constructor]. by constructor.
Qed.

Lemma may_check msg f e : logs trace f e → allowed e → may (x_check msg f).
Proof. intros. apply (xt_check grows). intros k. by eapply logs_grows. Qed.
Lemma may_ok f e : logs trace f e → allowed e → may (x_ok f).
Proof. intros. apply (xt_ok grows). intros k. by eapply logs_grows. Qed.
Lemma may_is_ok f e : logs trace f e → allowed e → may (x_is_ok f).
Proof. intros. apply (xt_is_ok grows). intros k. by eapply logs_grows. Qed.
Lemma may_for {A} (f : A → execR K unit) l : (∀ a, a ∈ l → may (f a)) → may (x_for f l).
Proof. apply (xt_for grows). Qed.
Lemma may_succeeds {A} (m : execR K A) : may m → may (x_succeeds m).
Proof. apply (xt_succeeds grows). Qed.
Lemma may_get : may x_get.
Proof. apply (xt_get grows). Qed.
Lemma may_mret {A} (a : A) : may (mret a : execR K A).
Proof. by apply (xt_ret grows). Qed.
Lemma may_fail {A} msg : may (x_fail msg : execR K A).
Proof. apply (xt_fail grows). Qed.
Lemma may_bind {A B} (m : execR K A) (f : A → execR K B) : may m → (∀ a, may (f a)) → may (m ≫= f).
Proof. apply (xt_seq grows). Qed.
Lemma may_try {A} (m : execR K A) : may m → may (x_try m).
Proof. intros H. eapply (xt_try grows), H. Qed.

(** The calls, each with what it logs. *)
#[local] Hint Resolve tr_mount tr_umount tr_pivot tr_chroot tr_chdir tr_setgid tr_setuid tr_drop tr_caps
  tr_landlock tr_unshare tr_hostname tr_loopback tr_setsid tr_nproc tr_sync tr_mkdir tr_write tr_rmdir
  tr_rmdirs tr_rm tr_copy tr_symlink : calls.
#[local] Hint Resolve may_mret may_fail may_get : may.

#[local] Ltac call := solve [eapply may_ok || eapply may_check || eapply may_is_ok;
  [solve [eauto 1 with calls]|cbn [allowed child_event]; first [exact I | solve [eauto 6]]]].
#[local] Ltac may_through := repeat first
  [ progress intros | solve [auto 2 with may] | call
  | apply may_bind | apply may_try | apply may_succeeds | apply may_for | case_match ].

(** *** Volumes *)

Lemma may_clear dst : may (clear_path dst).
Proof. unfold clear_path. may_through. Qed.
Lemma may_make_parent dst : may (make_parent dst).
Proof. unfold make_parent. may_through. Qed.
#[local] Hint Resolve may_clear may_make_parent : may.
Lemma may_copy_tree n : ∀ src dst, may (copy_tree n src dst).
Proof. induction n as [|n IH]; intros src dst; cbn [copy_tree]; may_through. Qed.
#[local] Hint Resolve may_copy_tree : may.

Lemma may_install vol dst : may (install_volume vol dst).
Proof. unfold install_volume. may_through. Qed.
Lemma may_bind_volume vol dst :
  bind_ok (ch_rootfs c) (ch_volumes c) (rv_host_path vol) dst → may (bind_volume vol dst).
Proof. intros Hb. unfold bind_volume, x_when. may_through. Qed.
#[local] Hint Resolve may_install may_bind_volume : may.

Lemma may_bind_mount vol : vol ∈ ch_volumes c → may (bind_mount_volume (ch_rootfs c) vol).
Proof.
  intros Hv. assert (bind_ok (ch_rootfs c) (ch_volumes c) (rv_host_path vol) (ch_rootfs c +:+ rv_container_path vol))
    as Hb by (right; right; eauto).
  unfold bind_mount_volume, make_source. may_through.
Qed.
Lemma may_bind_mount_degraded vol : vol ∈ ch_volumes c → may (bind_mount_volume_degraded vol).
Proof.
  intros Hv. assert (bind_ok (ch_rootfs c) (ch_volumes c) (rv_host_path vol) (degraded_dst vol))
    as Hb by (right; right; eauto).
  unfold bind_mount_volume_degraded, make_source. may_through.
Qed.
Lemma may_volumes : may (bind_mount_volumes (ch_rootfs c) (ch_volumes c)).
Proof. apply may_for, may_bind_mount. Qed.
Lemma may_volumes_degraded : may (bind_mount_volumes_degraded (ch_volumes c)).
Proof. apply may_for, may_bind_mount_degraded. Qed.
#[local] Hint Resolve may_volumes may_volumes_degraded : may.

(** *** The root *)

Lemma may_private rootfs : may (make_parent_mount_private rootfs).
Proof. unfold make_parent_mount_private. may_through. Qed.
Lemma bind_host_ok n :
  starts_with "/" n = false → "/" +:+ n ∈ ["/proc"; "/sys"] →
  bind_ok (ch_rootfs c) (ch_volumes c) ("/" +:+ n) (path_join (ch_rootfs c) n).
Proof.
  intros Hn Hs. right. left. split; [by left|].
  destruct (path_join_starts (ch_rootfs c) n Hn) as [r ->]. apply starts_with_app.
Qed.
Lemma may_host_dir n :
  starts_with "/" n = false → "/" +:+ n ∈ ["/proc"; "/sys"] → may (bind_host_dir (ch_rootfs c) n).
Proof. intros Hn Hs. pose proof (bind_host_ok n Hn Hs). unfold bind_host_dir. may_through. Qed.
Lemma may_device n : n ∈ DEV_NODES → may (bind_device (path_join (ch_rootfs c) "dev") n).
Proof.
  intros Hn. assert (bind_ok (ch_rootfs c) (ch_volumes c) (path_join "/dev" n)
    (path_join (path_join (ch_rootfs c) "dev") n)).
  { right. left. split; [right; by apply list_elem_of_fmap_2|].
    destruct (path_join_starts (ch_rootfs c) "dev" eq_refl) as [r Hr].
    destruct (path_join_starts (path_join (ch_rootfs c) "dev") n) as [r' Hr'].
    - assert (forallb (λ n, negb (starts_with "/" n)) DEV_NODES = true) as H by reflexivity.
      rewrite forallb_forall in H. specialize (H n (proj1 (list_elem_of_In _ _) Hn)). by apply negb_true_iff.
    - rewrite Hr', Hr, string_app_assoc. apply starts_with_app. }
  unfold bind_device. may_through.
Qed.
#[local] Hint Resolve may_private : may.

Lemma may_components b : may (mount_rootfs_components (ch_rootfs c) b (ch_volumes c)).
Proof.
  assert (bind_ok (ch_rootfs c) (ch_volumes c) (ch_rootfs c) (ch_rootfs c)) by (by left).
  assert (may (bind_host_dir (ch_rootfs c) "proc")) by (apply may_host_dir; [done|set_solver]).
  assert (may (bind_host_dir (ch_rootfs c) "sys")) by (apply may_host_dir; [done|set_solver]).
  assert (may (x_for (bind_device (path_join (ch_rootfs c) "dev")) DEV_NODES)) by (apply may_for, may_device).
  unfold mount_rootfs_components, x_when. may_through.
Qed.
Lemma may_filesystems b : may (mount_filesystems b).
Proof. unfold mount_filesystems, mount_fs, x_when. may_through. Qed.
#[local] Hint Resolve may_components may_filesystems : may.

Lemma may_enter_rootfs : may (enter_rootfs (ch_rootfs c) true (ch_volumes c)).
Proof. unfold enter_rootfs. may_through. Qed.
Lemma may_enter_chroot : may (enter_chroot (ch_rootfs c) (ch_volumes c)).
Proof. unfold enter_chroot. may_through. Qed.
Lemma may_namespaces flags net hostname what : may (enter_namespaces flags net hostname what).
Proof. unfold enter_namespaces, x_when. may_through. Qed.
Lemma may_ack : may await_ack.
Proof.
  intros k r k'. unfold await_ack. pose proof (tr_ack k) as Ha.
  assert (∀ o k1, read_ack k = (o, k1) → grows k k1) as Hg.
  { intros o k1 E. rewrite E in Ha. exists []. rewrite app_nil_r. split; [exact Ha|constructor]. }
  destruct (read_ack k) as [o k1]. specialize (Hg o k1 eq_refl).
  destruct o as [[|b l]|]; intros [= <- <-]; (split; [exact Hg|]); by intros.
Qed.
#[local] Hint Resolve may_enter_rootfs may_enter_chroot may_namespaces may_ack : may.
Lemma may_sync : may sync_with_parent.
Proof. unfold sync_with_parent. may_through. Qed.
#[local] Hint Resolve may_sync : may.

(** *** Privileges *)

Lemma may_drop : may (drop_capabilities (ch_privileged c) (ch_caps c)).
Proof.
  unfold drop_capabilities. destruct (ch_privileged c) eqn:Hp; [apply may_mret|].
  apply may_bind; [apply may_for; intros cap _; case_bool_decide; may_through|]. intros _.
  apply may_bind; [apply may_get|]. intros k.
  assert (∀ s, child_event c (ECapsSet s (List.filter (λ c0, bool_decide (c0 ∈ kept_caps (ch_caps c)))
    (unwrap_or (caps_permitted k) [])))) as Hs.
  { intros s. split; [done|]. intros cap [_ H]%list_elem_of_In%filter_In. by apply bool_decide_eq_true in H. }
  assert (∀ s, child_event c (ECapsSet s [])) as H0 by (intros s; split; [done|]; intros cap H'; by apply not_elem_of_nil in H').
  do 2 (apply may_bind; [eapply may_ok; [apply tr_caps|apply Hs]|intros _]).
  apply may_bind; [|intros _]; (eapply may_ok; [apply tr_caps|apply H0]).
Qed.
#[local] Hint Resolve may_drop : may.
Lemma may_privileges isolation :
  may (child_setup_privileges (ch_group c) (ch_user c) (ch_working_dir c) (ch_privileged c) (ch_caps c) isolation).
Proof. unfold child_setup_privileges, apply_landlock, x_opt. may_through. Qed.
#[local] Hint Resolve may_privileges : may.
Lemma may_exec p args isolation : may (exec_container p args c isolation).
Proof.
  intros k r k'. unfold exec_container. destruct (execvpe_container _ _ _ _ _ _); [|done].
  intros [= <- <-]. by split.
Qed.
#[local] Hint Resolve may_exec : may.
Lemma may_become isolation : may (become_container c isolation).
Proof. unfold become_container. may_through. Qed.

(** ** Into the root *)

(** The log of a step into the root: a change of the root to the container's, and at once
    [chdir("/")]. *)
Definition rooted k k' : Prop :=
  ∃ before after e, trace k' = trace k ++ before ++ e :: EChdir "/" :: after
    ∧ (e = EPivot (ch_rootfs c) ∨ e = EChroot (ch_rootfs c)).

Definition enters {A} (m : execR K A) (Q : A → Prop) : Prop :=
  ∀ k a k', m k = Ret (Ok a, k') → Q a → rooted k k'.

Lemma rooted_l k1 k2 k3 : rooted k1 k2 → grows k2 k3 → rooted k1 k3.
Proof.
  intros (x & y & e & H1 & He) (z & H2 & _). exists x, (y ++ z), e. split; [|done].
  rewrite H2, H1. cbn. by rewrite <- !app_assoc.
Qed.
Lemma rooted_r k1 k2 k3 : grows k1 k2 → rooted k2 k3 → rooted k1 k3.
Proof.
  intros (z & H2 & _) (x & y & e & H1 & He). exists (z ++ x), y, e. split; [|done].
  rewrite H1, H2. by rewrite <- !app_assoc.
Qed.

Lemma enters_then {A B} (m : execR K A) (f : A → execR K B) Q :
  may m → (∀ a, enters (f a) Q) → enters (m ≫= f) Q.
Proof.
  intros Hm Hf k b k' [(e & _ & [=])|(a & k1 & H1 & H2)]%x_bind_Ret HQ.
  eapply rooted_r; [by apply (Hm _ _ _ H1)|by eapply Hf].
Qed.
Lemma enters_first {A B} (m : execR K A) (f : A → execR K B) P Q :
  enters m P → (∀ a, may (f a)) → (∀ a, P a ∨ enters (f a) Q) → may m → enters (m ≫= f) Q.
Proof.
  intros Hm Hf HPQ Hmay k b k' [(e & _ & [=])|(a & k1 & H1 & H2)]%x_bind_Ret HQ.
  destruct (HPQ a) as [HP|Hn]; [|eapply rooted_r; [by apply (Hmay _ _ _ H1)|by eapply Hn]].
  eapply rooted_l; [by eapply Hm|by apply (Hf _ _ _ _ H2)].
Qed.
Lemma enters_done {A} (a : A) (Q : A → Prop) : ¬ Q a → enters (mret a) Q.
Proof. intros H k b k' [= <- _]. done. Qed.

(** The change of the root, the change of the directory, and the rest. *)
Lemma enters_here {A} msg f e (g : execR K A) Q :
  logs trace f (Some e) → e = EPivot (ch_rootfs c) ∨ e = EChroot (ch_rootfs c) → may g →
  enters (_ ← x_check msg f; _ ← x_check "chdir" (chdir "/"); g) Q
  ∧ enters (_ ← x_check msg f; _ ← x_check "Failed to chdir to /" (chdir "/"); g) Q.
Proof.
  intros Hf He Hg.
  assert (∀ msg', enters (_ ← x_check msg f; _ ← x_check msg' (chdir "/"); g) Q) as H; [|by split].
  intros msg' k a k' [(? & _ & [=])|(u & k1 & H1 & [(? & _ & [=])|(u' & k2 & H2 & H3)]%x_bind_Ret)]%x_bind_Ret _.
  eapply rooted_l; [|by apply (Hg _ _ _ H3)].
  unfold x_check in H1, H2. pose proof (Hf k) as L1. pose proof (tr_chdir "/" k1) as L2.
  destruct (f k) as [[] k1'] eqn:E; [|done]. injection H1 as _ ->. cbn [fst snd] in L1.
  destruct (chdir "/" k1) as [[] k2'] eqn:E2; [|done]. injection H2 as _ ->. cbn [fst snd] in L2.
  exists [], [], e. split; [|done]. rewrite L2, L1. cbn. by rewrite <- app_assoc.
Qed.

Lemma succeeds_enters {A} (m : execR K A) Q : (∀ a, Q a) → enters m Q → enters (x_succeeds m) (λ b, b = true).
Proof.
  intros HQ Hm k b k'. unfold x_succeeds, x_try, mbind, execR_bind.
  destruct (m k) as [[[a|e] k1]|] eqn:E; [|intros [= <- <-]; done|done].
  intros [= <- <-] _. by eapply Hm.
Qed.

Lemma enter_rootfs_enters : enters (enter_rootfs (ch_rootfs c) true (ch_volumes c)) (λ _, True).
Proof using All.
  unfold enter_rootfs. apply enters_then; [apply may_components|]. intros _.
  apply enters_then; [call|]. intros _. apply enters_here with (e := EPivot (ch_rootfs c)); [apply tr_pivot|by left|].
  may_through.
Qed.
Lemma enter_chroot_enters : enters (enter_chroot (ch_rootfs c) (ch_volumes c)) (λ _, True).
Proof using All.
  unfold enter_chroot. apply enters_then; [apply may_components|]. intros _.
  apply enters_here with (e := EChroot (ch_rootfs c)); [apply tr_chroot|by right|]. may_through.
Qed.

(** Each way into the namespaces, by the isolation that it reports. *)
Lemma enter_ns_root_enters :
  enters (child_enter_ns_root (ch_rootfs c) (ch_volumes c) (ch_isolate_net c) (ch_hostname c)) (λ _, True).
Proof using All.
  unfold child_enter_ns_root. apply enters_then; [apply may_namespaces|]. intros _.
  apply enters_then; [call|]. intros _.
  eapply enters_first; [by eapply succeeds_enters, enter_rootfs_enters|..]; [may_through| |may_through].
  intros [|]; [by left|right]. apply enters_then; [apply may_volumes|]. intros _.
  apply enters_here with (e := EChroot (ch_rootfs c)); [apply tr_chroot|by right|]. may_through.
Qed.
Lemma enter_ns_fork_enters :
  enters (child_enter_ns_fork (ch_rootfs c) (ch_volumes c) (ch_isolate_net c) (ch_hostname c)) (λ i, i ≠ Degraded).
Proof using All.
  unfold child_enter_ns_fork. apply enters_then; [apply may_namespaces|]. intros _.
  apply enters_then; [apply may_sync|]. intros _. apply enters_then; [call|]. intros _.
  eapply enters_first; [by eapply succeeds_enters, enter_chroot_enters|..]; [may_through| |may_through].
  intros [|]; [by left|right]. apply enters_then; [apply may_volumes_degraded|]. intros _.
  by apply enters_done; intros ?.
Qed.

Lemma may_ns_root :
  may (child_enter_ns_root (ch_rootfs c) (ch_volumes c) (ch_isolate_net c) (ch_hostname c)).
Proof. unfold child_enter_ns_root. may_through. Qed.
Lemma may_ns_fork :
  may (child_enter_ns_fork (ch_rootfs c) (ch_volumes c) (ch_isolate_net c) (ch_hostname c)).
Proof. unfold child_enter_ns_fork. may_through. Qed.
Lemma may_read_ack : may (x_ok (λ k, (true, (read_ack k).2))).
Proof.
  intros k r k' [= _ <-]. split; [|done]. exists []. rewrite app_nil_r. split; [apply tr_ack|constructor].
Qed.
#[local] Hint Resolve may_ns_root may_ns_fork may_read_ack may_become : may.

Lemma may_child_root : may (child_root c).
Proof. unfold child_root, x_when. may_through. Qed.
Lemma may_child_userns : may (child_userns c).
Proof. unfold child_userns. may_through. Qed.


(** C9. With a supervisor that is root, no program starts outside its root: the log has a
    change to the root of the container, with [chdir("/")] at once. *)
Theorem child_root_confined k call k' :
  child_root c k = Ret (Ok call, k') →
  ∃ before after e, trace k' = trace k ++ before ++ e :: EChdir "/" :: after
    ∧ (e = EPivot (ch_rootfs c) ∨ e = EChroot (ch_rootfs c)).
Proof.
  assert (enters (child_root c) (λ _, True)) as He; [|intros H; by apply (He k call)].
  unfold child_root. apply enters_then; [call|]. intros _.
  eapply enters_first; [exact enter_ns_root_enters|..]; [unfold x_when; may_through|by left|apply may_ns_root].
Qed.

(** Without root, what the entry reports is never more than what was done: [Chroot] is
    reported when the root was changed, [Pivot] never. *)
Theorem userns_isolation k i k' :
  child_enter_ns_fork (ch_rootfs c) (ch_volumes c) (ch_isolate_net c) (ch_hostname c) k = Ret (Ok i, k') →
  i ≠ Pivot ∧ (i = Chroot → rooted k k').
Proof using All.
  intros H. split.
  - unfold child_enter_ns_fork in H.
    repeat (apply x_bind_Ret in H as [(? & _ & [=])|(? & ? & _ & H)]).
    case_match; [by injection H as <-|].
    apply x_bind_Ret in H as [(? & _ & [=])|(? & ? & _ & H)]. by injection H as <-.
  - intros ->. by apply (enter_ns_fork_enters _ _ _ H).
Qed.
End log.

(** ** A child on a concrete host *)

Definition sample_child : ChildSetup :=
  {| ch_entrypoint := "psql"; ch_args := ["-l"]; ch_env := [("HOME", "/")]; ch_rootfs := "/r";
     ch_volumes := [{| rv_host_path := "/data"; rv_container_path := "/var/data"; rv_read_only := true |}];
     ch_isolate_net := true; ch_hostname := "web"; ch_user := Some 1000; ch_group := Some 1000;
     ch_working_dir := Some "/srv"; ch_privileged := false; ch_caps := ["net_admin"] |}.

Definition sample_host (refuses : Event → bool) : Box :=
  {| bx_tree := bx_tree sample_root; bx_log := []; bx_refuses := refuses |}.

Definition sample_run (refuses : Event → bool) (m : execR Box ExecCall) : option (result ExecCall * list Event) :=
  match m (sample_host refuses) with Ret (r, k) => Some (r, bx_log k) | Panic => None end.

Definition sample_end {A} (refuses : Event → bool) (m : execR Box A) : Box :=
  match m (sample_host refuses) with Ret (_, k) => k | Panic => sample_host refuses end.

Definition sample_call : ExecCall :=
  {| ec_program := "/usr/bin/psql"; ec_argv := ["/usr/bin/psql"; "-l"]; ec_env := ["HOME=/"] |}.

Lemma child_root_confined_witness :
  let k' := sample_end (λ _, false) (child_root sample_child) in
  child_root sample_child (sample_host (λ _, false)) = Ret (Ok sample_call, k')
  ∧ ∃ before after e, bx_log k' = before ++ e :: EChdir "/" :: after ∧ (e = EPivot "/r" ∨ e = EChroot "/r").
Proof.
  intros k'. assert (child_root sample_child (sample_host (λ _, false)) = Ret (Ok sample_call, k')) as H
    by (vm_compute; reflexivity).
  clearbody k'. split; [exact H|]. exact (child_root_confined sample_child _ _ _ H).
Defined.

(** A host that refuses pivot_root, and one that refuses to become another user. *)
Definition no_pivot (e : Event) : bool := match e with EPivot _ => true | _ => false end.
Definition no_setuid (e : Event) : bool := match e with ESetuid _ => true | _ => false end.
Definition no_tmp (e : Event) : bool := match e with EMount _ "/tmp" _ _ => true | _ => false end.


Lemma userns_isolation_witness :
  let m := child_enter_ns_fork "/r" (ch_volumes sample_child) true "web" in
  let k' := sample_end (λ _, false) m in
  m (sample_host (λ _, false)) = Ret (Ok Chroot, k') ∧ rooted sample_child (sample_host (λ _, false)) k'.
Proof.
  intros m k'. assert (m (sample_host (λ _, false)) = Ret (Ok Chroot, k')) as H by (vm_compute; reflexivity).
  clearbody k'. split; [exact H|]. exact (proj2 (userns_isolation sample_child _ _ _ H) eq_refl).
Defined.

(** A program still starts when the host refuses [setuid], as the user of the supervisor. *)
Example setuid_refused_is_ignored :
  match sample_run no_setuid (child_root sample_child) with
  | Some (Ok call, l) => (call, bool_decide (ESetuid 1000 ∈ l)) = (sample_call, false)
  | _ => False
  end.
Proof. vm_compute. reflexivity. Qed.

(** Without root, an entry that fails after the change of the root is reported as
    [Degraded]: the program is then looked for at its host path, inside the new root. *)
Example degraded_after_chroot :
  match child_enter_ns_fork "/r" [] true "web" (sample_host no_tmp) with
  | Ret (Ok i, k) => (i, bool_decide (EChroot "/r" ∈ bx_log k)) = (Degraded, true)
  | _ => False
  end.
Proof. vm_compute. reflexivity. Qed.
