(* ===== verification/Exec.v ===== *)
(** * Exec: commands in running containers
    (src/src/cri/exec.rs)

    The request of [kubectl exec]: its parameters, the container it reaches and the command
    that is built for it; then the two kinds of session, on a terminal and on pipes, as the
    events that their loops and tasks handle. The terminal's settings and the signal
    dispositions of the child are left out. *)
From S2P Require Import Prelude Text Utf8 Json Pool Cri Host Volumes Rootfs Runtime Query.

(** ** Parameters *)

Record ExecParams := {
  ep_command : list string; ep_container : option string;
  ep_tty : bool; ep_stdin : bool; ep_stdout : bool; ep_stderr : bool
}.

Definition parse_bool (params : gmap string (list string)) (key : string) (default : bool) : bool :=
  unwrap_or (v ← params !! key; s ← head v; Some (bool_decide (s = "true"))) default.

(** [chars.next()] on the UTF-8 bytes. *)
Definition next_char (l : bytes) : bytes * bytes :=
  match l with [] => ([], []) | _ => let n := (utf8_next l).2 in (take n l, drop n l) end.

(** [chars.next().and_then(|c| c.to_digit(16)).unwrap_or(0)] *)
Definition hex_char (l : bytes) : Z * bytes :=
  let '(c, l') := next_char l in
  (match c with [b] => unwrap_or (to_digit16 b) 0 | _ => 0 end, l').

Fixpoint url_decode_fuel (fuel : nat) (l : bytes) : bytes :=
  match fuel, l with
  | _, [] => []
  | O, _ => []
  | S n, _ =>
      let '(c, l1) := next_char l in
      if bool_decide (c = [43]) then 32 :: url_decode_fuel n l1
      else if bool_decide (c = [37]) then
        let '(hi, l2) := hex_char l1 in
        let '(lo, l3) := hex_char l2 in
        latin1_char (u8 (u8 hi * 16 + u8 lo)) ++ url_decode_fuel n l3
      else c ++ url_decode_fuel n l1
  end.

(** Every step takes a byte at least, so the length is enough. *)
Definition url_decode (s : string) : string :=
  of_bytes (url_decode_fuel (length (as_bytes s)) (as_bytes s)).

Definition add_pair (map : gmap string (list string)) (pair : string) : gmap string (list string) :=
  if bool_decide (pair = "") then map
  else
    let '(k, v) := match split_once "=" pair with Some kv => kv | None => (pair, "") end in
    let key := url_decode k in
    <[key := unwrap_or (map !! key) [] ++ [url_decode v]]> map.

Definition parse_query_params (query : string) : gmap string (list string) :=
  foldl add_pair ∅ (split_on "&" query).

(** [ExecParams::from_request_parts] *)
Definition from_request_parts (query : option string) : ExecParams :=
  let params := parse_query_params (unwrap_or query "") in
  {| ep_command := unwrap_or (or_opt (params !! "command") (params !! "command[]")) [];
     ep_container := (v ← params !! "container"; head v);
     ep_tty := parse_bool params "tty" false;
     ep_stdin := parse_bool params "stdin" false;
     ep_stdout := parse_bool params "stdout" true;
     ep_stderr := parse_bool params "stderr" true |}.

(** ** The container *)

Record ContainerExecInfo := {
  ei_rootfs_pid : option (string * Z); ei_env_vars : list (string * string); ei_isolated_net : bool
}.

Definition resolve_container `{HashOrder} (running : gmap string RunningContainer) (pod_name : string)
    (container_name : option string) : option ContainerExecInfo :=
  rc ← match container_name with
       | Some container => running !! (pod_name +:+ "-" +:+ container)
       | None => find_map (λ kv : string * RunningContainer,
                   if starts_with (pod_name +:+ "-") kv.1 then Some kv.2 else None) (hash_iter running)
       end;
  p ← pid (instance rc);
  Some {| ei_rootfs_pid := if bool_decide (rootfs (instance rc) = "") then None else Some (rootfs (instance rc), p);
          ei_env_vars := env_vars (instance rc); ei_isolated_net := isolated_net (instance rc) |}.

(** ** The command *)

Record NamespaceFds := { nf_user : option string; nf_mnt : option string; nf_net : option string }.

(** What the child does before it becomes the program. *)
Inductive PreExec :=
  | EnterNamespaces (ns : NamespaceFds) (isolated_net use_mnt_ns : bool)
  | SetGid (gid : Z) | SetUid (uid : Z) | Chdir (dir : string) | SetSid.

Record Command := {
  cm_program : string; cm_args : list string; cm_env : gmap string string; cm_pre_exec : list PreExec
}.

Definition default_path : string := "/usr/local/sbin:/usr/local/bin:/usr/sbin:/usr/bin:/sbin:/bin".

Section command.
Context {K : Type} `{FS : FileSystem K} `{SC : Syscalls K}.
(** [nix::fcntl::open] of a namespace file. *)
Variable can_open : string → K → bool.
(** [setns] on an open namespace file. *)
Variable setns : string → CloneFlag → K → bool * K.

Abbreviation io := (execR K).

Definition open_one (k : K) (path : string) : option string := if can_open path k then Some path else None.

Definition try_open_namespace_fds (container_pid : Z) (k : K) : NamespaceFds :=
  let ns n := "/proc/" +:+ display container_pid +:+ "/ns/" +:+ n in
  {| nf_user := open_one k (ns "user"); nf_mnt := open_one k (ns "mnt"); nf_net := open_one k (ns "net") |}.

(** [if let Some(fd) = fd { setns(fd, flag)? }] *)
Definition set_ns (fd : option string) (flag : CloneFlag) (what : string) : io unit :=
  match fd with Some p => x_check what (setns p flag) | None => mret () end.

Definition enter_mnt_net_ns (ns : NamespaceFds) (isolated_net use_mnt_ns : bool) : io unit :=
  _ ← x_when use_mnt_ns (set_ns (nf_mnt ns) CLONE_NEWNS "setns(CLONE_NEWNS)");
  x_when isolated_net (set_ns (nf_net ns) CLONE_NEWNET "setns(CLONE_NEWNET)").

(** The user namespace is entered where that works. *)
Definition enter_container_namespaces (ns : NamespaceFds) (isolated_net use_mnt_ns : bool) : io unit :=
  _ ← x_try (set_ns (nf_user ns) CLONE_NEWUSER "setns(CLONE_NEWUSER)");
  enter_mnt_net_ns ns isolated_net use_mnt_ns.

(** A step of [pre_exec]; its failure is ignored. *)
Definition run_pre_exec (p : PreExec) : io unit :=
  match p with
  | EnterNamespaces ns i m => _ ← x_try (enter_container_namespaces ns i m); mret ()
  | SetGid g => x_ok (setgid g)
  | SetUid u => x_ok (setuid u)
  | Chdir d => x_ok (chdir d)
  | SetSid => x_ok setsid
  end.

Definition own_path : string := unwrap_or env_path default_path.

Definition read_container_path (p : Z) (k : K) : string :=
  unwrap_or (data ← fs_read ("/proc/" +:+ display p +:+ "/environ") k; path_variable data) own_path.

Definition apply_env (env_vars : list (string * string)) (container_pid : option Z) (k : K) : gmap string string :=
  let env := foldl (λ m kv, <[kv.1 := kv.2]> m) ∅ env_vars in
  if existsb (λ kv, bool_decide (kv.1 = "PATH")) env_vars then env
  else <[ "PATH" := match container_pid with Some p => read_container_path p k | None => own_path end ]> env.

Definition library_path (r : string) : string := r +:+ "/usr/local/lib:" +:+ r +:+ "/usr/lib:" +:+ r +:+ "/lib".

(** Whether the program is started in the mount namespace of the container, and how it is
    called there or on the host. *)
Definition resolve_program (cmd : string) (args : list string) (root : string) (container_pid : Z) (k : K)
    : bool * (string * list string) :=
  let can_enter_mnt := is_some (nf_mnt (try_open_namespace_fds container_pid k)) in
  let fs_isolated := container_fs_isolated container_pid root k in
  let '(exec_path, prog_args) :=
    if fs_isolated && can_enter_mnt then build_container_argv_in_mount_ns cmd args root k
    else build_container_argv cmd args root k in
  let binary_in_rootfs := has_char "/" exec_path in
  (fs_isolated && binary_in_rootfs && can_enter_mnt, (exec_path, prog_args)).

Definition owner_steps (container_pid : Z) (k : K) : list PreExec :=
  match file_owner ("/proc/" +:+ display container_pid) k with
  | Some (u, g) => [SetGid g; SetUid u]
  | None => []
  end.

Definition build_command (cmd : string) (args : list string) (rootfs_pid : option (string * Z))
    (env_vars : list (string * string)) (isolated_net : bool) (k : K) : exec Command :=
  match rootfs_pid with
  | Some (root, container_pid) =>
      let ns := try_open_namespace_fds container_pid k in
      let '(use_mnt_ns, (exec_path, prog_args)) := resolve_program cmd args root container_pid k in
      '(program, prog_args) ←
        (if use_mnt_ns then Ret (exec_path, prog_args) else wrap_dynamic_linker exec_path prog_args root k);
      let env := apply_env env_vars (Some container_pid) k in
      let r := trim_end_matches "/" root in
      Ret {| cm_program := program; cm_args := prog_args;
             cm_env := if negb use_mnt_ns && starts_with r program
                       then <[ "LD_LIBRARY_PATH" := library_path r ]> env else env;
             cm_pre_exec := EnterNamespaces ns isolated_net use_mnt_ns :: owner_steps container_pid k |}
  | None => Ret {| cm_program := cmd; cm_args := args; cm_env := apply_env env_vars None k; cm_pre_exec := [] |}
  end.

(** The configuration that [build_resolv_conf] reads. *)
Variable cfg : Config.Config.
Variable dns_port : option Z.
Variable dns_server : option string.
(** The terminal: opening, granting, unlocking and naming it, with the text of the error. *)
Variable open_pty : K → result unit * K.

Definition build (cmd : string) (args : list string) (rootfs_pid : option (string * Z))
    (env_vars : list (string * string)) (isolated_net : bool) : io Command := λ k,
  c ← build_command cmd args rootfs_pid env_vars isolated_net k; Ret (Ok c, k).

(** The server itself mounts /proc and /dev/pts in the root, at every session. *)
Definition exec_mounts (rootfs_pid : option (string * Z)) : io unit :=
  match rootfs_pid with Some (root, _) => setup_exec_mounts cfg dns_port dns_server root | None => mret () end.

Definition spawn_with_pipes (cmd : string) (args : list string) (rootfs_pid : option (string * Z))
    (env_vars : list (string * string)) (isolated_net : bool) : io Command :=
  _ ← exec_mounts rootfs_pid; build cmd args rootfs_pid env_vars isolated_net.

Definition spawn_with_pty (cmd : string) (args : list string) (rootfs_pid : option (string * Z))
    (env_vars : list (string * string)) (isolated_net : bool) : io Command :=
  _ ← (λ k, Ret (open_pty k));
  _ ← exec_mounts rootfs_pid;
  c ← build cmd args rootfs_pid env_vars isolated_net;
  k ← x_get;
  mret {| cm_program := cm_program c; cm_args := cm_args c; cm_env := cm_env c;
          cm_pre_exec := cm_pre_exec c ++
            match rootfs_pid with
            | Some (_, p) => [EnterNamespaces (try_open_namespace_fds p k) isolated_net isolated_net; Chdir "/"]
            | None => []
            end ++ [SetSid] |}.

(** The steps of the child, each of them tried. *)
Definition run_pre_execs (c : Command) : io unit := x_for run_pre_exec (cm_pre_exec c).
End command.

(** ** Messages *)

Inductive WsMessage := WsBinary (data : bytes) | WsClose (code : option Z) | WsOther.

#[export] Instance WsMessage_eq_dec : EqDecision WsMessage.
Proof. solve_decision. Defined.

Definition ws_frame (tag : byte) (payload : bytes) : WsMessage := WsBinary (tag :: payload).

(** [serde_json::to_string] of the status. *)
Class JsonText := { json_to_string : json → string }.

Definition status_json (exit_code : Z) (message : option string) : json :=
  let '(status, message) :=
    match message with
    | Some msg => ("Failure", msg)
    | None =>
        if exit_code =? 0 then ("Success", "command exited with code 0")
        else ("Failure", "command exited with code " +:+ display exit_code)
    end in
  jobj [("kind", JStr "Status"); ("apiVersion", JStr "v1"); ("metadata", JObj []);
        ("status", JStr status); ("message", JStr message);
        ("details", jobj [("exitCode", JNum exit_code)])].

(** What [send_exit_status_msg] sends. *)
Definition exit_messages `{JsonText} (exit_code : Z) (message : option string) : list WsMessage :=
  [ws_frame 3 (as_bytes (json_to_string (status_json exit_code message))); WsClose (Some 1000)].

(** ** A session on a terminal *)

Inductive PtyRead := PtyData (data : bytes) | PtyError | PtyWouldBlock.

(** An iteration of the loop: the terminal can be read, a message or the end of the stream
    arrives. With it comes what the calls of the iteration give: whether the terminal is
    ready, whether the client takes a frame, how much of the input the terminal takes. *)
Inductive TtyEvent :=
  | TtyReadable (ready : bool) (r : PtyRead) (sent : bool)
  | TtyMessage (msg : option (result WsMessage)) (writable : bool) (taken : option nat).

Record Tty := {
  tty_sent : list WsMessage; tty_input : list bytes; tty_size : Z * Z; tty_killed : bool
}.

Definition tty_send (m : WsMessage) (s : Tty) : Tty :=
  {| tty_sent := tty_sent s ++ [m]; tty_input := tty_input s; tty_size := tty_size s; tty_killed := tty_killed s |}.
Definition tty_write (d : bytes) (s : Tty) : Tty :=
  {| tty_sent := tty_sent s; tty_input := tty_input s ++ [d]; tty_size := tty_size s; tty_killed := tty_killed s |}.
Definition tty_resize (w : Z * Z) (s : Tty) : Tty :=
  {| tty_sent := tty_sent s; tty_input := tty_input s; tty_size := w; tty_killed := tty_killed s |}.
Definition tty_kill (s : Tty) : Tty :=
  {| tty_sent := tty_sent s; tty_input := tty_input s; tty_size := tty_size s; tty_killed := true |}.

Definition as_u64 (j : json) : option Z :=
  match j with JNum n => in_range 0 (2 ^ 64 - 1) (Some n) | _ => None end.

Section sessions.
Context `{JT : JsonText}.
(** [serde_json::from_slice] *)
Variable json_from_slice : bytes → option json.

Definition resize_of (data : bytes) : option (Z * Z) :=
  r ← json_from_slice data;
  let dim k d := u16 (unwrap_or (v ← jget k r; as_u64 v) d) in
  Some (dim "Width" 80, dim "Height" 24).

(** The session afterwards, and whether the loop goes on. *)
Definition tty_step (e : TtyEvent) (s : Tty) : Tty * bool :=
  match e with
  | TtyReadable false _ _ => (s, false)
  | TtyReadable true PtyError _ => (s, false)
  | TtyReadable true PtyWouldBlock _ => (s, true)
  | TtyReadable true (PtyData d) sent =>
      if bool_decide (d = []) then (s, false)
      else if sent : bool then (tty_send (ws_frame 1 d) s, true) else (s, false)
  | TtyMessage (Some (Ok (WsBinary (tag :: data)))) writable taken =>
      if (tag =? 0) && negb (bool_decide (data = [])) then
        if writable : bool then
          (match taken with Some n => tty_write (take n data) s | None => s end, true)
        else (s, false)
      else if (tag =? 4) && negb (bool_decide (data = [])) then
        (match resize_of data with Some w => tty_resize w s | None => s end, true)
      else (s, true)
  | TtyMessage (Some (Ok (WsClose _))) _ _ | TtyMessage None _ _ => (tty_kill s, false)
  | TtyMessage _ _ _ => (s, true)
  end.

(** The loop over the events that it sees; whether it has ended. *)
Fixpoint tty_loop (l : list TtyEvent) (s : Tty) : Tty * bool :=
  match l with
  | [] => (s, false)
  | e :: l' => let '(s', on) := tty_step e s in if on : bool then tty_loop l' s' else (s', true)
  end.

Definition tty_new : Tty := {| tty_sent := []; tty_input := []; tty_size := (80, 24); tty_killed := false |}.

(** [child.wait().ok().and_then(|s| s.code()).unwrap_or(d)]: no code for a child that a
    signal killed. *)
Definition wait_code (d : Z) (status : option (option Z)) : Z := unwrap_or (s ← status; s) d.

(** All messages of a session whose loop has ended. *)
Definition tty_messages (s : Tty) (status : option (option Z)) : list WsMessage :=
  tty_sent s ++ exit_messages (wait_code 0 status) None.

(** ** A session on pipes *)

(** The task that reads one stream: it may hold a chunk that the channel has no room for. *)
Inductive Reader := RReady | RHolding (d : bytes) | RDone.
(** The task that sends what the channel holds: it ends when the tasks that fill the channel
    have ended, or when the client does not take a message. *)
Inductive Forwarder := FwdRunning | FwdDrained | FwdFailed.
Inductive Phase := Looping | Waiting (code : Z) | Finished.

#[export] Instance Forwarder_eq_dec : EqDecision Forwarder.
Proof. solve_decision. Defined.

Record Pipes := {
  ps_readers : bool → Reader;            (* false: stdout; true: stderr *)
  ps_got : bool → bytes;                 (* what was read from each *)
  ps_queue : list WsMessage;
  ps_forwarder : Forwarder;
  ps_sent : list WsMessage;
  ps_stdin : bool; ps_input : list bytes;
  ps_phase : Phase; ps_killed : bool
}.

Definition tag_of (err : bool) : byte := if err then 2 else 1.
Definition upd {A} (i : bool) (a : A) (f : bool → A) : bool → A := λ j, if Bool.eqb j i then a else f j.

Definition set_reader (i : bool) (r : Reader) (s : Pipes) : Pipes :=
  {| ps_readers := upd i r (ps_readers s); ps_got := ps_got s; ps_queue := ps_queue s;
     ps_forwarder := ps_forwarder s; ps_sent := ps_sent s; ps_stdin := ps_stdin s; ps_input := ps_input s;
     ps_phase := ps_phase s; ps_killed := ps_killed s |}.
Definition add_got (i : bool) (d : bytes) (s : Pipes) : Pipes :=
  {| ps_readers := ps_readers s; ps_got := upd i (ps_got s i ++ d) (ps_got s); ps_queue := ps_queue s;
     ps_forwarder := ps_forwarder s; ps_sent := ps_sent s; ps_stdin := ps_stdin s; ps_input := ps_input s;
     ps_phase := ps_phase s; ps_killed := ps_killed s |}.
Definition set_channel (q : list WsMessage) (f : Forwarder) (l : list WsMessage) (s : Pipes) : Pipes :=
  {| ps_readers := ps_readers s; ps_got := ps_got s; ps_queue := q;
     ps_forwarder := f; ps_sent := l; ps_stdin := ps_stdin s; ps_input := ps_input s;
     ps_phase := ps_phase s; ps_killed := ps_killed s |}.
Definition set_input (b : bool) (l : list bytes) (s : Pipes) : Pipes :=
  {| ps_readers := ps_readers s; ps_got := ps_got s; ps_queue := ps_queue s;
     ps_forwarder := ps_forwarder s; ps_sent := ps_sent s; ps_stdin := b; ps_input := l;
     ps_phase := ps_phase s; ps_killed := ps_killed s |}.
Definition set_phase (p : Phase) (killed : bool) (s : Pipes) : Pipes :=
  {| ps_readers := ps_readers s; ps_got := ps_got s; ps_queue := ps_queue s;
     ps_forwarder := ps_forwarder s; ps_sent := ps_sent s; ps_stdin := ps_stdin s; ps_input := ps_input s;
     ps_phase := p; ps_killed := killed |}.

(** The streams that the client asked for; the others are never read. *)
Definition pipes_new (stdin_flag stdout_flag stderr_flag : bool) : Pipes :=
  {| ps_readers := λ i, if (if i then stderr_flag else stdout_flag) : bool then RReady else RDone;
     ps_got := λ _, []; ps_queue := []; ps_forwarder := FwdRunning; ps_sent := [];
     ps_stdin := stdin_flag; ps_input := []; ps_phase := Looping; ps_killed := false |}.

(** A message of the client, and what waiting for the child gives if it is killed. *)
Definition pipes_message (msg : option (result WsMessage)) (status : option (option Z)) (s : Pipes) : Pipes :=
  match msg with
  | Some (Ok (WsBinary (tag :: data))) =>
      if tag =? 0 then
        if ps_stdin s then set_input true (ps_input s ++ [data]) s else s
      else if (tag =? 255) && bool_decide (head data = Some 0) then set_input false (ps_input s) s
      else s
  | Some (Ok (WsClose _)) | None | Some (Err _) =>
      set_phase (Waiting (wait_code 137 status)) true (set_input false (ps_input s) s)
  | _ => s
  end.

Definition pipes_exit (status : option (option Z)) (s : Pipes) : Pipes :=
  set_phase (Waiting (wait_code 0 status)) (ps_killed s) (set_input false (ps_input s) s).

Definition channel_size : nat := 64.

(** ** The start of a session *)

Section start.
Context {K : Type} `{FS : FileSystem K} `{SC : Syscalls K}.
Variable can_open : string → K → bool.
Variable cfg : Config.Config.
Variable dns_port : option Z.
Variable dns_server : option string.
Variable open_pty : K → result unit * K.
(** [Command::spawn], with the text of the error. *)
Variable spawn : Command → K → result unit * K.

Inductive Session :=
  | SessionClosed
  | SessionFailed (l : list WsMessage)
  | SessionTty (c : Command) (s : Tty)
  | SessionPipes (c : Command) (s : Pipes).

(** The command is made and spawned, or the client is told why not. *)
Definition spawn_session (what : string) (make : execR K Command) (run : Command → Session) : execR K Session :=
  c ← x_try make;
  match c with
  | Err e => mret (SessionFailed (exit_messages 1 (Some (what +:+ e))))
  | Ok c =>
      r ← x_try (λ k, Ret (spawn c k));
      match r with
      | Err e => mret (SessionFailed (exit_messages 1 (Some ("spawn error: " +:+ e))))
      | Ok _ => mret (run c)
      end
  end.

Definition exec_ws (cmds : list string) (rootfs_pid : option (string * Z)) (env_vars : list (string * string))
    (isolated_net tty stdin_flag stdout_flag stderr_flag : bool) : execR K Session :=
  match cmds with
  | [] => mret SessionClosed
  | cmd :: args =>
      if tty then
        spawn_session "pty setup: "
          (spawn_with_pty can_open cfg dns_port dns_server open_pty cmd args rootfs_pid env_vars isolated_net)
          (λ c, SessionTty c tty_new)
      else
        spawn_session "pipe setup: "
          (spawn_with_pipes can_open cfg dns_port dns_server cmd args rootfs_pid env_vars isolated_net)
          (λ c, SessionPipes c (pipes_new stdin_flag stdout_flag stderr_flag))
  end.

(** Without a container the command runs on the host. *)
Definition exec_handler `{HashOrder} (running : gmap string RunningContainer) (name : string) (params : ExecParams)
    : execR K Session :=
  let info := resolve_container running name (ep_container params) in
  exec_ws (ep_command params) (i ← info; ei_rootfs_pid i) (unwrap_or (ei_env_vars <$> info) [])
    (unwrap_or (ei_isolated_net <$> info) false)
    (ep_tty params) (ep_stdin params) (ep_stdout params) (ep_stderr params).
End start.

Inductive pipes_step : Pipes → Pipes → Prop :=
  | pp_read i d s : ps_readers s i = RReady → d ≠ [] →
      pipes_step s (set_reader i (RHolding d) (add_got i d s))
  | pp_eof i s : ps_readers s i = RReady → pipes_step s (set_reader i RDone s)
  | pp_queue i d s : ps_readers s i = RHolding d → ps_forwarder s = FwdRunning →
      (length (ps_queue s) < channel_size)%nat →
      pipes_step s (set_reader i RReady
        (set_channel (ps_queue s ++ [ws_frame (tag_of i) d]) FwdRunning (ps_sent s) s))
  | pp_give_up i d s : ps_readers s i = RHolding d → ps_forwarder s = FwdFailed →
      pipes_step s (set_reader i RDone s)
  | pp_forward m q s : ps_forwarder s = FwdRunning → ps_queue s = m :: q → ps_phase s ≠ Finished →
      pipes_step s (set_channel q FwdRunning (ps_sent s ++ [m]) s)
  | pp_forward_fails m q s : ps_forwarder s = FwdRunning → ps_queue s = m :: q →
      pipes_step s (set_channel [] FwdFailed (ps_sent s) s)
  | pp_drained s : ps_forwarder s = FwdRunning → ps_queue s = [] → (∀ i, ps_readers s i = RDone) →
      pipes_step s (set_channel [] FwdDrained (ps_sent s) s)
  | pp_message msg status s : ps_phase s = Looping → pipes_step s (pipes_message msg status s)
  | pp_exit status s : ps_phase s = Looping → pipes_step s (pipes_exit status s)
  (** The status, after the tasks have ended or five seconds for each of them have passed;
      the client may be gone. *)
  | pp_finish code (taken : bool) s : ps_phase s = Waiting code →
      pipes_step s (set_phase Finished (ps_killed s)
        (set_channel (ps_queue s) (ps_forwarder s)
           (ps_sent s ++ if taken then exit_messages code None else []) s)).
End sessions.

(** ** The output arrives in order *)

(** What the messages carry of a stream. *)
Definition payload (tag : byte) (l : list WsMessage) : bytes :=
  concat (omap (λ m, match m with WsBinary (t :: d) => if t =? tag then Some d else None | _ => None end) l).

#[global] Arguments payload : simpl never.

Definition held (r : Reader) : bytes := match r with RHolding d => d | _ => [] end.

(** A frame of one of the two streams. *)
Definition output_frame (m : WsMessage) : Prop := ∃ i d, m = ws_frame (tag_of i) d.

Lemma payload_app t l1 l2 : payload t (l1 ++ l2) = payload t l1 ++ payload t l2.
Proof. unfold payload. by rewrite omap_app, concat_app. Qed.
Lemma payload_frame i j d : payload (tag_of i) [ws_frame (tag_of j) d] = if Bool.eqb i j then d else [].
Proof. unfold payload. destruct i, j; cbn; by rewrite ?app_nil_r. Qed.
Lemma payload_cons t m l : payload t (m :: l) = payload t [m] ++ payload t l.
Proof. exact (payload_app t [m] l). Qed.
Lemma upd_eq {A} i (a : A) f : upd i a f i = a.
Proof. unfold upd. by destruct i. Qed.
Lemma upd_ne {A} i j (a : A) f : Bool.eqb j i = false → upd i a f j = f j.
Proof. unfold upd. by intros ->. Qed.

Section output.
Context `{JT : JsonText}.

Lemma payload_exit i code msg : payload (tag_of i) (exit_messages code msg) = [].
Proof. unfold payload, exit_messages. by destruct i. Qed.

(** The messages until the end, and the two that end the session. *)
Definition well_ended (s : Pipes) : Prop :=
  match ps_phase s with
  | Finished => ∃ l code, Forall output_frame l ∧ (ps_sent s = l ++ exit_messages code None ∨ ps_sent s = l)
  | _ => Forall output_frame (ps_sent s)
  end.

Record pipes_inv (s : Pipes) : Prop := {
  pi_queue : Forall output_frame (ps_queue s);
  pi_ended : well_ended s;
  pi_order : ∀ i, if bool_decide (ps_forwarder s = FwdFailed)
    then payload (tag_of i) (ps_sent s) `prefix_of` ps_got s i
    else payload (tag_of i) (ps_sent s) ++ payload (tag_of i) (ps_queue s) ++ held (ps_readers s i) = ps_got s i;
  pi_drained : ps_forwarder s = FwdDrained → ps_queue s = [] ∧ ∀ i, ps_readers s i = RDone
}.

(** A step that changes neither the messages nor what was read. *)
Lemma inv_frame s s' :
  pipes_inv s → ps_readers s' = ps_readers s → ps_got s' = ps_got s → ps_queue s' = ps_queue s →
  ps_forwarder s' = ps_forwarder s → ps_sent s' = ps_sent s → ps_phase s' ≠ Finished → ps_phase s ≠ Finished →
  pipes_inv s'.
Proof.
  intros [Hq He Ho Hd] Er Eg Eq Ef Es Hp Hp0. split; rewrite ?Er, ?Eg, ?Eq, ?Ef, ?Es; try done.
  unfold well_ended in *. rewrite Es. by destruct (ps_phase s'), (ps_phase s).
Qed.

Lemma inv_reader i r s :
  pipes_inv s → held r = held (ps_readers s i) ∨ ps_forwarder s = FwdFailed →
  (ps_readers s i = RDone → r = RDone) → pipes_inv (set_reader i r s).
Proof.
  intros [Hq He Ho Hd] Hh Hr. split; cbn; try done.
  - intros j. specialize (Ho j). case_bool_decide as Hf; [done|]. destruct Hh as [Hh|Hh]; [|done].
    destruct (Bool.eqb j i) eqn:E; [apply eqb_prop in E as ->; by rewrite upd_eq, Hh|by rewrite upd_ne].
  - intros Hf. destruct (Hd Hf) as [H1 H2]. split; [done|]. intros j.
    destruct (Bool.eqb j i) eqn:E; [apply eqb_prop in E as ->; rewrite upd_eq; auto|by rewrite upd_ne].
Qed.

Lemma inv_read i d s :
  ps_readers s i = RReady → pipes_inv s → pipes_inv (set_reader i (RHolding d) (add_got i d s)).
Proof.
  intros Hi [Hq He Ho Hd]. split; cbn; try done.
  - intros j. specialize (Ho j). destruct (Bool.eqb j i) eqn:E; [|by rewrite !upd_ne].
    apply eqb_prop in E as ->. rewrite !upd_eq. case_bool_decide; [by apply prefix_app_r|].
    rewrite Hi in Ho. cbn [held] in *. by rewrite <- Ho, app_nil_r, <- app_assoc.
  - intros Hf. destruct (Hd Hf) as [_ H2]. by rewrite H2 in Hi.
Qed.

Lemma inv_queue i d s :
  ps_readers s i = RHolding d → ps_forwarder s = FwdRunning → pipes_inv s →
  pipes_inv (set_reader i RReady
    (set_channel (ps_queue s ++ [ws_frame (tag_of i) d]) FwdRunning (ps_sent s) s)).
Proof.
  intros Hi Hf [Hq He Ho Hd]. split; cbn; try done.
  - apply Forall_app. split; [done|]. apply Forall_singleton. by exists i, d.
  - intros j. specialize (Ho j). rewrite bool_decide_false in Ho by congruence. rewrite <- Ho, payload_app, payload_frame.
    destruct (Bool.eqb j i) eqn:E; [apply eqb_prop in E as ->; rewrite upd_eq, Hi|rewrite upd_ne by done];
      cbn [held]; by rewrite ?app_nil_r, <- ?app_assoc.
Qed.

Lemma inv_forward m q s :
  ps_forwarder s = FwdRunning → ps_queue s = m :: q → ps_phase s ≠ Finished → pipes_inv s →
  pipes_inv (set_channel q FwdRunning (ps_sent s ++ [m]) s).
Proof.
  intros Hf Eq Hp [Hq He Ho Hd]. rewrite Eq in Hq. apply Forall_cons in Hq as [Hm Hq]. split; cbn; try done.
  - unfold well_ended in *. cbn. destruct (ps_phase s); try done; apply Forall_app; by rewrite Forall_singleton.
  - intros j. specialize (Ho j). rewrite bool_decide_false in Ho by congruence.
    rewrite <- Ho, Eq, payload_app, (payload_cons _ m q). by rewrite <- !app_assoc.
Qed.

Lemma inv_channel q f s :
  ps_forwarder s = FwdRunning → pipes_inv s →
  f = FwdFailed ∧ q = [] ∨ f = FwdDrained ∧ q = [] ∧ ps_queue s = [] ∧ (∀ i, ps_readers s i = RDone) →
  pipes_inv (set_channel q f (ps_sent s) s).
Proof.
  intros Hf [Hq He Ho Hd] [[-> ->]|(-> & -> & Eq & Hr)]; split; cbn; try done.
  - intros i. specialize (Ho i). rewrite bool_decide_false in Ho by congruence. rewrite <- Ho. by apply prefix_app_r.
  - intros i. specialize (Ho i). by rewrite bool_decide_false, Eq in Ho by congruence.
Qed.

Lemma inv_finish code (taken : bool) s :
  ps_phase s = Waiting code → pipes_inv s →
  pipes_inv (set_phase Finished (ps_killed s) (set_channel (ps_queue s) (ps_forwarder s)
    (ps_sent s ++ if taken then exit_messages code None else []) s)).
Proof.
  intros Hp [Hq He Ho Hd]. unfold well_ended in He. rewrite Hp in He. split; cbn; try done.
  - exists (ps_sent s), code. split; [done|]. destruct taken; [by left|right; apply app_nil_r].
  - intros i. specialize (Ho i). rewrite payload_app.
    assert (payload (tag_of i) (if taken then exit_messages code None else []) = []) as ->
      by (destruct taken; [apply payload_exit|done]). by rewrite app_nil_r.
Qed.

Lemma pipes_step_inv s s' : pipes_step s s' → pipes_inv s → pipes_inv s'.
Proof.
  intros [i d s0 Hi _|i s0 Hi|i d s0 Hi Hf _|i d s0 Hi Hf|m q s0 Hf Eq Hp|m q s0 Hf Eq|s0 Hf Eq Hr|msg st s0 Hp|st s0 Hp
         |code taken s0 Hp] Hinv.
  - by apply inv_read.
  - apply inv_reader; [done| |done]. left. by rewrite Hi.
  - by apply inv_queue.
  - apply inv_reader; [done|by right|done].
  - by apply inv_forward.
  - apply inv_channel; [done|done|by left].
  - apply inv_channel; [done|done|by right].
  - eapply inv_frame; try exact Hinv; unfold pipes_message; repeat case_match; cbn; try done; by rewrite Hp.
  - eapply inv_frame; try exact Hinv; cbn; try done. by rewrite Hp.
  - by apply inv_finish.
Qed.

Lemma pipes_new_inv i o e : pipes_inv (pipes_new i o e).
Proof. split; cbn; try done. intros j. by destruct (if j then e else o). Qed.

(** C10. In any interleaving of the tasks of a session: of each stream the client has got a
    beginning of what was read from it, in order and without gaps, and all of it when the
    channel was drained; and after the exit status and the close nothing is sent. *)
Theorem pipes_deliver i o e s :
  rtc pipes_step (pipes_new i o e) s →
  (∀ err, payload (tag_of err) (ps_sent s) `prefix_of` ps_got s err)
  ∧ (ps_forwarder s = FwdDrained → ∀ err, payload (tag_of err) (ps_sent s) = ps_got s err)
  ∧ well_ended s.
Proof.
  intros H. assert (pipes_inv s) as [Hq He Ho Hd].
  { generalize (pipes_new_inv i o e). induction H as [|s1 s2 s3 H1 _ IH]; [done|]. intros Hi. by apply IH, (pipes_step_inv s1). }
  split; [|split; [|done]].
  - intros err. specialize (Ho err). case_bool_decide; [done|]. rewrite <- Ho. by apply prefix_app_r.
  - intros Hf err. destruct (Hd Hf) as [Eq Hr]. specialize (Ho err).
    rewrite bool_decide_false, Eq, Hr in Ho by congruence. cbn in Ho. by rewrite app_nil_r in Ho.
Qed.
End output.

Section tty_output.
Context `{JT : JsonText}.
Variable json_from_slice : bytes → option json.

(** What the terminal gave. *)
Definition tty_reads (l : list TtyEvent) : bytes :=
  concat (omap (λ e, match e with TtyReadable true (PtyData d) _ => Some d | _ => None end) l).

Lemma tty_loop_output l : ∀ s s' ended,
  tty_loop json_from_slice l s = (s', ended) →
  ∃ d, payload 1 (tty_sent s') = payload 1 (tty_sent s) ++ d ∧ d `prefix_of` tty_reads l
    ∧ (ended = false → d = tty_reads l).
Proof.
  induction l as [|e l IH]; intros s s' ended; cbn [tty_loop].
  { intros [= <- <-]. exists []. by rewrite app_nil_r. }
  destruct (tty_step json_from_slice e s) as [s1 on] eqn:E.
  assert (∃ d1, payload 1 (tty_sent s1) = payload 1 (tty_sent s) ++ d1 ∧ (on = true → tty_reads (e :: l) = d1 ++ tty_reads l)
    ∧ (on = false → d1 = [])) as (d1 & H1 & Hon & Hoff).
  { destruct e as [[] [d| |] sent|msg w tk]; cbn in E.
    - case_bool_decide as Hd; [subst d; injection E as <- <-; exists []; by rewrite app_nil_r|].
      destruct sent; injection E as <- <-; [exists d; cbn [tty_send tty_sent]; rewrite payload_app; by rewrite (payload_frame false false)|].
      exists []. by rewrite app_nil_r.
    - injection E as <- <-. exists []. by rewrite app_nil_r.
    - injection E as <- <-. exists []. by rewrite app_nil_r.
    - injection E as <- <-. exists []. by rewrite app_nil_r.
    - injection E as <- <-. exists []. by rewrite app_nil_r.
    - injection E as <- <-. exists []. by rewrite app_nil_r.
    - exists []. rewrite app_nil_r. split; [|by split].
      by repeat (case_match; try (injection E as <- <-)). }
  destruct on; [|intros [= <- <-]].
  - intros H2. destruct (IH _ _ _ H2) as (d2 & H3 & H4 & H5). exists (d1 ++ d2).
    rewrite H3, H1, <- app_assoc, (Hon eq_refl). split; [done|]. split; [by apply prefix_app|].
    intros ->. by rewrite H5.
  - rewrite (Hoff eq_refl) in H1. exists []. split; [done|]. split; [apply prefix_nil|done].
Qed.

(** The client of a terminal session has got what the terminal gave, in order: all of it
    while the session goes on, a beginning of it when the session has ended. *)
Theorem tty_output l s ended :
  tty_loop json_from_slice l tty_new = (s, ended) →
  payload 1 (tty_sent s) `prefix_of` tty_reads l ∧ (ended = false → payload 1 (tty_sent s) = tty_reads l).
Proof.
  intros H. destruct (tty_loop_output l _ _ _ H) as (d & -> & Hp & Hd). by split.
Qed.
End tty_output.

(** ** Parameters arrive *)

(** What a client does to keys and values of a query ([url.Values.Encode] of Go). *)
Definition query_escape_byte (b : byte) : bytes :=
  if unreserved b then [b] else if b =? 32 then [43] else [37; hex_upper (b / 16); hex_upper (b `mod` 16)].
Definition query_escape (s : string) : string := of_bytes (concat (query_escape_byte <$> as_bytes s)).
Definition show_pair (kv : string * string) : string := query_escape kv.1 +:+ "=" +:+ query_escape kv.2.
Definition show_query (l : list (string * string)) : string := join "&" (show_pair <$> l).

Lemma next_char_ascii b l : b < 128 → next_char (b :: l) = ([b], l).
Proof. intros Hb%Z.ltb_lt. unfold next_char, utf8_next, at_byte. cbn [lookup list_lookup unwrap_or]. by rewrite Hb. Qed.

(** What holds of the escape of each of the bytes of ASCII, by trying them. *)
Definition escape_ok (b : byte) : bool :=
  forallb (λ c, (0 <=? c) && (c <? 128) && negb (c =? 38) && negb (c =? 61)) (query_escape_byte b)
  && match query_escape_byte b with
     | [c] => if c =? 43 then b =? 32 else negb (c =? 37) && (c =? b)
     | [p; h; l] => (p =? 37) && bool_decide (to_digit16 h = Some (b / 16)) && bool_decide (to_digit16 l = Some (b `mod` 16))
     | _ => false
     end.

Lemma escape_bytes b : 0 ≤ b < 128 → escape_ok b = true.
Proof. apply (ascii_bytes_cases escape_ok). vm_compute. reflexivity. Qed.

Lemma decode_escape_byte b l n :
  0 ≤ b < 128 → url_decode_fuel (S n) (query_escape_byte b ++ l) = b :: url_decode_fuel n l.
Proof.
  intros Hb. pose proof (escape_bytes b Hb) as H. unfold escape_ok in H.
  apply andb_true_iff in H as [Ha H].
  destruct (query_escape_byte b) as [|c [|h [|lo [|]]]]; try done; cbn [app].
  - cbn [forallb] in Ha. rewrite !andb_true_iff, !Z.leb_le, !Z.ltb_lt in Ha.
    cbn [url_decode_fuel]. rewrite next_char_ascii by lia. destruct (c =? 43) eqn:Ec.
    + apply Z.eqb_eq in Ec as ->. apply Z.eqb_eq in H as ->. done.
    + apply andb_true_iff in H as [Hc Hbc%Z.eqb_eq]. subst c.
      apply negb_true_iff, Z.eqb_neq in Hc. apply Z.eqb_neq in Ec.
      rewrite !bool_decide_false by congruence. done.
  - cbn [forallb] in Ha. rewrite !andb_true_iff, !Z.leb_le, !Z.ltb_lt in Ha. rewrite !andb_true_iff in H.
    destruct H as [[->%Z.eqb_eq Hh%bool_decide_eq_true] Hl%bool_decide_eq_true].
    cbn [url_decode_fuel]. rewrite next_char_ascii by lia. unfold hex_char.
    rewrite next_char_ascii by lia. rewrite next_char_ascii by lia. rewrite Hh, Hl. cbn [unwrap_or].
    rewrite bool_decide_false, bool_decide_true by done.
    pose proof (Z.mod_pos_bound b 16 ltac:(lia)). pose proof (Z.div_mod b 16 ltac:(lia)).
    assert (0 ≤ b / 16 < 16) by (split; [apply Z.div_pos; lia|apply Z.div_lt_upper_bound; lia]).
    rewrite (u8_small (b / 16)), (u8_small (b `mod` 16)), u8_small by lia.
    replace (b / 16 * 16 + b `mod` 16) with b by lia. unfold latin1_char.
    rewrite (proj2 (Z.ltb_lt b 128)) by lia. done.
Qed.

Lemma escape_bytes_ok l : Forall (λ b, 0 ≤ b < 128) l → Forall (λ c, 0 ≤ c < 128 ∧ c ≠ 38 ∧ c ≠ 61) (concat (query_escape_byte <$> l)).
Proof.
  induction 1 as [|b l Hb _ IH]; [constructor|]. cbn [fmap list_fmap concat]. apply Forall_app. split; [|done].
  pose proof (escape_bytes b Hb) as H. unfold escape_ok in H. apply andb_true_iff in H as [H _].
  rewrite forallb_forall in H. apply Forall_forall. intros c Hc%list_elem_of_In. specialize (H c Hc).
  rewrite !andb_true_iff, !negb_true_iff, Z.leb_le, Z.ltb_lt, !Z.eqb_neq in H. lia.
Qed.

Lemma escape_length l : (length l ≤ length (concat (query_escape_byte <$> l)))%nat.
Proof.
  induction l as [|b l IH]; [done|]. cbn [fmap list_fmap concat length]. rewrite length_app.
  assert (1 ≤ length (query_escape_byte b))%nat; [|lia]. unfold query_escape_byte. repeat case_match; cbn; lia.
Qed.

Lemma decode_escape_fuel l : Forall (λ b, 0 ≤ b < 128) l → ∀ n, (length l ≤ n)%nat →
  url_decode_fuel n (concat (query_escape_byte <$> l)) = l.
Proof.
  induction 1 as [|b l Hb _ IH]; intros n Hn; [by destruct n|]. destruct n as [|n]; [cbn in Hn; lia|].
  cbn [fmap list_fmap concat]. rewrite decode_escape_byte by done. rewrite IH; [done|]. cbn in Hn. lia.
Qed.

Lemma url_decode_escape s : is_ascii s = true → url_decode (query_escape s) = s.
Proof.
  intros Hs%is_ascii_bytes. unfold url_decode, query_escape.
  rewrite as_of_bytes.
  - rewrite decode_escape_fuel; [apply of_as_bytes|done|apply escape_length].
  - eapply Forall_impl; [by apply escape_bytes_ok|]. cbn. lia.
Qed.

Lemma of_bytes_no_char c l : Forall (λ b, 0 ≤ b < 256 ∧ b ≠ byte_of_ascii c) l → has_char c (of_bytes l) = false.
Proof.
  induction 1 as [|b l [Hb Hc] _ IH]; [done|]. cbn. apply orb_false_iff. split; [|done].
  apply Ascii.eqb_neq. intros E. apply Hc. rewrite <- E. by rewrite byte_of_ascii_of_byte.
Qed.

Lemma escape_no_char c s :
  is_ascii s = true → byte_of_ascii c = 38 ∨ byte_of_ascii c = 61 → has_char c (query_escape s) = false.
Proof.
  intros Hs%is_ascii_bytes Hc. apply of_bytes_no_char. eapply Forall_impl; [by apply escape_bytes_ok|].
  cbn. intros b Hb. lia.
Qed.

(** The values of a key, in order. *)
Definition values (k : string) (l : list (string * string)) : list string := (filter (λ kv, kv.1 = k) l).*2.
Definition some_values (l : list string) : option (list string) := match l with [] => None | _ => Some l end.

Definition ascii_pair (kv : string * string) : Prop := is_ascii kv.1 = true ∧ is_ascii kv.2 = true.

Lemma values_snoc k l kv : values k (l ++ [kv]) = values k l ++ if decide (kv.1 = k) then [kv.2] else [].
Proof. unfold values. rewrite filter_app, fmap_app, filter_cons. by destruct (decide _). Qed.

Lemma add_pair_spec l kv m :
  ascii_pair kv → (∀ k, m !! k = some_values (values k l)) →
  ∀ k, add_pair m (show_pair kv) !! k = some_values (values k (l ++ [kv])).
Proof.
  intros [Hk Hv] Hm k. unfold add_pair, show_pair.
  rewrite bool_decide_false by (by destruct (query_escape kv.1)).
  change ("=" +:+ query_escape kv.2) with (String "=" (query_escape kv.2)).
  rewrite split_once_app by (apply escape_no_char; [done|by right]).
  rewrite !url_decode_escape, values_snoc by done. destruct (decide (kv.1 = k)) as [<-|Hne].
  - rewrite lookup_insert_eq, Hm. f_equal. unfold some_values. destruct (values kv.1 l); reflexivity.
  - rewrite lookup_insert_ne by done. by rewrite Hm, app_nil_r.
Qed.

Lemma parse_show_query l : Forall ascii_pair l →
  ∀ k, parse_query_params (show_query l) !! k = some_values (values k l).
Proof.
  intros Hl. unfold parse_query_params, show_query. destruct l as [|kv0 l0] eqn:El.
  { intros k. vm_compute. done. }
  rewrite <- El in *. rewrite split_on_join; [|by rewrite El|].
  2: { apply Forall_fmap. eapply Forall_impl; [exact Hl|]. intros kv [Hk Hv]. cbn. unfold show_pair.
       rewrite !has_char_app, !escape_no_char by (done || by left). done. }
  clear El kv0 l0. induction l as [|kv l IH] using rev_ind; [done|].
  apply Forall_app in Hl as [Hl Hkv]. rewrite Forall_singleton in Hkv. rewrite fmap_app, foldl_app.
  cbn [fmap list_fmap foldl]. apply (add_pair_spec l kv); [exact Hkv|by apply IH].
Qed.

(** The query of an exec request. *)
Definition bool_text (b : bool) : string := if b then "true" else "false".
Definition exec_query (p : ExecParams) : list (string * string) :=
  ((λ a, ("command", a)) <$> ep_command p)
  ++ match ep_container p with Some c => [("container", c)] | None => [] end
  ++ [("tty", bool_text (ep_tty p)); ("stdin", bool_text (ep_stdin p)); ("stdout", bool_text (ep_stdout p));
      ("stderr", bool_text (ep_stderr p))].

Lemma values_app k l1 l2 : values k (l1 ++ l2) = values k l1 ++ values k l2.
Proof. unfold values. by rewrite filter_app, fmap_app. Qed.
Lemma values_cons k k' v l : values k ((k', v) :: l) = (if decide (k' = k) then [v] else []) ++ values k l.
Proof. unfold values. rewrite filter_cons. cbn [fst]. by destruct (decide _). Qed.
Lemma values_all k l : values k ((λ a, (k, a)) <$> l) = l.
Proof.
  unfold values. induction l as [|a l IH]; [done|]. cbn [fmap list_fmap]. rewrite filter_cons.
  destruct (decide _) as [_|n]; [|by destruct n]. cbn [fmap list_fmap]. by rewrite IH.
Qed.
Lemma values_none k k' l : k ≠ k' → values k' ((λ a, (k, a)) <$> l) = [].
Proof.
  intros Hk. unfold values. induction l as [|a l IH]; [done|]. cbn [fmap list_fmap]. rewrite filter_cons.
  by destruct (decide _).
Qed.

Lemma bool_text_true b : bool_decide (bool_text b = "true") = b.
Proof. by destruct b. Qed.

(** C39. The request that a client writes is the one that the server reads, whatever ASCII
    characters its command has. *)
Theorem exec_request_arrives p :
  Forall (λ a, is_ascii a = true) (ep_command p) → is_ascii (unwrap_or (ep_container p) "") = true →
  from_request_parts (Some (show_query (exec_query p))) = p.
Proof.
  intros Hc Hn. assert (Forall ascii_pair (exec_query p)) as Hq.
  { unfold exec_query. apply Forall_app. split; [apply Forall_fmap; eapply Forall_impl; [exact Hc|]; by split|].
    apply Forall_app. split; [destruct (ep_container p); [by apply Forall_singleton|constructor]|].
    repeat constructor; cbn; by destruct (ep_tty p), (ep_stdin p), (ep_stdout p), (ep_stderr p). }
  pose proof (parse_show_query _ Hq) as Hp. unfold from_request_parts, parse_bool. cbn [unwrap_or].
  rewrite !Hp. unfold exec_query. rewrite !values_app, values_all, !values_none by done.
  destruct p as [cmd c t i o e]. cbn [ep_command ep_container ep_tty ep_stdin ep_stdout ep_stderr].
  assert (∀ k, k ∈ ["command"; "command[]"; "tty"; "stdin"; "stdout"; "stderr"] →
    values k match c with Some c => [("container", c)] | None => [] end = []) as Hk.
  { intros k Hk%list_elem_of_In. destruct c; [|done]. cbn in Hk. by intuition subst. }
  rewrite !Hk by (apply list_elem_of_In; cbn; tauto). cbn [app].
  assert (values "container" match c with Some c => [("container", c)] | None => [] end
          = match c with Some c => [c] | None => [] end) as -> by by destruct c.
  rewrite !values_cons. repeat first [rewrite decide_True by done|rewrite decide_False by done].
  cbn [values filter list_filter fmap list_fmap app].
  rewrite ?app_nil_r. destruct c, t, i, o, e; by destruct cmd.
Qed.

(** A byte that is not ASCII arrives as the character with its number. *)
Example exec_request_garbled :
  ep_command (from_request_parts (Some "command=echo&command=%C3%A9"))
  = ["echo"; of_bytes [195; 131; 194; 169]].
Proof. vm_compute. reflexivity. Qed.

Lemma exec_request_arrives_witness :
  let p := {| ep_command := ["sh"; "-c"; "a=1 && echo 100%"]; ep_container := Some "web"; ep_tty := true;
              ep_stdin := true; ep_stdout := true; ep_stderr := false |} in
  from_request_parts (Some (show_query (exec_query p))) = p.
Proof. intros p. apply (exec_request_arrives p); [repeat constructor|reflexivity]. Defined.

(** ** Where the program runs *)

Section place.
Context {K : Type} `{FS : FileSystem K} `{SC : Syscalls K}.
Variable can_open : string → K → bool.
Implicit Types k : K.

(** The command joins the mount namespace of its container. *)
Definition in_mount_ns (c : Command) : bool :=
  existsb (λ p, match p with EnterNamespaces _ _ m => m | _ => false end) (cm_pre_exec c).

Lemma owner_steps_in p k : existsb (λ p, match p with EnterNamespaces _ _ m => m | _ => false end) (owner_steps p k) = false.
Proof. unfold owner_steps. destruct (file_owner _ _) as [[u g]|]; done. Qed.

Lemma has_slash s r : has_char "/" (s +:+ "/" +:+ r) = true.
Proof. rewrite !has_char_app. cbn. apply orb_true_r. Qed.

Lemma open_mnt p k :
  is_some (nf_mnt (try_open_namespace_fds can_open p k)) = can_open ("/proc/" +:+ display p +:+ "/ns/mnt") k.
Proof. unfold try_open_namespace_fds, open_one. cbn [nf_mnt]. by destruct (can_open _ k). Qed.

End place.



Section session_examples.
#[local] Instance plain_text : JsonText := {| json_to_string _ := "{}" |}.

Lemma pipes_deliver_witness :
  ∃ s, rtc pipes_step (pipes_new false true true) s ∧ ps_forwarder s = FwdDrained
    ∧ payload 1 (ps_sent s) = ps_got s false ∧ ps_got s false = [104; 105] ∧ ps_phase s = Finished.
Proof.
  assert (∃ s, rtc pipes_step (pipes_new false true true) s
    ∧ ps_forwarder s = FwdDrained ∧ ps_got s false = [104; 105] ∧ ps_phase s = Finished) as (s & H & Hf & Hg & Hp).
  { eexists. split; [|split; [|split]].
    eapply rtc_l; [apply (pp_read false [104; 105]); [reflexivity|discriminate]|].
    eapply rtc_l; [eapply (pp_queue false); [reflexivity|reflexivity|unfold channel_size; cbn; lia]|].
    eapply rtc_l; [eapply pp_forward; [reflexivity|reflexivity|discriminate]|].
    eapply rtc_l; [apply (pp_exit (Some (Some 0))); reflexivity|].
    eapply rtc_l; [apply (pp_eof false); reflexivity|].
    eapply rtc_l; [apply (pp_eof true); reflexivity|].
    eapply rtc_l; [apply pp_drained; [reflexivity|reflexivity|by intros []]|].
    eapply rtc_l; [apply (pp_finish 0 true); reflexivity|]. apply rtc_refl.
    all: reflexivity. }
  destruct (pipes_deliver false true true _ H) as (_ & H2 & _).
  exists s. split; [exact H|]. split; [exact Hf|]. split; [exact (H2 Hf false)|]. split; assumption.
Defined.


Lemma tty_output_witness :
  let l := [TtyReadable true (PtyData [104]) true; TtyMessage (Some (Ok (WsBinary [0; 108]))) true (Some 1%nat);
            TtyReadable true (PtyData [105]) true] in
  ∃ s, tty_loop (λ _, None) l tty_new = (s, false) ∧ payload 1 (tty_sent s) = [104; 105] ∧ tty_input s = [[108]].
Proof.
  intros l. destruct (tty_loop (λ _, None) l tty_new) as [s b] eqn:E.
  assert (b = false ∧ tty_input s = [[108]]) as [-> Hi] by (vm_compute in E; injection E as <- <-; done).
  exists s. split; [reflexivity|]. split; [|exact Hi]. exact (proj2 (tty_output (λ _, None) l s false E) eq_refl).
Defined.

(** A command that a signal killed is reported as a success. *)
Example killed_is_success :
  jidx "status" (status_json (wait_code 0 (Some None)) None) = JStr "Success".
Proof. reflexivity. Qed.

(** The container of another pod is reached when no container is named: [web-2] for [web]. *)
Example exec_reaches_other_pod rc :
  pid (instance rc) = Some 7 →
  is_some (resolve_container {["web-2-nginx" := rc]} "web" None) = true.
Proof. intros Hp. vm_compute in Hp |- *. by rewrite Hp. Qed.
End session_examples.
