(* ===== verification/Watcher.v ===== *)
(** * Watcher: manifests in a directory
    (src/src/manifest/watcher.rs)

    The files of a directory tree are loaded at the start, and again when they change; their
    resources go into the store. The state is the world, whose operating system has the
    files, and the set of files that were processed. The notifications of the kernel are
    events; the documents that the YAML library splits a text into are a parameter. *)
From S2P Require Import Prelude Text Utf8 Resources Pool Netlink Nft NetMux Config Cri SpecBuilder Runtime Process Deployment Service Panics Policy Ingress Storage Registry World Reach Host.

(** ** Paths *)

(** [Path::extension] *)
Definition extension (p : string) : option string :=
  match rsplit_once "." (unwrap_or (path_file_name p) "") with
  | Some (stem, ext) => if bool_decide (stem = "") then None else Some ext
  | None => None
  end.
Definition is_yaml (p : string) : bool :=
  match extension p with Some e => bool_decide (e = "yaml") || bool_decide (e = "yml") | None => false end.

(** Paths are ordered by their components. *)
Fixpoint components_le (p q : list string) : bool :=
  match p, q with
  | [], _ => true
  | _ :: _, [] => false
  | a :: p', b :: q' => if bool_decide (a = b) then components_le p' q' else String.leb a b
  end.
Definition path_le (p q : string) : Prop := components_le (split_on "/" p) (split_on "/" q) = true.
#[export] Instance path_le_dec : RelDecision path_le := λ p q, decide (_ = true).

(** ** The files of a tree *)

Section tree.
Context {K : Type} `{FS : FileSystem K} `{SC : Syscalls K}.
Implicit Types k : K.

(** An entry: a directory that is not hidden goes on the stack, a manifest to the result. *)
Definition visit (dir : string) k (a : list string * list string) (e : DirEntry) : list string * list string :=
  let path := path_join dir (de_name e) in
  if is_dir path k then
    if negb (starts_with "." (de_name e)) then (path :: a.1, a.2) else a
  else if is_yaml path then (a.1, a.2 ++ [path]) else a.

Fixpoint collect_loop (fuel : nat) (dirs result : list string) k : option (list string) :=
  match dirs, fuel with
  | [], _ => Some result
  | _ :: _, O => None
  | dir :: rest, S n =>
      match read_dir dir k with
      | None => collect_loop n rest result k
      | Some entries => let '(dirs, result) := foldl (visit dir k) (rest, result) entries in collect_loop n dirs result k
      end
  end.

(** None when the fuel is used up. *)
Definition collect_yaml_paths (fuel : nat) (root : string) k : option (list string) :=
  merge_sort path_le <$> collect_loop fuel [root] [] k.

(** *** What the loop collects *)

Definition entries_of (dir : string) k : list DirEntry := unwrap_or (read_dir dir k) [].
Definition subdir (dir : string) k (e : DirEntry) : option string :=
  let path := path_join dir (de_name e) in
  if is_dir path k && negb (starts_with "." (de_name e)) then Some path else None.
Definition manifest (dir : string) k (e : DirEntry) : option string :=
  let path := path_join dir (de_name e) in
  if negb (is_dir path k) && is_yaml path then Some path else None.
Definition subdirs (dir : string) k : list string := omap (subdir dir k) (entries_of dir k).
Definition manifests (dir : string) k : list string := omap (manifest dir k) (entries_of dir k).

(** Directories nest less than [n] deep below a directory. *)
Fixpoint nested (n : nat) (dir : string) k : Prop :=
  match n with O => False | S n' => ∀ p, p ∈ subdirs dir k → nested n' p k end.

(** The manifests below a directory, and the number of directories there. *)
Fixpoint walk (n : nat) (dir : string) k : list string :=
  match n with
  | O => []
  | S n' => manifests dir k ++ concat ((λ p, walk n' p k) <$> reverse (subdirs dir k))
  end.
Fixpoint dirs_below (n : nat) (dir : string) k : nat :=
  match n with O => O | S n' => S (sum_list ((λ p, dirs_below n' p k) <$> reverse (subdirs dir k))) end.

Lemma visit_all dir k l : ∀ a,
  foldl (visit dir k) a l = (reverse (omap (subdir dir k) l) ++ a.1, a.2 ++ omap (manifest dir k) l).
Proof.
  induction l as [|e l IH]; intros [ds fs]; cbn [foldl]; [by rewrite app_nil_r|]. rewrite IH.
  unfold visit, subdir, manifest. cbn [omap list_omap fst snd].
  destruct (is_dir _ k); cbn [andb negb].
  - destruct (starts_with _ _); cbn [andb negb fst snd]; [done|]. by rewrite reverse_cons, <- app_assoc.
  - destruct (is_yaml _); cbn [fst snd]; [|done]. by rewrite <- app_assoc.
Qed.

Lemma collect_dir fuel dir rest result k :
  collect_loop (S fuel) (dir :: rest) result k
  = collect_loop fuel (reverse (subdirs dir k) ++ rest) (result ++ manifests dir k) k.
Proof.
  unfold subdirs, manifests, entries_of. cbn [collect_loop]. destruct (read_dir dir k) as [l|]; cbn [unwrap_or].
  - by rewrite visit_all.
  - cbn. by rewrite app_nil_r.
Qed.

Lemma collect_walk k n : ∀ dir, nested n dir k → ∀ fuel rest result,
  collect_loop (dirs_below n dir k + fuel) (dir :: rest) result k = collect_loop fuel rest (result ++ walk n dir k) k.
Proof.
  induction n as [|n IH]; intros dir Hn fuel rest result; [done|]. cbn [nested dirs_below walk Nat.add] in *.
  rewrite collect_dir, app_assoc. generalize (result ++ manifests dir k). clear result.
  assert (∀ p, p ∈ reverse (subdirs dir k) → nested n p k) as Hl by (intros p Hp; apply Hn; by apply elem_of_reverse).
  clear Hn. induction (reverse (subdirs dir k)) as [|p l IHl]; intros result; [by cbn; rewrite app_nil_r|].
  cbn [fmap list_fmap sum_list sum_list_with concat app].
  change (sum_list_with id) with sum_list. cbn [id]. rewrite <- Nat.add_assoc, IH by set_solver.
  rewrite IHl by set_solver. by rewrite <- app_assoc.
Qed.

Lemma collect_more fuel : ∀ dirs result k r m,
  collect_loop fuel dirs result k = Some r → (fuel ≤ m)%nat → collect_loop m dirs result k = Some r.
Proof.
  induction fuel as [|fuel IH]; intros [|d ds] result k r m; try done.
  - by destruct m.
  - by destruct m.
  - destruct m as [|m]; [lia|]. rewrite !collect_dir. intros H Hm. apply IH; [done|lia].
Qed.
End tree.

(** *** The order of the result *)

Lemma components_le_total p : ∀ q, components_le p q = true ∨ components_le q p = true.
Proof.
  induction p as [|a p IH]; intros [|b q]; cbn; auto.
  destruct (bool_decide_reflect (a = b)) as [->|Hab].
  - by rewrite bool_decide_true by done.
  - rewrite bool_decide_false by congruence. destruct (String.leb_total a b); auto.
Qed.

Lemma components_le_antisym p : ∀ q, components_le p q = true → components_le q p = true → p = q.
Proof.
  induction p as [|a p IH]; intros [|b q]; cbn; try done.
  destruct (bool_decide_reflect (a = b)) as [->|Hab].
  - rewrite bool_decide_true by done. intros. f_equal. by apply IH.
  - rewrite bool_decide_false by congruence. intros. by destruct Hab, (String.leb_antisym a b).
Qed.

Lemma leb_trans a b c : String.leb a b = true → String.leb b c = true → String.leb a c = true.
Proof.
  intros H1%Is_true_true H2%Is_true_true. apply Is_true_true.
  exact (transitivity (R := String.le) H1 H2).
Qed.

Lemma components_le_trans p : ∀ q r,
  components_le p q = true → components_le q r = true → components_le p r = true.
Proof.
  induction p as [|a p IH]; intros [|b q] [|c r]; cbn; try done.
  destruct (bool_decide_reflect (a = b)) as [->|Hab]; destruct (bool_decide_reflect (b = c)) as [->|Hbc];
    try (rewrite bool_decide_true by done); try (rewrite bool_decide_false by done); try done.
  - apply IH.
  - intros H1 H2. destruct (bool_decide_reflect (a = c)) as [->|Hac]; [|by eapply leb_trans].
    by destruct Hab, (String.leb_antisym c b).
Qed.

#[export] Instance path_le_total : Total path_le.
Proof. intros p q. apply components_le_total. Qed.
#[export] Instance path_le_trans : Transitive path_le.
Proof. intros p q r. apply components_le_trans. Qed.
#[export] Instance path_le_antisym : AntiSymm (=) path_le.
Proof.
  intros p q H1 H2. rewrite <- (join_split_on "/" p), <- (join_split_on "/" q).
  f_equal. by apply components_le_antisym.
Qed.

(** Files in another order are sorted into the same list. *)
Lemma sort_canonical l l' : l ≡ₚ l' → merge_sort path_le l = merge_sort path_le l'.
Proof.
  intros H. apply (Sorted_unique path_le); [apply Sorted_merge_sort, _..|].
  by rewrite !merge_sort_Permutation.
Qed.

Section collect.
Context {K : Type} `{FS : FileSystem K} `{SC : Syscalls K}.
Implicit Types k : K.

(** The same tree, its directories perhaps listed in other orders. *)
Definition same_tree k k' : Prop :=
  ∀ d, entries_of d k ≡ₚ entries_of d k' ∧ ∀ p, is_dir p k = is_dir p k'.

Lemma same_subdir k k' d e : same_tree k k' → subdir d k e = subdir d k' e ∧ manifest d k e = manifest d k' e.
Proof. intros H. unfold subdir, manifest. by rewrite (proj2 (H d)). Qed.

Lemma same_lists k k' d :
  same_tree k k' → subdirs d k ≡ₚ subdirs d k' ∧ manifests d k ≡ₚ manifests d k'.
Proof.
  intros H. unfold subdirs, manifests. destruct (H d) as [He _].
  assert (∀ l : list DirEntry, omap (subdir d k) l = omap (subdir d k') l ∧ omap (manifest d k) l = omap (manifest d k') l) as Ho.
  { induction l as [|e l [IH1 IH2]]; [done|]. cbn [omap list_omap].
    destruct (same_subdir k k' d e H) as [-> ->]. by rewrite IH1, IH2. }
  rewrite !(proj1 (Ho _)), !(proj2 (Ho _)). by rewrite He.
Qed.

Lemma same_nested k k' n : ∀ d, same_tree k k' → nested n d k → nested n d k'.
Proof.
  induction n as [|n IH]; intros d H; [done|]. cbn. intros Hn p Hp. apply IH; [done|]. apply Hn.
  by rewrite (proj1 (same_lists k k' d H)).
Qed.

Lemma concat_perm {A B} (f g : A → list B) l l' :
  (∀ x, x ∈ l → f x ≡ₚ g x) → l ≡ₚ l' → concat (f <$> l) ≡ₚ concat (g <$> l').
Proof.
  intros Hfg Hl. trans (concat (g <$> l)).
  - clear Hl l'. induction l as [|x l IH]; [done|]. cbn. rewrite (Hfg x) by set_solver. f_equiv. apply IH. set_solver.
  - clear Hfg. induction Hl as [|x l l' _ IH|x y l|l1 l2 l3 _ IH1 _ IH2]; cbn; [done|by rewrite IH| |by etrans].
    rewrite !app_assoc. f_equiv. apply Permutation_app_comm.
Qed.

Lemma same_walk k k' n : ∀ d, same_tree k k' → walk n d k ≡ₚ walk n d k'.
Proof.
  induction n as [|n IH]; intros d H; [done|]. cbn [walk]. destruct (same_lists k k' d H) as [Hs Hm].
  rewrite Hm. f_equiv. apply concat_perm; [intros p _; by apply IH|]. by rewrite !reverse_Permutation.
Qed.

Lemma collect_ends n root k k' :
  nested n root k → same_tree k k' →
  ∃ fuel l, l ≡ₚ walk n root k ∧ Sorted path_le l
    ∧ ∀ m, (fuel ≤ m)%nat → collect_yaml_paths m root k = Some l ∧ collect_yaml_paths m root k' = Some l.
Proof.
  intros Hn Hs. exists (dirs_below n root k + dirs_below n root k')%nat, (merge_sort path_le (walk n root k)).
  split; [apply merge_sort_Permutation|]. split; [apply Sorted_merge_sort, _|].
  assert (∀ k0 m, nested n root k0 → (dirs_below n root k0 ≤ m)%nat →
    collect_yaml_paths m root k0 = Some (merge_sort path_le (walk n root k0))) as H.
  { intros k0 m Hn0 Hm. unfold collect_yaml_paths. erewrite collect_more; [done| |exact Hm].
    rewrite <- (Nat.add_0_r (dirs_below n root k0)), collect_walk by done. done. }
  intros m Hm. split; [apply H; [done|lia]|]. rewrite (H k') by (eauto using same_nested || lia).
  f_equal. symmetry. by apply sort_canonical, same_walk.
Qed.
(** C40. The search of a tree whose directories nest finitely deep ends; it gives the manifests
    of the tree in the order of their paths, in whatever order directories are listed. *)
Theorem collect_terminates n root k k' :
  nested n root k → same_tree k k' →
  ∃ fuel l, l ≡ₚ walk n root k ∧ Sorted path_le l
    ∧ ∀ m, (fuel ≤ m)%nat → collect_yaml_paths m root k = Some l ∧ collect_yaml_paths m root k' = Some l.
Proof. apply collect_ends. Qed.
End collect.

(** ** Loading manifests *)

Inductive EventKind := Create | Modify | Remove | OtherEvent.

Record ManifestWatcher (K KN : Type) := { mw_world : World K KN; mw_processed : gset string }.
#[global] Arguments mw_world {K KN} s : rename.
#[global] Arguments mw_processed {K KN} s : rename.
#[global] Arguments Build_ManifestWatcher {K KN} _ _ : rename.

Definition set_default_namespace (r : AnyResource) : AnyResource :=
  metadata_mut (λ m, set_namespace (Some (unwrap_or (om_namespace m) "default")) m) r.

Section watcher.
Context {K KN doc : Type} `{FS : FileSystem K} `{SC : Syscalls K}.
Variable lib : YamlLib doc.
(** The documents of a text. *)
Variable yaml_docs : string → list (option doc).
Variable now : Z.
Implicit Types s : ManifestWatcher K KN.

Abbreviation io := (execR (ManifestWatcher K KN)).

Definition mw_os s : K := os (sup (cluster (mw_world s))).
Definition set_mw_world (w : World K KN) s := Build_ManifestWatcher w (mw_processed s).
Definition mark_processed (path : string) s := Build_ManifestWatcher (mw_world s) ({[path]} ∪ mw_processed s).

Definition put_one (r : AnyResource) s : ManifestWatcher K KN :=
  let w := mw_world s in
  set_mw_world (set_cluster (set_store (apply now (set_default_namespace r) (world_store w)) (cluster w)) w) s.
Definition put_resource (r : AnyResource) : io unit := x_modify (put_one r).

Definition process_file (path : string) : io unit :=
  s ← x_get;
  match read_to_string path (mw_os s) with
  | None => x_fail ("Failed to read " +:+ path)
  | Some content =>
      if bool_decide (trim content = "") then mret ()
      else
        match parse_manifest_yaml lib (yaml_docs content) with
        | Err _ => x_fail ("Failed to parse YAML in " +:+ path)
        | Ok resources => _ ← x_for put_resource resources; x_modify (mark_processed path)
        end
  end.

(** An error is logged. *)
Definition try_file (path : string) : io unit := _ ← x_try (process_file path); mret ().

Definition load_files (paths : list string) : io unit := x_for try_file paths.

(** Out of fuel there is no result, as for a panic. *)
Definition load_dir_recursive (fuel : nat) (root : string) : io unit := λ s,
  match collect_yaml_paths fuel root (mw_os s) with Some paths => load_files paths s | None => Panic end.

Definition on_mw_os (f : K → bool * K) : ManifestWatcher K KN → bool * ManifestWatcher K KN := λ s,
  let c := cluster (mw_world s) in
  let '(b, k) := f (os (sup c)) in
  (b, set_mw_world (set_cluster (set_sup (set_os k (sup c)) c) (mw_world s)) s).

Definition load_existing (fuel : nat) (dir : string) : io unit :=
  s ← x_get;
  if fs_exists dir (mw_os s) then load_dir_recursive fuel dir
  else x_check ("Failed to create manifests directory: " +:+ dir) (on_mw_os (Cri.create_dir_all dir)).

(** An event of the watch, and each of its paths. *)
Definition handle_path (kind : EventKind) (path : string) : io unit :=
  match kind with
  | Create =>
      if negb (is_yaml path) then mret ()
      else s ← x_get; if bool_decide (path ∈ mw_processed s) then mret () else try_file path
  | Modify => if negb (is_yaml path) then mret () else try_file path
  | Remove | OtherEvent => mret ()
  end.

Definition handle_event (event : result (EventKind * list string)) : io unit :=
  match event with Ok (kind, paths) => x_for (handle_path kind) paths | Err _ => mret () end.

(** After the watch is set up, until its channel closes. *)
Definition start_watching (events : list (result (EventKind * list string))) : io unit :=
  _ ← x_modify (λ s, Build_ManifestWatcher (mw_world s) ∅); x_for handle_event events.
End watcher.

(** ** What loading puts into the store *)

Section loaded.
Context {K KN doc : Type} `{FS : FileSystem K} `{SC : Syscalls K}.
Variable lib : YamlLib doc.
Variable yaml_docs : string → list (option doc).
Variable now : Z.
Implicit Types s : ManifestWatcher K KN.

Definition mw_store s : ResourceStore := world_store (mw_world s).

(** The resources of a file, if it is read and is a stream of manifests. *)
Definition file_resources (k : K) (path : string) : list AnyResource :=
  match read_to_string path k with
  | Some content =>
      if bool_decide (trim content = "") then []
      else match parse_manifest_yaml lib (yaml_docs content) with Ok l => set_default_namespace <$> l | Err _ => [] end
  | None => []
  end.

Definition put_all (l : list AnyResource) (st : ResourceStore) : ResourceStore :=
  foldl (λ st r, apply now r st) st l.

(** A step that puts resources into the store and keeps the operating system. *)
Definition puts (l : list AnyResource) s s' : Prop := mw_store s' = put_all l (mw_store s) ∧ mw_os s' = mw_os s.

Lemma put_resources l s : ∃ s',
  x_for (put_resource now) l s = Ret (Ok (), s') ∧ puts (set_default_namespace <$> l) s s'
  ∧ mw_processed s' = mw_processed s.
Proof.
  revert s. induction l as [|r l IH]; intros s; [by eexists|]. cbn [x_for].
  unfold mbind, execR_bind, put_resource at 1, x_modify at 1.
  destruct (IH (put_one now r s)) as (s' & H & [H1 H2] & H3).
  exists s'. split; [exact H|]. split; [by split|]. exact H3.
Qed.

Lemma try_file_puts path s : ∃ s',
  try_file lib yaml_docs now path s = Ret (Ok (), s') ∧ puts (file_resources (mw_os s) path) s s'.
Proof.
  unfold try_file, process_file, x_try, x_get, file_resources, mbind, execR_bind.
  destruct (read_to_string path (mw_os s)) as [content|]; [|by exists s].
  case_bool_decide; [by exists s|]. destruct (parse_manifest_yaml _ _) as [l|]; [|by exists s].
  destruct (put_resources l s) as (s' & -> & Hp & _). eexists. split; [reflexivity|]. exact Hp.
Qed.

Lemma load_files_puts paths s : ∃ s',
  load_files lib yaml_docs now paths s = Ret (Ok (), s')
  ∧ puts (concat (file_resources (mw_os s) <$> paths)) s s'.
Proof.
  revert s. unfold load_files. induction paths as [|p paths IH]; intros s; [by eexists|]. cbn [x_for].
  unfold mbind at 1, execR_bind. destruct (try_file_puts p s) as (s1 & -> & H1 & H2).
  destruct (IH s1) as (s2 & H & H3 & H4). exists s2. split; [exact H|]. rewrite H2 in H3, H4. split; [|done].
  cbn [fmap list_fmap concat]. unfold put_all in *. by rewrite foldl_app, <- H1.
Qed.

Lemma put_all_lookup l st u :
  resource <$> put_all l st !! u
  = match last (filter (λ r, uid r = u) l) with Some r => Some r | None => resource <$> st !! u end.
Proof.
  unfold put_all. induction l as [|r l IH] using rev_ind; [done|].
  rewrite foldl_app, filter_app, filter_cons, filter_nil. cbn [foldl]. destruct (decide (uid r = u)) as [<-|Hu].
  - rewrite last_snoc. by destruct (apply_lookup now r (foldl (λ st r, apply now r st) st l)) as [? ->].
  - by rewrite apply_lookup_ne, app_nil_r by congruence.
Qed.

Lemma load_existing_result n dir s :
  nested n dir (mw_os s) → fs_exists dir (mw_os s) = true →
  let all := concat (file_resources (mw_os s) <$> merge_sort path_le (walk n dir (mw_os s))) in
  ∃ fuel, ∀ m, (fuel ≤ m)%nat → ∃ s', load_existing lib yaml_docs now m dir s = Ret (Ok (), s')
    ∧ ∀ u, resource <$> mw_store s' !! u
           = match last (filter (λ r, uid r = u) all) with Some r => Some r | None => resource <$> mw_store s !! u end.
Proof.
  intros Hn He all. destruct (collect_ends n dir (mw_os s) (mw_os s) Hn) as (fuel & l & Hl & Hs & Hm);
    [by intros d|]. exists fuel. intros m Hfm. destruct (Hm m Hfm) as [Hc _].
  assert (l = merge_sort path_le (walk n dir (mw_os s))) as ->.
  { apply (Sorted_unique path_le); [done|apply Sorted_merge_sort, _|]. by rewrite merge_sort_Permutation. }
  unfold load_existing, x_get, mbind, execR_bind. rewrite He. unfold load_dir_recursive. rewrite Hc.
  destruct (load_files_puts (merge_sort path_le (walk n dir (mw_os s))) s) as (s' & -> & H & _).
  exists s'. split; [done|]. intros u. rewrite H. apply put_all_lookup.
Qed.

(** C17. At the start: when directories nest finitely deep, loading ends without an error, and
    then the store has, for every uid that a manifest of the tree names, the last resource
    with it in the order of the paths; files that are unreadable, empty or no manifests
    count for nothing, and every other resource is as before. *)
Theorem load_existing_loads n dir s :
  nested n dir (mw_os s) → fs_exists dir (mw_os s) = true →
  let all := concat (file_resources (mw_os s) <$> merge_sort path_le (walk n dir (mw_os s))) in
  ∃ fuel, ∀ m, (fuel ≤ m)%nat → ∃ s', load_existing lib yaml_docs now m dir s = Ret (Ok (), s')
    ∧ ∀ u, resource <$> mw_store s' !! u
           = match last (filter (λ r, uid r = u) all) with Some r => Some r | None => resource <$> mw_store s !! u end.
Proof. apply load_existing_result. Qed.
End loaded.

(** ** Watching *)

Section watch.
Context `{HO : HashOrder} `{UC : UnicodeCase} {K KN net doc : Type} `{FS : FileSystem K} `{SC : Syscalls K}
        `{IJ : ImageConfigJson} `{OS : ContainerOS K} `{SO : StorageOS K}.
Variable errno_name : Z → string.
Variable transact : bytes → K → result bytes * K.
Variable open_netns : Z → K → bool.
Variable set_netns : Z → K → bool * K.
Variable cg : CgroupManager.
Variable base : string.
Variable is_root : bool.
Variable new_uuid : K → string * K.
Variable batch_send : batch net → KN → send_outcome * KN.
Variable parse_net : string → option net.
Variable pick : World K KN → nat.
Variable lib : YamlLib doc.
Variable yaml_docs : string → list (option doc).
Variable now : Z.
Implicit Types s : ManifestWatcher K KN.

Abbreviation world_step := (world_step errno_name transact open_netns set_netns cg base is_root
  new_uuid batch_send parse_net pick).

(** Steps of the program that forget no resource. *)
Definition watches s s' : Prop :=
  rtc world_step (mw_world s) (mw_world s') ∧ ∀ u, is_Some (mw_store s !! u) → is_Some (mw_store s' !! u).

#[local] Instance watches_preorder : PreOrder watches.
Proof.
  split; [intros s; by split|]. intros s1 s2 s3 [H1 D1] [H2 D2]. split; [by etrans|auto].
Qed.

Abbreviation within m := (x_triple watches m (λ _, True)).

Lemma wt_put r : within (put_resource now r).
Proof.
  intros s x s' [= <- <-]. split; [|done]. split.
  - apply rtc_once, step_put.
  - intros u [t Ht]. unfold mw_store, put_one, set_mw_world. cbn.
    destruct (decide (u = uid (set_default_namespace r))) as [->|Hu].
    + destruct (apply_lookup now (set_default_namespace r) (mw_store s)) as [st E]. unfold mw_store in E.
      rewrite E. by eexists.
    + rewrite apply_lookup_ne by done. by exists t.
Qed.

Lemma wt_for {A} (f : A → execR (ManifestWatcher K KN) unit) l : (∀ a, within (f a)) → within (x_for f l).
Proof.
  intros Hf. induction l as [|a l IH]; cbn [x_for]; [by apply (xt_ret watches)|].
  apply (xt_seq watches); [apply Hf|by intros _].
Qed.

Lemma wt_mark (f : ManifestWatcher K KN → gset string) : within (x_modify (λ s, Build_ManifestWatcher (mw_world s) (f s))).
Proof. intros s x s' [= <- <-]. by split. Qed.

Lemma wt_try_file path : within (try_file lib yaml_docs now path).
Proof.
  apply (xt_seq watches); [|intros _; by apply (xt_ret watches)]. eapply (xt_try watches) with (P := λ _, True).
  apply (xt_seq watches); [apply (xt_get watches)|]. intros s.
  destruct (read_to_string _ _); [|apply (xt_fail watches)]. case_match; [by apply (xt_ret watches)|].
  destruct (parse_manifest_yaml _ _); [|apply (xt_fail watches)].
  apply (xt_seq watches); [by apply wt_for, wt_put|]. intros _. exact (wt_mark _).
Qed.

Lemma wt_event e : within (handle_event lib yaml_docs now e).
Proof.
  destruct e as [[kd paths]|]; [|by apply (xt_ret watches)]. apply wt_for. intros p.
  destruct kd; cbn [handle_path]; try by apply (xt_ret watches).
  - destruct (negb _); [by apply (xt_ret watches)|]. apply (xt_seq watches); [apply (xt_get watches)|]. intros s.
    case_bool_decide; [by apply (xt_ret watches)|apply wt_try_file].
  - destruct (negb _); [by apply (xt_ret watches)|apply wt_try_file].
Qed.

(** What the watch does to the world are steps of the program, and no event takes a
    resource out of the store: a manifest that is removed leaves its resources behind. *)
Theorem watching_only_adds events s r s' :
  start_watching lib yaml_docs now events s = Ret (r, s') →
  rtc world_step (mw_world s) (mw_world s') ∧ ∀ u, is_Some (mw_store s !! u) → is_Some (mw_store s' !! u).
Proof.
  assert (within (start_watching lib yaml_docs now events)) as H; [|intros E; by apply (H _ _ _ E)].
  apply (xt_seq watches); [exact (wt_mark _)|]. intros _. apply wt_for, wt_event.
Qed.

(** A file that was processed once is not loaded when it is made again, whatever it then
    contains. *)
Lemma recreated_manifest_skipped path s :
  path ∈ mw_processed s → handle_event lib yaml_docs now (Ok (Create, [path])) s = Ret (Ok (), s).
Proof.
  intros Hp. unfold handle_event. cbn [x_for handle_path]. destruct (is_yaml path); [|done]. cbn [negb].
  unfold x_get, mbind, execR_bind. by rewrite bool_decide_true.
Qed.
End watch.

(** ** A concrete directory *)

Section examples.
#[local] Existing Instance sample_os.
#[local] Existing Instance sample_case.
#[local] Existing Instance sample_image_json.
#[local] Existing Instance no_storage_os.
#[local] Instance tree_syscalls : Syscalls Tree := {|
  is_dir p k := bool_decide (k !! p = Some None);
  is_file p k := is_some (read_to_string p k);
  fs_read p k := as_bytes <$> read_to_string p k;
  read_link _ _ := None; is_symlink _ _ := false; file_id _ _ := None; file_owner _ _ := None;
  access_read _ _ := true; remove_file _ k := (true, k); fs_copy _ _ k := (true, k); symlink _ _ k := (true, k);
  mknod_tty _ k := (true, k); mount _ _ _ _ k := (true, k); umount _ k := (true, k);
  pivot_root _ _ k := (true, k); chroot _ k := (true, k); chdir _ k := (true, k);
  unshare _ k := (true, k); sethostname _ k := (true, k); loopback_up k := (true, k);
  setgid _ k := (true, k); setuid _ k := (true, k); setsid k := (true, k); raise_nproc_limit k := (true, k);
  landlock_restrict k := (true, k); caps_all := []; cap_parse _ := None; caps_permitted _ := None;
  cap_drop_bounding _ k := (true, k); caps_set _ _ k := (true, k);
  write_sync k := (true, k); read_ack k := (None, k); run_command _ _ k := (None, k);
  user_name _ _ := None; getuid := 0; getgid := 0; env_path := None
|}.

Definition sample_tree_dir : Tree :=
  {["/m" := None; "/m/b.yaml" := Some "p"; "/m/apps" := None; "/m/apps/a.yml" := Some "p";
    "/m/.git" := None; "/m/.git/c.yaml" := Some "p"; "/m/README.md" := Some "p"]}.

Definition sample_watcher : ManifestWatcher Tree (list (batch (option Ipv4Cidr))) :=
  let w := sample_world (sample_cluster "i") in
  {| mw_world := set_cluster (set_sup (set_os sample_tree_dir (sup (cluster w))) (cluster w)) w; mw_processed := ∅ |}.

Definition sample_docs (text : string) : list (option string) := [Some text].

Lemma sample_nested : nested 2 "/m" sample_tree_dir.
Proof.
  cbn [nested]. assert (subdirs "/m" sample_tree_dir = ["/m/apps"]) as -> by (vm_compute; reflexivity).
  intros p ->%list_elem_of_singleton. assert (subdirs "/m/apps" sample_tree_dir = []) as -> by (vm_compute; reflexivity).
  by intros p ?%not_elem_of_nil.
Qed.

Lemma collect_terminates_witness :
  ∃ fuel, ∀ m, (fuel ≤ m)%nat →
    collect_yaml_paths m "/m" sample_tree_dir = Some ["/m/apps/a.yml"; "/m/b.yaml"].
Proof.
  destruct (collect_terminates 2 "/m" sample_tree_dir sample_tree_dir sample_nested) as (fuel & l & Hl & Hs & H); [by intros d|].
  exists fuel. intros m Hm. rewrite (proj1 (H m Hm)). f_equal.
  apply (Sorted_unique path_le); [exact Hs| |].
  - repeat constructor; vm_compute; reflexivity.
  - rewrite Hl. vm_compute. apply Permutation_swap.
Defined.

Lemma load_existing_loads_witness :
  ∃ fuel s', load_existing sample_yaml sample_docs 7 fuel "/m" sample_watcher = Ret (Ok (), s')
    ∧ resource <$> mw_store s' !! "Pod/default/<unnamed>"
      = Some (RPod {| pod_metadata := set_namespace (Some "default") meta_default; pod_spec := None |}).
Proof.
  destruct (load_existing_loads sample_yaml sample_docs 7 2 "/m" sample_watcher sample_nested eq_refl) as (fuel & H).
  destruct (H fuel (le_n fuel)) as (s' & E & Hu). exists fuel, s'. split; [exact E|].
  rewrite Hu. vm_compute. reflexivity.
Defined.

Definition sample_events : list (result (EventKind * list string)) :=
  [Ok (Create, ["/m/b.yaml"]); Ok (Remove, ["/m/b.yaml"]); Ok (Create, ["/m/b.yaml"]); Err "queue"].

Lemma watching_only_adds_witness :
  ∃ s', start_watching sample_yaml sample_docs 7 sample_events sample_watcher = Ret (Ok (), s')
    ∧ is_Some (mw_store s' !! "Pod/x/web") ∧ is_Some (mw_store s' !! "Pod/default/<unnamed>").
Proof.
  assert (match start_watching sample_yaml sample_docs 7 sample_events sample_watcher with
          | Ret (Ok (), s') => bool_decide (is_Some (mw_store s' !! "Pod/default/<unnamed>")) = true
          | _ => False end) as H by (vm_compute; reflexivity).
  destruct (start_watching _ _ _ _ _) as [[[[]|e] s']|] eqn:E; [|destruct H..].
  apply bool_decide_eq_true in H. exists s'. split; [reflexivity|].
  destruct (watching_only_adds (λ _, "E") (answers 36) (λ _ _, true) (λ _ k, (true, k)) sample_cg "/b" true
    sample_uuid record_send sample_parse (λ _, 0%nat) sample_yaml sample_docs 7 sample_events _ _ _ E) as [_ Hu].
  split; [|exact H]. apply Hu. vm_compute. by eexists.
Defined.
End examples.
