(* ===== verification/Image.v ===== *)
(** * Image: pulling images and unpacking them
    (src/src/cri/image.rs)

    An image is pulled once into a cache directory, named by a hash of its reference, and
    copied from there to the root file system of each container. A file in each directory
    marks what it holds. The registry client, the archive reader and the hash are parameters,
    as is what [unpack_in] of an archive entry does to the files. [copy_dir] descends as deep
    as the paths of the kernel can be long. *)
From S2P Require Import Prelude Text Utf8 Resources Config Cri Host Volumes Rootfs.

(** ** What the registry client and the archive reader return *)

(** The fields of their types that are used: of the manifest the digests of its layers, of
    the image configuration what is saved. *)
Record ImageLayer := { layer_data : bytes; media_type : string }.
Record ImageData := { id_layers : list ImageLayer; id_config : bytes; id_manifest : option (list string) }.
Record OciConfig := {
  oc_entrypoint : option (list string); oc_cmd : option (list string);
  oc_env : option (list string); oc_working_dir : option string
}.

(** The source of an archive: a layer as it is, or through the gzip decoder. *)
Inductive Reader := Plain (data : bytes) | Gzip (data : bytes).
Record ArchiveOptions := { overwrite : bool; preserve_mtime : bool; preserve_permissions : bool }.

Definition ACCEPTED_LAYER_TYPES := [
  "application/vnd.docker.image.rootfs.diff.tar.gzip";
  "application/vnd.docker.image.rootfs.diff.tar";
  "application/vnd.oci.image.layer.v1.tar";
  "application/vnd.oci.image.layer.v1.tar+gzip";
  "application/vnd.oci.image.layer.v1.tar+zstd"
].

Class ImageCalls (K : Type) := {
  Reference : Type;
  Entry : Type;
  default_hash : string → Z;
  symlink_metadata : string → K → option (entry_type * Z);
  parse_reference : string → option Reference;
  (** The layers come in the order in which their downloads end. *)
  pull : Reference → list string → K → result ImageData * K;
  sha256_digest : ImageLayer → string;
  parse_config : bytes → option (option OciConfig);
  (** None: the archive cannot be read; an entry is none where it is corrupt. *)
  archive_entries : ArchiveOptions → Reader → option (list (option Entry));
  entry_path : Entry → option string;
  unpack_in : Entry → string → K → bool * K
}.

Definition z8s_base_dir (c : Config) (is_root : bool) (home : option string) : string :=
  match data_dir c with Some dir => dir | None => base_dir is_root home end.

Record ImageManager := { cache_dir : string; rootfs_dir : string }.

(** ** The order of the layers *)

Section order.
Context `{HO : HashOrder} (digest : ImageLayer → string).

Definition by_digest (layers : list ImageLayer) : gmap string ImageLayer :=
  foldl (λ m l, <[digest l := l]> m) ∅ layers.

(** Take the layers of the manifest out of the map, one after the other. *)
Fixpoint take_layers (descs : list string) (m : gmap string ImageLayer) : list ImageLayer * gmap string ImageLayer :=
  match descs with
  | [] => ([], m)
  | d :: descs' =>
      match m !! d with
      | Some l => let '(ls, m') := take_layers descs' (delete d m) in (l :: ls, m')
      | None => take_layers descs' m
      end
  end.

Definition order_layers (manifest : option (list string)) (layers : list ImageLayer) : list ImageLayer :=
  match manifest with
  | Some descs => let '(ordered, rest) := take_layers descs (by_digest layers) in ordered ++ hash_values rest
  | None => layers
  end.
End order.

Section image.
Context {K : Type} `{FS : FileSystem K} `{SC : Syscalls K} `{IC : ImageCalls K} `{IJ : ImageConfigJson} `{HO : HashOrder}.
Implicit Types k : K.

Abbreviation io := (execR K).

Definition image_manager_new (c : Config) (is_root : bool) (home : option string) : io ImageManager :=
  let base := z8s_base_dir c is_root home in
  let cache_dir := base +:+ "/images" in
  let rootfs_dir := base +:+ "/rootfs" in
  _ ← x_check "Failed to create image cache directory" (create_dir_all cache_dir);
  _ ← x_check "Failed to create rootfs directory" (create_dir_all rootfs_dir);
  mret {| cache_dir := cache_dir; rootfs_dir := rootfs_dir |}.

Definition image_cache_path (im : ImageManager) (image_ref : string) : string :=
  cache_dir im +:+ "/" +:+ hex_pad 16 (default_hash image_ref).

(** ** Copying *)

Definition copy_oci_config (cache_path container_rootfs : string) : io unit :=
  let src := path_join cache_path OCI_CONFIG_FILE in
  k ← x_get;
  if fs_exists src k then x_ok (fs_copy src (path_join container_rootfs OCI_CONFIG_FILE)) else mret ().

Definition remove_any (p : string) : io unit :=
  k ← x_get; if is_dir p k then x_ok (remove_dir_all p) else x_ok (remove_file p).

Definition copy_permissions (src dst : string) : io unit :=
  k ← x_get;
  match symlink_metadata src k with Some (_, mode) => x_ok (set_permissions dst mode) | None => mret () end.

Fixpoint copy_dir (fuel : nat) (src dst : string) : io unit :=
  match fuel with
  | O => x_fail "File name too long"
  | S fuel' =>
      k ← x_get;
      if fs_exists dst k && negb (is_dir dst k) then mret ()
      else
        _ ← x_ok (create_dir_all dst);
        _ ← copy_permissions src dst;
        k ← x_get;
        match read_dir src k with
        | None => x_fail "read_dir"
        | Some entries =>
            x_for (λ entry,
              let src_child := path_join src (de_name entry) in
              let dst_child := path_join dst (de_name entry) in
              k ← x_get;
              match symlink_metadata src_child k with
              | None => x_fail "symlink_metadata"
              | Some (EntrySymlink, _) =>
                  match read_link src_child k with
                  | None => x_fail "read_link"
                  | Some target =>
                      _ ← (if fs_exists dst_child k || is_some (symlink_metadata dst_child k) then remove_any dst_child
                           else mret ());
                      x_check "symlink" (symlink target dst_child)
                  end
              | Some (EntryDir, _) => copy_dir fuel' src_child dst_child
              | Some (EntryFile, mode) =>
                  _ ← x_ok (fs_copy src_child dst_child);
                  x_ok (set_permissions dst_child mode)
              | Some (EntryOther, _) => mret ()
              end) entries
        end
  end.

(** ** Layers *)

Definition gzipped (data : bytes) : bool :=
  match data with b0 :: b1 :: _ :: _ => (b0 =? 31) && (b1 =? 139) | _ => false end.

Definition entry_dir (target path : string) : string :=
  match path_parent path with Some p => path_join target p | None => target end.

(** An opaque whiteout clears its directory, except for whiteouts. *)
Definition apply_opaque (dir : string) : io unit :=
  k ← x_get;
  match read_dir dir k with
  | Some children =>
      x_for (λ child, if starts_with ".wh." (de_name child) then mret () else remove_any (path_join dir (de_name child)))
        children
  | None => mret ()
  end.

Definition apply_entry (target : string) (index : nat) (entry_result : option Entry) : io unit :=
  match entry_result with
  | None => x_fail ("Corrupt entry in layer " +:+ display (Z.of_nat index))
  | Some entry =>
      match entry_path entry with
      | None => x_fail "Entry has non-UTF8 path"
      | Some path =>
          let filename := unwrap_or (path_file_name path) "" in
          if bool_decide (filename = ".wh..wh..opq") then apply_opaque (entry_dir target path)
          else match strip_prefix ".wh." filename with
               | Some real_name => remove_any (path_join (entry_dir target path) real_name)
               | None => x_check ("Failed to unpack " +:+ path) (unpack_in entry target)
               end
      end
  end.

Definition unpack_layer (layer : ImageLayer) (target : string) (index : nat) : io unit :=
  let data := layer_data layer in
  let decompressed := if gzipped data then Gzip data else Plain data in
  match archive_entries {| overwrite := true; preserve_mtime := true; preserve_permissions := true |} decompressed with
  | None => x_fail ("Failed to read layer " +:+ display (Z.of_nat index) +:+ " archive")
  | Some entries => x_for (apply_entry target index) entries
  end.

Fixpoint unpack_layers (total : nat) (layers : list ImageLayer) (target : string) (i : nat) : io unit :=
  match layers with
  | [] => mret ()
  | l :: layers' =>
      _ ← x_context ("Failed to unpack layer " +:+ display (Z.of_nat i + 1) +:+ "/" +:+ display (Z.of_nat total)
                     +:+ " (" +:+ media_type l +:+ ")") (unpack_layer l target i);
      unpack_layers total layers' target (S i)
  end.

(** ** Images *)

(** A file that names an image marks a directory as its root. *)
Definition marked (meta_path image_ref : string) k : bool :=
  fs_exists meta_path k
  && match read_to_string meta_path k with Some cached_ref => bool_decide (trim cached_ref = image_ref) | None => false end.

Definition backfill_oci_config (cache_path container_rootfs : string) : io unit :=
  k ← x_get;
  let needs_guess :=
    negb (fs_exists (path_join cache_path OCI_CONFIG_FILE) k)
    || let cfg := read_image_config cache_path k in negb (nonempty_list (entrypoint cfg)) && negb (nonempty_list (cmd cfg)) in
  if needs_guess then
    let guessed := guess_image_config cache_path k in
    _ ← x_modify (save_image_config cache_path
          {| entrypoint := entrypoint guessed; cmd := cmd guessed; image_env := image_env guessed; working_dir := None |});
    copy_oci_config cache_path container_rootfs
  else mret ().

Definition copy_cache_to_container (cache_path container_rootfs meta_path image_ref : string) : io string :=
  k ← x_get;
  _ ← (if fs_exists container_rootfs k then x_ok (remove_dir_all container_rootfs) else mret ());
  _ ← copy_dir PATH_MAX cache_path container_rootfs;
  _ ← copy_oci_config cache_path container_rootfs;
  _ ← backfill_oci_config cache_path container_rootfs;
  _ ← x_check "write" (fs_write meta_path image_ref);
  mret container_rootfs.

(** Fill the shared cache with a pulled image. *)
Definition unpack_to_cache (cache_path cache_meta image_ref : string) (image_data : ImageData) : io unit :=
  k ← x_get;
  _ ← (if fs_exists cache_path k then x_check "remove_dir_all" (remove_dir_all cache_path) else mret ());
  _ ← x_check "create_dir_all" (create_dir_all cache_path);
  let layers := order_layers sha256_digest (id_manifest image_data) (id_layers image_data) in
  match parse_config (id_config image_data) with
  | None => x_fail "Failed to parse OCI image config"
  | Some config =>
      let saved := match config with
                   | Some c => {| entrypoint := oc_entrypoint c; cmd := oc_cmd c; image_env := oc_env c; working_dir := oc_working_dir c |}
                   | None => {| entrypoint := None; cmd := None; image_env := None; working_dir := None |}
                   end in
      _ ← x_modify (save_image_config cache_path saved);
      _ ← unpack_layers (length layers) layers cache_path 0;
      x_check "Failed to write cache metadata" (fs_write cache_meta image_ref)
  end.

Definition pull_image (image_ref : string) : io ImageData :=
  match parse_reference image_ref with
  | None => x_fail "Invalid image reference"
  | Some reference => λ k,
      let '(data, k) := pull reference ACCEPTED_LAYER_TYPES k in
      Ret (match data with
           | Ok data => Ok data
           | Err e => Err ("Failed to pull image '" +:+ image_ref +:+ "': " +:+ e
                           +:+ ". Check network connectivity, image name, and registry auth.")
           end, k)
  end.

Definition mark_of (dir : string) : string := dir +:+ "/.z8s-image-ref".

Definition unpack_image (im : ImageManager) (image_ref container_id : string) : io string :=
  let container_rootfs := rootfs_dir im +:+ "/" +:+ container_id in
  if bool_decide (container_rootfs = "/") then x_fail "Refusing to unpack to root filesystem"
  else
    let meta_path := mark_of container_rootfs in
    k ← x_get;
    if fs_exists container_rootfs k && marked meta_path image_ref k then mret container_rootfs
    else
      let cache_path := image_cache_path im image_ref in
      let cache_meta := mark_of cache_path in
      if fs_exists cache_path k && marked cache_meta image_ref k then
        copy_cache_to_container cache_path container_rootfs meta_path image_ref
      else
        image_data ← pull_image image_ref;
        k ← x_get;
        if marked cache_meta image_ref k then
          copy_cache_to_container cache_path container_rootfs meta_path image_ref
        else
          _ ← unpack_to_cache cache_path cache_meta image_ref image_data;
          x_context "Failed to copy image cache to container rootfs"
            (copy_cache_to_container cache_path container_rootfs meta_path image_ref).
End image.

(** ** The order of the layers *)

Section order_facts.
Context `{HO : HashOrder} (digest : ImageLayer → string).

Lemma by_digest_snoc ls l : by_digest digest (ls ++ [l]) = <[digest l := l]> (by_digest digest ls).
Proof. unfold by_digest. by rewrite foldl_app. Qed.

Lemma by_digest_lookup ls : NoDup (digest <$> ls) → ∀ d l, by_digest digest ls !! d = Some l ↔ l ∈ ls ∧ digest l = d.
Proof.
  induction ls as [|x ls IH] using rev_ind; intros Hn d l; [set_solver|].
  rewrite fmap_app in Hn. apply NoDup_app in Hn as (Hn & Hd & _). specialize (IH Hn).
  rewrite by_digest_snoc, elem_of_app, list_elem_of_singleton, lookup_insert_Some, IH.
  split; [naive_solver|]. intros [[Hl| ->] <-]; [right|by left]. split; [|done].
  intros He. apply (Hd (digest l)); [by apply list_elem_of_fmap_2|]. rewrite <- He. set_solver.
Qed.

(** Where the map holds each layer by its digest, the layers come out in the order of the
    digests, and nothing is left. *)
Lemma take_layers_all ls : NoDup (digest <$> ls) → ∀ m : gmap string ImageLayer,
  (∀ d l, m !! d = Some l ↔ l ∈ ls ∧ digest l = d) → take_layers (digest <$> ls) m = (ls, ∅).
Proof.
  induction ls as [|x ls IH]; intros Hn m Hm; cbn.
  - f_equal. apply map_empty. intros d. apply eq_None_not_Some. intros [l Hl]. apply Hm in Hl as [Hl _]. set_solver.
  - cbn in Hn. apply NoDup_cons in Hn as [Hx Hn].
    assert (m !! digest x = Some x) as -> by (apply Hm; set_solver).
    rewrite (IH Hn); [done|]. intros d l. rewrite lookup_delete_Some, Hm. split.
    + intros [Hne [Hl <-]]. apply elem_of_cons in Hl as [-> |Hl]; [done|]. by split.
    + intros [Hl <-]. repeat split; [|set_solver]. intros He. apply Hx. rewrite He. by apply list_elem_of_fmap_2.
Qed.

(** The layers of a pulled image arrive in any order; they are unpacked in the order of the
    manifest, when no layer occurs twice in it. *)
Theorem layers_in_manifest_order ls arrived :
  NoDup (digest <$> ls) → arrived ≡ₚ ls → order_layers digest (Some (digest <$> ls)) arrived = ls.
Proof.
  intros Hn Hp. unfold order_layers. rewrite take_layers_all; [|done|].
  - unfold hash_values. assert (hash_iter (∅ : gmap string ImageLayer) = []) as -> by
      (apply Permutation_nil_r; by rewrite hash_iter_perm, map_to_list_empty).
    apply app_nil_r.
  - intros d l. rewrite by_digest_lookup by (by rewrite Hp). by rewrite Hp.
Qed.
End order_facts.

(** ** What whiteouts remove *)

(** A path inside of a directory: never up, and with a name of its own at the end. *)
Definition below (dir p : string) : Prop :=
  ∃ q, p = dir +:+ "/" +:+ q ∧ ".." ∉ split_on "/" q ∧ ∃ n, last (split_on "/" q) = Some n ∧ n ∉ [""; "."; ".."].

(** A directory that can be extended by a separator. *)
Definition dir_path (d : string) : Prop := d ≠ "" ∧ strip_suffix "/" d = None.

(** An entry without a way up or to the root, and no whiteout of a directory itself. *)
Definition plain_path (path : string) : Prop :=
  starts_with "/" path = false ∧ ".." ∉ split_on "/" path ∧ unwrap_or (path_file_name path) "" ∉ [".wh."; ".wh.."; ".wh..."].
#[export] Instance plain_path_dec path : Decision (plain_path path).
Proof. unfold plain_path. apply _. Defined.

Lemma path_join_dir d q : dir_path d → starts_with "/" q = false → path_join d q = d +:+ "/" +:+ q.
Proof. intros [Hd Hs] Hq. unfold path_join. by rewrite Hq, Hs, bool_decide_eq_false_2. Qed.

(** A plain name in the directory of a plain entry is below the target. *)
Lemma entry_dir_below target path name :
  dir_path target → plain_path path → plain_name name → below target (path_join (entry_dir target path) name).
Proof.
  intros Ht (Ha & Hup & _) [Hn Hd]. assert (starts_with "/" name = false) as Hs by by apply no_slash_first.
  assert (split_on "/" name = [name]) as Hsp by by apply split_on_no_char.
  assert (".." ∉ [name]) as Hup' by set_solver.
  assert (path_join target name = target +:+ "/" +:+ name) as Hj by by apply path_join_dir.
  assert (below target (target +:+ "/" +:+ name)) as Hb.
  { exists name. rewrite Hsp. eauto. }
  unfold entry_dir. destruct (path_parent path) as [pp|] eqn:Hp; [|by rewrite Hj].
  apply path_parent_relative in Hp as [-> |(Hr & Hsuf & Hne & Hin)]; [| |done].
  - rewrite (path_join_dir target "") by done. unfold path_join. rewrite Hs.
    change ("/" +:+ "") with "/". rewrite (proj2 (strip_suffix_Some "/" _ target) eq_refl).
    rewrite orb_true_r. by rewrite string_app_assoc.
  - rewrite (path_join_dir target pp) by done. rewrite path_join_dir; [|split|done].
    + exists (pp +:+ "/" +:+ name). split; [by rewrite !string_app_assoc|].
      rewrite split_on_slash, Hsp, last_snoc, elem_of_app.
      split; [|eauto]. intros [H|H]; [by apply Hup, Hin|done].
    + by destruct target; [destruct Ht|].
    + destruct (strip_suffix _ _) as [q|] eqn:E; [|done]. apply split_on_trailing in E.
      rewrite split_on_slash, last_app in E.
      destruct (last (split_on "/" pp)) as [z|] eqn:Hz; [|by apply last_None, split_on_ne in Hz].
      by injection E as ->.
Qed.

Lemma whiteout_name path real :
  plain_path path → strip_prefix ".wh." (unwrap_or (path_file_name path) "") = Some real → plain_name real.
Proof.
  intros (_ & _ & Hw) Hr. destruct (path_file_name path) as [n|] eqn:Hn; [|done].
  change (unwrap_or (Some n) "") with n in *.
  apply strip_prefix_Some in Hr as ->. split.
  - apply path_file_name_piece in Hn as [Hn _]. pose proof (split_on_pieces "/" path) as Hp.
    rewrite Forall_forall in Hp. specialize (Hp _ Hn). cbn in Hp. by to_prop.
  - intros H. apply Hw. set_solver.
Qed.

Section whiteouts.
Context {K : Type} `{FS : FileSystem K} `{SC : Syscalls K} `{IC : ImageCalls K}.
Variables (target : string) (R : K → K → Prop).
Context `{!PreOrder R}.
Implicit Types k : K.

Hypothesis target_dir : dir_path target.
(** Directories list plain names. *)
Hypothesis names : ∀ d k l e, read_dir d k = Some l → e ∈ l → plain_name (de_name e).
(** What is kept when something below the target is removed or unpacked there. *)
Hypothesis keeps_removal : ∀ p k, below target p → R k (remove_file p k).2 ∧ R k (remove_dir_all p k).2.
Hypothesis keeps_unpack : ∀ e k, R k (unpack_in e target k).2.

Definition plain_entry (e : option Entry) : Prop := ∀ e' path, e = Some e' → entry_path e' = Some path → plain_path path.

Lemma keeps_remove_any p : below target p → kept R (remove_any p).
Proof using Type*.
  intros Hp. unfold remove_any. apply (xt_seq R); [apply (xt_get R)|]. intros k.
  destruct (is_dir p k); apply (xt_ok R); intros k'; by destruct (keeps_removal p k' Hp).
Qed.

Lemma keeps_opaque path : plain_path path → kept R (apply_opaque (entry_dir target path)).
Proof using Type*.
  intros Hp. unfold apply_opaque. apply (xt_seq R); [apply (xt_get R)|]. intros k.
  destruct (read_dir _ k) as [children|] eqn:Hd; [|by apply (xt_ret R)].
  apply (xt_for R). intros child Hc. destruct (starts_with _ _); [by apply (xt_ret R)|].
  apply keeps_remove_any, entry_dir_below; [done|done|by eapply names].
Qed.

Lemma keeps_entry i e : plain_entry e → kept R (apply_entry target i e).
Proof using Type*.
  intros He. unfold apply_entry. destruct e as [e|]; [|apply (xt_fail R)].
  destruct (entry_path e) as [path|] eqn:Hp; [|apply (xt_fail R)]. specialize (He e path eq_refl Hp).
  case_bool_decide; [by apply keeps_opaque|]. destruct (strip_prefix _ _) as [real|] eqn:Hr.
  - apply keeps_remove_any, entry_dir_below; [done|done|by eapply whiteout_name].
  - apply (xt_check R), keeps_unpack.
Qed.

(** C21. The whiteouts of a layer of plain entries remove files below the target only, as far as
    paths tell: whatever removals below the target and [unpack_in] keep, the layer keeps. *)
Theorem whiteouts_stay_below layer i k r k' :
  (∀ o es, archive_entries o (if gzipped (layer_data layer) then Gzip (layer_data layer) else Plain (layer_data layer)) = Some es →
           Forall plain_entry es) →
  unpack_layer layer target i k = Ret (r, k') → R k k'.
Proof using Type*.
  intros Hes. unfold unpack_layer. destruct (archive_entries _ _) as [es|] eqn:Ha; [|by intros [= _ <-]].
  specialize (Hes _ _ Ha). rewrite Forall_forall in Hes. intros H.
  assert (kept R (x_for (apply_entry target i) es)) as Hk by (apply (xt_for R); intros e He; by apply keeps_entry, Hes).
  by destruct (Hk _ _ _ H).
Qed.
End whiteouts.

(** ** What marks mean *)

Section marks.
Context {K : Type} `{FS : FileSystem K} `{SC : Syscalls K} `{IC : ImageCalls K} `{IJ : ImageConfigJson} `{HO : HashOrder}.
Implicit Types k : K.

Lemma order_layers_incl digest manifest layers l :
  l ∈ order_layers digest manifest layers → l ∈ layers.
Proof.
  unfold order_layers. destruct manifest as [descs|]; [|done].
  assert (∀ d x, by_digest digest layers !! d = Some x → x ∈ layers) as Hm.
  { induction layers as [|y ls IH] using rev_ind; [done|]. intros d x.
    rewrite by_digest_snoc, lookup_insert_Some, elem_of_app, list_elem_of_singleton. naive_solver. }
  revert Hm. generalize (by_digest digest layers). induction descs as [|d descs IH]; intros m Hm; cbn.
  - intros [d Hd]%elem_of_hash_values. by eapply Hm.
  - destruct (m !! d) as [x|] eqn:Hx; [|by apply IH].
    specialize (IH (delete d m)). destruct (take_layers descs (delete d m)) as [ls m'].
    intros [-> |Hl]%elem_of_cons; [by eapply Hm|]. apply IH; [|done]. intros e y [_ He]%lookup_delete_Some. by eapply Hm.
Qed.

(** The mark is the last thing that is written. *)
Lemma copy_cache_marks cache root meta image_ref k p k' :
  (∀ k k', fs_write meta image_ref k = (true, k') → marked meta image_ref k' = true) →
  copy_cache_to_container cache root meta image_ref k = Ret (Ok p, k') → p = root ∧ marked meta image_ref k' = true.
Proof.
  intros Hw. unfold copy_cache_to_container. intros H.
  do 6 (apply x_bind_Ret in H; destruct H as [H|H]; [by destruct H as (? & _ & [=])|];
        let a := fresh "a" in let s := fresh "s" in let Hc := fresh "Hc" in destruct H as (a & s & Hc & H)).
  injection H as <- <-. split; [done|]. match goal with Hc : x_check _ (fs_write _ _) _ = _ |- _ => revert Hc end.
  unfold x_check. destruct (fs_write _ _ _) as [b k1] eqn:E. intros [= Hb <-]. destruct b; [|done]. by eapply Hw.
Qed.

Lemma x_context_Ret {A} msg (m : execR K A) k r k' :
  x_context msg m k = Ret (r, k') → ∃ r', m k = Ret (r', k') ∧ ∀ a, r = Ok a → r' = Ok a.
Proof. unfold x_context. destruct (m k) as [[[|] ?]|]; [| |done]; intros [= <- <-]; eauto. eexists. by split. Qed.

(** What happened when [unpack_image] returns: the root was there, or the cache was, or
    the image was pulled, and the cache was filled unless another pull had done so. *)
Lemma unpack_image_cases im image_ref id k r k' :
  let root := rootfs_dir im +:+ "/" +:+ id in
  let cache := image_cache_path im image_ref in
  let copied k1 := ∃ r', copy_cache_to_container cache root (mark_of root) image_ref k1 = Ret (r', k') ∧ ∀ p, r = Ok p → r' = Ok p in
  unpack_image im image_ref id k = Ret (r, k') →
  (∃ e, root = "/" ∧ r = Err e ∧ k' = k)
  ∨ (r = Ok root ∧ k' = k ∧ fs_exists root k = true ∧ marked (mark_of root) image_ref k = true)
  ∨ (fs_exists cache k = true ∧ marked (mark_of cache) image_ref k = true ∧ copied k)
  ∨ (∃ e, pull_image image_ref k = Ret (Err e, k') ∧ r = Err e)
  ∨ ∃ data k1, pull_image image_ref k = Ret (Ok data, k1)
      ∧ ((marked (mark_of cache) image_ref k1 = true ∧ copied k1)
         ∨ (marked (mark_of cache) image_ref k1 = false
            ∧ ((∃ e, unpack_to_cache cache (mark_of cache) image_ref data k1 = Ret (Err e, k') ∧ r = Err e)
               ∨ ∃ k2, unpack_to_cache cache (mark_of cache) image_ref data k1 = Ret (Ok (), k2) ∧ copied k2))).
Proof.
  intros root cache copied. unfold unpack_image. fold root cache. case_bool_decide as Hr; [intros [= <- <-]; eauto|].
  unfold x_get. unfold mbind at 1, execR_bind at 1.
  destruct (fs_exists root k && marked (mark_of root) image_ref k) eqn:E1.
  { apply andb_true_iff in E1 as [? ?]. intros [= <- <-]. right. left. eauto. }
  destruct (fs_exists cache k && marked (mark_of cache) image_ref k) eqn:E2.
  { apply andb_true_iff in E2 as [E2 E3]. intros H. right. right. left. repeat split; [done..|]. exists r. eauto. }
  intros [(e & H & ->)|(data & k1 & Hp & H)]%x_bind_Ret; do 3 right; [left; eauto|right].
  exists data, k1. split; [done|]. unfold mbind at 1, execR_bind at 1 in H.
  destruct (marked (mark_of cache) image_ref k1) eqn:E3; [left; split; [done|]; exists r; eauto|].
  right. split; [done|]. apply x_bind_Ret in H as [(e & H & ->)|([] & k2 & Hu & H)]; [left; eauto|right].
  exists k2. split; [done|]. by apply x_context_Ret in H.
Qed.

(** An image that was unpacked for a container is not unpacked again: the second time
    nothing is pulled, copied or written. *)
Theorem unpacked_is_reused im image_ref id k p k' :
  (∀ meta k k', fs_write meta image_ref k = (true, k') → marked meta image_ref k' = true) →
  unpack_image im image_ref id k = Ret (Ok p, k') → fs_exists p k' = true →
  p = rootfs_dir im +:+ "/" +:+ id ∧ unpack_image im image_ref id k' = Ret (Ok p, k').
Proof.
  intros Hw H Hp. set (root := rootfs_dir im +:+ "/" +:+ id) in *.
  assert (root ≠ "/") as Hr by (intros E; unfold unpack_image in H; fold root in H; by rewrite bool_decide_eq_true_2 in H).
  assert (p = root ∧ marked (mark_of root) image_ref k' = true) as [-> Hm].
  { pose proof (λ c k1, copy_cache_marks c root (mark_of root) image_ref k1 p k' (Hw _)) as Hc.
    apply unpack_image_cases in H. fold root in H. naive_solver. }
  split; [done|]. unfold unpack_image. fold root. rewrite bool_decide_eq_false_2 by done.
  unfold x_get. unfold mbind at 1, execR_bind at 1. by rewrite Hp, Hm.
Qed.
End marks.

(** ** A cache is marked when it is complete *)

Section complete.
Context {K : Type} `{FS : FileSystem K} `{SC : Syscalls K} `{IC : ImageCalls K} `{IJ : ImageConfigJson} `{HO : HashOrder}.
Variables (im : ImageManager) (image_ref : string).
Implicit Types k : K.

Let cache := image_cache_path im image_ref.
Let meta := mark_of cache.

(** No call makes the mark but one that writes there. *)
Definition no_mark k k' : Prop := marked meta image_ref k = false → marked meta image_ref k' = false.
Hypothesis mkdir_no_mark : ∀ p k, no_mark k (create_dir_all p k).2.
Hypothesis rm_no_mark : ∀ p k, no_mark k (remove_file p k).2 ∧ no_mark k (remove_dir_all p k).2.
Hypothesis write_no_mark : ∀ p c k, p ≠ meta → no_mark k (fs_write p c k).2.
Hypothesis unpack_no_mark : ∀ e p k, entry_path e = Some p → path_file_name p ≠ Some ".z8s-image-ref" → no_mark k (unpack_in e cache k).2.

(** A layer that does not bring a mark of its own. *)
Definition clean_layer (l : ImageLayer) : Prop :=
  ∀ o rd es e p, archive_entries o rd = Some es → rd ∈ [Plain (layer_data l); Gzip (layer_data l)] →
    Some e ∈ es → entry_path e = Some p → path_file_name p ≠ Some ".z8s-image-ref".

#[local] Instance no_mark_preorder : PreOrder no_mark.
Proof using. split; [intros k H; exact H|]. intros k1 k2 k3 H1 H2 H. by apply H2, H1, H. Qed.

Lemma no_mark_remove p : kept no_mark (remove_any p).
Proof using Type*.
  unfold remove_any. apply (xt_seq no_mark); [apply (xt_get no_mark)|]. intros k.
  destruct (is_dir p k); apply (xt_ok no_mark); intros k'; by destruct (rm_no_mark p k').
Qed.

Lemma no_mark_opaque dir : kept no_mark (apply_opaque dir).
Proof using Type*.
  unfold apply_opaque. apply (xt_seq no_mark); [apply (xt_get no_mark)|]. intros k.
  destruct (read_dir dir k) as [children|]; [|by apply (xt_ret no_mark)].
  apply (xt_for no_mark). intros child _. destruct (starts_with _ _); [by apply (xt_ret no_mark)|]. apply no_mark_remove.
Qed.

Lemma no_mark_layer l i : clean_layer l → kept no_mark (unpack_layer l cache i).
Proof using Type*.
  intros Hl. unfold unpack_layer. destruct (archive_entries _ _) as [es|] eqn:Ha; [|apply (xt_fail no_mark)].
  apply (xt_for no_mark). intros [e|] He; cbn [apply_entry]; [|apply (xt_fail no_mark)].
  destruct (entry_path e) as [p|] eqn:Hp; [|apply (xt_fail no_mark)].
  case_bool_decide; [apply no_mark_opaque|]. destruct (strip_prefix _ _); [apply no_mark_remove|].
  apply (xt_check no_mark). intros k. apply (unpack_no_mark e p); [done|].
  eapply Hl; [done| |done|done]. destruct (gzipped _); set_solver.
Qed.

Lemma no_mark_layers n ls : ∀ i, (∀ l, l ∈ ls → clean_layer l) → kept no_mark (unpack_layers n ls cache i).
Proof using Type*.
  induction ls as [|l ls IH]; intros i Hls; cbn [unpack_layers]; [by apply (xt_ret no_mark)|].
  apply (xt_seq no_mark); [|intros _; apply IH; set_solver].
  eapply (xt_context no_mark), no_mark_layer. set_solver.
Qed.

Lemma config_is_not_mark : path_join cache OCI_CONFIG_FILE ≠ meta.
Proof using.
  unfold meta, mark_of, path_join. cbn. destruct (_ || _); intros H; apply string_app_inj_l in H; discriminate.
Qed.

Lemma no_mark_save saved : kept no_mark (x_modify (save_image_config cache saved)).
Proof using Type*.
  intros k r k' [= _ <-]. split; [|done]. unfold save_image_config.
  destruct (encode_image_config saved); [|done]. apply write_no_mark, config_is_not_mark.
Qed.

Lemma no_mark_step {A B} (m : execR K A) (f : A → execR K B) k r k' :
  kept no_mark m → (m ≫= f) k = Ret (r, k') → marked meta image_ref k = false →
  (marked meta image_ref k' = false ∧ ∃ e, r = Err e)
  ∨ ∃ a k1, m k = Ret (Ok a, k1) ∧ marked meta image_ref k1 = false ∧ f a k1 = Ret (r, k').
Proof using.
  intros Hm [(e & H & ->)|(a & k1 & H & Hf)]%x_bind_Ret Hk; destruct (Hm _ _ _ H) as [Hn _]; specialize (Hn Hk); eauto 7.
Qed.

(** Before the mark is written, all the layers are unpacked. *)
Lemma unpack_to_cache_mark data k r k' :
  let layers := order_layers sha256_digest (id_manifest data) (id_layers data) in
  (∀ l, l ∈ id_layers data → clean_layer l) →
  unpack_to_cache cache meta image_ref data k = Ret (r, k') → marked meta image_ref k = false →
  (marked meta image_ref k' = false ∧ ∃ e, r = Err e)
  ∨ ∃ k2 k3, unpack_layers (length layers) layers cache 0 k2 = Ret (Ok (), k3).
Proof using Type*.
  intros layers Hclean. unfold unpack_to_cache. fold layers. unfold x_get. unfold mbind at 1, execR_bind at 1.
  assert (∀ l, l ∈ layers → clean_layer l) as Hl by (intros l H; by eapply Hclean, order_layers_incl).
  intros H Hk.
  apply no_mark_step in H as [H|([] & k1 & _ & H1 & H)]; [by left| | |done].
  2: { destruct (fs_exists _ _); [|by apply (xt_ret no_mark)]. apply (xt_check no_mark). intros k0.
       by destruct (rm_no_mark cache k0). }
  apply no_mark_step in H as [H|([] & k2 & _ & H2 & H)]; [by left| |by apply (xt_check no_mark)|done].
  destruct (parse_config _); [|injection H as <- <-; left; eauto].
  apply no_mark_step in H as [H|([] & k3 & _ & H3 & H)]; [by left| |apply no_mark_save|done].
  apply no_mark_step in H as [H|([] & k4 & Hu & _ & H)]; [by left| |by apply no_mark_layers|done].
  right. eauto.
Qed.

End complete.

(** ** On a concrete host *)

(** A registry with one image. An archive is a list of lines, each the path of a file. *)
Definition box_image (data : ImageData) : ImageCalls Box := {|
  Reference := string; Entry := string;
  default_hash s := Z.of_nat (String.length s);
  symlink_metadata p k := (λ o : option string, (if o then EntryFile else EntryDir, 493)) <$> bx_tree k !! p;
  parse_reference s := if bool_decide (s = "") then None else Some s;
  pull _ _ k := (Ok data, k);
  sha256_digest := media_type;
  parse_config _ := Some None;
  archive_entries _ rd := match rd with Plain d => (λ s, Some <$> lines s) <$> from_utf8 d | Gzip _ => None end;
  entry_path := Some;
  unpack_in e target := bx_files (λ t, (true, <[target +:+ "/" +:+ e := Some "file"]> t))
|}.

#[local] Instance box_config_json : ImageConfigJson := {|
  encode_image_config cfg := Some (join " " (unwrap_or (entrypoint cfg) []));
  decode_image_config s := if bool_decide (s = "") then None else Some (entrypoint_only [s])
|}.

Definition layer_of (digest : string) (entries : list string) : ImageLayer :=
  {| layer_data := as_bytes (join (String newline "") entries); media_type := digest |}.
Definition sample_image : ImageData := {|
  id_layers := [layer_of "sha256:2" ["bin/.wh.old"; "bin/new"]; layer_of "sha256:1" ["bin/sh"; "bin/old"]];
  id_config := []; id_manifest := Some ["sha256:1"; "sha256:2"]
|}.
#[local] Instance sample_registry : ImageCalls Box := box_image sample_image.

Definition box_of (t : Tree) : Box := {| bx_tree := t; bx_log := []; bx_refuses := λ _, false |}.
Definition sample_manager : ImageManager := {| cache_dir := "/i"; rootfs_dir := "/c" |}.
Definition passwd_host : Box := box_of (<["/etc/passwd" := Some "root"]> ∅).

(** The layers are unpacked in the order of the manifest, so the second one removes what
    the first one brought. *)
Example image_layers_in_order :
  match unpack_image sample_manager "app" "web" passwd_host with
  | Ret (Ok p, k) => p = "/c/web" ∧ (λ f, is_some (bx_tree k !! f)) <$> ["/i/0000000000000003/bin/sh"; "/i/0000000000000003/bin/old"; "/i/0000000000000003/bin/new"] = [true; false; true]
  | _ => False
  end.
Proof. vm_compute. done. Qed.

(** The path of a whiteout is not confined to the target: a layer can remove a file of the
    host. *)
Example hostile_whiteout :
  match unpack_layer (layer_of "sha256:3" ["/etc/.wh.passwd"]) "/i/x" 0 passwd_host with
  | Ret (Ok _, k) => bx_tree k !! "/etc/passwd" = None
  | _ => False
  end.
Proof. vm_compute. done. Qed.

(** A layer that occurs twice in a manifest is unpacked once, at its first place. *)
Example repeated_layer_lost :
  let a := layer_of "sha256:1" ["f"] in let b := layer_of "sha256:2" [".wh.f"] in
  order_layers media_type (Some ["sha256:1"; "sha256:2"; "sha256:1"]) [a; b; a] = [a; b].
Proof. vm_compute. done. Qed.

Lemma layers_in_manifest_order_witness :
  order_layers media_type (Some (media_type <$> [layer_of "1" ["a"]; layer_of "2" ["b"]])) [layer_of "2" ["b"]; layer_of "1" ["a"]]
  = [layer_of "1" ["a"]; layer_of "2" ["b"]].
Proof.
  apply layers_in_manifest_order.
  - vm_compute. apply NoDup_cons. split; [set_solver|apply NoDup_singleton].
  - apply Permutation_swap.
Defined.

(** Below the image, so not /etc/passwd. *)
Definition passwd_kept (k k' : Box) : Prop := bx_tree k !! "/etc/passwd" = bx_tree k' !! "/etc/passwd".
#[local] Instance passwd_kept_preorder : PreOrder passwd_kept.
Proof. split; [by intros k|]. intros k1 k2 k3 H1 H2. unfold passwd_kept in *. congruence. Qed.

Lemma passwd_kept_below p (k : Box) : below "/i" p → passwd_kept k (remove_file p k).2 ∧ passwd_kept k (remove_dir_all p k).2.
Proof.
  intros (q & -> & _). unfold passwd_kept. cbn. split.
  - by rewrite lookup_delete_ne by done.
  - symmetry. destruct (bx_tree k !! "/etc/passwd") as [c|] eqn:E; [by apply map_lookup_filter_Some|].
    apply map_lookup_filter_None. by left.
Qed.

Lemma plain_entries l : Forall plain_path l → Forall (plain_entry ∘ Some) l.
Proof. intros H. eapply Forall_impl; [exact H|]. by intros p Hp e path [= <-] [= <-]. Qed.

Definition whiteout_layer : ImageLayer := layer_of "sha256:4" ["etc/.wh.passwd"; "./a/.wh..wh..opq"; "a/b"].
Definition whiteout_end : Box :=
  match unpack_layer whiteout_layer "/i" 0 passwd_host with Ret (_, k) => k | Panic => passwd_host end.

Lemma whiteouts_stay_below_witness : passwd_kept passwd_host whiteout_end.
Proof.
  apply (whiteouts_stay_below (K := Box) "/i" passwd_kept) with (layer := whiteout_layer) (i := 0%nat) (r := Ok ()).
  - by split.
  - intros d k l e. apply box_plain_name.
  - intros p k. apply passwd_kept_below.
  - intros e k. unfold passwd_kept. cbn. by rewrite lookup_insert_ne by done.
  - intros o es Ha. assert (es = Some <$> ["etc/.wh.passwd"; "./a/.wh..wh..opq"; "a/b"]) as -> by
      (change (Some (Some <$> ["etc/.wh.passwd"; "./a/.wh..wh..opq"; "a/b"]) = Some es) in Ha; congruence).
    apply Forall_fmap, plain_entries. apply (bool_decide_unpack _). vm_compute. exact I.
  - vm_compute. done.
Defined.

Lemma box_marks meta (k k' : Box) : fs_write meta "app" k = (true, k') → marked meta "app" k' = true.
Proof.
  unfold marked. cbn. unfold bx_files. cbn. destruct (bx_tree k !! meta) as [[c|]|]; [| |]; intros [= <-];
    cbn; by rewrite lookup_insert_eq.
Qed.

Definition image_end : Box :=
  match unpack_image sample_manager "app" "web" passwd_host with Ret (_, k) => k | Panic => passwd_host end.

Lemma unpacked_is_reused_witness : unpack_image sample_manager "app" "web" image_end = Ret (Ok "/c/web", image_end).
Proof.
  apply (unpacked_is_reused sample_manager "app" "web" passwd_host "/c/web" image_end box_marks); vm_compute; reflexivity.
Defined.

Lemma box_no_mark im image_ref (k k' : Box) :
  let meta := mark_of (image_cache_path im image_ref) in
  bx_tree k' !! meta = bx_tree k !! meta ∨ bx_tree k' !! meta ≫= id = None → no_mark im image_ref k k'.
Proof.
  intros meta H. unfold no_mark. fold meta. unfold marked. cbn.
  destruct H as [-> | ->]; [done|]. by rewrite andb_false_r.
Qed.

Lemma box_rm_no_mark im image_ref p (k : Box) :
  no_mark im image_ref k (remove_file p k).2 ∧ no_mark im image_ref k (remove_dir_all p k).2.
Proof.
  split; apply box_no_mark; cbn.
  - destruct (decide (p = mark_of (image_cache_path im image_ref))) as [-> |]; [right; by rewrite lookup_delete_eq|left; by rewrite lookup_delete_ne].
  - destruct (filter _ (bx_tree k) !! mark_of (image_cache_path im image_ref)) as [o|] eqn:E; [left|by right].
    by apply map_lookup_filter_Some in E as [-> _].
Qed.

Lemma box_write_no_mark im image_ref p c (k : Box) :
  p ≠ mark_of (image_cache_path im image_ref) → no_mark im image_ref k (fs_write p c k).2.
Proof.
  intros Hp. apply box_no_mark. left. cbn. unfold bx_files. cbn.
  destruct (bx_tree k !! p) as [[|]|]; cbn; by rewrite ?lookup_insert_ne.
Qed.

Lemma box_mkdir_no_mark im image_ref p (k : Box) : no_mark im image_ref k (create_dir_all p k).2.
Proof.
  apply box_no_mark. cbn. unfold bx_files. cbn.
  destruct (bx_tree k !! p) as [[|]|]; cbn; [by left|..];
    (destruct (decide (p = mark_of (image_cache_path im image_ref))) as [-> |];
      [right; by rewrite lookup_insert_eq|left; by rewrite lookup_insert_ne]).
Qed.

Lemma box_unpack_no_mark im image_ref e p (k : Box) :
  entry_path e = Some p → path_file_name p ≠ Some ".z8s-image-ref" →
  no_mark im image_ref k (unpack_in e (image_cache_path im image_ref) k).2.
Proof.
  intros [= ->] Hp. apply box_no_mark. left. cbn. rewrite lookup_insert_ne; [done|].
  unfold mark_of. intros H%string_app_inj_l. by injection H as ->.
Qed.

(** The layers of the sample image bring no mark. *)
Lemma sample_image_clean data (k k1 : Box) : pull_image "app" k = Ret (Ok data, k1) → ∀ l, l ∈ id_layers data → clean_layer l.
Proof.
  intros [= <- _] l Hl o rd es e p Ha Hr He [= ->]. apply elem_of_cons in Hl as [-> |Hl%list_elem_of_singleton]; [|subst l];
    (apply elem_of_cons in Hr as [-> |Hr%list_elem_of_singleton]; [|subst rd; done]);
    vm_compute in Ha; injection Ha as <-; set_solver.
Qed.

