(* ===== verification/Startup.v ===== *)
(** * Startup: from the start of the process to its end
    (src/src/main.rs, src/src/init.rs, and what they call in src/src/netmux)

    [boot] is [main] up to the tasks that it spawns, which are the steps of [Reach]; then
    [main_wait] waits for the signal to stop, as process 1 with the handler of init.rs, and
    [shutdown] stops the pods. The sockets, the signal descriptor and the search for the
    address of the node are parameters. The directory of manifests is searched with fuel;
    out of it [boot] does not return. *)
From S2P Require Import Prelude Text Utf8 Resources Pool Netlink Nft NetMux Config Cri SpecBuilder Runtime Process Deployment Service Panics Policy Ingress Storage Registry World Reach Host Image Watcher.

(** ** What the start needs of the operating system *)

Class StartCalls (K : Type) := {
  udp_bind : Z → K → bool * K;
  signalfd_new : K → bool * K
}.

(** ** The network of the host *)

Section network.
Context {K : Type} `{FS : FileSystem K}.
Implicit Types k : K.

Definition enable_ip_forward (k : K) : bool * K := fs_write "/proc/sys/net/ipv4/ip_forward" ("1" +:+ String newline "") k.

Definition set_params (value : string) (params : list string) (k : K) : K :=
  foldl (λ k param, (fs_write ("/proc/sys/" +:+ param) (value +:+ String newline "") k).2) k params.

Definition harden_sysctl (k : K) : K :=
  set_params "2" ["net/ipv4/conf/all/arp_announce"; "net/ipv4/conf/default/arp_announce"]
    (set_params "1" ["net/ipv4/conf/all/rp_filter"; "net/ipv4/conf/default/rp_filter"] k).

Definition get_ifindex_from_sys (name : string) k : option Z :=
  content ← read_to_string ("/sys/class/net/" +:+ name +:+ "/ifindex") k; parse_u32 (trim content).

Definition veth_of k (e : DirEntry) : option (string * Z) :=
  if starts_with "veth-" (de_name e) then i ← get_ifindex_from_sys (de_name e) k; Some (de_name e, i) else None.
Definition list_veth_interfaces k : option (list (string * Z)) :=
  match read_dir "/sys/class/net" k with Some links => Some (omap (veth_of k) links) | None => None end.
End network.

(** ** Signals of process 1 (init.rs) *)

Section init.
Context `{HO : HashOrder} `{UC : UnicodeCase} {K : Type} `{FS : FileSystem K} `{IJ : ImageConfigJson} `{OS : ContainerOS K}.

Definition SIG_HUP := 1.
Definition SIG_INT := 2.
Definition SIG_TERM := 15.
Definition SIG_CHLD := 17.

(** The operating system, the children that ended and nobody waited for, and whether the
    rest of the program was told to stop. *)
Record InitState := { in_os : K; in_ended : list WaitStatus; in_shutdown : bool }.
Definition set_ended (l : list WaitStatus) (s : InitState) : InitState :=
  {| in_os := in_os s; in_ended := l; in_shutdown := in_shutdown s |}.

(** The loop of the handler's [reap_zombies]: what is left to wait for. *)
Fixpoint init_reap (ended : list WaitStatus) : list WaitStatus :=
  match ended with
  | Exited _ _ :: l | Signaled _ _ :: l => init_reap l
  | _ :: l => l
  | [] => []
  end.

(** An answer of the signal descriptor. *)
Inductive SigRead := SigInfo (signo : Z) | SigNone | SigErr.

(** One signal; true when the handler returns. *)
Definition handle_signal (signo : Z) (s : InitState) : bool * InitState :=
  if signo =? SIG_CHLD then (false, set_ended (init_reap (in_ended s)) s)
  else if (signo =? SIG_TERM) || (signo =? SIG_INT) then
    (true, {| in_os := kill (-1) SIGTERM (in_os s); in_ended := in_ended s; in_shutdown := true |})
  else (false, s).

(** The signals that are read when the descriptor is readable. *)
Fixpoint read_signals (l : list SigRead) (s : InitState) : bool * InitState :=
  match l with
  | SigInfo signo :: l' => let '(stop, s) := handle_signal signo s in if stop : bool then (true, s) else read_signals l' s
  | _ => (false, s)
  end.

(** None: the handler still waits. A round is none when the descriptor fails. *)
Fixpoint init_run (rounds : list (option (list SigRead))) (s : InitState) : option (result unit) * InitState :=
  match rounds with
  | [] => (None, s)
  | None :: _ => (Some (Err "readable"), s)
  | Some l :: rounds' =>
      let '(stop, s) := read_signals l s in
      if stop : bool then (Some (Ok ()), s) else init_run rounds' s
  end.
End init.
#[global] Arguments InitState : clear implicits.

(** ** The start *)

Section booting.
Context `{HO : HashOrder} `{UC : UnicodeCase} {K KN net doc : Type} `{FS : FileSystem K} `{SC : Syscalls K}
        `{IJ : ImageConfigJson} `{OS : ContainerOS K} `{ST : StartCalls K}.
Variable errno_name : Z → string.
Variable transact : bytes → K → result bytes * K.
Variable is_root : bool.
Variable home : option string.
Variable batch_send : batch net → KN → send_outcome * KN.
Variable parse_net : string → option net.
Variable lib : YamlLib doc.
Variable yaml_docs : string → list (option doc).
Variable now : Z.
(** The fuel of the search for manifests. *)
Variable fuel : nat.
Implicit Types (k : K) (kn : KN).

(** What [main] holds when it starts its tasks. *)
Record Booted := {
  bt_world : World K KN;
  bt_cgroup : CgroupManager;
  bt_images : ImageManager;
  bt_dns_server : string;
  bt_dns_port : option Z;
  bt_processed : gset string
}.

(** [ImageManager::new()], and once more if it fails. *)
Definition image_manager_init (cfg : Config) (k : K) : exec (ImageManager * K) :=
  '(r, k) ← image_manager_new cfg is_root home k;
  match r with
  | Ok im => Ret (im, k)
  | Err _ =>
      '(r, k) ← image_manager_new cfg is_root home k;
      match r with Ok im => Ret (im, k) | Err _ => Panic end
  end.

(** [clean_orphan_veths(&[])], its error a warning. *)
Definition clean_all_veths (k : K) : exec K :=
  match list_veth_interfaces k with Some veths => clean_orphan_veths errno_name transact veths [] k | None => Ret k end.

(** The first of the ports that can be bound. *)
Fixpoint bind_first (ports : list Z) (k : K) : option Z * K :=
  match ports with
  | [] => (None, k)
  | p :: ports' => let '(ok, k) := udp_bind p k in if ok : bool then (Some p, k) else bind_first ports' k
  end.
Definition run_dns (cfg : Config) (k : K) : option Z * K :=
  bind_first (match dns_port cfg with Some p => [p] | None => [53; 5353] end) k.

(** [ProcessSupervisor::new] *)
Definition supervisor_new (mux : NetMux K) : Supervisor K :=
  {| running := ∅; restart_counts := ∅;
     netmux := set_host (Cri.create_dir_all (base_dir is_root home +:+ "/containers") (host mux)).2 mux |}.

Definition nft_new (kn : KN) : NftEngine KN := {| kernel := kn; jump_track := []; nodeport_jump_track := [] |}.

(** The tables, then the rules without which the program goes on. *)
Definition init_tables (cfg : Config) (kn : KN) : exec (NftEngine KN) :=
  match init batch_send (pod_cidr cfg) (nft_new kn) with
  | (Err _, _) => Panic
  | (Ok _, e) =>
      let e := (add_forward_catchall batch_send parse_net (pod_cidr cfg) e).2 in
      Ret (add_snat batch_send parse_net "default" (pod_cidr cfg) e).2
  end.

Definition first_world (s : Supervisor K) (e : NftEngine KN) : World K KN :=
  {| cluster := {| sup := s; store := store_new; timers := [] |};
     network := {| proxies := ∅; engine := e |};
     w_routes := ∅; w_records := ∅; w_inflight := ∅; tasks := [] |}.

(** Everything before the manifests are loaded. *)
Definition boot_host (cfg : Config) (k : K) (kn : KN) : exec Booted :=
  let '(cg, k) := cgroup_new k in
  '(im, k) ← image_manager_init cfg k;
  match netmux_new (pod_cidr cfg) k with
  | Err _ => Panic
  | Ok mux =>
      let k := (enable_ip_forward k).2 in
      let k := (loopback_up k).2 in
      let k := harden_sysctl k in
      e ← init_tables cfg kn;
      k ← clean_all_veths k;
      let s := supervisor_new (set_host k mux) in
      let '(port, k) := run_dns cfg (os s) in
      let '(ok, k) := signalfd_new k in
      if negb ok then Panic
      else Ret {| bt_world := first_world (set_os k s) e; bt_cgroup := cg; bt_images := im;
                  bt_dns_server := display_ipv4 (gateway mux); bt_dns_port := port; bt_processed := ∅ |}
  end.

(** An error in the loading of manifests is logged. *)
Definition boot (cfg : Config) (k : K) (kn : KN) : exec Booted :=
  b ← boot_host cfg k kn;
  '(_, mw) ← load_existing lib yaml_docs now fuel (manifests_dir cfg) {| mw_world := bt_world b; mw_processed := bt_processed b |};
  Ret {| bt_world := mw_world mw; bt_cgroup := bt_cgroup b; bt_images := bt_images b;
         bt_dns_server := bt_dns_server b; bt_dns_port := bt_dns_port b; bt_processed := mw_processed mw |}.

(** ** The end *)

Variable cg : CgroupManager.

(** [for tracker in &resources { stop_pod(build_spec(&tracker.resource)) }] *)
Definition shutdown : execR (Cluster K) unit :=
  c ← x_get;
  x_for (λ t, spec ← make_spec (base_dir is_root home) (resource t);
              _ ← x_try (on_sup (stop_pod_from_spec errno_name transact cg (base_dir is_root home) spec)); mret ())
    (get_all (store c)).

(** What ends the wait of a process that is not process 1. *)
Inductive StopSignal := CtrlC | Terminate.

(** Process 1 waits with the handler, whose error is ignored, the others for a signal; None
    while they wait. The value is whether the program was told to stop: [shutdown_rx.changed()]
    returns then. *)
Definition main_wait (is_pid1 : bool) (rounds : list (option (list SigRead))) (sig : option StopSignal) (s : InitState K)
    : option unit * InitState K :=
  if is_pid1 then
    let '(r, s) := init_run rounds s in
    match r with
    | None => (None, s)
    | Some _ => (if in_shutdown s then Some () else None, s)
    end
  else match sig with
       | Some _ => (Some (), {| in_os := in_os s; in_ended := in_ended s; in_shutdown := true |})
       | None => (None, s)
       end.
End booting.

(** ** Signals *)

Section signals.
Context `{HO : HashOrder} `{UC : UnicodeCase} {K : Type} `{FS : FileSystem K} `{IJ : ImageConfigJson} `{OS : ContainerOS K}.
Implicit Types s : InitState K.

Definition is_stop (signo : Z) : bool := (signo =? SIG_TERM) || (signo =? SIG_INT).

(** The signals that a round gives before the descriptor is empty or fails, and those of
    the rounds before the wait for the descriptor fails. *)
Fixpoint signals_of (l : list SigRead) : list Z :=
  match l with SigInfo n :: l' => n :: signals_of l' | _ => [] end.
Fixpoint heard (rounds : list (option (list SigRead))) : list Z :=
  match rounds with Some l :: rounds' => signals_of l ++ heard rounds' | _ => [] end.

Lemma read_signals_spec l s :
  (read_signals l s).1 = existsb is_stop (signals_of l)
  ∧ in_os (read_signals l s).2 = (if existsb is_stop (signals_of l) then kill (-1) SIGTERM (in_os s) else in_os s)
  ∧ in_shutdown (read_signals l s).2 = existsb is_stop (signals_of l) || in_shutdown s.
Proof.
  revert s. induction l as [|[n| |] l IH]; intros s; [done| |done..]. cbn [read_signals signals_of existsb].
  unfold handle_signal. destruct (n =? SIG_CHLD) eqn:Hc.
  - apply Z.eqb_eq in Hc as ->. change (is_stop SIG_CHLD) with false. cbn [orb]. apply (IH (set_ended (init_reap (in_ended s)) s)).
  - fold (is_stop n). destruct (is_stop n); [done|]. apply IH.
Qed.

(** The handler of process 1 returns at the first SIGTERM or SIGINT that it reads: it has
    then sent SIGTERM to every process and told the program to stop. Other signals stop
    nothing and signal nobody, in whatever number they come. *)
Theorem init_run_outcome rounds s :
  let '(r, s') := init_run rounds s in
  if existsb is_stop (heard rounds) then
    r = Some (Ok ()) ∧ in_os s' = kill (-1) SIGTERM (in_os s) ∧ in_shutdown s' = true
  else in_os s' = in_os s ∧ in_shutdown s' = in_shutdown s
       ∧ r = (if existsb (λ x, negb (is_some x)) rounds then Some (Err "readable") else None).
Proof.
  revert s. induction rounds as [|[l|] rounds IH]; intros s; [done| |done]. cbn [init_run heard existsb is_some negb orb].
  destruct (read_signals_spec l s) as (H1 & H2 & H3). destruct (read_signals l s) as [stop s1]. cbn [fst snd] in *.
  rewrite existsb_app. subst stop. destruct (existsb is_stop (signals_of l)); cbn [orb] in *; [done|].
  specialize (IH s1). destruct (init_run rounds s1) as [r s2]. rewrite H2, H3 in IH. exact IH.
Qed.

(** A child that ended. *)
Definition is_end (w : WaitStatus) : bool := match w with Exited _ _ | Signaled _ _ => true | _ => false end.

Lemma init_reap_all l : forallb is_end l = true → init_reap l = [].
Proof. induction l as [|[] l IH]; cbn; done. Qed.

(** C14. Process 1 reaps the ends of its children at SIGCHLD and does not report them: a
    container whose process ended is taken off the books by the reconciler alone, and stays
    there when the handler is faster. *)
Theorem init_hides_exits now c s cid :
  forallb is_end (in_ended s) = true → running_wf (sup c) →
  exited (reap_zombies (in_ended s)) (sup c) cid = true →
  running (sup (handle_exited_containers now (reap_zombies (in_ended s)) c)) !! cid = None
  ∧ (let s' := (handle_signal SIG_CHLD s).2 in
     reap_zombies (in_ended s') = []
     ∧ is_Some (running (sup (handle_exited_containers now (reap_zombies (in_ended s')) c)) !! cid)).
Proof.
  intros He Hwf Hx. rewrite handle_exited_removes, Hx by done. split; [done|]. cbn. rewrite init_reap_all by done.
  split; [done|]. rewrite handle_exited_removes by done.
  unfold exited in *. destruct (running (sup c) !! cid) as [rc|]; [|done]. cbn in *.
  destruct (pid (instance rc)) as [p|]; [|done]. cbn. by rewrite lookup_empty.
Qed.
End signals.

(** ** Shutting down *)

Section stopping.
Context `{HO : HashOrder} `{UC : UnicodeCase} {K : Type} `{FS : FileSystem K} `{IJ : ImageConfigJson} `{OS : ContainerOS K}.
Variable errno_name : Z → string.
Variable transact : bytes → K → result bytes * K.
Variable is_root : bool.
Variable home : option string.
Variable cg : CgroupManager.
Hypothesis full : answers_in_full transact.
Implicit Types c : Cluster K.

Abbreviation base := (base_dir is_root home).
Abbreviation stop_one t :=
  (spec ← make_spec base (resource t);
   _ ← x_try (on_sup (stop_pod_from_spec errno_name transact cg base spec)); mret ()).

(** One stop takes the containers of its resource off the books. *)
Lemma stop_one_spec t c : ∃ c', stop_one t c = Ret (Ok (), c') ∧ store c' = store c ∧ timers c' = timers c
  ∧ ∀ cid, running (sup c') !! cid = if bool_decide (cid ∈ ids_of (resource t)) then None else running (sup c) !! cid.
Proof using full.
  destruct (make_spec_spec base (resource t) c) as (spec & c1 & E & Hr & _ & Hs & Ht & _ & Hi).
  unfold mbind at 1, execR_bind at 1. rewrite E. unfold mbind, execR_bind, x_try, on_sup.
  destruct (total_returns _ (sup c1) 
    (total_stop errno_name transact (λ _ _, true) (λ _ k, (true, k)) cg base (λ k, ("", k)) full spec)) as [[r s'] H].
  rewrite H. cbn. eexists. split; [reflexivity|]. split; [done|]. split; [done|]. intros cid. cbn.
  destruct (stop_pod_result _ _ _ _ _ _ _ _ H) as (Hrun & _). by rewrite Hrun, Hi, Hr.
Qed.

(** At the end every container of a resource in the store is killed and off the books, and
    nothing else changes in the store, the timers and the other containers. Nothing on the
    way keeps the loop from the next resource. *)
Theorem shutdown_stops_pods c : ∃ c', shutdown errno_name transact is_root home cg c = Ret (Ok (), c')
  ∧ store c' = store c ∧ timers c' = timers c
  ∧ ∀ cid, running (sup c') !! cid
      = if bool_decide (cid ∈ concat ((λ t, ids_of (resource t)) <$> get_all (store c))) then None else running (sup c) !! cid.
Proof using full.
  unfold shutdown. unfold mbind at 1, execR_bind at 1, x_get. generalize (get_all (store c)). intros l. revert c.
  induction l as [|t l IH]; intros c; [by eexists|]. cbn [x_for]. unfold mbind at 1, execR_bind at 1.
  destruct (stop_one_spec t c) as (c1 & -> & Hs & Ht & Hr). destruct (IH c1) as (c2 & E & Hs2 & Ht2 & Hr2).
  exists c2. split; [exact E|]. split; [congruence|]. split; [congruence|]. intros cid. rewrite Hr2, Hr.
  cbn [fmap list_fmap concat]. repeat case_bool_decide; try done; set_solver.
Qed.
End stopping.

(** ** What the start brings about *)

Section started.
Context `{HO : HashOrder} `{UC : UnicodeCase} {K KN net doc : Type} `{FS : FileSystem K} `{SC : Syscalls K}
        `{IJ : ImageConfigJson} `{OS : ContainerOS K} `{SO : StorageOS K} `{ST : StartCalls K}.
Variable errno_name : Z → string.
Variable transact : bytes → K → result bytes * K.
Variable is_root : bool.
Variable home : option string.
Variable batch_send : batch net → KN → send_outcome * KN.
Variable parse_net : string → option net.
Variable lib : YamlLib doc.
Variable yaml_docs : string → list (option doc).
Variable now : Z.
Implicit Types (k : K) (kn : KN).

Abbreviation boot_host := (boot_host errno_name transact is_root home batch_send parse_net).
Abbreviation boot := (boot errno_name transact is_root home batch_send parse_net lib yaml_docs now).

(** Nothing runs, waits or is routed, and every address of the CIDR is free. *)
Definition fresh (cidr : Ipv4Cidr) (w : World K KN) : Prop :=
  let s := sup (cluster w) in
  running s = ∅ ∧ restart_counts s = ∅ ∧ timers (cluster w) = [] ∧ tasks w = []
  ∧ NetMux.pool (netmux s) = pool_new cidr ∧ subnet_pools (netmux s) = ∅ ∧ gateway (netmux s) = derive_gateway cidr
  ∧ proxies (network w) = ∅ ∧ w_routes w = ∅ ∧ w_inflight w = ∅.

(** A start that cannot have its network is refused. *)
Lemma boot_host_refuses cfg k kn :
  cidr_parse (pod_cidr cfg) = None ∨ (∃ e s, init batch_send (pod_cidr cfg) (nft_new kn) = (Err e, s)) →
  boot_host cfg k kn = Panic.
Proof.
  intros H. unfold Startup.boot_host. destruct (cgroup_new k) as [cg k1].
  destruct (image_manager_init is_root home cfg k1) as [[im k2]|]; cbn; [|done]. unfold netmux_new.
  destruct H as [-> |(e & s & Hi)]; [done|]. destruct (cidr_parse (pod_cidr cfg)); cbn; [|done].
  unfold init_tables. by rewrite Hi.
Qed.

Lemma clean_all_veths_total : answers_in_full transact → total (clean_all_veths errno_name transact).
Proof using Type.
  intros Hf k. unfold clean_all_veths. destruct (list_veth_interfaces k) as [l|]; [|done].
  unfold clean_orphan_veths. assert (Ret k ≠ Panic) as Hx by done. revert Hx. generalize (Ret k).
  induction l as [|[n i] l IH]; intros x Hx; [done|]. cbn [foldl]. apply IH. destruct x as [k1|]; [|done].
  cbn -[del_link veth_name_from_uid]. destruct (negb _); [|done].
  pose proof (total_del_link errno_name transact (λ _ _, true) (λ _ k, (true, k)) Hf i k1) as Ht.
  by destruct (del_link errno_name transact i k1) as [[]|].
Qed.

(** The start comes to its tasks when the CIDR is one, the tables can be set up, the
    directories of the images can be made and the signals can be watched, whatever else
    of the network of the host fails. *)
Lemma boot_host_returns cfg k kn cidr e :
  answers_in_full transact → cidr_parse (pod_cidr cfg) = Some cidr →
  init batch_send (pod_cidr cfg) (nft_new kn) = (Ok (), e) →
  image_manager_init is_root home cfg (cgroup_new k).2 ≠ Panic → (∀ k, (signalfd_new k).1 = true) →
  ∃ b, boot_host cfg k kn = Ret b ∧ fresh cidr (bt_world b) ∧ world_store (bt_world b) = ∅.
Proof using Type.
  intros Hf Hc Hi Hd Hs. unfold Startup.boot_host. destruct (cgroup_new k) as [cg k1].
  cbn [snd] in Hd. destruct (image_manager_init is_root home cfg k1) as [[im k2]|]; [|done]. cbn [mbind exec_bind].
  unfold netmux_new. rewrite Hc. cbn [mbind exec_bind ok_or result_bind]. unfold init_tables. rewrite Hi. cbn [mbind exec_bind].
  match goal with |- context [clean_all_veths _ _ ?x] =>
    destruct (total_returns _ x (clean_all_veths_total Hf)) as [k3 ->] end.
  cbn. destruct (run_dns cfg _) as [port k4]. pose proof (Hs k4) as H4. destruct (signalfd_new k4) as [ok k5]. cbn in H4. subst ok.
  cbn. eexists. split; [reflexivity|]. by split_and!.
Qed.
(** Loading manifests changes the store only, and files resources under their uids. *)
Definition loads (cidr : Ipv4Cidr) (s s' : ManifestWatcher K KN) : Prop :=
  (fresh cidr (mw_world s) → fresh cidr (mw_world s')) ∧ (store_wf (mw_store s) → store_wf (mw_store s')).
#[local] Instance loads_preorder cidr : PreOrder (loads cidr).
Proof using. split; [intros s; split; intros H; exact H|]. intros s1 s2 s3 [H1 H2] [H3 H4]. split; intros H; [by apply H3, H1, H|by apply H4, H2, H]. Qed.

Lemma load_existing_loads_only cidr m dir : kept (loads cidr) (load_existing lib yaml_docs now m dir).
Proof using Type.
  assert (∀ l, kept (loads cidr) (load_files lib yaml_docs now l)) as Hl.
  { intros l. apply (xt_for (loads cidr)). intros path _. unfold try_file, process_file.
    apply (xt_seq (loads cidr)); [|intros; by apply (xt_ret (loads cidr))]. apply (xt_try (loads cidr) _ (λ _, True)).
    apply (xt_seq (loads cidr)); [apply (xt_get (loads cidr))|]. intros s.
    destruct (read_to_string _ _) as [content|]; [|apply (xt_fail (loads cidr))].
    case_bool_decide; [by apply (xt_ret (loads cidr))|]. destruct (parse_manifest_yaml _ _) as [rs|]; [|apply (xt_fail (loads cidr))].
    apply (xt_seq (loads cidr)); [|intros _ s1 r s2 [= _ <-]; by split].
    apply (xt_for (loads cidr)). intros r _ s1 x s2 [= _ <-]. split; [|done]. split; [done|]. apply apply_wf. }
  unfold load_existing. apply (xt_seq (loads cidr)); [apply (xt_get (loads cidr))|]. intros s.
  destruct (fs_exists _ _).
  - intros s1 r s2. unfold load_dir_recursive. destruct (collect_yaml_paths _ _ _) as [l|]; [|done]. apply Hl.
  - apply (xt_check (loads cidr)). intros s1. unfold on_mw_os. by destruct (Cri.create_dir_all dir _).
Qed.

(** C6. The start: whatever of the network of the host cannot be set, [main] gets to its tasks;
    the program then holds the resources of the manifests, the last of those with one uid,
    and nothing else: no container, no route, and every address is free. *)
Theorem boot_ready cfg k kn cidr e n :
  answers_in_full transact → cidr_parse (pod_cidr cfg) = Some cidr →
  init batch_send (pod_cidr cfg) (nft_new kn) = (Ok (), e) →
  image_manager_init is_root home cfg (cgroup_new k).2 ≠ Panic → (∀ k, (signalfd_new k).1 = true) →
  ∃ h, boot_host cfg k kn = Ret h ∧
    let k1 := os (sup (cluster (bt_world h))) in
    let all := concat (file_resources lib yaml_docs k1 <$> merge_sort path_le (walk n (manifests_dir cfg) k1)) in
    (nested n (manifests_dir cfg) k1 → fs_exists (manifests_dir cfg) k1 = true →
     ∃ fuel, ∀ m, (fuel ≤ m)%nat → ∃ b, boot m cfg k kn = Ret b ∧ fresh cidr (bt_world b)
       ∧ store_wf (world_store (bt_world b))
       ∧ ∀ u, resource <$> world_store (bt_world b) !! u = last (filter (λ r, uid r = u) all)).
Proof using Type.
  intros Hf Hc Hi Hd Hs. destruct (boot_host_returns cfg k kn cidr e Hf Hc Hi Hd Hs) as (h & Hh & Hfresh & Hst).
  exists h. split; [exact Hh|]. intros k1 all Hn He.
  set (mw := {| mw_world := bt_world h; mw_processed := bt_processed h |}).
  destruct (load_existing_result lib yaml_docs now n (manifests_dir cfg) mw Hn He) as (fuel & Hl).
  exists fuel. intros m Hm. destruct (Hl m Hm) as (s' & E & Hu). unfold Startup.boot. rewrite Hh.
  cbn [mbind exec_bind]. fold mw. rewrite E. eexists. split; [reflexivity|]. cbn [bt_world].
  destruct (load_existing_loads_only cidr m (manifests_dir cfg) mw _ _ E) as [[H1 H2] _].
  split; [by apply H1|]. split; [apply H2; unfold mw_store; cbn; rewrite Hst; apply store_new_wf|].
  intros u. change (world_store (mw_world s')) with (mw_store s'). rewrite Hu. change (mw_store mw) with (world_store (bt_world h)).
  rewrite Hst, lookup_empty. cbn [fmap option_fmap option_map]. fold k1. fold all. by destruct (last _).
Qed.

Theorem boot_refuses cfg k kn m :
  cidr_parse (pod_cidr cfg) = None ∨ (∃ e s, init batch_send (pod_cidr cfg) (nft_new kn) = (Err e, s)) →
  boot m cfg k kn = Panic.
Proof using Type. intros H. unfold Startup.boot. by rewrite boot_host_refuses. Qed.
End started.

(** ** Examples *)

#[local] Existing Instance sample_os.
#[local] Existing Instance sample_case.
#[local] Existing Instance sample_image_json.

#[local] Existing Instance no_storage_os.
#[local] Existing Instance tree_syscalls.

#[local] Instance tree_start : StartCalls Tree := {|
  udp_bind p k := (bool_decide (p ≠ 53), k);
  signalfd_new k := (true, k)
|}.

(** Two children of process 1 ended, one of them a container. *)
Definition ended_state : InitState Tree :=
  {| in_os := os (sup dying); in_ended := [Exited 42 1; Signaled 4000 9]; in_shutdown := false |}.

Lemma init_hides_exits_witness :
  running (sup (handle_exited_containers 9 (reap_zombies (in_ended ended_state)) dying)) !! "web-main" = None
  ∧ is_Some (running (sup (handle_exited_containers 9
      (reap_zombies (in_ended (handle_signal SIG_CHLD ended_state).2)) dying)) !! "web-main").
Proof.
  destruct (init_hides_exits 9 dying ended_state "web-main" eq_refl dying_wf eq_refl) as [H1 [_ H2]].
  split; [exact H1|exact H2].
Defined.

Lemma answers_36_full : answers_in_full (K := Tree) (answers 36).
Proof. intros b k resp k' [= <- <-]. right. cbn. lia. Qed.

Lemma shutdown_stops_pods_witness :
  ∃ c', shutdown (λ _, "E") (answers 36) true None sample_cg dying = Ret (Ok (), c')
    ∧ running (sup dying) !! "web-main" ≠ None ∧ running (sup c') !! "web-main" = None.
Proof.
  destruct (shutdown_stops_pods (λ _, "E") (answers 36) true None sample_cg answers_36_full dying) as (c' & E & _ & _ & H).
  exists c'. split; [exact E|]. split; [vm_compute; discriminate|]. rewrite H. vm_compute. reflexivity.
Defined.

Definition sample_config : Config :=
  Config.set_manifests_dir "/m" (Config.set_pod_cidr "10.1.0.0/30" (config_default None None)).
Definition sample_boot (m : nat) : exec (Booted (K := Tree) (KN := list (batch (option Ipv4Cidr)))) :=
  boot (λ _, "E") (answers 36) true None record_send sample_parse sample_yaml sample_docs 7 m sample_config sample_tree_dir [].

(** The start on a host with two manifests, without port 53: the second port is taken. *)
Example sample_boot_ready :
  match sample_boot 9 with
  | Ret b => bt_dns_port b = Some 5353 ∧ bt_dns_server b = "10.1.0.1" ∧ bt_processed b = {["/m/b.yaml"; "/m/apps/a.yml"]}
             ∧ (uid ∘ resource <$> get_all (world_store (bt_world b))) = ["Pod/default/<unnamed>"]
  | Panic => False
  end.
Proof. vm_compute. done. Qed.

Definition sample_host_boot : Booted (K := Tree) (KN := list (batch (option Ipv4Cidr))) :=
  match boot_host (λ _, "E") (answers 36) true None record_send sample_parse sample_config sample_tree_dir [] with
  | Ret h => h
  | Panic => {| bt_world := sample_world dying; bt_cgroup := sample_cg; bt_images := sample_manager;
                bt_dns_server := ""; bt_dns_port := None; bt_processed := ∅ |}
  end.

Definition sample_boot_os : Tree := os (sup (cluster (bt_world sample_host_boot))).
Lemma sample_boot_nested : nested 2 "/m" sample_boot_os.
Proof.
  cbn [nested]. assert (subdirs "/m" sample_boot_os = ["/m/apps"]) as -> by (vm_compute; reflexivity).
  intros p ->%list_elem_of_singleton. assert (subdirs "/m/apps" sample_boot_os = []) as -> by (vm_compute; reflexivity).
  by intros p ?%not_elem_of_nil.
Qed.

Lemma boot_ready_witness : ∃ m b, sample_boot m = Ret b
  ∧ running (sup (cluster (bt_world b))) = ∅ ∧ is_Some (world_store (bt_world b) !! "Pod/default/<unnamed>").
Proof.
  destruct (boot_ready (λ _, "E") (answers 36) true None record_send sample_parse sample_yaml sample_docs 7
    sample_config sample_tree_dir [] {| Pool.network := 167837696; Pool.prefix := 30 |}
    (init record_send "10.1.0.0/30" (nft_new [])).2 2) as (h & Hh & H).
  - apply answers_36_full.
  - vm_compute. reflexivity.
  - vm_compute. reflexivity.
  - vm_compute. discriminate.
  - done.
  - assert (h = sample_host_boot) as -> by (unfold sample_host_boot; by rewrite Hh). fold sample_boot_os in H.
    destruct H as (fuel & H); [exact sample_boot_nested|vm_compute; reflexivity|].
    destruct (H fuel (le_n fuel)) as (b & Hb & (Hr & _) & _ & Hu). exists fuel, b.
    split; [exact Hb|]. split; [exact Hr|]. specialize (Hu "Pod/default/<unnamed>").
    match type of Hu with _ = ?x => assert (is_Some x) as Hx by (vm_compute; by eexists) end.
    rewrite <- Hu in Hx. by apply fmap_is_Some in Hx.
Defined.

(** When the descriptor fails, process 1 waits for ever, whatever signals come later. *)
Example failed_descriptor_never_stops :
  main_wait true [None; Some [SigInfo SIG_TERM]] None ended_state = (None, ended_state).
Proof. reflexivity. Qed.
