(* ===== verification/Streams.v ===== *)
(** * Streams: the file descriptors of a container and its logs
    (create_std_pipes, setup_child_pipes, spawn_log_tasks, raise_nproc_limit and the
    descriptors of both spawn functions in src/src/cri/runtime.rs)

    Four pipes join a container to the supervisor: its two output streams and the two
    directions of the handshake. A table of descriptors says what each process holds; a
    fork copies it, and exec closes what is marked for it. The pipes are not. *)
From S2P Require Import Prelude Text Utf8 Cri Runtime.

(** ** Tables of descriptors *)

Inductive PipeKind := StdoutPipe | StderrPipe | SyncPipe | AckPipe.
(** An end of a pipe of a container, or a file. *)
Inductive FdTarget := ReadEnd (cid : string) (p : PipeKind) | WriteEnd (cid : string) (p : PipeKind) | DevNull | OtherFile (n : Z).
Record Fd := { fd_target : FdTarget; fd_cloexec : bool }.
Abbreviation FdTable := (gmap Z Fd).

#[export] Instance PipeKind_eq_dec : EqDecision PipeKind.
Proof. solve_decision. Defined.
#[export] Instance FdTarget_eq_dec : EqDecision FdTarget.
Proof. solve_decision. Defined.
#[export] Instance Fd_eq_dec : EqDecision Fd.
Proof. solve_decision. Defined.

(** The lowest number that is not in use: the number of entries bounds the search. *)
Fixpoint first_free (fuel : nat) (n : Z) (t : FdTable) : Z :=
  match fuel with
  | O => n
  | S fuel' => if is_some (t !! n) then first_free fuel' (n + 1) t else n
  end.
Definition lowest_free (t : FdTable) : Z := first_free (S (size t)) 0 t.

Section fds.
(** RLIMIT_NOFILE, and whether /dev/null can be opened. *)
Variables (limit : Z) (dev_null : bool).
Implicit Types t : FdTable.

Definition open_fd (e : FdTarget) (cloexec : bool) t : option (Z * FdTable) :=
  let n := lowest_free t in
  if n <? limit then Some (n, <[n := {| fd_target := e; fd_cloexec := cloexec |}]> t) else None.

Definition close (fd : Z) t : FdTable := delete fd t.

Definition dup2 (old new : Z) t : FdTable :=
  match t !! old with Some f => <[new := {| fd_target := fd_target f; fd_cloexec := false |}]> t | None => t end.

(** [pipe()], without O_CLOEXEC *)
Definition pipe (cid : string) (p : PipeKind) t : option (Z * Z * FdTable) :=
  match open_fd (ReadEnd cid p) false t with
  | Some (r, t) => match open_fd (WriteEnd cid p) false t with Some (w, t) => Some (r, w, t) | None => None end
  | None => None
  end.

Record StdPipes := {
  stdout_r : Z; stdout_w : Z; stderr_r : Z; stderr_w : Z;
  sync_r : Z; sync_w : Z; ack_r : Z; ack_w : Z
}.

(** The pipes that were made before one that fails are closed again. *)
Definition create_std_pipes (cid : string) t : result StdPipes * FdTable :=
  match pipe cid StdoutPipe t with
  | None => (Err "stdout pipe", t)
  | Some (r1, w1, t1) =>
      match pipe cid StderrPipe t1 with
      | None => (Err "stderr pipe", t)
      | Some (r2, w2, t2) =>
          match pipe cid SyncPipe t2 with
          | None => (Err "sync pipe", t)
          | Some (r3, w3, t3) =>
              match pipe cid AckPipe t3 with
              | None => (Err "ack pipe", t)
              | Some (r4, w4, t4) =>
                  (Ok {| stdout_r := r1; stdout_w := w1; stderr_r := r2; stderr_w := w2;
                         sync_r := r3; sync_w := w3; ack_r := r4; ack_w := w4 |}, t4)
              end
          end
      end
  end.

(** Standard input from /dev/null. *)
Definition null_stdin t : FdTable :=
  if dev_null then
    match open_fd DevNull false t with Some (fd, t) => close fd (dup2 fd 0 t) | None => t end
  else t.

(** The output streams to the write ends, and no other descriptor of these. *)
Definition redirect (sp : StdPipes) t : FdTable :=
  let t := dup2 (stderr_w sp) 2 (dup2 (stdout_w sp) 1 t) in
  null_stdin (close (stderr_w sp) (close (stdout_w sp) t)).

Definition setup_child_pipes (sp : StdPipes) t : FdTable := redirect sp (close (stderr_r sp) (close (stdout_r sp) t)).

(** [execvpe] *)
Definition exec_fds t : FdTable := filter (λ f : Z * Fd, fd_cloexec f.2 = false) t.

(** The child of a supervisor that is root: what it holds while it waits, and in the end. *)
Definition child_root_waits (sp : StdPipes) t : FdTable := setup_child_pipes sp t.
Definition child_root_fds (sp : StdPipes) t : FdTable :=
  exec_fds (close (ack_r sp) (close (sync_w sp) (child_root_waits sp t))).

(** The child of a supervisor that is not; [child_enter_ns_fork] closes its two ends. *)
Definition child_userns_waits (sp : StdPipes) t : FdTable :=
  close (ack_w sp) (close (sync_r sp) (close (stderr_r sp) (close (stdout_r sp) t))).
Definition child_userns_fds (sp : StdPipes) t : FdTable :=
  exec_fds (redirect sp (close (ack_r sp) (close (sync_w sp) (child_userns_waits sp t)))).

(** The supervisor in the end: the log tasks hold the ends of the output. *)
Definition parent_fds (sp : StdPipes) t : FdTable :=
  close (ack_w sp) (close (sync_r sp) (close (ack_r sp) (close (sync_w sp) (close (stderr_w sp) (close (stdout_w sp) t))))).

(** A fork that fails. *)
Definition failed_fork_fds (sp : StdPipes) t : FdTable :=
  close (stdout_r sp) (close (stderr_r sp) (parent_fds sp t)).
End fds.

(** ** Logs *)

(** The lines that the two tasks have not read yet, and the buffer they share. *)
Record LogState := { lg_stdout : list string; lg_stderr : list string; lg_buffer : list string }.

Definition tag_line (err : bool) (line : string) : string := (if err then "[stderr] " else "[stdout] ") +:+ line.

(** A step of either task: the line goes to the buffer under its lock. *)
Inductive log_step : LogState → LogState → Prop :=
  | log_stdout line o e b : log_step {| lg_stdout := line :: o; lg_stderr := e; lg_buffer := b |}
                                     {| lg_stdout := o; lg_stderr := e; lg_buffer := push_log (tag_line false line) b |}
  | log_stderr line o e b : log_step {| lg_stdout := o; lg_stderr := line :: e; lg_buffer := b |}
                                     {| lg_stdout := o; lg_stderr := e; lg_buffer := push_log (tag_line true line) b |}.

(** ** The limit on processes *)

(** What [raise_nproc_limit] sets, from the soft and the hard limit. *)
Definition raise_nproc_limit (soft hard : Z) : option (Z * Z) :=
  let target := 65535 in if soft <? target then Some (target, Z.max hard target) else None.

(** ** What the descriptors are *)

(** What is below the result is in use, and the result as well only when the fuel ends. *)
Lemma first_free_spec fuel t : ∀ n, let m := first_free fuel n t in
  n ≤ m ∧ (∀ x, n ≤ x < m → is_Some (t !! x)) ∧ (t !! m = None ∨ m = n + Z.of_nat fuel).
Proof.
  induction fuel as [|fuel IH]; intros n; cbn [first_free]; [split; [lia|split; [lia|right; lia]]|].
  destruct (t !! n) as [f|] eqn:E; cbn [is_some].
  - destruct (IH (n + 1)) as (H1 & H2 & H3). split; [lia|]. split; [|destruct H3; [by left|right; lia]].
    intros x Hx. destruct (decide (x = n)) as [-> |]; [by eexists|apply H2; lia].
  - split; [lia|]. split; [lia|by left].
Qed.

Lemma lowest_free_spec t : t !! lowest_free t = None ∧ 0 ≤ lowest_free t ∧ ∀ n, 0 ≤ n → t !! n = None → lowest_free t ≤ n.
Proof.
  unfold lowest_free. destruct (first_free_spec (S (size t)) t 0) as (H1 & H2 & H3).
  set (m := first_free _ _ _) in *. split; [|split; [done|]].
  - destruct H3 as [H3|H3]; [done|]. exfalso.
    assert ((Z.of_nat <$> seq 0 (S (size t))) ⊆+ elements (dom t)) as Hs%submseteq_length.
    { apply NoDup_submseteq; [apply NoDup_fmap_2; [intros ? ?; lia|apply NoDup_seq]|].
      intros n (x & -> & Hx%elem_of_seq)%list_elem_of_fmap. apply elem_of_elements, elem_of_dom, H2. lia. }
    rewrite length_fmap, length_seq in Hs. change (length (elements (dom t))) with (size (dom t)) in Hs.
    rewrite size_dom in Hs. lia.
  - intros n Hn Hf. destruct (Z.le_gt_cases m n) as [|Hlt]; [done|].
    destruct (H2 n) as [f Hx]; [lia|congruence].
Qed.

(** The entries of the eight ends. *)
Definition pipe_fds (sp : StdPipes) : list Z :=
  [stdout_r sp; stdout_w sp; stderr_r sp; stderr_w sp; sync_r sp; sync_w sp; ack_r sp; ack_w sp].
Definition pipe_ends (cid : string) : list FdTarget :=
  [ReadEnd cid StdoutPipe; WriteEnd cid StdoutPipe; ReadEnd cid StderrPipe; WriteEnd cid StderrPipe;
   ReadEnd cid SyncPipe; WriteEnd cid SyncPipe; ReadEnd cid AckPipe; WriteEnd cid AckPipe].

(** New entries, none marked for exec. *)
Definition add_fds (l : list (Z * FdTarget)) (t : FdTable) : FdTable :=
  foldl (λ t p, <[p.1 := {| fd_target := p.2; fd_cloexec := false |}]> t) t l.

Lemma open_fd_spec limit e t n t' :
  open_fd limit e false t = Some (n, t') → t !! n = None ∧ 0 ≤ n < limit ∧ t' = <[n := {| fd_target := e; fd_cloexec := false |}]> t.
Proof.
  unfold open_fd. destruct (Z.ltb_spec (lowest_free t) limit); [|done]. intros [= <- <-].
  destruct (lowest_free_spec t) as (H1 & H2 & _). done.
Qed.

Lemma pipe_spec limit cid p t r w t' :
  pipe limit cid p t = Some (r, w, t') →
  t !! r = None ∧ t !! w = None ∧ r ≠ w ∧ (0 ≤ r < limit) ∧ t' = add_fds [(r, ReadEnd cid p); (w, WriteEnd cid p)] t.
Proof.
  unfold pipe. destruct (open_fd _ _ _ t) as [[r1 t1]|] eqn:E1; [|done].
  destruct (open_fd _ _ _ t1) as [[w1 t2]|] eqn:E2; [|done]. intros [= <- <- <-].
  apply open_fd_spec in E1 as (H1 & Hr & ->). apply open_fd_spec in E2 as (H2 & _ & ->).
  apply lookup_insert_None in H2 as [H2 H3]. done.
Qed.

(** The eight descriptors are new and different. *)
Lemma create_std_pipes_spec limit cid t sp t' :
  create_std_pipes limit cid t = (Ok sp, t') →
  t' = add_fds (zip (pipe_fds sp) (pipe_ends cid)) t ∧ NoDup (pipe_fds sp)
  ∧ (∀ fd, fd ∈ pipe_fds sp → t !! fd = None) ∧ 0 ≤ stdout_r sp < limit.
Proof.
  unfold create_std_pipes.
  destruct (pipe _ _ _ t) as [[[r1 w1] t1]|] eqn:E1; [|done]. destruct (pipe _ _ _ t1) as [[[r2 w2] t2]|] eqn:E2; [|done].
  destruct (pipe _ _ _ t2) as [[[r3 w3] t3]|] eqn:E3; [|done]. destruct (pipe _ _ _ t3) as [[[r4 w4] t4]|] eqn:E4; [|done].
  intros [= <- <-]. apply pipe_spec in E1 as (N1 & N2 & D1 & Hl & ->), E2 as (N3 & N4 & D2 & _ & ->), E3 as (N5 & N6 & D3 & _ & ->), E4 as (N7 & N8 & D4 & _ & ->).
  unfold add_fds in *. cbn [foldl fst snd] in *.
  rewrite !lookup_insert_None in *. split; [done|]. unfold pipe_fds. cbn [stdout_r stdout_w stderr_r stderr_w sync_r sync_w ack_r ack_w].
  split; [|split; [set_solver|done]]. repeat (apply NoDup_cons; split; [set_solver|]). apply NoDup_nil_2.
Qed.

(** A supervisor has its standard streams. *)
Definition std_open (t : FdTable) : Prop := is_Some (t !! 0) ∧ is_Some (t !! 1) ∧ is_Some (t !! 2).

Lemma null_stdin_spec limit dev_null t fd : is_Some (t !! 0) → 0 ≤ fd < limit → t !! fd = None →
  null_stdin limit dev_null t = if dev_null then <[0 := {| fd_target := DevNull; fd_cloexec := false |}]> t else t.
Proof.
  intros [f H0] Hfd Hf. unfold null_stdin. destruct dev_null; [|done]. unfold open_fd.
  destruct (lowest_free_spec t) as (H1 & H2 & H3). specialize (H3 fd (proj1 Hfd) Hf).
  destruct (Z.ltb_spec (lowest_free t) limit); [|lia].
  assert (lowest_free t ≠ 0) as Hn by congruence. unfold dup2, close. rewrite lookup_insert_eq. cbn.
  rewrite delete_insert_ne by done. by rewrite delete_insert_id.
Qed.

(** Closing a list of descriptors. *)
Definition closes (l : list Z) (u : FdTable) : FdTable := foldr close u l.
Lemma closes_lookup l (u : FdTable) fd : closes l u !! fd = if decide (fd ∈ l) then None else u !! fd.
Proof.
  induction l as [|x l IH]; [done|]. change (closes (x :: l) u) with (delete x (closes l u)). rewrite lookup_delete, IH.
  repeat case_decide; set_solver.
Qed.

Section streams.
Variables (limit : Z) (dev_null : bool) (cid : string) (sp : StdPipes) (t t' : FdTable).
Hypothesis std : std_open t.
Hypothesis made : create_std_pipes limit cid t = (Ok sp, t').

Abbreviation plain_fd e := {| fd_target := e; fd_cloexec := false |}.

Lemma made_lookup fd : t' !! fd =
  match list_find (λ p, p.1 = fd) (zip (pipe_fds sp) (pipe_ends cid)) with
  | Some (_, (_, e)) => Some (plain_fd e)
  | None => t !! fd
  end.
Proof using made.
  destruct (create_std_pipes_spec _ _ _ _ _ made) as (-> & Hd & _). unfold add_fds.
  assert (∀ (l : list (Z * FdTarget)) (m : FdTable), NoDup l.*1 →
    foldl (λ t p, <[p.1 := plain_fd p.2]> t) m l !! fd
    = match list_find (λ p, p.1 = fd) l with Some (_, (_, e)) => Some (plain_fd e) | None => m !! fd end) as H.
  { induction l as [|[x e] l IH]; intros m Hn; [done|]. cbn [foldl list_find fst snd]. cbn in Hn. apply NoDup_cons in Hn as [Hx Hn].
    rewrite IH by done. destruct (decide (x = fd)) as [-> |Hne].
    - assert (list_find (λ p : Z * FdTarget, p.1 = fd) l = None) as ->.
      { apply list_find_None, Forall_forall. intros [y e'] Hy. cbn. intros ->. apply Hx. by apply (list_elem_of_fmap_2 fst) in Hy. }
      apply lookup_insert_eq.
    - destruct (list_find _ l) as [[i [y e']]|]; cbn; [done|]. by rewrite lookup_insert_ne. }
  apply H. exact Hd.
Qed.

#[local] Ltac lookups :=
  repeat first [rewrite lookup_insert | rewrite lookup_delete]; repeat case_decide; subst; try done; try congruence.

Lemma pipe_fd_high fd : fd ∈ pipe_fds sp → fd ≠ 0 ∧ fd ≠ 1 ∧ fd ≠ 2.
Proof using std made.
  intros Hfd. destruct (create_std_pipes_spec _ _ _ _ _ made) as (_ & _ & Hn & _). specialize (Hn fd Hfd).
  destruct std as ([? H0] & [? H1] & [? H2]). repeat split; congruence.
Qed.

(** What the redirection leaves of a table in which the read end of stdout is closed. *)
Lemma redirect_view u fd :
  u !! stdout_w sp = Some (plain_fd (WriteEnd cid StdoutPipe)) →
  u !! stderr_w sp = Some (plain_fd (WriteEnd cid StderrPipe)) →
  u !! stdout_r sp = None → is_Some (u !! 0) →
  redirect limit dev_null sp u !! fd =
    if decide (fd = 0) then (if dev_null then Some (plain_fd DevNull) else u !! 0)
    else if decide (fd = 1) then Some (plain_fd (WriteEnd cid StdoutPipe))
    else if decide (fd = 2) then Some (plain_fd (WriteEnd cid StderrPipe))
    else if decide (fd = stdout_w sp) then None
    else if decide (fd = stderr_w sp) then None
    else u !! fd.
Proof using std made.
  intros Hw1 Hw2 Hr H0. destruct (create_std_pipes_spec _ _ _ _ _ made) as (_ & Hd & _ & Hl).
  destruct (pipe_fd_high (stdout_r sp)) as (? & ? & ?); [set_solver|].
  destruct (pipe_fd_high (stdout_w sp)) as (? & ? & ?); [set_solver|].
  destruct (pipe_fd_high (stderr_w sp)) as (? & ? & ?); [set_solver|].
  unfold redirect. unfold dup2 at 2. rewrite Hw1. unfold dup2. rewrite lookup_insert_ne, Hw2 by done. unfold close. cbn [fd_target].
  rewrite (null_stdin_spec _ _ _ (stdout_r sp)); [| |done|].
  - destruct dev_null; lookups.
  - lookups; by eexists.
  - lookups.
Qed.

Lemma made_end i fd e : pipe_fds sp !! i = Some fd → pipe_ends cid !! i = Some e → t' !! fd = Some (plain_fd e).
Proof using made.
  intros Hf He. destruct (create_std_pipes_spec _ _ _ _ _ made) as (_ & Hd & _).
  assert (list_find (λ p : Z * FdTarget, p.1 = fd) (zip (pipe_fds sp) (pipe_ends cid)) = Some (i, (fd, e))) as E.
  { apply list_find_Some. split; [|split; [done|]].
    - apply lookup_zip_Some. by split.
    - intros j [fd' e'] Hj Hlt. cbn. intros ->. apply lookup_zip_Some in Hj as [Hj _]. cbn in Hj.
      pose proof (NoDup_lookup _ _ _ _ Hd Hf Hj). lia. }
  rewrite made_lookup, E. done.
Qed.

Lemma made_other fd : fd ∉ pipe_fds sp → t' !! fd = t !! fd.
Proof using made.
  intros Hfd. rewrite made_lookup. assert (list_find (λ p : Z * FdTarget, p.1 = fd) (zip (pipe_fds sp) (pipe_ends cid)) = None) as ->; [|done].
  apply list_find_None, Forall_forall. intros [x e] Hx. cbn. intros ->. apply Hfd. by apply elem_of_zip_l in Hx.
Qed.

(** The ends differ, and are none of the standard streams, which the pipes leave as they are. *)
Lemma made_facts :
  (stdout_r sp ≠ stdout_w sp ∧ stdout_r sp ≠ stderr_w sp ∧ stderr_r sp ≠ stdout_w sp ∧ stderr_r sp ≠ stderr_w sp
   ∧ stdout_w sp ≠ stderr_w sp ∧ stdout_r sp ≠ stderr_r sp)
  ∧ (∀ fd, fd ∈ [sync_r sp; sync_w sp; ack_r sp; ack_w sp] → fd ∉ [stdout_r sp; stdout_w sp; stderr_r sp; stderr_w sp])
  ∧ NoDup [sync_r sp; sync_w sp; ack_r sp; ack_w sp]
  ∧ is_Some (t' !! 0).
Proof using std made.
  destruct (create_std_pipes_spec _ _ _ _ _ made) as (_ & Hd & _ & _).
  assert (0 ∉ pipe_fds sp) as H0 by (intros H; by destruct (pipe_fd_high 0 H)).
  rewrite (made_other 0 H0). destruct std as (H & _). split; [|split; [|split; [|done]]].
  - unfold pipe_fds in Hd. rewrite !NoDup_cons in Hd. repeat split; set_solver.
  - change (pipe_fds sp) with ([stdout_r sp; stdout_w sp; stderr_r sp; stderr_w sp] ++ [sync_r sp; sync_w sp; ack_r sp; ack_w sp]) in Hd.
    apply NoDup_app in Hd as (_ & Hd & _). intros fd H1 H2. by apply (Hd fd).
  - change (pipe_fds sp) with ([stdout_r sp; stdout_w sp; stderr_r sp; stderr_w sp] ++ [sync_r sp; sync_w sp; ack_r sp; ack_w sp]) in Hd.
    by apply NoDup_app in Hd as (_ & _ & Hd).
Qed.

(** What both kinds of children hold after the redirection: of their own pipes the standard
    streams only, and otherwise what they were left. *)
Lemma redirect_made u fd :
  u !! stdout_w sp = t' !! stdout_w sp → u !! stderr_w sp = t' !! stderr_w sp → u !! stdout_r sp = None → u !! 0 = t' !! 0 →
  redirect limit dev_null sp u !! fd =
    if decide (fd = 0) then (if dev_null then Some (plain_fd DevNull) else t' !! 0)
    else if decide (fd = 1) then Some (plain_fd (WriteEnd cid StdoutPipe))
    else if decide (fd = 2) then Some (plain_fd (WriteEnd cid StderrPipe))
    else if decide (fd = stdout_w sp) then None
    else if decide (fd = stderr_w sp) then None
    else u !! fd.
Proof using std made.
  intros H1 H2 H3 H4. destruct made_facts as (_ & _ & _ & H0). rewrite redirect_view, H4; [done|..|done|congruence].
  - rewrite H1. by apply (made_end 1).
  - rewrite H2. by apply (made_end 3).
Qed.

Lemma exec_lookup (u : FdTable) fd :
  exec_fds u !! fd = match u !! fd with Some f => if fd_cloexec f then None else Some f | None => None end.
Proof using.
  unfold exec_fds. destruct (u !! fd) as [f|] eqn:E.
  - destruct (fd_cloexec f) eqn:Hc.
    + apply map_lookup_filter_None. right. intros f' Hf. cbn. congruence.
    + apply map_lookup_filter_Some. by split.
  - apply map_lookup_filter_None. by left.
Qed.

(** Both children close some descriptors, redirect, close others and become the program. *)
Definition final_fds (before after : list Z) : FdTable :=
  exec_fds (closes after (redirect limit dev_null sp (closes before t'))).

Lemma final_view before after fd :
  stdout_r sp ∈ before → (∀ x, x ∈ [0; stdout_w sp; stderr_w sp] → x ∉ before) →
  final_fds before after !! fd =
    if decide (fd ∈ after) then None
    else if decide (fd = 0) then (if dev_null then Some (plain_fd DevNull) else exec_fds t' !! 0)
    else if decide (fd = 1) then Some (plain_fd (WriteEnd cid StdoutPipe))
    else if decide (fd = 2) then Some (plain_fd (WriteEnd cid StderrPipe))
    else if decide (fd ∈ stdout_w sp :: stderr_w sp :: before) then None
    else exec_fds t' !! fd.
Proof using std made.
  intros Hr Hw. assert (∀ x, x ∈ [0; stdout_w sp; stderr_w sp] → closes before t' !! x = t' !! x) as Hk.
  { intros x Hx. rewrite closes_lookup, decide_False by auto. done. }
  unfold final_fds. rewrite exec_lookup, closes_lookup. destruct (decide (fd ∈ after)); [done|].
  rewrite redirect_made; [|apply Hk; set_solver|apply Hk; set_solver|by rewrite closes_lookup, decide_True|apply Hk; set_solver].
  rewrite closes_lookup, !exec_lookup. destruct dev_null; repeat case_decide; try done; set_solver.
Qed.

Lemma ends_differ i j x y : pipe_fds sp !! i = Some x → pipe_fds sp !! j = Some y → i ≠ j → x ≠ y.
Proof using made.
  intros Hi Hj Hne ->. destruct (create_std_pipes_spec _ _ _ _ _ made) as (_ & Hd & _). by destruct Hne, (NoDup_lookup _ _ _ _ Hd Hi Hj).
Qed.

Definition root_before := [stderr_r sp; stdout_r sp].
Definition root_after := [ack_r sp; sync_w sp].
Definition userns_before := [ack_r sp; sync_w sp; ack_w sp; sync_r sp; stderr_r sp; stdout_r sp].

Lemma root_final : child_root_fds limit dev_null sp t' = final_fds root_before root_after.
Proof using. done. Qed.
Lemma userns_final : child_userns_fds limit dev_null sp t' = final_fds userns_before [].
Proof using. done. Qed.

Lemma befores_ok x : x ∈ [0; stdout_w sp; stderr_w sp] → x ∉ root_before ∧ x ∉ userns_before.
Proof using std made.
  intros Hx. assert (∀ i y, i ∉ [1%nat; 3%nat] → pipe_fds sp !! i = Some y → x ≠ y) as Hne.
  { intros i y Hi Hy. rewrite !elem_of_cons in Hx. destruct Hx as [-> |[-> |[-> |[]%not_elem_of_nil]]].
    - destruct (pipe_fd_high y) as (? & _); [by eapply list_elem_of_lookup_2|done].
    - apply (ends_differ 1 i); set_solver.
    - apply (ends_differ 3 i); set_solver. }
  pose proof (Hne 0%nat (stdout_r sp) ltac:(set_solver) eq_refl). pose proof (Hne 2%nat (stderr_r sp) ltac:(set_solver) eq_refl).
  pose proof (Hne 4%nat (sync_r sp) ltac:(set_solver) eq_refl). pose proof (Hne 5%nat (sync_w sp) ltac:(set_solver) eq_refl).
  pose proof (Hne 6%nat (ack_r sp) ltac:(set_solver) eq_refl). pose proof (Hne 7%nat (ack_w sp) ltac:(set_solver) eq_refl).
  clear -H H0 H1 H2 H3 H4. unfold root_before, userns_before. rewrite !not_elem_of_cons. split; repeat split; try done; apply not_elem_of_nil.
Qed.

(** Either child in the end, at the standard streams, the ends it closed and the others. *)
Lemma child_cases f :
  f ∈ [child_root_fds limit dev_null sp t'; child_userns_fds limit dev_null sp t'] →
  ∃ before after, f = final_fds before after ∧ (before = root_before ∧ after = root_after ∨ before = userns_before ∧ after = [])
    ∧ stdout_r sp ∈ before ∧ stderr_r sp ∈ before ∧ (∀ x, x ∈ [0; stdout_w sp; stderr_w sp] → x ∉ before)
    ∧ (∀ x, x ∈ after → x ∈ pipe_fds sp) ∧ ∀ x, x ∈ before → x ∈ pipe_fds sp.
Proof using std made.
  rewrite !elem_of_cons. intros [-> |[-> |[]%not_elem_of_nil]].
  - exists root_before, root_after. split; [done|]. split; [by left|]. repeat split; try set_solver. intros x Hx. by apply befores_ok.
  - exists userns_before, []. split; [done|]. split; [by right|]. repeat split; try set_solver. intros x Hx. by apply befores_ok.
Qed.

(** The program of a container writes its output streams to its pipes and reads from
    /dev/null when that can be opened; it has no other end of the pipes of its output. *)
Theorem child_streams f :
  f ∈ [child_root_fds limit dev_null sp t'; child_userns_fds limit dev_null sp t'] →
  f !! 1 = Some (plain_fd (WriteEnd cid StdoutPipe)) ∧ f !! 2 = Some (plain_fd (WriteEnd cid StderrPipe))
  ∧ (dev_null = true → f !! 0 = Some (plain_fd DevNull))
  ∧ ∀ fd, fd ∈ [stdout_r sp; stdout_w sp; stderr_r sp; stderr_w sp] → f !! fd = None.
Proof using std made.
  intros (b & a & -> & _ & Hr & Hr2 & Hk & Ha & _)%child_cases.
  assert (∀ x, x ∈ [0; 1; 2] → x ∉ a) as Hn.
  { intros x Hx H%Ha. destruct (pipe_fd_high x H) as (? & ? & ?). set_solver. }
  repeat split.
  - rewrite final_view, decide_False by (auto || set_solver). done.
  - rewrite final_view, decide_False by (auto || set_solver). done.
  - intros Hd. rewrite final_view, decide_False, Hd by (auto || set_solver). done.
  - intros fd Hfd. assert (fd ∈ pipe_fds sp) as Hp by set_solver. destruct (pipe_fd_high fd Hp) as (? & ? & ?).
    rewrite final_view by done. destruct (decide (fd ∈ a)); [done|]. do 3 rewrite decide_False by assumption.
    rewrite decide_True; [done|]. clear -Hfd Hr Hr2. set_solver.
Qed.

(** What the supervisor holds open and does not mark for exec, every container gets. *)
Lemma child_inherits f fd e :
  f ∈ [child_root_fds limit dev_null sp t'; child_userns_fds limit dev_null sp t'] →
  fd ∉ [0; 1; 2] → t !! fd = Some (plain_fd e) → f !! fd = Some (plain_fd e).
Proof using std made.
  intros (b & a & -> & _ & Hr & _ & Hk & Ha & Hb)%child_cases Hfd He.
  assert (fd ∉ pipe_fds sp) as Hn.
  { intros H. destruct (create_std_pipes_spec _ _ _ _ _ made) as (_ & _ & Hf & _). specialize (Hf fd H). congruence. }
  rewrite final_view by done.
  assert (fd ∉ a) by auto. assert (fd ∉ stdout_w sp :: stderr_w sp :: b).
  { intros Hin. apply Hn. rewrite !elem_of_cons in Hin. destruct Hin as [-> |[-> |Hin]]; [set_solver..|auto]. }
  rewrite !not_elem_of_cons in Hfd. destruct Hfd as (? & ? & ? & _).
  do 5 rewrite decide_False by assumption. by rewrite exec_lookup, made_other, He.
Qed.

(** A child of a supervisor that is root holds a write end of the pipe on which it waits for
    the acknowledgement, and leaves it and a read end to the program; the other does not. *)
Theorem handshake_ends :
  child_root_waits limit dev_null sp t' !! ack_w sp = Some (plain_fd (WriteEnd cid AckPipe))
  ∧ child_root_fds limit dev_null sp t' !! ack_w sp = Some (plain_fd (WriteEnd cid AckPipe))
  ∧ child_root_fds limit dev_null sp t' !! sync_r sp = Some (plain_fd (ReadEnd cid SyncPipe))
  ∧ child_userns_waits sp t' !! ack_w sp = None
  ∧ ∀ fd, fd ∈ pipe_fds sp → child_userns_fds limit dev_null sp t' !! fd = None.
Proof using std made.
  assert (∀ i j x y, pipe_fds sp !! i = Some x → pipe_fds sp !! j = Some y → i ≠ j → x ≠ y) as Hne by exact ends_differ.
  assert (∀ i x, i ∈ [4%nat; 7%nat] → pipe_fds sp !! i = Some x →
    x ∉ root_after ∧ x ∉ stdout_w sp :: stderr_w sp :: root_before) as Ho.
  { intros i x Hi Hx. unfold root_after, root_before. rewrite !not_elem_of_cons.
    repeat split; try apply not_elem_of_nil; (eapply (Hne i); [exact Hx| |]);
      [by instantiate (1 := 6%nat)|set_solver|by instantiate (1 := 5%nat)|set_solver|by instantiate (1 := 1%nat)|set_solver
      |by instantiate (1 := 3%nat)|set_solver|by instantiate (1 := 2%nat)|set_solver|by instantiate (1 := 0%nat)|set_solver]. }
  assert (∀ i x e, i ∈ [4%nat; 7%nat] → pipe_fds sp !! i = Some x → pipe_ends cid !! i = Some e →
    final_fds root_before [] !! x = Some (plain_fd e) ∧ final_fds root_before root_after !! x = Some (plain_fd e)) as Hv.
  { intros i x e Hi Hx He. destruct (Ho i x Hi Hx) as [H1 H2].
    destruct (pipe_fd_high x) as (? & ? & ?); [by eapply list_elem_of_lookup_2|].
    split; (rewrite final_view; [|clear; unfold root_before; set_solver|intros y Hy; by apply befores_ok]);
      (rewrite decide_False by (exact H1 || apply not_elem_of_nil)); do 4 rewrite decide_False by assumption;
      by rewrite exec_lookup, (made_end i _ e). }
  split.
  { destruct (Hv 7%nat (ack_w sp) _ ltac:(set_solver) eq_refl eq_refl) as [H _]. unfold final_fds in H. rewrite exec_lookup in H.
    change (closes [] ?x) with x in H. change (child_root_waits limit dev_null sp t') with (redirect limit dev_null sp (closes root_before t')).
    destruct (redirect _ _ _ _ !! _) as [g|]; [|done]. destruct (fd_cloexec g) eqn:Hc; [done|]. exact H. }
  split; [by destruct (Hv 7%nat (ack_w sp) _ ltac:(set_solver) eq_refl eq_refl)|].
  split; [by destruct (Hv 4%nat (sync_r sp) _ ltac:(set_solver) eq_refl eq_refl)|]. split; [apply lookup_delete_eq|].
  intros fd Hfd. destruct (pipe_fd_high fd Hfd) as (? & ? & ?). rewrite userns_final, final_view.
  - rewrite decide_False by apply not_elem_of_nil. do 3 rewrite decide_False by assumption. rewrite decide_True; [done|].
    clear -Hfd. unfold pipe_fds, userns_before in *. set_solver.
  - clear. unfold userns_before. set_solver.
  - intros y Hy. by apply befores_ok.
Qed.

Lemma parent_lookup fd : parent_fds sp t' !! fd =
  if decide (fd ∈ [ack_w sp; sync_r sp; ack_r sp; sync_w sp; stderr_w sp; stdout_w sp]) then None else t' !! fd.
Proof using. apply (closes_lookup [ack_w sp; sync_r sp; ack_r sp; sync_w sp; stderr_w sp; stdout_w sp]). Qed.

Lemma parent_view fd : parent_fds sp t' !! fd =
  if decide (fd = stdout_r sp) then Some (plain_fd (ReadEnd cid StdoutPipe))
  else if decide (fd = stderr_r sp) then Some (plain_fd (ReadEnd cid StderrPipe))
  else t !! fd.
Proof using std made.
  assert (∀ i x, i ∈ [0%nat; 2%nat] → pipe_fds sp !! i = Some x → x ∉ [ack_w sp; sync_r sp; ack_r sp; sync_w sp; stderr_w sp; stdout_w sp]) as Hn.
  { intros i x Hi Hx. rewrite !not_elem_of_cons.
    repeat split; try apply not_elem_of_nil; (eapply (ends_differ i); [exact Hx| |]);
      [by instantiate (1 := 7%nat)|set_solver|by instantiate (1 := 4%nat)|set_solver|by instantiate (1 := 6%nat)|set_solver
      |by instantiate (1 := 5%nat)|set_solver|by instantiate (1 := 3%nat)|set_solver|by instantiate (1 := 1%nat)|set_solver]. }
  rewrite parent_lookup. destruct (decide (fd = stdout_r sp)) as [-> |H1].
  { rewrite decide_False by (apply (Hn 0%nat); [set_solver|done]). by apply (made_end 0). }
  destruct (decide (fd = stderr_r sp)) as [-> |H2].
  { rewrite decide_False by (apply (Hn 2%nat); [set_solver|done]). by apply (made_end 2). }
  destruct (decide (fd ∈ pipe_fds sp)) as [H|H].
  - destruct (create_std_pipes_spec _ _ _ _ _ made) as (_ & _ & Hf & _). rewrite (Hf fd H). rewrite decide_True; [done|].
    clear -H H1 H2. unfold pipe_fds in H. set_solver.
  - rewrite decide_False; [by apply made_other|]. intros Hin. apply H. clear -Hin. unfold pipe_fds. set_solver.
Qed.

Lemma failed_fork_restores : failed_fork_fds sp t' = t.
Proof using std made.
  apply map_eq. intros fd. unfold failed_fork_fds, close. rewrite !lookup_delete, parent_view.
  destruct (create_std_pipes_spec _ _ _ _ _ made) as (_ & _ & Hf & _).
  repeat case_decide; subst; try done; symmetry; apply Hf; unfold pipe_fds; clear; set_solver.
Qed.
End streams.

(** The supervisor loses no descriptor: when the pipes or the fork fail it holds what it
    held before, and with a container two more, the ends that its log tasks read. *)
Theorem descriptors_kept limit cid t r t' :
  std_open t → create_std_pipes limit cid t = (r, t') →
  match r with
  | Err _ => t' = t
  | Ok sp => failed_fork_fds sp t' = t
      ∧ ∀ fd, parent_fds sp t' !! fd =
          if decide (fd = stdout_r sp) then Some {| fd_target := ReadEnd cid StdoutPipe; fd_cloexec := false |}
          else if decide (fd = stderr_r sp) then Some {| fd_target := ReadEnd cid StderrPipe; fd_cloexec := false |}
          else t !! fd
  end.
Proof.
  intros Hs Hm. destruct r as [sp|e].
  - split; [by eapply failed_fork_restores|]. intros fd. by eapply parent_view.
  - revert Hm. unfold create_std_pipes.
    by repeat (case_match; try (by intros [= _ <-])).
Qed.

(** C16. A container that is started while another one runs gets the ends at which the
    supervisor reads the output of the other. *)
Theorem later_container_reads_output limit dev_null a b t spa ta spb tb f :
  std_open t → create_std_pipes limit a t = (Ok spa, ta) → create_std_pipes limit b (parent_fds spa ta) = (Ok spb, tb) →
  f ∈ [child_root_fds limit dev_null spb tb; child_userns_fds limit dev_null spb tb] →
  f !! stdout_r spa = Some {| fd_target := ReadEnd a StdoutPipe; fd_cloexec := false |}
  ∧ f !! stderr_r spa = Some {| fd_target := ReadEnd a StderrPipe; fd_cloexec := false |}.
Proof.
  intros Hs Ha Hb Hf.
  assert (∀ x, x ∈ pipe_fds spa → x ∉ [0; 1; 2]) as Hh.
  { intros x Hx. destruct (pipe_fd_high _ _ _ _ _ Hs Ha x Hx) as (? & ? & ?). set_solver. }
  assert (stdout_r spa ≠ stderr_r spa) as Hne by (by apply (ends_differ _ _ _ _ _ Ha 0 2)).
  assert (std_open (parent_fds spa ta)) as Hs'.
  { unfold std_open. rewrite !(parent_view _ _ _ _ _ Hs Ha).
    assert (∀ n x, n ∈ [0; 1; 2] → x ∈ pipe_fds spa → n ≠ x) as Hn by (intros n x H1 H2 ->; by apply (Hh x)).
    rewrite !decide_False by (apply Hn; unfold pipe_fds; clear; set_solver). done. }
  split; eapply (child_inherits _ _ _ _ _ _ Hs' Hb); try exact Hf; try (apply Hh; unfold pipe_fds; clear; set_solver).
  - rewrite (parent_view _ _ _ _ _ Hs Ha). by rewrite decide_True.
  - rewrite (parent_view _ _ _ _ _ Hs Ha). by rewrite decide_False, decide_True.
Qed.

(** *** Logs *)

(** The lines of one stream in a merged list. *)
Definition side (err : bool) (l : list (bool * string)) : list string :=
  omap (λ p, if Bool.eqb p.1 err then Some p.2 else None) l.
Definition tagged (l : list (bool * string)) : list string := (λ p, tag_line p.1 p.2) <$> l.

(** C15. However the two tasks take turns, the buffer holds the last thousand lines of a merge of
    what they read, each stream in its order and without gaps. *)
Theorem log_buffer_merges o e s :
  rtc log_step {| lg_stdout := o; lg_stderr := e; lg_buffer := [] |} s →
  ∃ l, lg_buffer s = drop (length l - 1000) (tagged l) ∧ (length (lg_buffer s) ≤ 1000)%nat
    ∧ side false l ++ lg_stdout s = o ∧ side true l ++ lg_stderr s = e.
Proof.
  intros H. assert (∃ l, lg_buffer s = foldl (λ log line, push_log line log) [] (tagged l)
    ∧ side false l ++ lg_stdout s = o ∧ side true l ++ lg_stderr s = e) as (l & Hb & Ho & He).
  { revert s H. apply rtc_ind_r; [by exists []|]. intros s1 s2 _ Hs (l & Hb & Ho & He).
    unfold tagged, side in *.
    destruct Hs as [line o1 e1 b|line o1 e1 b]; cbn [lg_stdout lg_stderr lg_buffer] in *;
      [exists (l ++ [(false, line)])|exists (l ++ [(true, line)])];
      rewrite fmap_app, !omap_app, foldl_app, <- Hb; cbn; by rewrite ?app_nil_r, <- ?app_assoc. }
  exists l. rewrite push_log_last in Hb. unfold tagged in *. rewrite length_fmap in Hb.
  split; [done|]. split; [|done]. rewrite Hb, length_drop, length_fmap. lia.
Qed.

(** ** Examples *)

Definition sample_fds : FdTable :=
  {[0 := {| fd_target := OtherFile 0; fd_cloexec := false |}; 1 := {| fd_target := OtherFile 1; fd_cloexec := false |};
    2 := {| fd_target := OtherFile 2; fd_cloexec := false |}; 3 := {| fd_target := OtherFile 3; fd_cloexec := true |}]}.
Definition sample_pipes (n : Z) : StdPipes :=
  {| stdout_r := n; stdout_w := n + 1; stderr_r := n + 2; stderr_w := n + 3;
     sync_r := n + 4; sync_w := n + 5; ack_r := n + 6; ack_w := n + 7 |}.
Definition after_pipes (cid : string) (t : FdTable) : FdTable := (create_std_pipes 1024 cid t).2.

Lemma sample_std_open : std_open sample_fds.
Proof. repeat split; by eexists. Qed.

Lemma sample_made : create_std_pipes 1024 "a" sample_fds = (Ok (sample_pipes 4), after_pipes "a" sample_fds).
Proof. vm_compute. reflexivity. Qed.

Lemma child_streams_witness :
  child_root_fds 1024 true (sample_pipes 4) (after_pipes "a" sample_fds) !! 1
  = Some {| fd_target := WriteEnd "a" StdoutPipe; fd_cloexec := false |}.
Proof. exact (proj1 (child_streams _ true _ _ _ _ sample_std_open sample_made _ (list_elem_of_here _ _))). Defined.

Lemma handshake_ends_witness :
  child_root_fds 1024 true (sample_pipes 4) (after_pipes "a" sample_fds) !! ack_w (sample_pipes 4)
  = Some {| fd_target := WriteEnd "a" AckPipe; fd_cloexec := false |}.
Proof. exact (proj1 (proj2 (handshake_ends _ true _ _ _ _ sample_std_open sample_made))). Defined.

(** A supervisor that may hold eight descriptors makes two of the four pipes and closes them. *)
Lemma descriptors_kept_witness : create_std_pipes 9 "a" sample_fds = (Err "sync pipe", sample_fds).
Proof.
  pose proof (descriptors_kept 9 "a" sample_fds (Err "sync pipe") (create_std_pipes 9 "a" sample_fds).2 sample_std_open) as H.
  assert (create_std_pipes 9 "a" sample_fds = (Err "sync pipe", (create_std_pipes 9 "a" sample_fds).2)) as E by (vm_compute; reflexivity).
  specialize (H E). cbn iota in H. rewrite H in E. exact E.
Defined.

(** The ends of stdout and stderr of the first container are 4 and 6. *)
Definition later_pipes : StdPipes :=
  {| stdout_r := 5; stdout_w := 7; stderr_r := 8; stderr_w := 9; sync_r := 10; sync_w := 11; ack_r := 12; ack_w := 13 |}.

Lemma later_made :
  create_std_pipes 1024 "b" (parent_fds (sample_pipes 4) (after_pipes "a" sample_fds))
  = (Ok later_pipes, after_pipes "b" (parent_fds (sample_pipes 4) (after_pipes "a" sample_fds))).
Proof. vm_compute. reflexivity. Qed.

Lemma later_container_reads_output_witness :
  child_root_fds 1024 true later_pipes (after_pipes "b" (parent_fds (sample_pipes 4) (after_pipes "a" sample_fds)))
    !! stdout_r (sample_pipes 4)
  = Some {| fd_target := ReadEnd "a" StdoutPipe; fd_cloexec := false |}.
Proof.
  exact (proj1 (later_container_reads_output _ true _ _ _ _ _ _ _ _ sample_std_open sample_made later_made (list_elem_of_here _ _))).
Defined.

Lemma log_buffer_merges_witness :
  ∃ l, ["[stderr] b"; "[stdout] a"] = drop (length l - 1000) (tagged l) ∧ side false l ++ ["c"] = ["a"; "c"] ∧ side true l ++ [] = ["b"].
Proof.
  destruct (log_buffer_merges ["a"; "c"] ["b"]
    {| lg_stdout := ["c"]; lg_stderr := []; lg_buffer := ["[stderr] b"; "[stdout] a"] |}) as (l & H1 & _ & H2).
  - eapply rtc_l; [apply (log_stderr "b" ["a"; "c"] [] [])|]. apply rtc_once. apply (log_stdout "a" ["c"] [] ["[stderr] b"]).
  - exists l. split; [exact H1|exact H2].
Defined.
