(* ===== verification/Addresses.v ===== *)
(** * Addresses: no two containers ever share one

    The addresses that the books of the supervisor record, over everything that the running
    program does: starts that fail half-way, containers that exit, pods that are stopped,
    deployments that scale. An address that is handed out and recorded nowhere is leaked, and
    never handed out again. What a computation holds is followed through the supervisor's
    operations as a triple, and lifted to the world by [Reach.world_step_rel]. *)
From S2P Require Import Prelude Text Utf8 Resources Pool Netlink Nft NetMux Cri SpecBuilder Runtime Process Deployment Service Panics Policy Ingress Storage Registry World Reach Config Host Image Watcher Startup.

(** ** The addresses on the books *)

Definition address_of (p : string * RunningContainer) : option Ipv4Addr := pod_ip (instance p.2).
Definition ips (l : list (string * RunningContainer)) : list Ipv4Addr := omap address_of l.
Definition addresses {K} (s : Supervisor K) : list Ipv4Addr := ips (map_to_list (running s)).

Lemma ips_insert (m : gmap string RunningContainer) cid rc :
  m !! cid = None → ips (map_to_list (<[cid := rc]> m)) ≡ₚ option_list (pod_ip (instance rc)) ++ ips (map_to_list m).
Proof.
  intros H. unfold ips. rewrite map_to_list_insert by done. cbn [omap list_omap]. unfold address_of at 1. cbn.
  by destruct (pod_ip (instance rc)).
Qed.

Lemma ips_delete (m : gmap string RunningContainer) cid rc :
  m !! cid = Some rc → ips (map_to_list m) ≡ₚ option_list (pod_ip (instance rc)) ++ ips (map_to_list (delete cid m)).
Proof.
  intros H. rewrite <- (insert_delete_id m cid rc) at 1 by done. apply ips_insert, lookup_delete_eq.
Qed.

Lemma ips_forget (m : gmap string RunningContainer) cid :
  ips (map_to_list (delete cid m)) ⊆+ ips (map_to_list m).
Proof.
  destruct (m !! cid) as [rc|] eqn:E; [|by rewrite delete_id].
  rewrite (ips_delete m cid rc E). by apply submseteq_inserts_l.
Qed.

Lemma ips_forget_all l (m : gmap string RunningContainer) :
  ips (map_to_list (foldl (λ r cid, delete cid r) m l)) ⊆+ ips (map_to_list m).
Proof.
  revert m. induction l as [|cid l IH]; intros m; [done|]. cbn [foldl]. etrans; [apply IH|apply ips_forget].
Qed.

Lemma ips_record (m : gmap string RunningContainer) cid rc :
  ips (map_to_list (<[cid := rc]> m)) ⊆+ option_list (pod_ip (instance rc)) ++ ips (map_to_list m).
Proof.
  rewrite <- (insert_delete_eq m cid rc). rewrite ips_insert by apply lookup_delete_eq.
  apply submseteq_app; [done|apply ips_forget].
Qed.

Lemma ips_record_all l (m : gmap string RunningContainer) :
  ips (map_to_list (foldl (λ r p, <[p.1 := p.2]> r) m l)) ⊆+ ips l ++ ips (map_to_list m).
Proof.
  revert m. induction l as [|[cid rc] l IH]; intros m; [done|]. cbn [foldl]. etrans; [apply IH|].
  etrans; [apply submseteq_app; [done|apply (ips_record m cid rc)]|].
  unfold ips at 3. cbn [omap list_omap]. unfold address_of at 1. cbn. fold (ips l).
  destruct (pod_ip (instance rc)); cbn; [|done]. by rewrite <- Permutation_middle.
Qed.

Lemma ips_placeholders l (m : gmap string RunningContainer) :
  ips (map_to_list (foldl (λ r cfg, if is_some (r !! cc_container_id cfg) then r
                                    else <[cc_container_id cfg := placeholder cfg]> r) m l))
  ⊆+ ips (map_to_list m).
Proof.
  revert m. induction l as [|cfg l IH]; intros m; [done|]. cbn [foldl]. etrans; [apply IH|].
  destruct (is_some _); [done|]. apply (ips_record m).
Qed.

(** ** What a computation holds *)

Section held.
Context `{HO : HashOrder} {K : Type} `{FS : FileSystem K} `{IJ : ImageConfigJson}
        `{OS : ContainerOS K}.
Variable errno_name : Z → string.
Variable transact : bytes → K → result bytes * K.
Variable open_netns : Z → K → bool.
Variable set_netns : Z → K → bool * K.
Variable cg : CgroupManager.
Variable base : string.
Variable is_root : bool.
(** The addresses there are. *)
Variable universe : list Ipv4Addr.
Implicit Types s : Supervisor K.

Definition no_subnets s : Prop := subnet_pools (netmux s) = ∅.

(** The addresses on the books, those that the computation holds and those that are leaked
    are handed out, all others are free. *)
Definition held (x : list Ipv4Addr) s : Prop :=
  ∃ leaked, pool_inv {| ps_pool := NetMux.pool (netmux s); ps_held := addresses s ++ x ++ leaked;
                        ps_universe := universe |}.

(** With [x] in its hands before, [m] has [y] after it succeeds, and [x0] after it fails. *)
Definition own {A} (x0 : list Ipv4Addr) (m : execR (Supervisor K) A) (x : list Ipv4Addr)
    (y : A → list Ipv4Addr) : Prop := ∀ s r s', m s = Ret (r, s') → no_subnets s' →
  no_subnets s ∧ (held x s → held (match r with Ok a => y a | Err _ => x0 end) s').

Lemma held_change x y s s' :
  NetMux.pool (netmux s') = NetMux.pool (netmux s) → addresses s' ++ y ⊆+ addresses s ++ x →
  held x s → held y s'.
Proof.
  intros Hp Hs [lk H]. apply submseteq_Permutation in Hs as [z Hz]. exists (z ++ lk). rewrite Hp.
  eapply pool_inv_held; [|exact H]. by rewrite !app_assoc, Hz, <- !app_assoc.
Qed.

Lemma held_mono x y s : y ⊆+ x → held x s → held y s.
Proof. intros Hs. apply held_change; [done|]. by apply submseteq_app. Qed.

Lemma own_bind {A B} x0 (m : execR (Supervisor K) A) (f : A → execR (Supervisor K) B) x y z :
  own x0 m x y → (∀ a, own x0 (f a) (y a) z) → own x0 (m ≫= f) x z.
Proof.
  intros Hm Hf s r s' [(e & H & ->)|(a & s1 & H1 & H)]%x_bind_Ret Hs'; [exact (Hm _ _ _ H Hs')|].
  destruct (Hf a _ _ _ H Hs') as [Hs1 H2]. destruct (Hm _ _ _ H1 Hs1) as [Hs H3]. auto.
Qed.

Lemma own_ret {A} x0 (a : A) x y : y a ⊆+ x → own x0 (mret a) x y.
Proof. intros Hy s r s' [= <- <-] Hs. split; [done|]. by apply held_mono. Qed.

Lemma own_fail {A} x0 e x (y : A → list Ipv4Addr) : x0 ⊆+ x → own x0 (x_fail e) x y.
Proof. intros Hx s r s' [= <- <-] Hs. split; [done|]. by apply held_mono. Qed.

Lemma own_try {A} x0 x1 (m : execR (Supervisor K) A) x y :
  own x0 m x y → own x1 (x_try m) x (λ r, match r with Ok a => y a | Err _ => x0 end).
Proof.
  intros Hm s r s'. unfold x_try. destruct (m s) as [[r0 s0]|] eqn:E; [|done]. intros [= <- <-] Hs.
  exact (Hm _ _ _ E Hs).
Qed.

Lemma own_context {A} x0 msg (m : execR (Supervisor K) A) x y : own x0 m x y → own x0 (x_context msg m) x y.
Proof.
  intros Hm s r s'. unfold x_context. destruct (m s) as [[[a|e] s0]|] eqn:E; [|..|done]; intros [= <- <-] Hs;
    exact (Hm _ _ _ E Hs).
Qed.

(** Operations that leave the books and the pools alone. *)
Definition bystander {A} (m : execR (Supervisor K) A) : Prop := ∀ s r s', m s = Ret (r, s') →
  running s' = running s ∧ NetMux.pool (netmux s') = NetMux.pool (netmux s)
  ∧ subnet_pools (netmux s') = subnet_pools (netmux s).

Lemma own_bystander {A} x0 (m : execR (Supervisor K) A) x : bystander m → x0 ⊆+ x → own x0 m x (λ _, x).
Proof.
  intros Hm Hx s r s' H Hs. destruct (Hm _ _ _ H) as (Hr & Hp & Hn). unfold no_subnets in *. split; [congruence|].
  assert (addresses s' = addresses s) as Ha by (unfold addresses; by rewrite Hr).
  apply held_change; [done|]. rewrite Ha. apply submseteq_app; [done|]. by destruct r.
Qed.

Lemma by_os {A} (f : K → A * K) : bystander (Runtime.on_os f).
Proof. intros s r s'. unfold Runtime.on_os. destruct (f (os s)). by intros [= <- <-]. Qed.
Lemma by_os_r {A} (f : K → result A * K) : bystander (on_os_r f).
Proof. intros s r s'. unfold on_os_r. destruct (f (os s)). by intros [= <- <-]. Qed.
Lemma by_get : bystander x_get.
Proof. by intros s r s' [= <- <-]. Qed.
Lemma by_counts (f : Supervisor K → gmap string Z) : bystander (x_modify (λ s, set_restart_counts (f s) s)).
Proof. by intros s r s' [= <- <-]. Qed.
Lemma by_configure p u ip mg pi :
  bystander (on_mux (λ m, on_host (configure_pod_netns errno_name transact open_netns set_netns (mg m) u ip p pi) m)).
Proof.
  intros s r s'. unfold on_mux. destruct (on_host _ (netmux s)) as [[r0 m]|] eqn:E; [|done].
  apply on_host_pools in E as (Hp & Hs & _). cbn. by intros [= <- <-].
Qed.

(** The books change. *)
Lemma own_running x0 f x y :
  (∀ s, ips (map_to_list (f (running s))) ++ y ⊆+ addresses s ++ x) →
  own x0 (x_modify (λ s, set_running (f (running s)) s)) x (λ _, y).
Proof. intros Hf s r s' [= <- <-] Hs. split; [done|]. apply held_change; [done|apply Hf]. Qed.

Create HintDb own.
#[local] Hint Resolve by_os by_os_r by_get by_counts by_configure : own.

(** The next operation: one that stands by, or one of those above. *)
#[local] Ltac own_step :=
  lazymatch goal with
  | |- own _ (mret _) _ _ => apply own_ret
  | |- own _ (x_fail _) _ _ => apply own_fail
  | |- own _ (if ?b then _ else _) _ _ => destruct b
  | |- own _ (match ?o with _ => _ end) _ _ => destruct o
  | |- own _ (let '(_, _) := ?p in _) _ _ => destruct p
  | |- own _ (_ ≫= _) _ _ => eapply own_bind; [solve [apply own_bystander; [auto with own|auto using submseteq_inserts_l, submseteq_nil_l]]|intros ?]
  end.

(** *** Subnets never vanish *)

Lemma insert_not_empty {A} (m : gmap string A) n a : <[n := a]> m ≠ ∅.
Proof. intros H. assert (<[n := a]> m !! n = None) as E by (by rewrite H, lookup_empty). by rewrite lookup_insert_eq in E. Qed.

Lemma release_ip_subnets ip (m : NetMux K) : subnet_pools (release_ip ip m) = ∅ → subnet_pools m = ∅.
Proof.
  unfold release_ip. destruct (find_first _ _) as [[n p]|]; cbn; [|done]. by intros H%insert_not_empty.
Qed.

Lemma take_pod_ip_subnets sn (m : NetMux K) r m' :
  take_pod_ip sn m = (r, m') → subnet_pools m' = ∅ → subnet_pools m = ∅.
Proof.
  unfold take_pod_ip, allocate_ip. destruct sn as [n|].
  - destruct (subnet_pools m !! n) as [p|]; [|by intros [= _ <-]]. destruct (allocate p) as [o p'].
    intros [= _ <-]. cbn. by intros H%insert_not_empty.
  - destruct (allocate _) as [o p']. by intros [= _ <-].
Qed.

Lemma rollback_subnets u ip i (m m' : NetMux K) :
  rollback_veth errno_name transact u ip i m = Ret m' → subnet_pools m' = ∅ → subnet_pools m = ∅.
Proof.
  unfold rollback_veth. destruct (on_host (del_pod_host_route _ _ _ _) m) as [[r1 m1]|] eqn:E1; cbn; [|done].
  apply on_host_pools in E1 as (_ & H1 & _).
  destruct (on_host (delete_veth _ _ _) m1) as [[r2 m2]|] eqn:E2; cbn; [|done].
  apply on_host_pools in E2 as (_ & H2 & _). intros [= <-] H%release_ip_subnets. congruence.
Qed.

Lemma attach_subnets u p sn (m : NetMux K) r m' :
  attach_pod errno_name transact u p sn m = Ret (r, m') → subnet_pools m' = ∅ → subnet_pools m = ∅.
Proof.
  unfold attach_pod. destruct (take_pod_ip sn m) as [[ip|e] m1] eqn:E1; intros H Hm'.
  2: { injection H as <- <-. by apply take_pod_ip_subnets in E1. }
  apply (take_pod_ip_subnets _ _ _ _ E1). clear E1.
  destruct (on_host (create_pod_veth _ _ _ _) m1) as [[r2 m2]|] eqn:E2; cbn [mbind exec_bind] in H; [|done].
  apply on_host_pools in E2 as (_ & <- & _). destruct r2 as [[[[hn pn] hi] pi]|e2]; [|by injection H as <- <-].
  destruct (on_host (bring_up_veth _ _ _) m2) as [[r3 m3]|] eqn:E3; cbn [mbind exec_bind] in H; [|done].
  apply on_host_pools in E3 as (_ & <- & _). destruct r3 as [[]|e3].
  2: { destruct (rollback_veth _ _ _ _ _ m3) as [m4|] eqn:E4; [|done]. injection H as <- <-. by apply rollback_subnets in E4. }
  destruct (on_host (add_pod_host_route _ _ _ _) m3) as [[r4 m4]|] eqn:E4; cbn [mbind exec_bind] in H; [|done].
  apply on_host_pools in E4 as (_ & <- & _). destruct r4 as [[]|e4].
  2: { destruct (rollback_veth _ _ _ _ _ m4) as [m5|] eqn:E5; [|done]. injection H as <- <-. by apply rollback_subnets in E5. }
  destruct (on_host (assign_gateway _ _ _ _) m4) as [[r5 m5]|] eqn:E5; cbn [mbind exec_bind] in H; [|done].
  apply on_host_pools in E5 as (_ & <- & _). by injection H as <- <-.
Qed.

Lemma detach_subnets u ip i (m : NetMux K) r m' :
  detach_pod errno_name transact u ip i m = Ret (r, m') → subnet_pools m' = ∅ → subnet_pools m = ∅.
Proof.
  unfold detach_pod. destruct (on_host (del_pod_host_route _ _ _ _) m) as [[r1 m1]|] eqn:E1; cbn; [|done].
  apply on_host_pools in E1 as (_ & H1 & _).
  destruct (on_host (delete_veth _ _ _) m1) as [[r2 m2]|] eqn:E2; cbn; [|done].
  apply on_host_pools in E2 as (_ & H2 & _). intros [= _ <-] H%release_ip_subnets. congruence.
Qed.

(** *** Starting *)

(** An address that the pool gives is held by nobody else. *)
Lemma inv_allocate p held0 ip p' :
  allocate p = (Some ip, p') → pool_inv {| ps_pool := p; ps_held := held0; ps_universe := universe |} →
  pool_inv {| ps_pool := p'; ps_held := ip :: held0; ps_universe := universe |}.
Proof. intros H. apply pool_step_inv. by apply step_allocate. Qed.

Lemma inv_release p held0 held1 ip :
  held0 ≡ₚ ip :: held1 → pool_inv {| ps_pool := p; ps_held := held0; ps_universe := universe |} →
  pool_inv {| ps_pool := release ip p; ps_held := held1; ps_universe := universe |}.
Proof. intros H. apply pool_step_inv. by apply step_release. Qed.

Lemma own_attach x0 u p sn x :
  x0 ⊆+ x → own x0 (on_mux (attach_pod errno_name transact u p sn)) x (λ r, r.1.1 :: x).
Proof.
  intros Hx s r s'. unfold on_mux, no_subnets. destruct (attach_pod _ _ _ _ _ (netmux s)) as [[r0 m]|] eqn:E; [|done].
  cbn. intros [= <- <-] Hm. cbn in Hm. pose proof (attach_subnets _ _ _ _ _ _ E Hm) as Hs. split; [done|].
  intros [lk H]. destruct sn as [n|].
  { unfold attach_pod, take_pod_ip in E. rewrite Hs, lookup_empty in E. injection E as <- <-.
    apply (held_mono x x0 s Hx). by exists lk. }
  apply attach_pod_spec in E as [_ E]; [|done]. destruct r0 as [[[ip h] pi]|e].
  - exists lk. eapply pool_inv_held; [|exact (inv_allocate _ _ _ _ E H)]. cbn. by rewrite <- Permutation_middle.
  - destruct E as [[_ E]|(ip & p1 & Ha & E)]; [apply (held_change x x0 s); [exact E|by apply submseteq_app|by exists lk]|].
    pose proof (inv_allocate _ _ _ _ Ha H) as Hi. apply (held_mono x x0 (set_netmux m s) Hx).
    destruct E as [[_ E]|[_ E]]; cbn.
    + exists (ip :: lk). cbn. rewrite E. eapply pool_inv_held; [|exact Hi]. rewrite !app_assoc. apply Permutation_middle.
    + exists lk. cbn. rewrite E. by eapply inv_release; [|exact Hi].
Qed.

Lemma own_configure x0 u p sn x :
  x0 ⊆+ x → own x0 (attach_and_configure errno_name transact open_netns set_netns u p sn) x
              (λ r, option_list r.1 ++ x).
Proof.
  intros Hx. unfold attach_and_configure. eapply own_bind; [by eapply (own_try x), own_attach|].
  intros [[[ip h] pi]|e]; [|by apply own_ret]. cbn [fst].
  eapply own_bind; [eapply (own_try (ip :: x) _ _ _ (λ _, ip :: x)), own_bystander; auto with own|].
  intros []; by apply own_ret.
Qed.

Lemma own_veth x0 u p iso sn x :
  x0 ⊆+ x → own x0 (handle_veth_netns errno_name transact open_netns set_netns u p iso sn) x
              (λ r, option_list r.1 ++ x).
Proof.
  intros Hx. unfold handle_veth_netns. destruct (negb iso); [by apply own_ret|].
  eapply own_bind; [by apply own_bystander; [apply by_get|]|]. intros s. destruct (child_synced p (os s)); [by apply own_configure|by apply own_ret].
Qed.

(** A container that was spawned: its address is held for it. *)
Definition spawned (x : list Ipv4Addr) (rc : RunningContainer) : list Ipv4Addr :=
  option_list (pod_ip (instance rc)) ++ x.

Lemma own_root cfg prog args wd r u sn x :
  own x (spawn_root_ns_container errno_name transact open_netns set_netns cg cfg prog args wd r u sn) x (spawned x).
Proof.
  unfold spawn_root_ns_container. do 3 own_step. own_step; [|by own_step]. own_step.
  eapply own_bind; [by apply own_veth|]. intros [ip ix]. by own_step.
Qed.

Lemma own_userns cfg prog args wd r u sn x :
  own x (spawn_userns_container errno_name transact open_netns set_netns cg cfg prog args wd r u sn) x (spawned x).
Proof.
  unfold spawn_userns_container. do 3 own_step. own_step; [|by own_step]. do 2 own_step; [by own_step|].
  own_step. eapply (own_bind _ _ _ _ (λ r, option_list r.1 ++ x)).
  { destruct (cc_isolated_net cfg); [by apply own_configure|by own_step]. }
  intros [ip ix]. own_step. by own_step.
Qed.

Lemma own_native cfg prog args r u x : own x (spawn_native cg cfg prog args r u) x (spawned x).
Proof. unfold spawn_native. own_step. do 2 (own_step; [|by own_step]). own_step. by own_step. Qed.

Lemma own_spawn cfg r u sn x :
  own x (spawn_container_from_config errno_name transact open_netns set_netns cg is_root cfg r u sn) x (spawned x).
Proof.
  unfold spawn_container_from_config. own_step. destruct (container_command cfg _) as [prog args].
  own_step; [apply own_native|]. eapply (own_bind _ _ _ _ (λ _, x)).
  { destruct (cc_volumes cfg); [by own_step|by apply own_bystander; [apply by_os|]]. }
  intros _. own_step. own_step; [apply own_root|apply own_userns].
Qed.

Lemma by_prepare cfg : bystander (prepare_rootfs cfg).
Proof.
  unfold prepare_rootfs. destruct (cc_is_native cfg); [by intros s r s' [= <- <-]|]. intros s r s'. unfold x_context.
  destruct (on_os_r _ s) as [[[a|e] s0]|] eqn:E; [| |done]; intros [= <- <-]; exact (by_os_r _ _ _ _ E).
Qed.
#[local] Hint Resolve by_prepare : own.

Lemma own_remove_placeholders x0 l x :
  own x0 (x_modify (remove_placeholders l)) x (λ _, x).
Proof.
  apply (own_running _ (λ r, foldl (λ r cid, delete cid r) r l)). intros s. apply submseteq_app; [apply ips_forget_all|done].
Qed.

Lemma own_spawn_all spec ph cfgs : ∀ prep,
  own [] (spawn_all_loop errno_name transact open_netns set_netns cg is_root spec ph cfgs prep) (ips prep) ips.
Proof.
  induction cfgs as [|cfg cfgs IH]; intros prep; cbn [spawn_all_loop]; [by own_step|]. own_step.
  eapply own_bind; [apply own_try, own_spawn|]. intros [rc|e].
  - enough (ips (prep ++ [(cc_container_id cfg, rc)]) ⊆+ spawned (ips prep) rc) as Hs.
    { intros s1 r1 s2 H Hn. destruct (IH _ _ _ _ H Hn) as [Hs' Hh]. split; [done|].
      intros Hx. by apply Hh, (held_mono _ _ _ Hs). }
    unfold ips, spawned. rewrite omap_app, (Permutation_app_comm (omap _ prep)). apply submseteq_app; [|done].
    cbn. unfold address_of. cbn. by destruct (pod_ip (instance rc)).
  - eapply own_bind; [by apply own_remove_placeholders|]. intros []. own_step. own_step. apply submseteq_nil_l.
Qed.

Lemma own_start_spec spec :
  own [] (start_pod_from_spec errno_name transact open_netns set_netns cg base is_root spec) [] (λ _, []).
Proof.
  unfold start_pod_from_spec. do 2 own_step. own_step; [by own_step|].
  eapply own_bind.
  { apply (own_running _ (λ r, foldl (λ r cfg, if is_some (r !! cc_container_id cfg) then r
             else <[cc_container_id cfg := placeholder cfg]> r) r (cs_containers spec)) _ []).
    intros s. rewrite !app_nil_r. apply ips_placeholders. }
  intros []. eapply own_bind; [eapply (own_try [] _ _ _ (λ _, [])), own_bystander; auto with own|].
  intros [p|e]; [|eapply own_bind; [apply own_remove_placeholders|intros []; by own_step]].
  own_step. eapply own_bind; [apply own_spawn_all|]. intros prep.
  apply (own_running _ (λ r, foldl (λ r p, <[p.1 := p.2]> r) r prep)). intros s. rewrite app_nil_r.
  rewrite (Permutation_app_comm (addresses s)). apply ips_record_all.
Qed.

(** *** Stopping *)

Lemma stop_container_books cid s :
  running (stop_container cid s) = delete cid (running s)
  ∧ NetMux.pool (netmux (stop_container cid s)) = NetMux.pool (netmux s)
  ∧ subnet_pools (netmux (stop_container cid s)) = subnet_pools (netmux s).
Proof.
  unfold stop_container. destruct (running s !! cid) as [rc|] eqn:E.
  - by destruct (pid (instance rc)).
  - by rewrite delete_id.
Qed.

Lemma held_forget s s' cid :
  NetMux.pool (netmux s') = NetMux.pool (netmux s) → running s' = delete cid (running s) → held [] s → held [] s'.
Proof.
  intros Hp Hr. apply held_change; [done|]. rewrite !app_nil_r. unfold addresses. rewrite Hr. apply ips_forget.
Qed.

(** A container is detached, then taken off the books: its address returns to the pool. *)
Lemma stop_one u cid s r s1 :
  detach_container errno_name transact u cid s = Ret (r, s1) → no_subnets s1 →
  no_subnets s ∧ (held [] s → held [] (stop_container cid s1)).
Proof.
  intros H Hs1. destruct (stop_container_books cid s1) as (Hr & Hp & _).
  assert (s1 = s → no_subnets s ∧ (held [] s → held [] (stop_container cid s1))) as Hsame.
  { intros ->. split; [done|]. by apply (held_forget s _ cid). }
  unfold detach_container in H. apply x_bind_Ret in H as [(e & H & _)|(s0 & s2 & H2 & H)]; [done|]. injection H2 as <- <-.
  destruct (running s !! cid) as [rc|] eqn:E; [|by injection H as _ <-; apply Hsame].
  destruct (pod_ip (instance rc)) as [ip|] eqn:Ei; [|by injection H as _ <-; apply Hsame].
  destruct (host_veth_ifindex (instance rc)) as [ix|]; [|by injection H as _ <-; apply Hsame].
  apply x_bind_Ret in H as [(e & H & ->)|(y & s3 & H3 & H)].
  { unfold x_try in H. by destruct (on_mux _ s) as [[]|]. }
  injection H as _ <-. unfold x_try, on_mux in H3.
  destruct (detach_pod _ _ _ _ _ (netmux s)) as [[r0 m]|] eqn:Ed; [|done]. injection H3 as _ <-.
  unfold no_subnets in *. cbn in Hs1, Hr, Hp. pose proof (detach_subnets _ _ _ _ _ _ Ed Hs1) as Hs. split; [done|].
  apply detach_pod_pools in Ed as (_ & Hm & _); [|done]. intros [lk Hi]. exists lk.
  rewrite Hp, Hm. eapply inv_release; [|exact Hi]. unfold addresses. rewrite Hr.
  rewrite (ips_delete _ _ _ E), Ei. done.
Qed.

Lemma own_stop_containers u cids : own [] (stop_containers errno_name transact u cids) [] (λ _, []).
Proof.
  induction cids as [|cid cids IH]; cbn [stop_containers]; [by own_step|]. intros s r s'.
  intros [(e & H & ->)|([] & s1 & H1 & H)]%x_bind_Ret Hs'.
  - exfalso. unfold detach_container in H. apply x_bind_Ret in H as [(e' & H & _)|(s0 & s2 & H2 & H)]; [done|].
    injection H2 as <- <-. destruct (running s !! cid) as [rc|]; [|done].
    destruct (pod_ip _); [|done]. destruct (host_veth_ifindex _); [|done].
    apply x_bind_Ret in H as [(e' & H & _)|(y & s3 & H3 & H)]; [|done]. unfold x_try in H. by destruct (on_mux _ s) as [[]|].
  - apply x_bind_Ret in H as [(e & H & _)|([] & s2 & H2 & H)]; [done|]. injection H2 as <-.
    apply x_bind_Ret in H as [(e & H & _)|([] & s3 & H3 & H)]; [done|]. injection H3 as <-.
    destruct (IH _ _ _ H Hs') as [Hs3 Hi]. unfold no_subnets in Hs3. cbn in Hs3.
    destruct (stop_container_books cid s1) as (_ & _ & Hn). rewrite Hn in Hs3.
    destruct (stop_one _ _ _ _ _ H1 Hs3) as [Hs Hh]. split; [done|]. intros Hx. apply Hi. by apply Hh.
Qed.

Lemma own_stop_spec spec :
  own [] (stop_pod_from_spec errno_name transact cg base spec) [] (λ _, []).
Proof.
  unfold stop_pod_from_spec. eapply own_bind; [apply own_stop_containers|]. intros [].
  eapply own_bind; [eapply (own_try [] _ _ _ (λ _, [])), own_bystander; auto with own|].
  intros [?|?]; by apply own_bystander; auto with own.
Qed.
End held.

(** ** The relation on clusters *)

Section clusters.
Context `{HO : HashOrder} `{UC : UnicodeCase} {K : Type} `{FS : FileSystem K} `{IJ : ImageConfigJson}
        `{OS : ContainerOS K}.
Variable errno_name : Z → string.
Variable transact : bytes → K → result bytes * K.
Variable open_netns : Z → K → bool.
Variable set_netns : Z → K → bool * K.
Variable cg : CgroupManager.
Variable base : string.
Variable is_root : bool.
Variable universe : list Ipv4Addr.
Implicit Types c : Cluster K.

(** Unless subnets get pools of their own. *)
Definition keeps_addresses c c' : Prop :=
  no_subnets (sup c') → no_subnets (sup c) ∧ (held universe [] (sup c) → held universe [] (sup c')).

#[export] Instance keeps_addresses_preorder : PreOrder keeps_addresses.
Proof.
  split; [by intros c H|]. intros c1 c2 c3 H1 H2 H. destruct (H2 H) as [H3 H4]. destruct (H1 H3) as [H5 H6]. auto.
Qed.

Lemma keeps_on_sup {A} (m : execR (Supervisor K) A) y :
  (∀ a, y a = []) → own universe [] m [] y → x_triple keeps_addresses (on_sup m) (λ _, True).
Proof.
  intros Hy Hm c r c'. unfold on_sup. destruct (m (sup c)) as [[r0 s]|] eqn:E; [|done]. cbn. intros [= <- <-].
  split; [|done]. intros Hn. destruct (Hm _ _ _ E Hn) as [H1 H2]. split; [done|]. cbn.
  destruct r0; [rewrite Hy in H2|]; done.
Qed.

Lemma keeps_make_spec r : x_triple keeps_addresses (make_spec base r) (λ _, True).
Proof.
  intros c x c'. unfold make_spec. destruct (build_spec _ _ _ _) as [spec k]. intros [= <- <-]. split; [|done].
  by intros Hn.
Qed.

#[export] Instance keeps_addresses_rel :
  ClusterRel errno_name transact open_netns set_netns cg base is_root keeps_addresses.
Proof.
  split; [apply _|by intros c s k _ Hn| |by intros c m Hn|by intros c l Hn|..].
  - intros c cid Hn. split; [done|]. by apply (held_forget universe (sup c) _ cid).
  - intros c n z Hn. unfold no_subnets, register_subnet_cidr in *. cbn in *.
    destruct (cidr_parse z); cbn in *; [by apply insert_not_empty in Hn|]. split; [done|].
    by destruct (sup c).
  - intros now r. apply (xt_seq keeps_addresses); [apply keeps_make_spec|]. intros spec.
    apply (xt_seq keeps_addresses); [by eapply keeps_on_sup; [|apply own_start_spec]|].
    intros _ c x c' [= <- <-]. split; [|done]. by intros Hn.
  - intros now r. apply (xt_seq keeps_addresses); [apply keeps_make_spec|]. intros spec.
    apply (xt_seq keeps_addresses).
    { eapply (xt_try keeps_addresses). by eapply keeps_on_sup; [|apply own_stop_spec]. }
    intros _ c x c' [= <- <-]. split; [|done]. by intros Hn.
Qed.
End clusters.

(** ** From the start on *)

Lemma ips_unique (m : gmap string RunningContainer) c1 c2 r1 r2 ip :
  NoDup (ips (map_to_list m)) → m !! c1 = Some r1 → m !! c2 = Some r2 →
  pod_ip (instance r1) = Some ip → pod_ip (instance r2) = Some ip → c1 = c2.
Proof.
  intros Hn H1 H2 Hi1 Hi2. destruct (decide (c1 = c2)) as [|Hne]; [done|]. exfalso.
  rewrite (ips_delete m c1 r1 H1), Hi1 in Hn.
  rewrite (ips_delete (delete c1 m) c2 r2), Hi2 in Hn by by rewrite lookup_delete_ne.
  cbn in Hn. apply NoDup_cons in Hn as [Hn _]. apply Hn. left.
Qed.

Lemma elem_of_ips (m : gmap string RunningContainer) c r ip :
  m !! c = Some r → pod_ip (instance r) = Some ip → ip ∈ ips (map_to_list m).
Proof. intros H Hi. rewrite (ips_delete m c r H), Hi. left. Qed.

Lemma Ret_inj {A} (x y : A) : Ret x = Ret y → x = y.
Proof. by intros [= ->]. Qed.

Section running.
Context `{HO : HashOrder} `{UC : UnicodeCase} {K KN net doc : Type} `{FS : FileSystem K} `{SC : Syscalls K}
        `{IJ : ImageConfigJson} `{OS : ContainerOS K} `{SO : StorageOS K} `{ST : StartCalls K}.
Variable errno_name : Z → string.
Variable transact : bytes → K → result bytes * K.
Variable is_root : bool.
Variable home : option string.
Variable batch_send : batch net → KN → send_outcome * KN.
Variable parse_net : string → option net.
Variable lib : YamlLib doc.
Variable yaml_docs : string → list (option doc).
Variable now : Z.
Variable open_netns : Z → K → bool.
Variable set_netns : Z → K → bool * K.
Variable base : string.
Variable new_uuid : K → string * K.
Variable pick : World K KN → nat.
Implicit Types (k : K) (kn : KN) (w : World K KN).

Abbreviation boot := (boot errno_name transact is_root home batch_send parse_net lib yaml_docs now).

Lemma boot_host_fresh cfg k kn cidr h :
  cidr_parse (pod_cidr cfg) = Some cidr →
  boot_host errno_name transact is_root home batch_send parse_net cfg k kn = Ret h → fresh cidr (bt_world h).
Proof.
  intros Hc. unfold boot_host. destruct (cgroup_new k) as [cg k1].
  destruct (image_manager_init is_root home cfg k1) as [[im k2]|]; [|done]. cbn [mbind exec_bind].
  unfold netmux_new. rewrite Hc. cbn [ok_or result_bind].
  destruct (init_tables _ _ _ _) as [e|]; [|done]. cbn [mbind exec_bind].
  destruct (clean_all_veths _ _ _) as [k3|]; [|done]. cbn [mbind exec_bind]. cbn [mret result_ret]. cbv beta iota zeta delta [result_bind mbind].
  destruct (run_dns cfg _) as [port k4]. destruct (signalfd_new k4) as [[] k5]; [|done]. cbn [negb].
  intros <-%Ret_inj. by split_and!.
Qed.

Lemma boot_fresh m cfg k kn cidr b :
  cidr_parse (pod_cidr cfg) = Some cidr → boot m cfg k kn = Ret b → fresh cidr (bt_world b).
Proof.
  intros Hc. unfold Startup.boot. destruct (boot_host _ _ _ _ _ _ _ _ _) as [h|] eqn:Eh; [|done]. cbn [mbind exec_bind].
  destruct (load_existing _ _ _ _ _ _) as [[r mw]|] eqn:E; [|done]. cbn [mbind exec_bind].
  intros <-%Ret_inj. apply (load_existing_loads_only lib yaml_docs now cidr) in E as [[Hf _] _]. cbn [bt_world]. apply Hf.
  by apply (boot_host_fresh cfg k kn).
Qed.

Lemma boot_host_store cfg k kn h :
  boot_host errno_name transact is_root home batch_send parse_net cfg k kn = Ret h → world_store (bt_world h) = ∅.
Proof.
  unfold boot_host. destruct (cgroup_new k) as [cg k1].
  destruct (image_manager_init is_root home cfg k1) as [[im k2]|]; [|done]. cbn [mbind exec_bind].
  destruct (netmux_new _ _) as [mux|]; [|done]. cbv zeta.
  destruct (init_tables _ _ _ _) as [e|]; [|done]. cbn [mbind exec_bind].
  destruct (clean_all_veths _ _ _) as [k3|]; [|done]. cbn [mbind exec_bind].
  destruct (run_dns cfg _) as [port k4]. destruct (signalfd_new k4) as [[] k5]; [|done]. cbn [negb].
  by intros <-%Ret_inj.
Qed.

Lemma boot_store_wf m cfg k kn b : boot m cfg k kn = Ret b → store_wf (world_store (bt_world b)).
Proof.
  unfold Startup.boot. destruct (boot_host _ _ _ _ _ _ _ _ _) as [h|] eqn:Eh; [|done]. cbn [mbind exec_bind].
  destruct (load_existing _ _ _ _ _ _) as [[r mw]|] eqn:E; [|done]. cbn [mbind exec_bind].
  intros <-%Ret_inj. apply (load_existing_loads_only lib yaml_docs now {| Pool.network := 0; Pool.prefix := 32 |}) in E as [[_ Hw] _].
  cbn [bt_world]. apply Hw. change (store_wf (world_store (bt_world h))). rewrite (boot_host_store _ _ _ _ Eh). apply store_new_wf.
Qed.

Abbreviation reachable cg := (rtc (world_step errno_name transact open_netns set_netns cg base is_root new_uuid
  batch_send parse_net pick)).

(** No two containers on the books have the same address. *)
Definition distinct_addresses (s : Supervisor K) : Prop := ∀ c1 c2 r1 r2 ip,
  running s !! c1 = Some r1 → running s !! c2 = Some r2 →
  pod_ip (instance r1) = Some ip → pod_ip (instance r2) = Some ip → c1 = c2.

Lemma reachable_addresses cg m cfg k kn cidr b w :
  cidr_parse (pod_cidr cfg) = Some cidr → cidr_ok cidr → boot m cfg k kn = Ret b →
  reachable cg (bt_world b) w → no_subnets (sup (cluster w)) →
  distinct_addresses (sup (cluster w)) ∧ ∀ ip, ip ∈ addresses (sup (cluster w)) →
    ip ∈ free (pool_new cidr) ∧ ip ∉ free (NetMux.pool (netmux (sup (cluster w)))).
Proof.
  intros Hc Hok Hb Hsteps Hn.
  destruct (boot_fresh _ _ _ _ _ _ Hc Hb) as (Hr0 & _ & _ & _ & Hp0 & _).
  apply (steps_rel _ _ _ _ _ _ _ _ _ _ _ (keeps_addresses (free (pool_new cidr)))) in Hsteps.
  destruct (Hsteps Hn) as [_ H]. destruct H as [lk (_ & Hperm & Hnd & _)].
  { exists []. unfold addresses. rewrite Hr0, Hp0. unfold ips. rewrite map_to_list_empty. apply (pool_init_inv cidr Hok). }
  cbn in Hperm, Hnd. rewrite <- Hperm in Hnd.
  apply NoDup_app in Hnd as (_ & Hdisj & [Ha _]%NoDup_app). split.
  - intros c1 c2 r1 r2 ip. by apply ips_unique.
  - intros ip Hin. split; [rewrite <- Hperm; set_solver|]. intros Hf. apply (Hdisj ip Hf). apply elem_of_app. by left.
Qed.

End running.

(** ** Examples *)

#[local] Existing Instance sample_os.
#[local] Existing Instance sample_case.
#[local] Existing Instance sample_image_json.
#[local] Existing Instance no_storage_os.
#[local] Existing Instance tree_syscalls.

#[local] Instance tree_start : StartCalls Tree := {|
  udp_bind p k := (bool_decide (p ≠ 53), k);
  signalfd_new k := (true, k)
|}.

(** A pod whose container declares a port, and so has a network of its own. *)
Definition port_pod_with (m : ObjectMeta) : AnyResource :=
  RPod {| pod_metadata := m; pod_spec := Some {|
    ps_containers := [{| c_name := "main"; c_image := Some "i"; c_command := Some ["/bin/x"]; c_args := None;
      c_working_dir := None; c_env := None; c_env_from := None;
      c_ports := Some [{| cp_name := None; cp_container_port := 80 |}]; c_resources := None; c_volume_mounts := None; c_security_context := None;
      c_liveness_probe := None; c_readiness_probe := None; c_startup_probe := None |}];
    ps_init_containers := None; ps_restart_policy := None; ps_volumes := None; ps_security_context := None |} |}.
Definition port_pod (n : string) : AnyResource := port_pod_with (sample_meta n "x").

Definition wide_config : Config :=
  Config.set_manifests_dir "/m" (Config.set_pod_cidr "10.1.0.0/28" (config_default None None)).
Definition link_host (b : bytes) (k : Tree) : result bytes * Tree :=
  (Ok [24; 0; 0; 0; 16; 0; 0; 0; 1; 0; 0; 0; 0; 0; 0; 0; 0; 0; 0; 0; 5; 0; 0; 0], k).
Definition wide_boot : exec (Booted (K := Tree) (KN := list (batch (option Ipv4Cidr)))) :=
  boot (λ _, "E") link_host true None record_send sample_parse sample_yaml sample_docs 7 9 wide_config sample_tree_dir [].

Definition sample_apply (r : AnyResource) := World.apply_resource (net := option Ipv4Cidr) (λ _, "E") link_host (λ _ _, true) (λ _ k, (true, k))
  sample_cg "/b" true sample_uuid record_send sample_parse (λ _, 0%nat) 7 r.
Definition sample_end : exec (World Tree (list (batch (option Ipv4Cidr)))) :=
  b ← wide_boot; '(_, w) ← sample_apply (port_pod "web") (bt_world b);
  '(_, w) ← sample_apply (port_pod "db") w; Ret w.

(** Two pods with networks of their own, started one after the other. *)
Definition ip_of (cid : string) (s : Supervisor Tree) : option Ipv4Addr := rc ← running s !! cid; pod_ip (instance rc).

