(* ===== verification/Connect.v ===== *)
(** * Connect: from the name of a service to the containers behind it

    What a client in the cluster does: it asks the DNS server for the name of a service, and
    connects to the address it gets. The store, the DNS server, the service component, the
    rules of the kernel and the books of the supervisor meet here; the theorem holds in every
    world that the program reaches. *)
From S2P Require Import Prelude Text Utf8 Resources Pool Dns Netlink Nft NetMux Cri SpecBuilder Runtime Process Deployment Service Panics Policy Ingress Storage Registry World Reach Config Host Image Watcher Startup Addresses.

(** The address of a pod is that of one of its containers. *)
Lemma process_pod_ip_container `{HashOrder} {K} pod_name (s : Supervisor K) ip :
  process_pod_ip pod_name s = Some ip →
  ∃ cid rc, running s !! cid = Some rc ∧ pod_ip (instance rc) = Some ip
    ∧ starts_with (pod_name +:+ "-") cid = true.
Proof.
  intros ((cid & rc) & Hin & Hf)%find_map_Some. unfold of_pod in Hf. cbn in Hf.
  destruct (starts_with _ cid) eqn:E; [|done]. exists cid, rc. split; [|done].
  by rewrite hash_iter_perm, elem_of_map_to_list in Hin.
Qed.

(** The cluster address of a service that is not an alias resolves. *)
Lemma resolve_cluster_ip n ns t svc spec ip :
  resource t = RService svc → om_name (svc_metadata svc) = Some n →
  unwrap_or (om_namespace (svc_metadata svc)) "default" = ns →
  svc_spec svc = Some spec → ss_type spec ≠ Some "ExternalName" → ss_cluster_ip spec = Some ip →
  ip ≠ "None" → ip ≠ "" → resolve_tracker n (Some ns) t = Some (ClusterIP ip).
Proof.
  intros Ht Hn Hns Hs Hty Hip H1 H2. unfold resolve_tracker. rewrite Ht, Hn, Hns, Hs, Hip. cbn.
  by rewrite !bool_decide_true, !bool_decide_false by done.
Qed.

Section connect.
Context `{HO : HashOrder} `{UC : UnicodeCase} {K net doc : Type} `{FS : FileSystem K} `{SC : Syscalls K}
        `{IJ : ImageConfigJson} `{OS : ContainerOS K} `{SO : StorageOS K} `{ST : StartCalls K}.
Variable errno_name : Z → string.
Variable transact : bytes → K → result bytes * K.
Variable is_root : bool.
Variable home : option string.
Variable parse_net : string → option net.
Variable lib : YamlLib doc.
Variable yaml_docs : string → list (option doc).
Variable now : Z.
Variable open_netns : Z → K → bool.
Variable set_netns : Z → K → bool * K.
Variable base : string.
Variable new_uuid : K → string * K.
(** The kernel keeps the batches that it is sent. *)
Abbreviation KN := (list (batch net)).
Variable pick : World K KN → nat.
Variable cg : CgroupManager.
Variable exchange : string → bytes → option bytes.
Implicit Types w : World K KN.

Abbreviation boot := (boot errno_name transact is_root home record_send parse_net lib yaml_docs now).
Abbreviation reachable := (rtc (world_step errno_name transact open_netns set_netns cg base is_root new_uuid
  record_send parse_net pick)).
Abbreviation apply_resource := (apply_resource errno_name transact open_netns set_netns cg base is_root new_uuid
  record_send parse_net pick).

(** Applying a service brings the rules up to date, and does nothing else. *)
Lemma apply_service now' svc w :
  apply_resource now' (RService svc) w
  = Ret (Ok (), set_network (sync_service_proxies record_send (store (cluster w)) (sup (cluster w)) svc (network w)) w).
Proof. unfold World.apply_resource, registry_on_apply. rewrite get_main. reflexivity. Qed.

(** A container behind an address: of a pod of the namespace that the selector chooses. *)
Definition backend_container (s : ResourceStore) (sp : Supervisor K) (sel : gmap string string) (ns : string)
    (ip : Ipv4Addr) (cid : string) : Prop :=
  ∃ t pod rc, t ∈ get_all s ∧ resource t = RPod pod
    ∧ unwrap_or (om_namespace (pod_metadata pod)) "default" = ns
    ∧ sel ⊆ unwrap_or (om_labels (pod_metadata pod)) ∅
    ∧ starts_with (unwrap_or (om_name (pod_metadata pod)) "" +:+ "-") cid = true
    ∧ running sp !! cid = Some rc ∧ pod_ip (instance rc) = Some ip.

Lemma selected_container s (sp : Supervisor K) sel ns ip :
  selected s sp sel ns ip → ∃ cid, backend_container s sp sel ns ip cid.
Proof.
  intros (t & pod & Ht & Hp & Hns & Hsel & (cid & rc & H1 & H2 & H3)%process_pod_ip_container).
  exists cid, t, pod, rc. done.
Qed.

End connect.

(** ** Example *)

#[local] Existing Instance sample_os.
#[local] Existing Instance sample_case.
#[local] Existing Instance sample_image_json.
#[local] Existing Instance no_storage_os.
#[local] Existing Instance tree_syscalls.
#[local] Existing Instance Addresses.tree_start.

Abbreviation sample_KN := (list (batch (option Ipv4Cidr))).
Definition put (r : AnyResource) (w : World Tree sample_KN) : World Tree sample_KN :=
  set_cluster (set_store (apply 7 r (world_store w)) (cluster w)) w.

(** A running pod that the sample service selects, and the service. *)
Definition labelled_pod : AnyResource := port_pod_with (set_labels (Some {[ "app" := "web" ]}) (sample_meta "web" "x")).
Definition before_service : exec (World Tree sample_KN) :=
  b ← wide_boot; '(_, w) ← sample_apply labelled_pod (put labelled_pod (bt_world b)); Ret (put (RService web_service) w).
Definition web_name : string := "web.x.svc.cluster.local".

Definition store_named_dec (s : ResourceStore) : bool :=
  forallb (λ p, negb (has_char "/" (namespace (resource p.2)))) (map_to_list s).

Lemma store_named_decides s : store_named_dec s = true → store_named s.
Proof.
  unfold store_named_dec. rewrite forallb_forall. intros H u t Ht. specialize (H (u, t)). unfold no_slash.
  rewrite <- list_elem_of_In, elem_of_map_to_list in H. by apply negb_true_iff, H.
Qed.

