(* ===== verification/Sockets.v ===== *)
(** * Sockets: the servers and sockets around the pure parts
    (src/src/netmux/dns.rs: dns_loop, src/src/netmux/netlink.rs: netlink_socket, send_nlmsg,
    recv_nlmsg, ensure_loopback_up)

    The DNS server's loop as a step relation: datagrams arrive, a task is spawned for each,
    and tasks end in any order while the store changes. A netlink exchange over the calls of
    a socket, which is what [Netlink.request] gets as [transact]; the theorem about it is that
    every descriptor is closed again. The code keeps a socket open to the end of the function
    that opened it; here it is closed right after the answer. *)
From S2P Require Import Prelude Text Utf8 Resources Pool Dns Netlink NetMux Panics.

(** ** The DNS server *)

Definition MAX_UDP : nat := 4096%nat.

Section dns.
Context `{HO : HashOrder} `{UC : UnicodeCase} {Addr : Type}.
Variable exchange : string → bytes → option bytes.
Variable cluster_domain : string.
(** The resolvers, read once at the start. *)
Variable upstream : list string.

(** What the tasks share, the queries that are being handled, and the datagrams that came and
    went, the latest last. *)
Record DnsServer := {
  ds_store : ResourceStore;
  ds_records : gmap string Ipv4Addr;
  ds_tasks : list (bytes * Addr);
  ds_received : list (bytes * Addr);
  ds_sent : list (bytes * Addr)
}.

Definition dns_new (s : ResourceStore) (records : gmap string Ipv4Addr) : DnsServer :=
  {| ds_store := s; ds_records := records; ds_tasks := []; ds_received := []; ds_sent := [] |}.

(** [recv_from] fills the buffer; what does not fit is lost. *)
Definition dns_recv (datagram : bytes) (src : Addr) (d : DnsServer) : DnsServer :=
  let query := take MAX_UDP datagram in
  {| ds_store := ds_store d; ds_records := ds_records d; ds_tasks := ds_tasks d ++ [(query, src)];
     ds_received := ds_received d ++ [(query, src)]; ds_sent := ds_sent d |}.

(** A task ends: its response, if there is one, is sent if the socket takes it. *)
Definition dns_task (i : nat) (send_ok : bool) (d : DnsServer) : DnsServer :=
  match ds_tasks d !! i with
  | None => d
  | Some (query, src) =>
      let sent := match handle_query exchange cluster_domain query (ds_store d) upstream (ds_records d) with
                  | Some resp => if send_ok then [(resp, src)] else []
                  | None => []
                  end in
      {| ds_store := ds_store d; ds_records := ds_records d; ds_tasks := delete i (ds_tasks d);
         ds_received := ds_received d; ds_sent := ds_sent d ++ sent |}
  end.

Inductive dns_step : DnsServer → DnsServer → Prop :=
  | step_recv datagram src d : dns_step d (dns_recv datagram src d)
  (** An error of [recv_from] is logged. *)
  | step_recv_err d : dns_step d d
  | step_dns_task i send_ok d : dns_step d (dns_task i send_ok d)
  | step_change s records d :
      dns_step d {| ds_store := s; ds_records := records; ds_tasks := ds_tasks d;
                    ds_received := ds_received d; ds_sent := ds_sent d |}.

(** A response that was relayed, or that the server made for the query. *)
Definition answers_query (query resp : bytes) : Prop :=
  (∃ addr, exchange addr query = Some resp) ∨ own_reply query resp.

Definition dns_inv (d : DnsServer) : Prop :=
  (∀ p, p ∈ ds_sent d → ∃ query, (query, p.2) ∈ ds_received d ∧ answers_query query p.1)
  ∧ (ds_sent d).*2 ++ (ds_tasks d).*2 ⊆+ (ds_received d).*2
  ∧ ∀ p, p ∈ ds_tasks d → p ∈ ds_received d.

Lemma dns_step_inv d d' : dns_step d d' → dns_inv d → dns_inv d'.
Proof.
  intros [datagram src d0|d0|i ok d0|s records d0] (Hs & Hc & Ht); [|done| |done].
  - split; [|split]; cbn [dns_recv ds_sent ds_tasks ds_received].
    + intros p Hp. destruct (Hs p Hp) as (q & Hq & Ha). exists q. split; [apply elem_of_app; by left|done].
    + rewrite !fmap_app, app_assoc. by apply submseteq_app.
    + intros p [Hp|Hp]%elem_of_app; apply elem_of_app; auto.
  - unfold dns_task. destruct (ds_tasks d0 !! i) as [[query src]|] eqn:E; [|done].
    apply delete_Permutation in E as Ep.
    assert ((query, src) ∈ ds_received d0) as Hin by (apply Ht, list_elem_of_lookup; eauto).
    set (out := match handle_query _ _ _ _ _ _ with Some _ => _ | None => _ end).
    assert (out.*2 ⊆+ [src] ∧ ∀ p, p ∈ out → p.2 = src ∧ answers_query query p.1) as [Ho1 Ho2].
    { unfold out. destruct (handle_query _ _ _ _ _ _) as [resp|] eqn:Eq; [|split; [apply submseteq_nil_l|by intros ??%not_elem_of_nil]].
      destruct ok; [|split; [apply submseteq_nil_l|by intros ??%not_elem_of_nil]]. split; [done|].
      intros p ->%list_elem_of_singleton. split; [done|]. exact (handle_query_reply _ _ _ _ _ _ _ Eq). }
    split; [|split]; cbn [ds_sent ds_tasks ds_received].
    + intros p [Hp|Hp]%elem_of_app; [by apply Hs|]. destruct (Ho2 p Hp) as [-> Ha]. eauto.
    + etrans; [|exact Hc]. apply (fmap_Permutation snd) in Ep. change (((query, src) :: delete i (ds_tasks d0)).*2) with (src :: (delete i (ds_tasks d0)).*2) in Ep.
      rewrite Ep, fmap_app, <- app_assoc.
      apply submseteq_app; [done|]. by apply (submseteq_app _ [src]).
    + intros p Hp. apply Ht. rewrite Ep. by right.
Qed.

(** C11. Whatever arrives, and whatever changes in between: every datagram that the server sends
    goes to someone who asked, and is the answer of a resolver to that query or repeats its id
    and its question; and nobody gets more datagrams than they sent. *)
Theorem dns_answers_who_asked s records d :
  rtc dns_step (dns_new s records) d →
  (∀ resp src, (resp, src) ∈ ds_sent d → ∃ query, (query, src) ∈ ds_received d ∧ answers_query query resp)
  ∧ (ds_sent d).*2 ⊆+ (ds_received d).*2.
Proof.
  intros H. assert (dns_inv d) as (Hs & Hc & _).
  { assert (dns_inv (dns_new s records)) as H0 by (split_and!; cbn; [by intros ??%not_elem_of_nil|done|by intros ??%not_elem_of_nil]).
    induction H; eauto using dns_step_inv. }
  split; [intros resp src Hp; exact (Hs _ Hp)|]. etrans; [|exact Hc]. apply submseteq_inserts_r, reflexivity.
Qed.
End dns.

(** ** Netlink sockets *)

(** The calls on sockets: a raw netlink socket and a datagram socket of AF_INET, and the two
    ioctls on the flags of an interface. *)
Inductive SockKind := NetlinkRoute | InetDgram.

Class SocketCalls (K : Type) := {
  sock_open : SockKind → K → option Z * K;
  sock_bind : Z → K → bool * K;
  sock_send : Z → bytes → K → bool * K;
  (** At most so many bytes of a message. *)
  sock_recv : Z → nat → K → option bytes * K;
  sioc_get_flags : Z → string → K → option Z * K;
  sioc_set_flags : Z → string → Z → K → bool * K;
  sock_close : Z → K → K
}.

Section netlink.
Context {K : Type} `{SK : SocketCalls K}.
Implicit Types k : K.

Definition netlink_socket k : result Z * K :=
  match sock_open NetlinkRoute k with
  | (None, k) => (Err "netlink socket", k)
  | (Some fd, k) =>
      let '(ok, k) := sock_bind fd k in
      if ok then (Ok fd, k) else (Err "netlink bind", sock_close fd k)
  end.

Definition send_nlmsg (fd : Z) (buf : bytes) k : result unit * K :=
  let '(ok, k) := sock_send fd buf k in (if ok then Ok () else Err "netlink sendmsg", k).

Definition recv_nlmsg (fd : Z) k : result bytes * K :=
  let '(r, k) := sock_recv fd 8192 k in (ok_or r "netlink recvmsg", k).

(** One request and its answer on a socket of its own. *)
Definition nl_transact (b : bytes) k : result bytes * K :=
  match netlink_socket k with
  | (Err e, k) => (Err e, k)
  | (Ok fd, k) =>
      match send_nlmsg fd b k with
      | (Err e, k) => (Err e, sock_close fd k)
      | (Ok _, k) => let '(r, k) := recv_nlmsg fd k in (r, sock_close fd k)
      end
  end.

Definition IFF_RUNNING : Z := 0x40.

(** An interface whose flags cannot be read is left as it is, which is no error. *)
Definition ensure_loopback_up k : result unit * K :=
  match sock_open InetDgram k with
  | (None, k) => (Err "loopback socket", k)
  | (Some fd, k) =>
      match sioc_get_flags fd "lo" k with
      | (None, k) => (Ok (), sock_close fd k)
      | (Some flags, k) =>
          let '(ok, k) := sioc_set_flags fd "lo" (swrap 16 (Z.lor flags (Z.lor IFF_UP IFF_RUNNING))) k in
          (if ok then Ok () else Err "loopback set flags", sock_close fd k)
      end
  end.

(** *** Every socket is closed again *)

(** The open descriptors, and what the calls do to them. *)
Variable opens : K → gset Z.

Record socket_laws : Prop := {
  law_open s k fd k' : sock_open s k = (Some fd, k') → fd ∉ opens k ∧ opens k' = {[fd]} ∪ opens k;
  law_open_fails s k k' : sock_open s k = (None, k') → opens k' = opens k;
  law_close fd k : opens (sock_close fd k) = opens k ∖ {[fd]};
  law_bind fd k : opens (sock_bind fd k).2 = opens k;
  law_send fd b k : opens (sock_send fd b k).2 = opens k;
  law_recv fd n k : opens (sock_recv fd n k).2 = opens k;
  law_get fd i k : opens (sioc_get_flags fd i k).2 = opens k;
  law_set fd i z k : opens (sioc_set_flags fd i z k).2 = opens k
}.

Hypothesis laws : socket_laws.
#[local] Set Default Proof Using "laws".

Lemma closed_again fd k k0 : opens k = {[fd]} ∪ opens k0 → fd ∉ opens k0 → opens (sock_close fd k) = opens k0.
Proof. intros H Hn. rewrite (law_close laws), H. set_solver. Qed.

Lemma netlink_socket_opens k r k' :
  netlink_socket k = (r, k') →
  match r with Ok fd => fd ∉ opens k ∧ opens k' = {[fd]} ∪ opens k | Err _ => opens k' = opens k end.
Proof.
  unfold netlink_socket. destruct (sock_open _ k) as [[fd|] k1] eqn:E1.
  - apply (law_open laws) in E1 as [Hn H1]. pose proof (law_bind laws fd k1) as H2.
    destruct (sock_bind fd k1) as [[] k2]; cbn in H2; intros [= <- <-]; [split; [done|congruence]|].
    apply closed_again; [congruence|done].
  - apply (law_open_fails laws) in E1. by intros [= <- <-].
Qed.

Lemma nl_transact_opens b k r k' : nl_transact b k = (r, k') → opens k' = opens k.
Proof.
  unfold nl_transact. destruct (netlink_socket k) as [[fd|e] k1] eqn:E1; apply netlink_socket_opens in E1; [|by intros [= _ <-]].
  destruct E1 as [Hn H1]. unfold send_nlmsg, recv_nlmsg. pose proof (law_send laws fd b k1) as H2.
  destruct (sock_send fd b k1) as [[] k2]; cbn in H2.
  - pose proof (law_recv laws fd 8192 k2) as H3. destruct (sock_recv fd 8192 k2) as [o k3]; cbn in H3.
    intros [= _ <-]. apply closed_again; [congruence|done].
  - intros [= _ <-]. apply closed_again; [congruence|done].
Qed.

Lemma ensure_loopback_up_opens k : opens (ensure_loopback_up k).2 = opens k.
Proof.
  unfold ensure_loopback_up. destruct (sock_open _ k) as [[fd|] k1] eqn:E1; [|by apply (law_open_fails laws) in E1].
  apply (law_open laws) in E1 as [Hn H1]. pose proof (law_get laws fd "lo" k1) as H2.
  destruct (sioc_get_flags fd "lo" k1) as [[z|] k2]; cbn in H2; [|cbn; apply closed_again; [congruence|done]].
  match goal with |- context [sioc_set_flags fd "lo" ?f k2] => pose proof (law_set laws fd "lo" f k2) as H3; set (fl := f) in * end.
  destruct (sioc_set_flags fd "lo" fl k2) as [ok k3]. cbn in *. apply closed_again; [congruence|done].
Qed.

(** A computation after which the same descriptors are open. *)
Definition tidy {A} (m : nl (K := K) A) : Prop := ∀ k r k', m k = Ret (r, k') → opens k' = opens k.

Lemma tidy_ret {A} (a : A) : tidy (nl_ret a).
Proof using Type. by intros k r k' [= _ <-]. Qed.

Lemma tidy_bind {A B} (m : nl (K := K) A) (f : A → nl B) : tidy m → (∀ a, tidy (f a)) → tidy (nl_bind m f).
Proof using Type.
  intros Hm Hf k r k'. unfold nl_bind. destruct (m k) as [[r1 k1]|] eqn:E; [|done]. apply Hm in E. cbn [mbind exec_bind].
  destruct r1 as [a|e]; [|by intros [= _ <-]]. intros H%Hf. congruence.
Qed.

Lemma tidy_context {A} e (m : nl (K := K) A) : tidy m → tidy (nl_context e m).
Proof using Type.
  intros Hm k r k'. unfold nl_context. destruct (m k) as [[r1 k1]|] eqn:E; [|done]. apply Hm in E. cbn. by intros [= _ <-].
Qed.

Lemma tidy_request {A} msg (read : bytes → exec (result A)) : tidy (request nl_transact msg read).
Proof.
  intros k r k'. unfold request. destruct msg as [b|]; [|done]. cbn [mbind exec_bind].
  destruct (nl_transact b k) as [[resp|e] k1] eqn:E; apply nl_transact_opens in E; [|by intros [= _ <-]].
  destruct (read resp); [|done]. by intros [= _ <-].
Qed.

Variable errno_name : Z → string.
Variable open_netns : Z → K → bool.
Variable set_netns : Z → K → bool * K.
Hypothesis netns_opens : ∀ p k, opens (set_netns p k).2 = opens k.

#[local] Hint Resolve tidy_ret tidy_request : tidy.
#[local] Ltac tidy := repeat first
  [solve [auto with tidy] | apply tidy_bind; [|intros ?] | apply tidy_context | case_match].

Lemma tidy_get_ifindex n : tidy (get_ifindex nl_transact n).
Proof. apply tidy_request. Qed.
Lemma tidy_del_link i : tidy (del_link errno_name nl_transact i).
Proof. apply tidy_request. Qed.
Lemma tidy_create_veth u p : tidy (create_pod_veth errno_name nl_transact u p).
Proof. unfold create_pod_veth, create_veth_pair, get_ifindex. tidy. Qed.
Lemma tidy_bring_up i : tidy (bring_up_veth errno_name nl_transact i).
Proof. unfold bring_up_veth, set_link_up. tidy. Qed.
Lemma tidy_gateway g i : tidy (assign_gateway errno_name nl_transact g i).
Proof. unfold assign_gateway, add_addr. tidy. Qed.
Lemma tidy_add_route ip i : tidy (add_pod_host_route errno_name nl_transact ip i).
Proof. unfold add_pod_host_route, add_route. tidy. Qed.
Lemma tidy_del_route ip i : tidy (del_pod_host_route errno_name nl_transact ip i).
Proof. unfold del_pod_host_route, del_route. tidy. Qed.
Lemma tidy_delete_veth n : tidy (delete_veth errno_name nl_transact n).
Proof.
  intros k r k'. unfold delete_veth. destruct (get_ifindex nl_transact n k) as [[r1 k1]|] eqn:E; [|done].
  apply tidy_get_ifindex in E. cbn [mbind exec_bind]. destruct r1 as [i|e]; [|by intros [= _ <-]].
  intros H. apply (tidy_context "del_link" _ (tidy_del_link i)) in H. congruence.
Qed.

Lemma tidy_enter p m1 m2 : tidy (enter_netns open_netns set_netns p m1 m2).
Proof using netns_opens.
  intros k r k'. unfold enter_netns. destruct (negb _); [by intros [= _ <-]|].
  pose proof (netns_opens p k) as H. destruct (set_netns p k) as [ok k1]. by intros [= _ <-].
Qed.

Lemma tidy_guard {A} (m : nl (K := K) A) : tidy m → tidy (with_netns_guard open_netns set_netns m).
Proof using netns_opens.
  intros Hm k r k'. unfold with_netns_guard. destruct (negb _); [by intros [= _ <-]|].
  destruct (m k) as [[r1 k1]|] eqn:E; [|done]. apply Hm in E. cbn [mbind exec_bind].
  pose proof (netns_opens 1 k1) as H. destruct (set_netns 1 k1) as [ok k2]. cbn in H. intros [= _ <-]. congruence.
Qed.

Lemma tidy_configure g u ip p i : tidy (configure_pod_netns errno_name nl_transact open_netns set_netns g u ip p i).
Proof using laws netns_opens.
  unfold configure_pod_netns, assign_ip, set_link_up, add_addr, add_default_route, add_route, get_ifindex, move_peer_to_netns.
  apply tidy_bind; [tidy|]. intros _. apply tidy_guard.
  assert (∀ p m1 m2, tidy (enter_netns open_netns set_netns p m1 m2)) as He by (intros; apply tidy_enter).
  tidy.
Qed.

Lemma tidy_on_host {A} (m : nl (K := K) A) s r s' :
  tidy m → on_host m s = Ret (r, s') → opens (host s') = opens (host s).
Proof using Type.
  intros Hm. unfold on_host. destruct (m (host s)) as [[r1 k1]|] eqn:E; [|done]. apply Hm in E. cbn. by intros [= _ <-].
Qed.

Context `{HO : HashOrder}.

Lemma release_ip_host ip (s : NetMux K) : host (release_ip ip s) = host s.
Proof using Type. unfold release_ip. by destruct (find_first _ _) as [[n p]|]. Qed.

Lemma rollback_opens u ip i (s s' : NetMux K) :
  rollback_veth errno_name nl_transact u ip i s = Ret s' → opens (host s') = opens (host s).
Proof.
  unfold rollback_veth. destruct (on_host (del_pod_host_route _ _ _ _) s) as [[r1 s1]|] eqn:E1; [|done]. cbn [mbind exec_bind].
  destruct (on_host (delete_veth _ _ _) s1) as [[r2 s2]|] eqn:E2; [|done]. cbn [mbind exec_bind].
  apply tidy_on_host in E1; [|apply tidy_del_route]. apply tidy_on_host in E2; [|apply tidy_delete_veth].
  intros [= <-]. rewrite release_ip_host. congruence.
Qed.

Lemma take_pod_ip_host sn (s : NetMux K) r s' : take_pod_ip sn s = (r, s') → host s' = host s.
Proof using Type.
  unfold take_pod_ip, allocate_ip. destruct sn as [n|].
  - destruct (subnet_pools s !! n) as [p|]; [|by intros [= _ <-]]. destruct (allocate p). by intros [= _ <-].
  - destruct (allocate _). by intros [= _ <-].
Qed.

Lemma attach_opens u p sn (s : NetMux K) r s' :
  attach_pod errno_name nl_transact u p sn s = Ret (r, s') → opens (host s') = opens (host s).
Proof.
  unfold attach_pod. destruct (take_pod_ip sn s) as [[ip|e] s1] eqn:E1; apply take_pod_ip_host in E1; rewrite <- E1;
    [|by intros [= _ <-]].
  destruct (on_host (create_pod_veth _ _ _ _) s1) as [[r2 s2]|] eqn:E2; [|done]. cbn [mbind exec_bind].
  apply tidy_on_host in E2 as <-; [|apply tidy_create_veth]. destruct r2 as [[[[hn pn] hi] pi]|e2]; [|by intros [= _ <-]].
  destruct (on_host (bring_up_veth _ _ _) s2) as [[r3 s3]|] eqn:E3; [|done]. cbn [mbind exec_bind].
  apply tidy_on_host in E3 as <-; [|apply tidy_bring_up]. destruct r3 as [[]|e3].
  2: { destruct (rollback_veth _ _ _ _ _ s3) as [s4|] eqn:E4; [|done]. apply rollback_opens in E4 as <-. by intros [= _ <-]. }
  destruct (on_host (add_pod_host_route _ _ _ _) s3) as [[r4 s4]|] eqn:E4; [|done]. cbn [mbind exec_bind].
  apply tidy_on_host in E4 as <-; [|apply tidy_add_route]. destruct r4 as [[]|e4].
  2: { destruct (rollback_veth _ _ _ _ _ s4) as [s5|] eqn:E5; [|done]. apply rollback_opens in E5 as <-. by intros [= _ <-]. }
  destruct (on_host (assign_gateway _ _ _ _) s4) as [[r5 s5]|] eqn:E5; [|done]. cbn [mbind exec_bind].
  apply tidy_on_host in E5 as <-; [|apply tidy_gateway]. by intros [= _ <-].
Qed.

End netlink.

(** ** Examples *)

(** A kernel that only has descriptors, and answers every request with an interface. *)
#[local] Instance table_sockets : SocketCalls (gset Z) := {|
  sock_open _ k := let fd := fresh k in (Some fd, {[fd]} ∪ k);
  sock_bind _ k := (true, k);
  sock_send _ _ k := (true, k);
  sock_recv _ _ k := (Some [24; 0; 0; 0; 16; 0; 0; 0; 1; 0; 0; 0; 0; 0; 0; 0; 0; 0; 0; 0; 5; 0; 0; 0], k);
  sioc_get_flags _ _ k := (Some 0, k);
  sioc_set_flags _ _ _ k := (true, k);
  sock_close fd k := k ∖ {[fd]}
|}.

Lemma table_laws : socket_laws (K := gset Z) (λ k, k).
Proof.
  split; try done. intros s k fd k' [= <- <-]. split; [apply is_fresh|done].
Qed.

Definition table_mux : NetMux (gset Z) :=
  {| NetMux.pool := pool_new sample_cidr; subnet_pools := ∅; prefix := 29; gateway := derive_gateway sample_cidr; host := {[0; 1; 2]} |}.


(** A query from a client at 1234, another from 99 that is not answered. *)
Definition served_query : bytes := make_query 7 0x0100 "web.prod.svc.cluster.local" 1.
Definition served_dns : DnsServer (Addr := Z) :=
  dns_task (λ _ _, None) "cluster.local" [] 0 true (dns_recv [1; 2; 3] 99 (dns_recv served_query 1234 (dns_new service_store ∅))).

Lemma dns_answers_who_asked_witness :
  (∃ resp, ds_sent served_dns = [(resp, 1234)] ∧ answers_query (λ _ _, None) served_query resp)
  ∧ (ds_sent served_dns).*2 ⊆+ [1234; 99].
Proof.
  destruct (dns_answers_who_asked (λ _ _, None) "cluster.local" [] service_store ∅ served_dns) as [Ha Hc].
  - eapply rtc_l; [apply (step_recv _ _ _ served_query 1234)|].
    eapply rtc_l; [apply (step_recv _ _ _ [1; 2; 3] 99)|]. apply rtc_once, (step_dns_task _ _ _ 0 true).
  - split; [|exact Hc].
    assert (∃ resp, ds_sent served_dns = [(resp, 1234)]) as [resp E] by (eexists; vm_compute; reflexivity).
    exists resp. split; [exact E|]. destruct (Ha resp 1234) as (q & Hq & Hans); [rewrite E; left|].
    assert (ds_received served_dns = [(served_query, 1234); ([1; 2; 3], 99)]) as Er by (vm_compute; reflexivity).
    rewrite Er in Hq. apply list_elem_of_In in Hq. destruct Hq as [[= <-]|[[=]|[]]]. exact Hans.
Defined.
